(* ===== verification/_CoqProject ===== *)
-Q . S2P
Prelude.v
PyStd.v
PyRe.v
PyJson.v
Identifiers.v
TaskState.v
StateStore.v
ControlDomain.v
DepGraph.v
ControlGraph.v
CriticalPath.v
Sequencer.v
BuildOrder.v
Cohorts.v
ControlKernel.v
ControlLoop.v
SchedulerDomain.v
LeaseStore.v
ResourceKeys.v
LeaseSafety.v
LanePolicy.v
LaneScheduler.v
LaneSelection.v
LaneSafety.v
LaneReturns.v
LaneResults.v
BudgetDomain.v
BudgetRules.v
BudgetLedger.v
BudgetSafety.v
BudgetLifecycle.v
BudgetAdmission.v
BudgetEnvelopes.v
OrchDomain.v
OrchStore.v
OrchRuntime.v
OrchService.v
OrchMachine.v
OrchLog.v
OrchDelivery.v
OrchRecovery.v
OrchScenarios.v
AgentDomain.v
AgentRouter.v
AgentPerformance.v
AgentRouting.v
AgentService.v
AgentExecution.v
IsoInstant.v
FleetJobs.v
FleetSafety.v
FleetLaunch.v
RemoteJob.v
Confinement.v
RemoteSafety.v
RemoteResults.v
SecurityDomain.v
SecurityPolicy.v
SecurityRules.v
SecretTrace.v
GitDomain.v
MergeGate.v
GateRules.v
GitStore.v
GitSteward.v
GitSafety.v
GitOwnership.v
CommandBus.v
CommandSafety.v
AssuranceDomain.v
Assurance.v
AssuranceRules.v
AssuranceGate.v
