(* ===== verification/Prelude.v ===== *)
(** * Verification of Project Pipeline's control plane

    ** The program

    Project Pipeline (src/src/project_pipeline) is a control plane for
    autonomous software work.  Its core is a loop over three parts, the state
    store, the control kernel and the lane scheduler, with the other parts
    beside it:

    - the _state store_ ([persistence/sqlite.py] over [domain/state.py],
      [domain/project.py]) keeps projects and tasks as versioned rows and logs
      every transition;
    - the _control kernel_ ([control/kernel.py], [control/graph.py],
      [control/cohorts.py] over [domain/control.py]) reads the store and the
      work catalogue, decides which tasks are eligible and ready, sequences the
      ready work, projects completion, and moves tasks from BACKLOG to READY;
    - the _lane scheduler_ ([scheduler/] over [domain/scheduler.py]) turns the
      ready work of a control snapshot into a plan of lanes that may run in
      parallel, and its _lease store_ ([scheduler/persistence.py]) hands out
      fenced leases on the resources the lanes claim;
    - the _budget governor_ ([budget/policy.py], [budget/persistence.py],
      [budget/service.py] over [domain/budget.py]) admits work against the
      limits of its scopes, reserves the money with spend leases and books what
      was spent in a ledger;
    - the _durable workflow runtime_ ([orchestration/runtime.py],
      [orchestration/recovery.py], [orchestration/service.py] over
      [orchestration/persistence.py] and [domain/orchestration.py]) runs
      workflows step by step with an event log, recovers those of lost workers
      and starts workflows on external engines;
    - the _agent router_ ([agent_router/] over [domain/agents.py]) selects an
      agent, its model and its provider for a task contract and executes the
      contract over the adapters of the providers, with circuit breakers;
    - the _fleet_ ([autonomy_runtime/durable_jobs.py],
      [autonomy_runtime/remote_job.py], [autonomy_runtime/confinement.py]) keeps
      the intents and results of jobs in a database, launches a job on a remote
      worker and takes its result in;
    - the _security policy_ ([security/identity.py], [security/policy.py],
      [security/secrets.py] over [domain/security.py]) decides which identity
      may act, when an approval is needed, and who gets a secret;
    - the _repository steward_ ([github_steward/] over [domain/github.py])
      decides whether a pull request may be merged, sends changes to the remote
      repository with a record of each, and keeps the claims on its resources;
    - the _command bus_ ([core/command_bus.py], [core/journal.py] over
      [contracts/envelopes.py]) runs a command or answers it from a journal;
    - _assurance_ ([assurance/] over [domain/assurance.py]) decides whether a
      task may be tried again, whether work stays in its scope, whether evidence
      covers a criterion and whether a project is complete.

    The control kernel calls the store ([list_task_states],
    [transition_task]); the scheduler takes the kernel's [ControlSnapshot] and
    the lease store's [ResourceRegistrySnapshot].

    ** Files

    Shared: [Prelude] (exceptions as values of [result], validated records
    ([Model], [new]), the orders, stable sorting, dictionaries, [ok_inv]);
    [PyStd] (strings, SHA-256, binary64 floats); [PyRe] (regular expressions
    by derivatives); [PyJson] (canonical JSON, ISO instants).

    State store: [Identifiers] ([ids.py], [domain/identifiers.py]);
    [TaskState] ([domain/state.py], [domain/project.py]); [StateStore]
    ([persistence/sqlite.py]: a [store] is the contents of its tables, an
    operation a function from a store to a store and a [result], and
    [transaction] rolls back).

    Control kernel: [ControlDomain] ([domain/control.py],
    [control/authority.py]); [DepGraph] (directed graphs and the interface
    [Networkx] to the networkx package, with [Kahn] as an instance);
    [ControlGraph] ([control/graph.py]) with its theory in [CriticalPath],
    [Sequencer] and [BuildOrder]; [Cohorts] ([control/cohorts.py]);
    [ControlKernel] ([control/kernel.py]) with its theory in [ControlLoop].

    Scheduler: [SchedulerDomain] ([domain/scheduler.py]); [LeaseStore]
    ([scheduler/persistence.py]) with its theory in [ResourceKeys] and
    [LeaseSafety]; [LanePolicy] ([scheduler/conflicts.py],
    [scheduler/resources.py], [scheduler/backpressure.py] and the reserved
    paths of [lifecycle/takeover.py]); [LaneScheduler] ([scheduler/engine.py],
    [scheduler/ortools_optimizer.py], [scheduler/simulation.py]) with its theory
    in [LaneSelection], [LaneSafety], [LaneReturns] and
    [LaneResults].

    Budgets: [BudgetDomain] ([domain/budget.py]); [BudgetRules]
    ([budget/policy.py]); [BudgetLedger] ([budget/persistence.py],
    [budget/service.py]: a [budget_store] is the contents of its tables) with
    its theory in [BudgetSafety], [BudgetLifecycle],
    [BudgetAdmission] and [BudgetEnvelopes], whose [Scenarios] run one month of
    a project.

    Workflows: [OrchDomain] ([domain/orchestration.py]); [OrchStore]
    ([orchestration/persistence.py]: an [orch_store] is the contents of its
    tables and [orch] a state monad whose failures keep the writes already
    committed); [OrchRuntime] ([orchestration/runtime.py]); [OrchService]
    ([orchestration/recovery.py], [orchestration/service.py]); [OrchMachine]
    is the abstract machine of a workflow, which every command refines;
    [OrchLog], [OrchDelivery] and [OrchRecovery] hold what
    follows; [OrchScenarios] runs one build.

    Agents: [AgentDomain] ([domain/agents.py]); [AgentRouter]
    ([agent_router/circuit.py], [agent_router/performance.py],
    [agent_router/router.py], [agent_router/qualification.py]); [AgentService]
    ([agent_router/persistence.py], [agent_router/service.py]); their theory is
    in [AgentPerformance], [AgentRouting] and [AgentExecution], whose
    [Scenarios] route over two providers.

    Fleet: [FleetJobs] ([autonomy_runtime/durable_jobs.py]: a [job_store] is
    what is committed and what an open transaction sees); [RemoteJob]
    ([autonomy_runtime/remote_job.py], [autonomy_runtime/confinement.py]); their
    theory is in [FleetSafety], [FleetLaunch], [Confinement], [RemoteSafety] and
    [RemoteResults]; [IsoInstant] shows that instants written as text are read
    back; the [Scenarios] of [RemoteResults] run one job.

    Security: [SecurityDomain] ([domain/security.py],
    [contracts/envelopes.py]); [SecurityPolicy] ([security/identity.py],
    [security/policy.py], [security/secrets.py]); their theory is in
    [SecurityRules] and [SecretTrace], with examples in its [Scenarios].

    Repository steward: [GitDomain] ([domain/github.py]); [MergeGate]
    ([github_steward/merge_gate.py], [github_steward/autonomous_review.py],
    [github_steward/protection_drift.py]) with its specification in
    [GateRules]; [GitStore] ([github_steward/persistence.py]: a [world] is the
    contents of the tables and the log of what was recorded and sent, [steward]
    a state monad whose failures keep both); [GitSteward]
    ([github_steward/lifecycle.py], [github_steward/service.py],
    [github_steward/ownership.py]); their theory is in [GitSafety] and
    [GitOwnership], whose [Scenarios] run a deletion and a merge.

    Command bus: [CommandBus] ([core/command_bus.py], [core/journal.py]) with
    its theory, for one process and for several over one journal, in
    [CommandSafety], with examples in its [Scenarios].

    Assurance: [AssuranceDomain] ([domain/assurance.py],
    [assurance/policy.py]); [Assurance] ([assurance/loop_guard.py],
    [assurance/scope.py], [assurance/evidence.py], [assurance/completion.py],
    [assurance/persistence.py] and the progress measure of
    [assurance/delivery_progress.py]); their theory is in [AssuranceRules] and
    [AssuranceGate], with examples in its [Scenarios].

    Definitions keep the names of the source; a prefix tells apart fields that
    several records share ([ts_state], [pr_task_id], ...).

    ** What the theorems show

    - _State store_: every reachable store has a log that replays a legal path
      to the current state and version of each task; a stale writer is refused
      and changes nothing; the lifecycle tables force the delivery chain before
      DONE and leave no dead end.
    - _Sequencer_: it accepts exactly the acyclic work graphs; the critical path
      is a longest chain, slack is exact, readiness is decided exactly by the
      stated conditions, and the sequence lists exactly the ready work in order,
      independently of the order of its input.
    - _Kernel_: evaluation returns; readiness transitions move exactly the tasks
      that may start; completion is handed to the gate exactly when all work and
      all requirements are done; the cohort assertions never fire.
    - _Leases_: along every run with a clock that does not go back pools are
      never over-committed and unpooled resources never held in conflict;
      acquisition is all or nothing and repeatable; tokens grow; a stale holder
      is fenced off.
    - _Lanes_: a plan is produced for every valid input; [safe_lanes] is the
      specification of a set of lanes and the plan refines it; enumeration finds
      the largest utility; the CP-SAT model is equivalent to the validity check
      and its optimum is the largest utility; the conflict graph is exact;
      pressure is monotone.
    - _Budgets_: along every run of a client that settles its leases in time and
      within their amounts, spend plus reservations stay under every hard cap;
      a spend lease ends once and every settlement is booked; admitted paid work
      finds its reservation; envelopes hand out exactly what fits.
    - _Workflows_: each command refines an abstract machine, so that the event
      log replays to the row of its workflow, a workflow stays at a step and in
      an attempt its definition allows, and a finished one is final; recovery
      releases exactly the workflows of lost workers; a fenced worker, a signal
      delivered again, a start requested again and an engine already asked
      change nothing.
    - _Agents_: the router returns a decision for every valid input and selects
      a best agent among those that fit the contract, independently of the order
      of the registry; a circuit breaker is a function of its history; an
      execution calls only fitting agents in routing order, and leaves the
      circuits its outcomes imply.
    - _Fleet_: a job is started by at most one call of a worker, whatever is
      retried and whatever crashes; what is launched was authorised and stays in
      its root; a result is accepted once and answers its envelope; an exception
      inside a transaction wedges the store until a restart.
    - _Security_: the policy engine decides by the rules, stated over
      identities, roles, grants and approvals; a secret is handed out only under
      a lease issued to an entitled request, in its lifetime and not revoked
      since; the records of the broker stay valid.
    - _Repository steward_: the gate is open exactly when the pull request may
      be merged, stated over its reviews, checks and protection; a lifecycle
      merge is sent only through the gate; a write whose outcome is not known is
      not sent again; claims of different tasks never overlap; reviews survive
      their way through JSON.
    - _Command bus_: a command that was answered is not run again under its
      idempotency key, and in every interleaving of processes a journaled record
      stays and is what later commands get.
    - _Assurance_: the loop guard, the evidence of a criterion, a change of
      scope and the completion gate decide exactly by conditions stated over
      the observations, the ledger, the contract and the facts; a task under the
      loop guard comes to an end; the store never changes a record.
    - _Corner cases_: some theorems state behaviour the code presumably does not
      intend (an overlong owner, an unchecked renewal, keys normalised twice, a
      lease counted twice, greedy over-commitment, the root path, free work
      refused at an exhausted limit, a settlement after the lease ran out, a
      cancelled workflow revived, a checkpoint that cannot be repeated, an
      execution that replaces the history of an earlier one, a destructive action
      classed as reading, a revoked lease issued again, a failed readback taken
      for a failed write, the gate of another pull request, a claim that blocks
      its kind, two processes that run one command, a path that leaves its
      directory).

    ** Modelling choices and bounds

    Exceptions are values of [result]; the class matters, the message is kept
    where it is a plain text.  Text is ASCII, as identifiers and keys are.
    Instants are microseconds since the epoch as integers.  Integers are
    unbounded, as in the language; floats are [spec_float] at precision 53 and
    exponent 1024 with the language's rounding.  Python dictionaries are
    [gmap]s where only lookups matter and lists where the order does; rows are
    read back through the validators, as [model_validate_json] does.  Hashing
    is computed, not assumed; no theorem needs it to be injective.

    Loops are structural recursion.  Three need a bound: [follow] walks the
    predecessor links with the number of nodes as fuel, which [links_follow]
    and [critical_path_spec] show to suffice; SHA-256 has the padded length in
    bytes as fuel for its 64-byte blocks; the rounds of the soft envelopes have
    the units to give as fuel, since a round that goes on gives one, which
    [rebalance_loop_ok] shows to suffice.

    Third-party code is a parameter: networkx through [Networkx] and
    [NetworkxLaws], the CP-SAT solver through [cp_solver] and [CpSatLaws]; both
    have instances here that satisfy the laws ([Kahn], [BruteForce.solve]).
    The C library's [pow] is the parameter [FloatPow] and an external workflow
    engine an [adapter], any function that answers or raises, as are the adapter of
    a provider of agents, the [DispatchAdapter] of a worker, the backends of
    secrets and the [remote] repository; the theorems hold for all of them.

    ** Not modelled

    File and process access (catalogue readers, git, host observation), the
    wiring of database connections and migrations, interleaving between the
    read and the write of one lease renewal, release, settlement or workflow
    command (where the code detects a conflict, the commands are modelled up to
    the report), and the parts of the system around this core: intake, the Jira
    steward, local git and the GitHub adapter, adapters of agents and tools,
    forecasts and anomalies of the budgets, adapters of workflow engines,
    the collection of evidence and the delivery gate, release, supply-chain
    scans, observability, the command centre and the command line.  The next
    parts to
    add are the rest of [persistence/sqlite.py] (requirement import,
    traceability, compilations), the scheduler bridge, the agent registry's
    files and tool boundary and budget forecasts. *)
From stdpp Require Export base list gmap strings sorting pretty.

(** ** Exceptions and the result monad

    A Python call either returns a value or raises.  [exn] keeps the class
    of the exception and its message; [result] is the outcome of a call. *)

Inductive exn_class :=
  | ValueError
  | KeyError
  | TypeError
  | AttributeError
  | RuntimeError
  | ControlGraphError
  | SchedulerConflictError
  | OrToolsOptimizerError
  | PersistenceError
  | ConcurrentStateChangeError
  | MissingStateError
  | IntegrityError
  | OverflowError
  | WorkflowStateError
  | OrchestrationConflictError
  | BackendUnavailableError
  | BackendUnknownOutcomeError
  | AgentRoutingError
  | ProviderAdapterError
  | OperationalError
  | PermissionError
  | GitHubStewardError
  | UnknownCommandError
  | IdempotencyConflictError
  | ValidationError.

Inductive exn := Exn (cls : exn_class) (message : string).

#[export] Instance exn_class_eq_dec : EqDecision exn_class.
Proof. solve_decision. Defined.
#[export] Instance exn_eq_dec : EqDecision exn.
Proof. solve_decision. Defined.

Inductive result (A : Type) :=
  | Ok (a : A)
  | Raise (e : exn).
Arguments Ok {A} a.
Arguments Raise {A} e.

#[export] Instance result_ret : MRet result := λ A a, Ok a.
#[export] Instance result_bind : MBind result := λ A B f r,
  match r with Ok a => f a | Raise e => Raise e end.
#[export] Instance result_fmap : FMap result := λ A B f r,
  match r with Ok a => Ok (f a) | Raise e => Raise e end.

#[export] Instance result_eq_dec {A} `{EqDecision A} : EqDecision (result A).
Proof. solve_decision. Defined.

(** [raise] with a class and a message; [guard_raise] is the
    [if bad: raise ...] statement of the source. *)
Definition raise {A} (c : exn_class) (m : string) : result A := Raise (Exn c m).
Definition raise_if (b : bool) (c : exn_class) (m : string) : result () :=
  if b then raise c m else Ok ().

Definition is_ok {A} (r : result A) : bool :=
  match r with Ok _ => true | Raise _ => false end.

(** [for x in l: f(x)] where [f] may raise: the first exception stops. *)
Fixpoint for_each {A} (f : A → result ()) (l : list A) : result () :=
  match l with
  | [] => Ok ()
  | x :: l => _ ← f x; for_each f l
  end.

(** A comprehension whose body may raise. *)
Fixpoint traverse {A B} (f : A → result B) (l : list A) : result (list B) :=
  match l with
  | [] => Ok []
  | x :: l => y ← f x; ys ← traverse f l; Ok (y :: ys)
  end.

(** ** Models validated on construction

    Every record of the source derives from a frozen pydantic model whose
    validators run when it is built.  [validate] collects them; [new] is the
    constructor call. *)
Class Model (A : Type) := validate : A → result ().
#[export] Hint Mode Model ! : typeclass_instances.

Definition new {A} `{Model A} (a : A) : result A := _ ← validate a; Ok a.

Lemma new_ok {A} `{Model A} (a b : A) : new a = Ok b ↔ b = a ∧ validate a = Ok ().
Proof.
  unfold new. destruct (validate a) as [[]|e]; simpl; split; intros; naive_solver.
Qed.
Lemma new_valid {A} `{Model A} (a : A) : validate a = Ok () → new a = Ok a.
Proof. intros H1. by apply new_ok. Qed.

Lemma bind_ok {A B} (f : A → result B) (r : result A) (b : B) :
  (r ≫= f) = Ok b ↔ ∃ a, r = Ok a ∧ f a = Ok b.
Proof. destruct r; simpl; naive_solver. Qed.

Lemma fmap_ok {A B} (f : A → B) (r : result A) (b : B) :
  f <$> r = Ok b ↔ ∃ a, r = Ok a ∧ b = f a.
Proof. destruct r; simpl; naive_solver. Qed.

Lemma raise_if_ok b c m u : raise_if b c m = Ok u ↔ b = false.
Proof. destruct b, u; unfold raise_if, raise; naive_solver. Qed.

Lemma for_each_ok {A} (f : A → result ()) l u :
  for_each f l = Ok u ↔ ∀ x, x ∈ l → f x = Ok ().
Proof.
  destruct u. induction l as [|x l IH]; simpl.
  - split; [set_solver|done].
  - rewrite bind_ok. setoid_rewrite IH. setoid_rewrite elem_of_cons.
    split; [intros ([] & ? & ?) ? [->|?]; auto | intros Hall; exists (); split; auto].
Qed.

Lemma traverse_ok {A B} (f : A → result B) l ys :
  traverse f l = Ok ys ↔ Forall2 (λ x y, f x = Ok y) l ys.
Proof.
  revert ys. induction l as [|x l IH]; intros ys; simpl.
  - split; [intros [=<-]; constructor | intros H1; by inversion H1].
  - rewrite bind_ok. setoid_rewrite bind_ok. setoid_rewrite IH. split.
    + intros (y & ? & ys' & ? & [=<-]). by constructor.
    + intros (y & ys' & ? & ? & ->)%Forall2_cons_inv_l. eauto 10.
Qed.

Lemma traverse_map_ok {A B} (f : A → result B) (g : A → B) l :
  (∀ x, x ∈ l → f x = Ok (g x)) → traverse f l = Ok (map g l).
Proof.
  intros Hf. apply traverse_ok. induction l as [|x l IH]; simpl; constructor.
  - apply Hf. left.
  - apply IH. intros y ?. apply Hf. by right.
Qed.

(** Drop the absent results of a comprehension with a filter. *)
Definition somes {A} (l : list (option A)) : list A := omap id l.
Lemma elem_of_somes {A} (l : list (option A)) x : x ∈ somes l ↔ Some x ∈ l.
Proof. unfold somes. rewrite list_elem_of_omap. split; [|eauto].
  intros (o & Ho & E). unfold id in E. by rewrite <-E. Qed.

Lemma traverse_total {A B} (f : A → result B) (P : A → B → Prop) l :
  (∀ x, x ∈ l → ∃ y, f x = Ok y ∧ P x y) → ∃ ys, traverse f l = Ok ys ∧ Forall2 P l ys.
Proof.
  induction l as [|x l IH]; intros Hf; simpl; [by exists []|].
  destruct (Hf x) as (y & -> & Hy); [left|]. destruct IH as (ys & -> & Hys); [set_solver|].
  exists (y :: ys). split; [done|]. by constructor.
Qed.
Lemma Forall2_combine {A B} (P : A → B → Prop) l k :
  Forall2 P l k → Forall (λ p, P p.1 p.2) (combine l k) ∧ (combine l k).*1 = l ∧ (combine l k).*2 = k.
Proof. induction 1 as [|x y l k Hxy _ (H1 & H2 & H3)]; [done|].
  cbn [combine]. rewrite !fmap_cons, H2, H3. auto. Qed.
Lemma Forall2_fmap_eq {A B C} (f : A → C) (g : B → C) l k :
  Forall2 (λ x y, f x = g y) l k → f <$> l = g <$> k.
Proof. induction 1 as [|x y l k Hxy _ IH]; [done|]. by rewrite !fmap_cons, Hxy, IH. Qed.
Lemma traverse_new {A} `{Model A} (l ys : list A) : traverse new l = Ok ys → ys = l.
Proof.
  rewrite traverse_ok. induction 1 as [|x y l ys Hxy _ IH]; [done|]. apply new_ok in Hxy as [-> _]. by rewrite IH.
Qed.
Lemma elem_of_List_filter {A} (p : A → bool) l x : x ∈ List.filter p l ↔ x ∈ l ∧ p x = true.
Proof. by rewrite list_elem_of_In, filter_In, <-list_elem_of_In. Qed.
Lemma filter_sublist {A} (p : A → bool) l : List.filter p l `sublist_of` l.
Proof. induction l as [|x l IH]; simpl; [done|]. destruct (p x); by constructor. Qed.

(** ** Orders and Python's stable [sorted] *)

(** The order Python compares keys with: a boolean total order. *)
Class PyOrd (A : Type) := pyleb : A → A → bool.
#[export] Hint Mode PyOrd ! : typeclass_instances.

Class PyOrdLaws (A : Type) `{PyOrd A} := {
  pyleb_total : ∀ x y : A, pyleb x y = true ∨ pyleb y x = true;
  pyleb_trans : ∀ x y z : A, pyleb x y = true → pyleb y z = true → pyleb x z = true;
  pyleb_antisym : ∀ x y : A, pyleb x y = true → pyleb y x = true → x = y;
}.

#[export] Instance Z_pyord : PyOrd Z := Z.leb.
#[export] Instance Z_pyord_laws : PyOrdLaws Z.
Proof. split; unfold pyleb, Z_pyord; lia. Qed.

Lemma string_leb_le (x y : string) : String.leb x y = true ↔ String.le x y.
Proof. unfold String.le. by destruct (String.leb x y). Qed.

(** Strings compare by code point. *)
#[export] Instance string_pyord : PyOrd string := String.leb.
#[export] Instance string_pyord_laws : PyOrdLaws string.
Proof.
  split; unfold pyleb, string_pyord; intros *; rewrite ?string_leb_le.
  - apply (total String.le).
  - apply (transitivity (R := String.le)).
  - apply (anti_symm String.le).
Qed.

(** Tuples compare lexicographically. *)
Definition prod_pyleb {A B} `{PyOrd A, PyOrd B} (x y : A * B) : bool :=
  if pyleb x.1 y.1 then (if pyleb y.1 x.1 then pyleb x.2 y.2 else true) else false.
#[export] Instance prod_pyord {A B} `{PyOrd A, PyOrd B} : PyOrd (A * B) := prod_pyleb.

Lemma pyleb_refl {A} `{PyOrdLaws A} (x : A) : pyleb x x = true.
Proof. by destruct (pyleb_total x x). Qed.

#[export] Instance prod_pyord_laws {A B} `{PyOrdLaws A, PyOrdLaws B} : PyOrdLaws (A * B).
Proof.
  split; unfold pyleb, prod_pyord.
  - intros [x1 x2] [y1 y2]; unfold prod_pyleb; simpl.
    destruct (pyleb_total x1 y1) as [E|E], (pyleb_total x2 y2) as [E'|E'];
      rewrite ?E; destruct (pyleb y1 x1) eqn:?, (pyleb x1 y1) eqn:?; naive_solver.
  - intros [x1 x2] [y1 y2] [z1 z2]; unfold prod_pyleb; simpl.
    destruct (pyleb x1 y1) eqn:E1, (pyleb y1 z1) eqn:E2; try done.
    rewrite (pyleb_trans x1 y1 z1) by done.
    destruct (pyleb z1 x1) eqn:E3; [|done].
    rewrite (pyleb_trans y1 z1 x1), (pyleb_trans z1 x1 y1) by done. apply pyleb_trans.
  - intros [x1 x2] [y1 y2]; unfold prod_pyleb; simpl.
    destruct (pyleb x1 y1) eqn:E1, (pyleb y1 x1) eqn:E2; try done.
    intros ??. f_equal; by apply pyleb_antisym.
Qed.

(** Sequences compare lexicographically, a proper prefix being smaller. *)
Fixpoint list_pyleb {A} `{PyOrd A} (l k : list A) : bool :=
  match l, k with
  | [], _ => true
  | _ :: _, [] => false
  | x :: l, y :: k =>
      if pyleb x y then (if pyleb y x then list_pyleb l k else true) else false
  end.
#[export] Instance list_pyord {A} `{PyOrd A} : PyOrd (list A) := list_pyleb.
#[export] Instance list_pyord_laws {A} `{PyOrdLaws A} : PyOrdLaws (list A).
Proof.
  split; unfold pyleb, list_pyord.
  - intros x; induction x as [|a x IH]; intros [|b y]; simpl; auto.
    destruct (pyleb_total a b) as [E|E]; rewrite E;
      destruct (pyleb a b) eqn:?, (pyleb b a) eqn:?; naive_solver.
  - intros x; induction x as [|a x IH]; intros [|b y] [|c z]; simpl; try done.
    destruct (pyleb a b) eqn:E1, (pyleb b c) eqn:E2; try done.
    rewrite (pyleb_trans a b c) by done.
    destruct (pyleb c a) eqn:E3; [|done].
    rewrite (pyleb_trans b c a), (pyleb_trans c a b) by done. apply IH.
  - intros x; induction x as [|a x IH]; intros [|b y]; simpl; try done.
    destruct (pyleb a b) eqn:E1, (pyleb b a) eqn:E2; try done.
    intros ??. f_equal; [by apply pyleb_antisym | by apply IH].
Qed.

Definition pyltb {A} `{PyOrd A} (x y : A) : bool := negb (pyleb y x).

(** [sorted(l, key=key)]: a stable sort, here by insertion from the right. *)
Section sorted_by.
Context {A K : Type} `{PyOrd K} (key : A → K).

Fixpoint insert_by (x : A) (l : list A) : list A :=
  match l with
  | [] => [x]
  | y :: l => if pyleb (key x) (key y) then x :: y :: l else y :: insert_by x l
  end.
Definition sorted_by (l : list A) : list A := foldr insert_by [] l.

Definition key_le (x y : A) : Prop := pyleb (key x) (key y) = true.

Lemma insert_by_perm x l : insert_by x l ≡ₚ x :: l.
Proof.
  induction l as [|y l IH]; simpl; [done|].
  destruct (pyleb _ _); [done|]. rewrite IH. apply Permutation_swap.
Qed.
Lemma sorted_by_perm l : sorted_by l ≡ₚ l.
Proof.
  induction l as [|x l IH]; simpl; [done|]. rewrite insert_by_perm. by f_equiv.
Qed.
Lemma sorted_by_length l : length (sorted_by l) = length l.
Proof. by rewrite sorted_by_perm. Qed.
Lemma elem_of_sorted_by x l : x ∈ sorted_by l ↔ x ∈ l.
Proof. by rewrite sorted_by_perm. Qed.

Context `{!PyOrdLaws K}.

#[export] Instance key_le_trans : Transitive key_le.
Proof. intros ???. unfold key_le. apply pyleb_trans. Qed.

Lemma insert_by_sorted x l : StronglySorted key_le l → StronglySorted key_le (insert_by x l).
Proof.
  induction 1 as [|y l Hl IH Hy]; simpl; [by repeat constructor|].
  destruct (pyleb (key x) (key y)) eqn:E.
  - constructor; [by constructor|]. constructor; [done|].
    eapply Forall_impl; [exact Hy|]. intros z. by apply (transitivity (R := key_le)).
  - constructor; [done|]. rewrite insert_by_perm. constructor; [|done].
    unfold key_le. destruct (pyleb_total (key x) (key y)); congruence.
Qed.
Lemma sorted_by_sorted l : StronglySorted key_le (sorted_by l).
Proof. induction l as [|x l IH]; simpl; [constructor | by apply insert_by_sorted]. Qed.

Lemma insert_by_head x l :
  Forall (key_le x) l → insert_by x l = x :: l.
Proof. destruct l as [|y l]; simpl; [done|]. intros [-> _]%Forall_cons. done. Qed.
Lemma sorted_by_id l : StronglySorted key_le l → sorted_by l = l.
Proof.
  induction 1 as [|x l Hl IH Hx]; simpl; [done|]. rewrite IH. by apply insert_by_head.
Qed.

Lemma insert_by_snoc y x l :
  pyleb (key y) (key x) = true → insert_by y (l ++ [x]) = insert_by y l ++ [x].
Proof.
  intros Hyx. induction l as [|z l IH]; simpl; [by rewrite Hyx|].
  destruct (pyleb (key y) (key z)); [done|]. by rewrite IH.
Qed.
(** Appending an element not below any other appends it to the sorted list. *)
Lemma sorted_by_snoc l x :
  Forall (λ y, pyleb (key y) (key x) = true) l → sorted_by (l ++ [x]) = sorted_by l ++ [x].
Proof.
  induction 1 as [|y l Hy _ IH]; simpl; [done|]. rewrite IH. by apply insert_by_snoc.
Qed.

(** With pairwise distinct keys the sorted list does not depend on the
    order of the input. *)
Lemma sorted_by_perm_eq l k :
  NoDup (key <$> l) → l ≡ₚ k → sorted_by l = sorted_by k.
Proof.
  intros Hnd Hp. eapply StronglySorted_unique_strong;
    [|apply sorted_by_sorted..|by rewrite !sorted_by_perm].
  intros x y Hx Hy Hxy Hyx. rewrite elem_of_sorted_by in Hx, Hy.
  rewrite <-Hp in Hy.
  assert (key x = key y) as Hk by (by apply pyleb_antisym).
  clear Hp Hxy Hyx. induction l as [|z l IH]; [set_solver|].
  rewrite fmap_cons, NoDup_cons, list_elem_of_fmap in Hnd. destruct Hnd as [Hz Hnd].
  apply elem_of_cons in Hx as [->|Hx], Hy as [->|Hy]; naive_solver.
Qed.
End sorted_by.
Arguments key_le {A K _} key x y /.

Lemma sorted_keys {A B K} `{PyOrd K} (f : A → K) (g : B → K) l k :
  f <$> l = g <$> k → StronglySorted (key_le f) l → StronglySorted (key_le g) k.
Proof.
  intros E Hl. revert k E. induction Hl as [|x l Hl IH Hx]; intros [|y k]; try done; [constructor|].
  rewrite !fmap_cons. intros [= Exy E]. constructor; [by apply IH|].
  apply Forall_forall. intros z Hz.
  assert (g z ∈ f <$> l) as Hzl by (by rewrite E; apply list_elem_of_fmap_2).
  apply list_elem_of_fmap in Hzl as (w & Ew & Hw). unfold key_le in *. rewrite <-Exy, Ew.
  by apply (proj1 (Forall_forall _ _) Hx).
Qed.

(** [max(l, key=key)]: the first element whose key no other exceeds. *)
Section max_by.
Context {A K : Type} `{PyOrd K} (key : A → K).

Fixpoint max_by_from (best : A) (l : list A) : A :=
  match l with
  | [] => best
  | x :: l => max_by_from (if pyltb (key best) (key x) then x else best) l
  end.
Definition max_by (l : list A) : option A :=
  match l with [] => None | x :: l => Some (max_by_from x l) end.

Lemma max_by_from_elem best l : max_by_from best l = best ∨ max_by_from best l ∈ l.
Proof.
  revert best. induction l as [|x l IH]; intros best; simpl; [by left|].
  destruct (IH (if pyltb (key best) (key x) then x else best)) as [E|E].
  - rewrite E. destruct (pyltb _ _); [right; left | by left].
  - right. by right.
Qed.
Lemma max_by_elem l m : max_by l = Some m → m ∈ l.
Proof.
  destruct l as [|x l]; simpl; [done|]. intros [= <-].
  destruct (max_by_from_elem x l) as [->|]; [left | by right].
Qed.

Context `{!PyOrdLaws K}.
Lemma max_by_from_le best l x :
  x ∈ best :: l → pyleb (key x) (key (max_by_from best l)) = true.
Proof.
  revert best x. induction l as [|y l IH]; intros best x; simpl.
  - intros ->%list_elem_of_singleton. apply pyleb_refl.
  - assert (∀ z, z ∈ [best; y] →
      pyleb (key z) (key (if pyltb (key best) (key y) then y else best)) = true) as Hz.
    { intros z Hz. unfold pyltb. destruct (pyleb (key y) (key best)) eqn:E; simpl;
        destruct (pyleb_total (key best) (key y));
        apply elem_of_cons in Hz as [->|Hz%list_elem_of_singleton]; subst;
        try apply pyleb_refl; congruence. }
    intros Hx. assert (x ∈ [best; y] ∨ x ∈ l) as [Hin|Hin] by set_solver.
    + eapply pyleb_trans; [by apply Hz|]. apply IH. left.
    + apply IH. by right.
Qed.
Lemma max_by_le l m x : max_by l = Some m → x ∈ l → pyleb (key x) (key m) = true.
Proof. destruct l; simpl; [done|]. intros [= <-]. apply max_by_from_le. Qed.
End max_by.

(** ** Counting *)

(** [sum(p(x) for x in l)] of a boolean generator. *)
Definition count_if {A} (p : A → bool) (l : list A) : Z :=
  foldr (λ x n, if p x then 1 + n else n)%Z 0%Z l.

Definition Z_sum (l : list Z) : Z := foldr Z.add 0%Z l.

Lemma count_if_cons {A} (p : A → bool) x l :
  count_if p (x :: l) = ((if p x then 1 else 0) + count_if p l)%Z.
Proof. simpl. by destruct (p x). Qed.
Lemma count_if_nonneg {A} (p : A → bool) l : (0 ≤ count_if p l)%Z.
Proof. induction l; rewrite ?count_if_cons; [done|]. destruct (p _); lia. Qed.
Lemma count_if_le_length {A} (p : A → bool) l : (count_if p l ≤ Z.of_nat (length l))%Z.
Proof. induction l; rewrite ?count_if_cons; simpl; [lia|]. destruct (p _); lia. Qed.
Lemma count_if_ext {A} (p q : A → bool) l :
  (∀ x, x ∈ l → p x = q x) → count_if p l = count_if q l.
Proof.
  induction l as [|x l IH]; intros Hl; rewrite ?count_if_cons; [done|].
  rewrite (Hl x) by left. rewrite IH; [done|]. intros y Hy. apply Hl. by right.
Qed.
Lemma count_if_mono {A} (p q : A → bool) l :
  (∀ x, x ∈ l → p x = true → q x = true) → (count_if p l ≤ count_if q l)%Z.
Proof.
  induction l as [|x l IH]; intros Hl; rewrite ?count_if_cons; [done|].
  assert (count_if p l ≤ count_if q l)%Z by (apply IH; intros y ?; apply Hl; by right).
  specialize (Hl x ltac:(left)). destruct (p x), (q x); naive_solver lia.
Qed.
Lemma count_if_map {A B} (f : A → B) (p : B → bool) l :
  count_if p (map f l) = count_if (p ∘ f) l.
Proof. induction l; simpl; [done|]. by rewrite IHl. Qed.
Lemma count_if_filter {A} (p : A → bool) l :
  count_if p l = Z.of_nat (length (filter (λ x, p x = true) l)).
Proof.
  induction l as [|x l IH]; [done|]. rewrite count_if_cons, IH, filter_cons.
  case_decide as E; [rewrite E; simpl; lia | destruct (p x); [done|lia]].
Qed.
Lemma count_if_zero {A} (p : A → bool) l :
  count_if p l = 0%Z ↔ ∀ x, x ∈ l → p x = false.
Proof.
  induction l as [|x l IH]; [set_solver|]. rewrite count_if_cons.
  pose proof (count_if_nonneg p l). setoid_rewrite elem_of_cons.
  destruct (p x) eqn:E; split; intros Hx.
  - lia.
  - rewrite (Hx x) in E by auto. done.
  - intros y [->|Hy]; [done|]. apply IH; [lia|done].
  - rewrite (proj2 IH); [done|]. intros y ?. apply Hx; auto.
Qed.
Lemma count_if_perm {A} (p : A → bool) l k : l ≡ₚ k → count_if p l = count_if p k.
Proof. induction 1; rewrite ?count_if_cons; lia. Qed.

Lemma Z_sum_app l k : Z_sum (l ++ k) = (Z_sum l + Z_sum k)%Z.
Proof. induction l; simpl; lia. Qed.
Lemma Z_sum_perm l k : l ≡ₚ k → Z_sum l = Z_sum k.
Proof. induction 1; simpl; lia. Qed.
Lemma Z_sum_nonneg l : Forall (λ z, 0 ≤ z)%Z l → (0 ≤ Z_sum l)%Z.
Proof. induction 1; simpl; lia. Qed.

(** ** Dictionaries built by comprehension: later entries win. *)
Definition dict_of {A} (key : A → string) (l : list A) : gmap string A :=
  foldl (λ m x, <[key x := x]> m) ∅ l.

Lemma dict_of_snoc {A} (key : A → string) l x :
  dict_of key (l ++ [x]) = <[key x := x]> (dict_of key l).
Proof. unfold dict_of. by rewrite foldl_app. Qed.
Lemma dict_of_lookup_Some {A} (key : A → string) l k x :
  dict_of key l !! k = Some x → x ∈ l ∧ key x = k.
Proof.
  induction l as [|y l IH] using rev_ind; [unfold dict_of; set_solver|].
  rewrite dict_of_snoc, lookup_insert. case_decide; [naive_solver set_solver|].
  intros [??]%IH. set_solver.
Qed.
Lemma dict_of_dom {A} (key : A → string) l k : is_Some (dict_of key l !! k) ↔ k ∈ key <$> l.
Proof.
  induction l as [|y l IH] using rev_ind.
  { unfold dict_of; simpl. rewrite lookup_empty. split; [by intros []|set_solver]. }
  rewrite dict_of_snoc, lookup_insert, fmap_app, elem_of_app. simpl.
  rewrite list_elem_of_singleton. case_decide; subst; [naive_solver|].
  rewrite IH. naive_solver.
Qed.
Lemma dict_of_lookup {A} (key : A → string) l x :
  NoDup (key <$> l) → x ∈ l → dict_of key l !! key x = Some x.
Proof.
  induction l as [|y l IH] using rev_ind; [set_solver|].
  rewrite dict_of_snoc, fmap_app, NoDup_app, lookup_insert. simpl. intros (Hnd & Hy & _).
  rewrite elem_of_app, list_elem_of_singleton. intros [Hx| ->].
  - case_decide as E; [|by apply IH].
    exfalso. apply (Hy (key x)); [by apply list_elem_of_fmap_2 | rewrite E; by left].
  - by rewrite decide_True.
Qed.

(** Duplicate test: [len(l) != len(set(l))]. *)
Definition has_duplicates {A} `{EqDecision A} (l : list A) : bool :=
  negb (bool_decide (length (remove_dups l) = length l)).
Lemma remove_dups_length {A} `{EqDecision A} (l : list A) :
  length (remove_dups l) ≤ length l.
Proof. induction l as [|x l IH]; simpl; [done|]. case_decide; simpl; lia. Qed.
Lemma has_duplicates_false {A} `{EqDecision A} (l : list A) :
  has_duplicates l = false ↔ NoDup l.
Proof.
  unfold has_duplicates. rewrite negb_false_iff, bool_decide_eq_true.
  split.
  - induction l as [|x l IH]; simpl; [by constructor|].
    pose proof (remove_dups_length l). case_decide; simpl; intros; [lia|].
    constructor; [done|]. apply IH. lia.
  - induction 1; simpl; [done|]. case_decide; [done|]. simpl. by f_equal.
Qed.

(** ** Automation *)
Create HintDb pipeline.
Create Rewrite HintDb pipeline.
#[export] Hint Resolve count_if_nonneg count_if_le_length Z_sum_nonneg pyleb_refl : pipeline.
#[export] Hint Rewrite @elem_of_sorted_by @sorted_by_length @count_if_cons : pipeline.

(** Split a chain of [bind]s that is known to return. *)
Ltac ok_inv :=
  repeat match goal with
  | H : (_ ≫= _) = Ok _ |- _ => apply bind_ok in H as (? & ? & ?)
  | H : raise_if _ _ _ = Ok _ |- _ => apply raise_if_ok in H
  | H : Ok _ = Ok _ |- _ => injection H as H; subst
  | H : Raise _ = Ok _ |- _ => discriminate H
  | H : raise _ _ = Ok _ |- _ => discriminate H
  | H : new _ = Ok _ |- _ => apply new_ok in H as [-> H]
  | x : () |- _ => destruct x
  end.
