(* ===== verification/PyStd.v ===== *)
(** * PyStd: the parts of Python's language and standard library the
    control plane uses

    Strings are sequences of ASCII characters ([string]); the source only
    builds and compares such text where it matters here (identifiers, states,
    reasons, resource keys).  The file has the [str] methods, [hashlib.sha256]
    (computed, not assumed), binary64 floats through the reference semantics
    of [SpecFloat], and integer-to-text conversion. *)
From S2P Require Import Prelude.
From Stdlib Require Import Ascii Floats.SpecFloat.
Local Open Scope Z_scope.

(** ** Characters and [str] methods *)

Definition ascii_code (c : ascii) : Z := Z.of_N (N_of_ascii c).

Definition is_digit (c : ascii) : bool := (48 <=? ascii_code c) && (ascii_code c <=? 57).
Definition is_upper (c : ascii) : bool := (65 <=? ascii_code c) && (ascii_code c <=? 90).
Definition is_lower (c : ascii) : bool := (97 <=? ascii_code c) && (ascii_code c <=? 122).
Definition is_alpha (c : ascii) : bool := is_upper c || is_lower c.

(** The ASCII characters [str.isspace] accepts: \t \n \v \f \r, the four
    separators \x1c .. \x1f and the space. *)
Definition is_space (c : ascii) : bool :=
  let n := ascii_code c in
  ((9 <=? n) && (n <=? 13)) || ((28 <=? n) && (n <=? 32)).

Definition ascii_upper (c : ascii) : ascii :=
  if is_lower c then ascii_of_N (Z.to_N (ascii_code c - 32)) else c.
Definition ascii_lower (c : ascii) : ascii :=
  if is_upper c then ascii_of_N (Z.to_N (ascii_code c + 32)) else c.

Fixpoint str_map (f : ascii → ascii) (s : string) : string :=
  match s with EmptyString => EmptyString | String c s => String (f c) (str_map f s) end.
Fixpoint str_forall (p : ascii → bool) (s : string) : bool :=
  match s with EmptyString => true | String c s => p c && str_forall p s end.
Fixpoint str_exists (p : ascii → bool) (s : string) : bool :=
  match s with EmptyString => false | String c s => p c || str_exists p s end.
Fixpoint str_take (n : nat) (s : string) : string :=
  match n, s with
  | S n, String c s => String c (str_take n s)
  | _, _ => EmptyString
  end.
Fixpoint str_drop (n : nat) (s : string) : string :=
  match n, s with
  | S n, String _ s => str_drop n s
  | _, _ => s
  end.

Definition str_upper : string → string := str_map ascii_upper.
Definition str_lower : string → string := str_map ascii_lower.

Fixpoint str_lstrip (p : ascii → bool) (s : string) : string :=
  match s with
  | EmptyString => EmptyString
  | String c s' => if p c then str_lstrip p s' else s
  end.
Fixpoint str_rstrip (p : ascii → bool) (s : string) : string :=
  match s with
  | EmptyString => EmptyString
  | String c s' =>
      match str_rstrip p s' with
      | EmptyString => if p c then EmptyString else String c EmptyString
      | s'' => String c s''
      end
  end.
Definition str_strip (s : string) : string := str_rstrip is_space (str_lstrip is_space s).

(** Truth value of a string. *)
Definition str_truthy (s : string) : bool :=
  match s with EmptyString => false | _ => true end.

Definition str_join (sep : string) (l : list string) : string := String.concat sep l.
Definition str_startswith (p s : string) : bool := String.prefix p s.
Definition str_eqb (a b : string) : bool := String.eqb a b.

(** [s.replace(c, d)] for single characters. *)
Definition str_replace_char (c d : ascii) : string → string :=
  str_map (λ x, if Ascii.eqb x c then d else x).

(** [s.split(c)] for a single character. *)
Fixpoint str_split (c : ascii) (s : string) : list string :=
  match s with
  | EmptyString => [EmptyString]
  | String x s' =>
      match str_split c s' with
      | [] => [String x EmptyString]
      | w :: ws => if Ascii.eqb x c then EmptyString :: w :: ws else String x w :: ws
      end
  end.

(** [str(n)] of an integer. *)
Definition str_of_Z (n : Z) : string := pretty n.
Definition str_of_nat (n : nat) : string := pretty (Z.of_nat n).

(** Membership in a collection of strings. *)
Definition str_in (s : string) (l : list string) : bool := existsb (String.eqb s) l.

Lemma str_in_spec s l : str_in s l = true ↔ s ∈ l.
Proof.
  unfold str_in. rewrite existsb_exists. setoid_rewrite String.eqb_eq.
  setoid_rewrite <-list_elem_of_In. naive_solver.
Qed.
Lemma str_in_false s l : str_in s l = false ↔ s ∉ l.
Proof. rewrite <-str_in_spec. destruct (str_in s l); naive_solver. Qed.

Lemma str_forall_app p s t :
  str_forall p (String.append s t) = str_forall p s && str_forall p t.
Proof. induction s; simpl; [done|]. by rewrite IHs, andb_assoc. Qed.
Lemma str_forall_take p n s : str_forall p s = true → str_forall p (str_take n s) = true.
Proof.
  revert n. induction s as [|c s IH]; intros [|n]; simpl; try done.
  rewrite !andb_true_iff. naive_solver.
Qed.
Lemma str_forall_map p f s : str_forall p (str_map f s) = str_forall (λ c, p (f c)) s.
Proof. induction s; simpl; [done|]. by rewrite IHs. Qed.
Lemma str_forall_impl (p q : ascii → bool) s :
  (∀ c, p c = true → q c = true) → str_forall p s = true → str_forall q s = true.
Proof. intros Hpq. induction s; simpl; [done|]. rewrite !andb_true_iff. naive_solver. Qed.
Lemma str_length_map f s : String.length (str_map f s) = String.length s.
Proof. induction s; cbn; by f_equal. Qed.
Lemma str_length_take n s : (n ≤ String.length s)%nat → String.length (str_take n s) = n.
Proof. revert n. induction s; intros [|n]; simpl; intros; try lia. rewrite IHs; lia. Qed.
Lemma str_length_app s t :
  String.length (String.append s t) = (String.length s + String.length t)%nat.
Proof. induction s as [|c s IH]; [done|]. simpl. by rewrite IH. Qed.
Lemma str_drop_app s t : str_drop (String.length s) (String.append s t) = t.
Proof. by induction s. Qed.
Lemma str_take_app s t : str_take (String.length s) (String.append s t) = s.
Proof. induction s; simpl; [by destruct t|]. by rewrite IHs. Qed.

(** ** [hashlib.sha256(data).hexdigest()] *)
Module Sha256.
Definition mask32 (x : Z) : Z := Z.land x 4294967295.
Definition rotr (n x : Z) : Z := Z.lor (Z.shiftr x n) (mask32 (Z.shiftl x (32 - n))).
Definition ch (x y z : Z) : Z := Z.lxor (Z.land x y) (Z.land (Z.lxor x 4294967295) z).
Definition maj (x y z : Z) : Z :=
  Z.lxor (Z.lxor (Z.land x y) (Z.land x z)) (Z.land y z).
Definition bsig0 (x : Z) : Z := Z.lxor (Z.lxor (rotr 2 x) (rotr 13 x)) (rotr 22 x).
Definition bsig1 (x : Z) : Z := Z.lxor (Z.lxor (rotr 6 x) (rotr 11 x)) (rotr 25 x).
Definition ssig0 (x : Z) : Z := Z.lxor (Z.lxor (rotr 7 x) (rotr 18 x)) (Z.shiftr x 3).
Definition ssig1 (x : Z) : Z := Z.lxor (Z.lxor (rotr 17 x) (rotr 19 x)) (Z.shiftr x 10).

(** The constants of the standard: the first 32 bits of the fractional parts
    of the cube roots (round constants) and square roots (initial words) of
    the first primes, as integer roots of scaled primes. *)
Fixpoint root_search (k : Z) (target : Z) (bits : nat) (acc : Z) : Z :=
  match bits with
  | O => acc
  | S b =>
      let cand := acc + 2 ^ Z.of_nat b in
      root_search k target b (if cand ^ k <=? target then cand else acc)
  end.
Definition frac_root (k p : Z) : Z := root_search k (p * 2 ^ (32 * k)) 40 0 mod 2 ^ 32.
Definition small_prime (n : nat) : bool :=
  forallb (λ d, negb (Nat.eqb (Nat.modulo n d) 0)) (seq 2 (n - 2)).
Definition primes : list Z := Eval vm_compute in Z.of_nat <$> List.filter small_prime (seq 2 310).
Definition K : list Z := Eval vm_compute in frac_root 3 <$> primes.
Definition initial_words : list Z := Eval vm_compute in frac_root 2 <$> take 8 primes.

(** The eight working words. *)
Record state := St { sa : Z; sb : Z; sc : Z; sd : Z; se : Z; sf : Z; sg : Z; sh : Z }.

Definition H0 : state := Eval vm_compute in
  match initial_words with
  | [a; b; c; d; e; f; g; h] => St a b c d e f g h
  | _ => St 0 0 0 0 0 0 0 0
  end.

Definition round (s : state) (kw : Z * Z) : state :=
  let t1 := sh s + bsig1 (se s) + ch (se s) (sf s) (sg s) + kw.1 + kw.2 in
  let t2 := bsig0 (sa s) + maj (sa s) (sb s) (sc s) in
  St (mask32 (t1 + t2)) (sa s) (sb s) (sc s) (mask32 (sd s + t1)) (se s) (sf s) (sg s).

Definition add_state (s t : state) : state :=
  St (mask32 (sa s + sa t)) (mask32 (sb s + sb t)) (mask32 (sc s + sc t)) (mask32 (sd s + sd t))
     (mask32 (se s + se t)) (mask32 (sf s + sf t)) (mask32 (sg s + sg t)) (mask32 (sh s + sh t)).

(** Message schedule, most recent word first. *)
Fixpoint extend (n : nat) (w : list Z) : list Z :=
  match n with
  | O => w
  | S n =>
      extend n (mask32 (ssig1 (nth 1 w 0) + nth 6 w 0 + ssig0 (nth 14 w 0) + nth 15 w 0) :: w)
  end.

Fixpoint words_of (l : list Z) : list Z :=
  match l with
  | a :: b :: c :: d :: l => (a * 16777216 + b * 65536 + c * 256 + d) :: words_of l
  | _ => []
  end.

Definition compress (s : state) (block : list Z) : state :=
  let w := rev (extend 48 (rev (words_of block))) in
  add_state s (foldl round s (combine K w)).

Definition bytes_of (s : string) : list Z := ascii_code <$> Strings.String.list_ascii_of_string s.

Definition pad (m : list Z) : list Z :=
  let n := Z.of_nat (length m) in
  let bits := 8 * n in
  m ++ [128] ++ replicate (Z.to_nat ((55 - n) mod 64)) 0
    ++ ((λ i, Z.land (Z.shiftr bits (8 * i)) 255) <$> [7; 6; 5; 4; 3; 2; 1; 0]).

Fixpoint blocks (fuel : nat) (s : state) (m : list Z) : state :=
  match fuel, m with
  | O, _ | _, [] => s
  | S fuel, _ => blocks fuel (compress s (take 64 m)) (drop 64 m)
  end.

Definition digest (s : string) : state :=
  let m := pad (bytes_of s) in blocks (length m) H0 m.

Definition hex_char (n : Z) : ascii :=
  ascii_of_N (Z.to_N (if n <? 10 then 48 + n else 87 + n)).
Definition nibble (x i : Z) : Z := Z.land (Z.shiftr x (4 * i)) 15.
Definition hex_word (x : Z) : string :=
  Strings.String.string_of_list_ascii ((λ i, hex_char (nibble x i)) <$> [7; 6; 5; 4; 3; 2; 1; 0]).

Definition hexdigest (s : string) : string :=
  let d := digest s in
  hex_word (sa d) +:+ hex_word (sb d) +:+ hex_word (sc d) +:+ hex_word (sd d)
  +:+ hex_word (se d) +:+ hex_word (sf d) +:+ hex_word (sg d) +:+ hex_word (sh d).

Definition is_hex_lower (c : ascii) : bool :=
  is_digit c || ((97 <=? ascii_code c) && (ascii_code c <=? 102)).

Lemma hex_char_ok n : 0 ≤ n ≤ 15 → is_hex_lower (hex_char n) = true.
Proof.
  intros ?. assert (n = 0 ∨ n = 1 ∨ n = 2 ∨ n = 3 ∨ n = 4 ∨ n = 5 ∨ n = 6 ∨ n = 7 ∨ n = 8
    ∨ n = 9 ∨ n = 10 ∨ n = 11 ∨ n = 12 ∨ n = 13 ∨ n = 14 ∨ n = 15) as Hn by lia.
  by repeat destruct Hn as [->|Hn]; subst.
Qed.
Lemma nibble_bound x i : 0 ≤ nibble x i ≤ 15.
Proof.
  assert (nibble x i = Z.shiftr x (4 * i) mod 16) as -> by apply (Z.land_ones _ 4 ltac:(lia)).
  pose proof (Z.mod_pos_bound (Z.shiftr x (4 * i)) 16). lia.
Qed.
Lemma hex_word_ok x :
  str_forall is_hex_lower (hex_word x) = true ∧ String.length (hex_word x) = 8%nat.
Proof.
  split; [|done]. unfold hex_word. cbn [fmap list_fmap Strings.String.string_of_list_ascii str_forall].
  by rewrite !hex_char_ok by apply nibble_bound.
Qed.
Lemma hexdigest_ok s :
  str_forall is_hex_lower (hexdigest s) = true ∧ String.length (hexdigest s) = 64%nat.
Proof.
  unfold hexdigest. cbv zeta. rewrite !str_forall_app, !str_length_app.
  by rewrite !(λ x, proj1 (hex_word_ok x)), !(λ x, proj2 (hex_word_ok x)).
Qed.

Example sha256_abc :
  hexdigest "abc" = "ba7816bf8f01cfea414140de5dae2223b00361a396177a9cb410ff61f20015ad".
Proof. vm_compute. reflexivity. Qed.
End Sha256.

(** ** Binary64 floats

    [spec_float] with precision 53 and maximal exponent 1024 is IEEE 754
    binary64, the type of Python's [float]. *)
Module PyFloat.
Definition float := spec_float.
Definition of_Z (n : Z) : float := binary_normalize 53 1024 n 0 false.
Definition mul : float → float → float := SFmul 53 1024.
Definition div : float → float → float := SFdiv 53 1024.
Definition leb : float → float → bool := SFleb.
Definition ltb : float → float → bool := SFltb.
Definition eqb : float → float → bool := SFeqb.

Definition exact (n : Z) : float :=
  match n with
  | Z0 => S754_zero false
  | Zpos p => S754_finite false p 0
  | Zneg p => S754_finite true p 0
  end.
(** [a / b] of two integers: the exact quotient, rounded once. *)
Definition truediv (a b : Z) : float := SFdiv 53 1024 (exact a) (exact b).

(** [int(x)]: truncation towards zero. *)
Definition trunc (x : float) : result Z :=
  match x with
  | S754_zero _ => Ok 0
  | S754_finite s m e => Ok (cond_Zopp s (Z.shiftl (Zpos m) e))
  | S754_infinity _ => raise OverflowError "cannot convert float infinity to integer"
  | S754_nan => raise ValueError "cannot convert float NaN to integer"
  end.
(** [math.floor(x)]. *)
Definition floor (x : float) : result Z :=
  match x with
  | S754_zero _ => Ok 0
  | S754_finite s m e => Ok (Z.shiftl (cond_Zopp s (Zpos m)) e)
  | S754_infinity _ => raise OverflowError "cannot convert float infinity to integer"
  | S754_nan => raise ValueError "cannot convert float NaN to integer"
  end.

Definition nonneg (x : float) : bool :=
  match x with
  | S754_zero _ => true
  | S754_finite s _ _ | S754_infinity s => negb s
  | S754_nan => false
  end.

Lemma trunc_nonneg x z : nonneg x = true → trunc x = Ok z → 0 ≤ z.
Proof.
  destruct x as [s|s| |s m e]; simpl; try done; intros Hs [= <-]; [done|].
  destruct s; [done|]. simpl. by apply Z.shiftl_nonneg.
Qed.
Lemma floor_nonneg x z : nonneg x = true → floor x = Ok z → 0 ≤ z.
Proof.
  destruct x as [s|s| |s m e]; simpl; try done; intros Hs [= <-]; [done|].
  destruct s; [done|]. simpl. by apply Z.shiftl_nonneg.
Qed.

(** ** Quotients of integers are finite *)
Lemma digits2_pos_log2 p : Zpos (digits2_pos p) = Z.log2 (Zpos p) + 1.
Proof.
  induction p as [p IH|p IH|]; [| |done]; cbn [digits2_pos]; rewrite Pos2Z.inj_succ, IH.
  - rewrite Pos2Z.inj_xI, Z.log2_succ_double by done. lia.
  - rewrite Pos2Z.inj_xO, Z.log2_double by done. lia.
Qed.
Lemma Zdigits2_le n k : 0 ≤ k → 0 ≤ n < 2 ^ k → Zdigits2 n ≤ k.
Proof.
  intros Hk [H0 H1]. destruct n as [|p|p]; simpl; [done| |lia].
  rewrite digits2_pos_log2. assert (Z.log2 (Zpos p) < k) by (apply Z.log2_lt_pow2; lia). lia.
Qed.
Lemma shr_1_bound r : 0 ≤ shr_m r → 0 ≤ shr_m (shr_1 r) ≤ shr_m r.
Proof. destruct r as [[|[p|p|]|p] ? ?]; simpl; lia. Qed.
Lemma iter_shr_bound p r : 0 ≤ shr_m r → 0 ≤ shr_m (iter_pos shr_1 p r) ≤ shr_m r.
Proof.
  revert r. induction p as [p IH|p IH|]; intros r Hr; simpl.
  - pose proof (shr_1_bound r Hr). pose proof (IH (shr_1 r)). pose proof (IH (iter_pos shr_1 p (shr_1 r))). lia.
  - pose proof (IH r). pose proof (IH (iter_pos shr_1 p r)). lia.
  - by apply shr_1_bound.
Qed.
(** Shifting to the target exponent keeps a non-negative mantissa and ends
    at the larger of the two exponents. *)
Lemma shr_fexp_bound m e l k : 0 ≤ k → 0 ≤ m < 2 ^ k →
  ∃ r e', shr_fexp 53 1024 m e l = (r, e') ∧ 0 ≤ shr_m r ≤ m ∧ e' ≤ Z.max (-1074) (k + e).
Proof.
  intros Hk Hm. unfold shr_fexp.
  assert (shr_m (shr_record_of_loc m l) = m) as Hr by (by destruct l as [|[]]).
  pose proof (Zdigits2_le m k Hk Hm) as Hd.
  destruct (fexp 53 1024 (Zdigits2 m + e) - e) as [|p|p] eqn:E; cbn [shr].
  - do 2 eexists. split; [done|]. lia.
  - do 2 eexists. split; [done|]. pose proof (iter_shr_bound p (shr_record_of_loc m l)).
    unfold fexp, emin in E. lia.
  - do 2 eexists. split; [done|]. lia.
Qed.
Lemma round_nearest_even_bound m l : 0 ≤ m → 0 ≤ round_nearest_even m l ≤ m + 1.
Proof. intros Hm. destruct l as [|[]]; simpl; try lia. destruct (Z.even m); lia. Qed.

(** A non-negative float with a bounded mantissa and exponent. *)
Definition within (b e : Z) (x : float) : Prop :=
  x = S754_zero false ∨ ∃ p e', x = S754_finite false p e' ∧ Zpos p < 2 ^ b ∧ e' ≤ e.
Lemma within_floor b e x : within b e x → ∃ z, floor x = Ok z ∧ 0 ≤ z.
Proof.
  intros [->|(p & e' & -> & _)]; [by exists 0|]. eexists. split; [done|]. simpl. by apply Z.shiftl_nonneg.
Qed.
Lemma binary_round_aux_within m e l k :
  0 ≤ k → 0 ≤ m < 2 ^ k → Z.max (k - 1073) (2 * k + 1 + e) ≤ 971 →
  within (k + 1) (Z.max (k - 1073) (2 * k + 1 + e)) (binary_round_aux 53 1024 false m e l).
Proof.
  intros Hk Hm He. unfold binary_round_aux.
  destruct (shr_fexp_bound m e l k) as (r & e' & -> & Hr & He'); [lia..|].
  set (m' := round_nearest_even _ _).
  assert (0 ≤ m' < 2 ^ (k + 1)) as Hm'.
  { pose proof (round_nearest_even_bound (shr_m r) (loc_of_shr_record r)).
    rewrite Z.pow_add_r by lia. unfold m'. lia. }
  destruct (shr_fexp_bound m' e' loc_Exact (k + 1)) as (r' & e'' & -> & Hr' & He''); [lia..|].
  destruct (shr_m r') as [|p|p]; [by left| |lia].
  destruct (Z.leb_spec e'' (1024 - 53)); [|lia]. right. exists p, e''. split; [done|]. lia.
Qed.
Lemma binary_round_aux_finite m e l k :
  0 ≤ k ≤ 400 → 0 ≤ m < 2 ^ k → e ≤ 0 →
  ∃ x, binary_round_aux 53 1024 false m e l = x ∧ nonneg x = true ∧ is_ok (trunc x) = true.
Proof.
  intros Hk Hm He. destruct (binary_round_aux_within m e l k) as [E|(p & e' & E & _)]; [lia..| |];
    eexists; (split; [exact E|done]).
Qed.

(** ** Scaling a count by a fraction *)
Lemma iter_xO d p : Zpos (Pos.iter xO p d) = Zpos p * 2 ^ Zpos d.
Proof.
  induction d as [|d IH] using Pos.peano_ind; [simpl; lia|].
  rewrite Pos.iter_succ, Pos2Z.inj_xO, IH, Pos2Z.inj_succ, Z.pow_succ_r by lia. lia.
Qed.
Lemma of_Z_within n : 0 ≤ n < 2 ^ 62 → within 115 229 (of_Z n).
Proof.
  intros Hn. unfold of_Z, binary_normalize. destruct n as [|p|p]; [by left| |lia].
  unfold binary_round, shl_align.
  pose proof (Zdigits2_le (Zpos p) 62) as Hd. simpl in Hd.
  destruct (fexp 53 1024 (Zpos (digits2_pos p) + 0) - 0) as [|d|d] eqn:E.
  1,2: assert (2 ^ 62 < 2 ^ 114) by (apply Z.pow_lt_mono_r; lia);
       pose proof (binary_round_aux_within (Zpos p) 0 loc_Exact 114) as Hw; apply Hw; lia.
  assert (Zpos d ≤ 52) as Hdd by (unfold fexp, emin in E; lia).
  assert (Zpos (Pos.iter xO p d) < 2 ^ 114) as Hs.
  { rewrite iter_xO. assert (2 ^ Zpos d ≤ 2 ^ 52) by (apply Z.pow_le_mono_r; lia). nia. }
  pose proof (binary_round_aux_within (Zpos (Pos.iter xO p d)) (Z.neg d) loc_Exact 114) as Hw.
  rewrite Z.sub_0_r in E. rewrite E.
  destruct Hw as [->|(q & e' & -> & Hq & He')]; [lia|lia|lia|by left|]. right. exists q, e'. split; [done|]. lia.
Qed.
(** A float as the language has it, in the unit interval. *)
Definition fraction (x : float) : Prop :=
  valid_binary 53 1024 x = true ∧ leb (of_Z 0) x = true ∧ leb x (of_Z 1) = true.
Lemma fraction_cases x : fraction x →
  (∃ s, x = S754_zero s) ∨ ∃ m e, x = S754_finite false m e ∧ Zpos m < 2 ^ 53 ∧ e ≤ -52.
Proof.
  intros (Hv & H0 & H1). destruct x as [s|[]| |[] m e]; try done; [eauto|]. right. exists m, e. split; [done|].
  unfold leb, SFleb in H1. change (of_Z 1) with (S754_finite false 4503599627370496 (-52)) in H1. cbn [SFcompare] in H1. cbn [valid_binary] in Hv.
  unfold bounded, canonical_mantissa in Hv. apply andb_true_iff in Hv as [Hc%Z.eqb_eq _].
  rewrite digits2_pos_log2 in Hc. split.
  - apply Z.log2_lt_pow2; [lia|]. unfold fexp in Hc. lia.
  - destruct (Z.compare_spec e (-52)); [lia|lia|done].
Qed.
Lemma scaled_floor n x : 0 ≤ n < 2 ^ 62 → fraction x → ∃ z, floor (mul (of_Z n) x) = Ok z ∧ 0 ≤ z.
Proof.
  intros Hn Hx. destruct (of_Z_within n Hn) as [->|(p & e & -> & Hp & He)];
    destruct (fraction_cases x Hx) as [[s ->]|(m & e' & -> & Hm & He')]; try (by exists 0).
  unfold mul. cbn [SFmul xorb]. eapply (within_floor 169 _), (binary_round_aux_within _ _ _ 168); [lia| |lia].
  assert (2 ^ 115 * 2 ^ 53 = 2 ^ 168) by (by rewrite <-Z.pow_add_r). nia.
Qed.

Lemma truediv_finite a b : 0 ≤ a < 2 ^ 64 → 0 < b < 2 ^ 64 →
  ∃ x, truediv a b = x ∧ nonneg x = true ∧ is_ok (trunc x) = true.
Proof.
  intros Ha Hb. unfold truediv. destruct a as [|a|a], b as [|b|b]; try lia; [by eexists|].
  cbn [exact SFdiv xorb]. unfold SFdiv_core_binary.
  set (e' := Z.min _ _). set (m := match _ with Z0 => _ | Zpos _ => _ | Zneg _ => _ end).
  assert (0 ≤ m < 2 ^ 300) as Hm.
  { pose proof (Zdigits2_le (Zpos b) 64). pose proof (Zdigits2_le (Zpos a) 64).
    assert (0 ≤ - e' ≤ 117) as He.
    { unfold e', fexp, emin. simpl Zdigits2 in *. lia. }
    unfold m. destruct (0 - 0 - e') as [|s|s] eqn:Es; [lia| |lia].
    rewrite Z.shiftl_mul_pow2 by lia.
    assert (2 ^ Zpos s ≤ 2 ^ 117) by (apply Z.pow_le_mono_r; lia). nia. }
  destruct (Z.div_eucl m (Zpos b)) as [q r] eqn:Eq.
  pose proof (Z_div_mod m (Zpos b)) as Hd. rewrite Eq in Hd.
  apply (binary_round_aux_finite _ _ _ 300); [lia|nia|unfold e'; lia].
Qed.
Lemma truediv_trunc a b : 0 ≤ a < 2 ^ 64 → 0 < b < 2 ^ 64 →
  ∃ q, trunc (truediv a b) = Ok q ∧ 0 ≤ q.
Proof.
  intros Ha Hb. destruct (truediv_finite a b Ha Hb) as (x & -> & Hn & Hok).
  destruct (trunc x) as [q|] eqn:E; [|done]. exists q. split; [done|]. by eapply trunc_nonneg.
Qed.
End PyFloat.
