(* ===== verification/PyRe.v ===== *)
(** * PyRe: the regular expressions of the identifier patterns

    The sources compile anchored patterns made of literals, character
    classes, alternatives and repetitions and only ever call [fullmatch] on
    them.  [fullmatch] runs Brzozowski derivatives; [matches] is the meaning
    of a pattern, and [fullmatch_spec] relates the two. *)
From S2P Require Import Prelude PyStd.
From Stdlib Require Import Ascii.

Inductive re :=
  | Empty
  | Eps
  | Cls (p : ascii → bool)
  | Cat (r s : re)
  | Alt (r s : re)
  | Star (r : re).

Fixpoint nullable (r : re) : bool :=
  match r with
  | Empty | Cls _ => false
  | Eps | Star _ => true
  | Cat r s => nullable r && nullable s
  | Alt r s => nullable r || nullable s
  end.

(** Constructors that keep derivatives small. *)
Definition cat (r s : re) : re :=
  match r with Empty => Empty | Eps => s | _ => Cat r s end.
Definition alt (r s : re) : re :=
  match r, s with Empty, _ => s | _, Empty => r | _, _ => Alt r s end.

Fixpoint deriv (c : ascii) (r : re) : re :=
  match r with
  | Empty | Eps => Empty
  | Cls p => if p c then Eps else Empty
  | Cat r s => if nullable r then alt (cat (deriv c r) s) (deriv c s) else cat (deriv c r) s
  | Alt r s => alt (deriv c r) (deriv c s)
  | Star r => cat (deriv c r) (Star r)
  end.

Fixpoint derivs (r : re) (s : string) : re :=
  match s with EmptyString => r | String c s => derivs (deriv c r) s end.

Definition fullmatch (r : re) (s : string) : bool := nullable (derivs r s).
(** [r.match(s)]: a prefix matches; [r.search(s)]: a substring does. *)
Fixpoint match_at (r : re) (s : string) : bool :=
  nullable r || match s with EmptyString => false | String c s => match_at (deriv c r) s end.
Fixpoint search (r : re) (s : string) : bool :=
  match_at r s || match s with EmptyString => false | String _ s => search r s end.
(** [re.compile(r + "$").search(s)]: a suffix matches, up to a last newline. *)
Definition newline : ascii := ascii_of_nat 10.
Fixpoint search_end (r : re) (s : string) : bool :=
  fullmatch r s || fullmatch (cat r (Cls (Ascii.eqb newline))) s
  || match s with EmptyString => false | String _ s => search_end r s end.

(** Pattern syntax. *)
Definition chr (c : ascii) : re := Cls (Ascii.eqb c).
Fixpoint lit (s : string) : re :=
  match s with EmptyString => Eps | String c s => Cat (chr c) (lit s) end.
Fixpoint times (n : nat) (r : re) : re :=
  match n with O => Eps | S n => Cat r (times n r) end.
Definition plus (r : re) : re := Cat r (Star r).
Fixpoint alts (l : list re) : re :=
  match l with [] => Empty | [r] => r | r :: l => Alt r (alts l) end.
Fixpoint cats (l : list re) : re :=
  match l with [] => Eps | [r] => r | r :: l => Cat r (cats l) end.

Definition digit : re := Cls is_digit.
Definition upper : re := Cls is_upper.
Definition upper_digit : re := Cls (λ c, is_upper c || is_digit c).
Definition is_hex_upper (c : ascii) : bool :=
  is_digit c || ((65 <=? ascii_code c)%Z && (ascii_code c <=? 70)%Z).
Definition hex_upper : re := Cls is_hex_upper.

Inductive matches : re → string → Prop :=
  | m_eps : matches Eps ""
  | m_cls p c : p c = true → matches (Cls p) (String c "")
  | m_cat r s x y : matches r x → matches s y → matches (Cat r s) (x +:+ y)
  | m_alt_l r s x : matches r x → matches (Alt r s) x
  | m_alt_r r s x : matches s x → matches (Alt r s) x
  | m_star_nil r : matches (Star r) ""
  | m_star_cons r x y : matches r x → matches (Star r) y → matches (Star r) (x +:+ y).
#[export] Hint Constructors matches : pipeline.

Lemma str_app_cons c (x y : string) : String c x +:+ y = String c (x +:+ y).
Proof. done. Qed.
Lemma str_app_assoc (x y z : string) : (x +:+ y) +:+ z = x +:+ (y +:+ z).
Proof. induction x as [|c x IH]; [done|]. by rewrite !str_app_cons, IH. Qed.
Lemma str_app_nil (x : string) : x +:+ "" = x.
Proof. induction x as [|c x IH]; [done|]. by rewrite str_app_cons, IH. Qed.

Lemma matches_cat r s x : matches (cat r s) x ↔ matches (Cat r s) x.
Proof.
  destruct r; simpl; try done; split; intros Hm.
  - inv Hm.
  - inv Hm. match goal with H : matches Empty _ |- _ => inv H end.
  - by apply (m_cat Eps s "" x); [constructor|].
  - inv Hm. match goal with H : matches Eps _ |- _ => inv H end. done.
Qed.
Lemma matches_alt r s x : matches (alt r s) x ↔ matches (Alt r s) x.
Proof.
  destruct r, s; simpl; try done; split; intros Hm;
    first [by constructor | inv Hm; try done; match goal with H : matches Empty _ |- _ => inv H end].
Qed.

Lemma nullable_spec r : nullable r = true ↔ matches r "".
Proof.
  split.
  - induction r; simpl; intros Hn; try done; auto with pipeline.
    + apply andb_true_iff in Hn as [??]. apply (m_cat _ _ "" ""); auto.
    + apply orb_true_iff in Hn as [?|?]; auto with pipeline.
  - remember "" as x eqn:E. induction 1; simpl; auto; try done.
    + destruct x, y; try done. by rewrite IHmatches1, IHmatches2.
    + by rewrite IHmatches.
    + rewrite IHmatches by done. by rewrite orb_true_r.
Qed.

Lemma deriv_sound r c x : matches (deriv c r) x → matches r (String c x).
Proof.
  revert x. induction r as [| |p|r1 IH1 r2 IH2|r1 IH1 r2 IH2|r IH]; intros x; simpl.
  - intros Hm; inv Hm.
  - intros Hm; inv Hm.
  - destruct (p c) eqn:E; intros Hm; inv Hm. by constructor.
  - assert (matches (cat (deriv c r1) r2) x → matches (Cat r1 r2) (String c x)) as Hcat.
    { rewrite matches_cat. intros Hm; inv Hm. rewrite <-str_app_cons. constructor; auto. }
    destruct (nullable r1) eqn:E; [|done]. rewrite matches_alt. intros Hm; inv Hm; [auto|].
    apply (m_cat _ _ "" (String c x)); [by apply nullable_spec|auto].
  - rewrite matches_alt. intros Hm; inv Hm; auto with pipeline.
  - rewrite matches_cat. intros Hm; inv Hm. rewrite <-str_app_cons. constructor; auto.
Qed.
Lemma deriv_complete r c x : matches r (String c x) → matches (deriv c r) x.
Proof.
  remember (String c x) as y eqn:E. intros Hm. revert x E.
  induction Hm as [|p d Hp|r s x1 x2 H1 IH1 H2 IH2|r s y H1 IH|r s y H1 IH| |r x1 x2 H1 IH1 H2 IH2];
    intros x E; simpl; try done.
  - injection E as -> <-. rewrite Hp. constructor.
  - destruct x1 as [|d x1].
    + rewrite (proj2 (nullable_spec r)) by done. apply matches_alt, m_alt_r. by apply IH2.
    + rewrite str_app_cons in E. injection E as -> <-.
      assert (matches (cat (deriv c r) s) (x1 +:+ x2)) by (apply matches_cat; auto with pipeline).
      destruct (nullable r); [apply matches_alt; by constructor|done].
  - apply matches_alt. auto with pipeline.
  - apply matches_alt. auto with pipeline.
  - destruct x1 as [|d x1]; [by apply IH2|].
    rewrite str_app_cons in E. injection E as -> <-. apply matches_cat. auto with pipeline.
Qed.

Lemma fullmatch_spec r s : fullmatch r s = true ↔ matches r s.
Proof.
  unfold fullmatch. revert r. induction s as [|c s IH]; intros r; simpl.
  - apply nullable_spec.
  - rewrite IH. split; [apply deriv_sound | apply deriv_complete].
Qed.

Lemma derivs_app r s t : derivs r (s +:+ t) = derivs (derivs r s) t.
Proof. revert r. induction s as [|c s IH]; intros r; [done|]. apply IH. Qed.
Lemma derivs_Empty s : derivs Empty s = Empty.
Proof. induction s; simpl; auto. Qed.

(** A pattern whose derivative by a literal prefix is [Empty] matches no
    string with that prefix. *)
Definition is_Empty (r : re) : bool := match r with Empty => true | _ => false end.
Lemma fullmatch_prefix_Empty r s t :
  is_Empty (derivs r s) = true → fullmatch r (s +:+ t) = false.
Proof.
  intros E. unfold fullmatch. rewrite derivs_app.
  destruct (derivs r s); try done. by rewrite derivs_Empty.
Qed.

Lemma matches_lit s : matches (lit s) s.
Proof.
  induction s as [|c s IH]; simpl; [constructor|].
  apply (m_cat _ _ (String c "") s); [|done]. constructor. apply Ascii.eqb_refl.
Qed.
Lemma matches_times p s :
  str_forall p s = true → matches (times (String.length s) (Cls p)) s.
Proof.
  induction s as [|c s IH]; simpl; [constructor|]. intros [??]%andb_true_iff.
  apply (m_cat _ _ (String c "") s); [by constructor|auto].
Qed.
