(* ===== verification/PyJson.v ===== *)
(** * PyJson: [json.dumps] in the canonical form the fingerprints hash, and
    [datetime.isoformat] of UTC instants

    The sources serialise with [sort_keys=True, separators=(",", ":")].
    Instants are microseconds since 1970-01-01T00:00:00 UTC. *)
From S2P Require Import Prelude PyStd.
From Stdlib Require Import Ascii.
Local Open Scope Z_scope.

#[warnings="-register-all"]
Inductive json :=
  | JNull
  | JBool (b : bool)
  | JInt (n : Z)
  | JStr (s : string)
  | JList (l : list json)
  | JObj (l : list (string * json)).

Definition hex2 (n : Z) : string :=
  String (Sha256.hex_char (Sha256.nibble n 1)) (String (Sha256.hex_char (Sha256.nibble n 0)) "").
Definition backslash : ascii := ascii_of_nat 92.
Definition quote : ascii := ascii_of_nat 34.
Definition escape_char (c : ascii) : string :=
  let n := ascii_code c in
  if Ascii.eqb c quote then String backslash (String quote "")
  else if Ascii.eqb c backslash then String backslash (String backslash "")
  else if n =? 10 then String backslash "n"
  else if n =? 13 then String backslash "r"
  else if n =? 9 then String backslash "t"
  else if n =? 8 then String backslash "b"
  else if n =? 12 then String backslash "f"
  else if n <? 32 then String backslash ("u00" +:+ hex2 n)
  else String c "".
Fixpoint escape (s : string) : string :=
  match s with EmptyString => "" | String c s => escape_char c +:+ escape s end.
Definition dump_str (s : string) : string := String quote (escape s +:+ String quote "").

Fixpoint dumps (j : json) : string :=
  match j with
  | JNull => "null"
  | JBool true => "true"
  | JBool false => "false"
  | JInt n => str_of_Z n
  | JStr s => dump_str s
  | JList l => "[" +:+ str_join "," (map dumps l) +:+ "]"
  | JObj l =>
      "{" +:+ str_join ","
        (map (λ kv, dump_str kv.1 +:+ ":" +:+ kv.2)
           (sorted_by fst (map (λ kv, (kv.1, dumps kv.2)) l))) +:+ "}"
  end.

Definition json_fingerprint (j : json) : string := Sha256.hexdigest (dumps j).

Definition JOptInt (o : option Z) : json := match o with Some n => JInt n | None => JNull end.
Definition JOptStr (o : option string) : json := match o with Some s => JStr s | None => JNull end.

(** ** Calendar *)
Definition us_per_day : Z := 86400000000.

(** Proleptic Gregorian date of a day number (0 is 1970-01-01). *)
Definition civil_of_days (d : Z) : Z * Z * Z :=
  let z := d + 719468 in
  let era := z / 146097 in
  let doe := z mod 146097 in
  let yoe := (doe - doe / 1460 + doe / 36524 - doe / 146096) / 365 in
  let doy := doe - (365 * yoe + yoe / 4 - yoe / 100) in
  let mp := (5 * doy + 2) / 153 in
  let day := doy - (153 * mp + 2) / 5 + 1 in
  let month := if mp <? 10 then mp + 3 else mp - 9 in
  let year := yoe + 400 * era + (if month <=? 2 then 1 else 0) in
  (year, month, day).

Definition pad_zero (width : nat) (s : string) : string :=
  str_join "" (replicate (width - String.length s) "0") +:+ s.
Definition pad_int (width : nat) (n : Z) : string := pad_zero width (str_of_Z n).

Definition isoformat (us : Z) : string :=
  let '(y, m, d) := civil_of_days (us / us_per_day) in
  let r := us mod us_per_day in
  let sec := r / 1000000 in
  let frac := r mod 1000000 in
  pad_int 4 y +:+ "-" +:+ pad_int 2 m +:+ "-" +:+ pad_int 2 d +:+ "T"
  +:+ pad_int 2 (sec / 3600) +:+ ":" +:+ pad_int 2 (sec / 60 mod 60) +:+ ":" +:+ pad_int 2 (sec mod 60)
  +:+ (if frac =? 0 then "" else "." +:+ pad_int 6 frac) +:+ "+00:00".

Example isoformat_epoch : isoformat 0 = "1970-01-01T00:00:00+00:00".
Proof. reflexivity. Qed.
Example isoformat_leap : isoformat 1709251199000042 = "2024-02-29T23:59:59.000042+00:00".
Proof. reflexivity. Qed.
Example dumps_sorted :
  dumps (JObj [("b", JList [JInt 1; JNull]); ("a", JStr "x"); ("c", JBool true)])
  = str_replace_char "'" quote "{'a':'x','b':[1,null],'c':true}".
Proof. reflexivity. Qed.

(** ** JSON values as Python objects *)
Fixpoint json_eq_dec (x y : json) {struct x} : Decision (x = y).
Proof.
  refine (match x, y with
  | JNull, JNull => left eq_refl
  | JBool a, JBool b => cast_if (decide (a = b))
  | JInt a, JInt b => cast_if (decide (a = b))
  | JStr a, JStr b => cast_if (decide (a = b))
  | JList l, JList k => cast_if (@list_eq_dec json json_eq_dec l k)
  | JObj l, JObj k =>
      cast_if (@list_eq_dec (string * json) (λ p q, match p, q with
                 | (a, u), (b, v) => cast_if_and (decide (a = b)) (json_eq_dec u v) end) l k)
  | _, _ => right _
  end); abstract congruence.
Defined.
#[export] Instance json_eq_decision : EqDecision json := json_eq_dec.

(** [==] of two JSON values: booleans are integers and the order of keys
    does not matter. *)
Definition json_number (j : json) : option Z :=
  match j with JInt n => Some n | JBool b => Some (if b then 1 else 0) | _ => None end.
Fixpoint json_eqb (x y : json) {struct x} : bool :=
  match x, y with
  | JNull, JNull => true
  | JStr a, JStr b => String.eqb a b
  | JList l, JList k =>
      (fix go l k := match l, k with
         | [], [] => true | a :: l, b :: k => json_eqb a b && go l k | _, _ => false end) l k
  | JObj l, JObj k =>
      bool_decide (length l = length k)
      && (fix go l := match l with
            | [] => true
            | (a, u) :: l =>
                match List.find (λ bv, String.eqb bv.1 a) k with Some (_, v) => json_eqb u v | None => false end
                && go l
            end) l
  | _, _ => match json_number x, json_number y with Some a, Some b => a =? b | _, _ => false end
  end.
(** [bool(x)]. *)
Definition json_truthy (j : json) : bool :=
  match j with
  | JNull => false | JBool b => b | JInt n => negb (n =? 0) | JStr s => str_truthy s
  | JList l => negb (bool_decide (l = [])) | JObj l => negb (bool_decide (l = []))
  end.
Definition obj_get (key : string) (payload : list (string * json)) : option json :=
  snd <$> List.find (λ kv, String.eqb kv.1 key) payload.
(** [{**d, key: value}], keeping the place of a key that is there. *)
Fixpoint obj_set (key : string) (v : json) (o : list (string * json)) : list (string * json) :=
  match o with
  | [] => [(key, v)]
  | (k, x) :: o => if String.eqb k key then (k, v) :: o else (k, x) :: obj_set key v o
  end.
(** [d.pop(key, None)]. *)
Definition obj_pop (key : string) (o : list (string * json)) : list (string * json) :=
  List.filter (λ kv, negb (String.eqb kv.1 key)) o.

(** [json.dumps(value, sort_keys=True)], with the default separators. *)
Fixpoint dumps_spaced (j : json) : string :=
  match j with
  | JNull => "null"
  | JBool true => "true"
  | JBool false => "false"
  | JInt n => str_of_Z n
  | JStr s => dump_str s
  | JList l => "[" +:+ str_join ", " (map dumps_spaced l) +:+ "]"
  | JObj l =>
      "{" +:+ str_join ", "
        (map (λ kv, dump_str kv.1 +:+ ": " +:+ kv.2)
           (sorted_by fst (map (λ kv, (kv.1, dumps_spaced kv.2)) l))) +:+ "}"
  end.

(** [repr] of an ASCII text: single quotes unless only those occur in it. *)
Definition single_quote : ascii := ascii_of_nat 39.
Definition repr_char (q c : ascii) : string :=
  let n := ascii_code c in
  if Ascii.eqb c q || Ascii.eqb c backslash then String backslash (String c "")
  else if n =? 10 then String backslash "n"
  else if n =? 13 then String backslash "r"
  else if n =? 9 then String backslash "t"
  else if (n <? 32) || (n =? 127) then String backslash ("x" +:+ hex2 n)
  else String c "".
Fixpoint repr_chars (q : ascii) (s : string) : string :=
  match s with EmptyString => "" | String c s => repr_char q c +:+ repr_chars q s end.
Definition repr_str (s : string) : string :=
  let q := if str_exists (Ascii.eqb single_quote) s && negb (str_exists (Ascii.eqb quote) s) then quote else single_quote in
  String q (repr_chars q s +:+ String q "").
Fixpoint py_repr (j : json) : string :=
  match j with
  | JNull => "None"
  | JBool true => "True"
  | JBool false => "False"
  | JInt n => str_of_Z n
  | JStr s => repr_str s
  | JList l => "[" +:+ str_join ", " (map py_repr l) +:+ "]"
  | JObj l => "{" +:+ str_join ", " (map (λ kv, repr_str kv.1 +:+ ": " +:+ py_repr kv.2) l) +:+ "}"
  end.
(** [str(value)]. *)
Definition py_str (j : json) : string := match j with JStr s => s | _ => py_repr j end.
(** [str(d.get(key) or "")]. *)
Definition get_text (key : string) (o : list (string * json)) : string :=
  match obj_get key o with Some j => if json_truthy j then py_str j else "" | None => "" end.

(** [int(text)]: blanks around, a sign, digits with single underscores. *)
Fixpoint int_digits (s : string) (acc : Z) (after_digit : bool) : option Z :=
  match s with
  | EmptyString => if after_digit then Some acc else None
  | String c s =>
      if is_digit c then int_digits s (acc * 10 + (ascii_code c - 48)) true
      else if Ascii.eqb c "_" && after_digit then int_digits s acc false
      else None
  end.
Definition int_of_text (s : string) : option Z :=
  match str_strip s with
  | String "-" t => Z.opp <$> int_digits t 0 false
  | String "+" t => int_digits t 0 false
  | t => int_digits t 0 false
  end.
(** [int(value)], [None] for the errors. *)
Definition int_of_json (j : json) : option Z :=
  match j with JInt n => Some n | JBool b => Some (if b then 1 else 0) | JStr s => int_of_text s | _ => None end.

(** ** Reading instants *)
Definition days_of_civil (y m d : Z) : Z :=
  let y' := if m <=? 2 then y - 1 else y in
  let era := y' / 400 in
  let yoe := y' mod 400 in
  let doy := (153 * (if 2 <? m then m - 3 else m + 9) + 2) / 5 + d - 1 in
  era * 146097 + (yoe * 365 + yoe / 4 - yoe / 100 + doy) - 719468.
Definition month_days (y m : Z) : Z :=
  if m =? 2 then (if (y mod 4 =? 0) && (negb (y mod 100 =? 0) || (y mod 400 =? 0)) then 29 else 28)
  else if (m =? 4) || (m =? 6) || (m =? 9) || (m =? 11) then 30 else 31.
(** The number of exactly [n] digits at the start, and the rest. *)
Fixpoint take_digits (n : nat) (s : string) (acc : Z) : option (Z * string) :=
  match n, s with
  | O, _ => Some (acc, s)
  | S n, String c s => if is_digit c then take_digits n s (acc * 10 + (ascii_code c - 48)) else None
  | S _, EmptyString => None
  end.
Definition take_char (c : ascii) (s : string) : option string :=
  match s with String d s => if Ascii.eqb c d then Some s else None | EmptyString => None end.
Definition take_fraction (s : string) : option (Z * string) :=
  match s with
  | String "." s => take_digits 6 s 0
  | _ => Some (0, s)
  end.
Definition take_offset (s : string) : option Z :=
  '(sign, s) ← (match s with String "+" s => Some (1, s) | String "-" s => Some (-1, s) | _ => None end);
  '(h, s) ← take_digits 2 s 0;
  s ← take_char ":" s;
  '(m, s) ← take_digits 2 s 0;
  if String.eqb s "" && (h <? 24) && (m <? 60) then Some (sign * (h * 60 + m) * 60000000) else None.
(** [datetime.fromisoformat(text).astimezone(UTC)] of a text in the extended
    form with an offset, as [isoformat] writes it. *)
Definition parse_instant (s : string) : option Z :=
  '(y, s) ← take_digits 4 s 0; s ← take_char "-" s;
  '(mo, s) ← take_digits 2 s 0; s ← take_char "-" s;
  '(d, s) ← take_digits 2 s 0; s ← take_char "T" s;
  '(h, s) ← take_digits 2 s 0; s ← take_char ":" s;
  '(mi, s) ← take_digits 2 s 0; s ← take_char ":" s;
  '(sec, s) ← take_digits 2 s 0;
  '(us, s) ← take_fraction s;
  off ← take_offset s;
  if (1 <=? y) && (1 <=? mo) && (mo <=? 12) && (1 <=? d) && (d <=? month_days y mo) && (h <? 24) && (mi <? 60) && (sec <? 60)
  then Some (((days_of_civil y mo d * 24 + h) * 60 + mi) * 60000000 + sec * 1000000 + us - off) else None.
(** [fromisoformat(text.replace("Z", "+00:00"))]. *)
Fixpoint replace_z (s : string) : string :=
  match s with EmptyString => "" | String c s => (if Ascii.eqb c "Z" then "+00:00" else String c "") +:+ replace_z s end.
Definition fromisoformat (s : string) : result Z :=
  match parse_instant (replace_z s) with Some t => Ok t | None => raise ValueError "Invalid isoformat string" end.
Example fromisoformat_leap : fromisoformat "2024-02-29T23:59:59.000042Z" = Ok 1709251199000042.
Proof. reflexivity. Qed.
Example fromisoformat_offset : fromisoformat "1970-01-01T02:00:00+02:00" = Ok 0.
Proof. reflexivity. Qed.
