(* ===== verification/Identifiers.v ===== *)
(** * Identifiers: [ids.py], [domain/identifiers.py] and the digest
    identifiers of the control and scheduler records

    Identifier kinds with their anchored patterns, validated identifiers,
    parsing without an expected kind, and the SHA-256 based deterministic
    identifiers. *)
From S2P Require Import Prelude PyStd PyRe.
From Stdlib Require Import Ascii.

(** ** Patterns ([ids.py]) *)
Definition REQUIREMENT_ID : re := cats [lit "REQ-"; plus upper; lit "-"; times 4 digit].
Definition PLAN_ID : re := cats [lit "PLAN-"; plus upper; lit "-"; times 3 digit].
Definition PLAN_SECTION_ID : re :=
  cats [lit "PLAN-"; plus upper; lit "-"; times 3 digit; lit ":SEC-"; times 2 digit].
Definition ISSUE_ID : re :=
  cats [lit "PP-"; alts [lit "EPIC"; lit "STORY"; lit "TASK"; lit "SUBTASK"; lit "BUG"; lit "SPIKE"];
        lit "-"; times 6 digit].
Definition ACCEPTANCE_ID : re := cats [lit "AC-PP-"; times 6 digit; lit "-"; times 2 digit].
Definition EVIDENCE_ID : re := cats [lit "EVID-"; times 6 digit].
Definition DECISION_ID : re := cats [lit "ADR-"; times 4 digit].

Definition require_match (pattern : re) (value label : string) : result () :=
  raise_if (negb (fullmatch pattern value)) ValueError ("Invalid " +:+ label +:+ ": " +:+ value).

(** ** Patterns ([domain/identifiers.py]) *)
Definition PROJECT_ID : re :=
  cats [lit "PROJECT-"; plus upper_digit; Star (Cat (lit "-") (plus upper_digit))].
Definition MIGRATION_ID : re := cats [lit "PPDB-"; times 4 digit].
Definition digest_id (prefix : string) : re := Cat (lit prefix) (Cat (lit "-") (times 20 hex_upper)).
Definition TRACE_LINK_ID : re := digest_id "TRACE".
Definition TRANSITION_ID : re := digest_id "TRANS".
Definition CATALOG_IMPORT_ID : re := digest_id "IMPORT".
Definition MUTATION_ID : re := digest_id "MUT".
Definition COMPILATION_ID : re := digest_id "COMP".
Definition BOOTSTRAP_ID : re := digest_id "BOOT".
Definition GAP_ID : re := digest_id "GAP".

Inductive IdentifierKind :=
  | PROJECT | REQUIREMENT | ISSUE | PLAN | PLAN_SECTION | ACCEPTANCE | EVIDENCE | DECISION
  | MIGRATION | TRACE_LINK | TRANSITION | CATALOG_IMPORT | MUTATION | COMPILATION | BOOTSTRAP | GAP.

#[export] Instance IdentifierKind_eq_dec : EqDecision IdentifierKind.
Proof. solve_decision. Defined.

Definition IdentifierKind_value (k : IdentifierKind) : string :=
  match k with
  | PROJECT => "PROJECT" | REQUIREMENT => "REQUIREMENT" | ISSUE => "ISSUE" | PLAN => "PLAN"
  | PLAN_SECTION => "PLAN_SECTION" | ACCEPTANCE => "ACCEPTANCE" | EVIDENCE => "EVIDENCE"
  | DECISION => "DECISION" | MIGRATION => "MIGRATION" | TRACE_LINK => "TRACE_LINK"
  | TRANSITION => "TRANSITION" | CATALOG_IMPORT => "CATALOG_IMPORT" | MUTATION => "MUTATION"
  | COMPILATION => "COMPILATION" | BOOTSTRAP => "BOOTSTRAP" | GAP => "GAP"
  end.

(** [_PATTERNS], a dict whose iteration order is its insertion order. *)
Definition PATTERNS : list (IdentifierKind * re) :=
  [(PROJECT, PROJECT_ID); (REQUIREMENT, REQUIREMENT_ID); (ISSUE, ISSUE_ID); (PLAN, PLAN_ID);
   (PLAN_SECTION, PLAN_SECTION_ID); (ACCEPTANCE, ACCEPTANCE_ID); (EVIDENCE, EVIDENCE_ID);
   (DECISION, DECISION_ID); (MIGRATION, MIGRATION_ID); (TRACE_LINK, TRACE_LINK_ID);
   (TRANSITION, TRANSITION_ID); (CATALOG_IMPORT, CATALOG_IMPORT_ID); (MUTATION, MUTATION_ID);
   (COMPILATION, COMPILATION_ID); (BOOTSTRAP, BOOTSTRAP_ID); (GAP, GAP_ID)].

Definition pattern_of (k : IdentifierKind) : re :=
  match k with
  | PROJECT => PROJECT_ID | REQUIREMENT => REQUIREMENT_ID | ISSUE => ISSUE_ID | PLAN => PLAN_ID
  | PLAN_SECTION => PLAN_SECTION_ID | ACCEPTANCE => ACCEPTANCE_ID | EVIDENCE => EVIDENCE_ID
  | DECISION => DECISION_ID | MIGRATION => MIGRATION_ID | TRACE_LINK => TRACE_LINK_ID
  | TRANSITION => TRANSITION_ID | CATALOG_IMPORT => CATALOG_IMPORT_ID | MUTATION => MUTATION_ID
  | COMPILATION => COMPILATION_ID | BOOTSTRAP => BOOTSTRAP_ID | GAP => GAP_ID
  end.

Record DomainIdentifier := mkDomainIdentifier { kind : IdentifierKind; value : string }.

(** [__post_init__]. *)
#[export] Instance DomainIdentifier_model : Model DomainIdentifier := λ d,
  raise_if (negb (fullmatch (pattern_of (kind d)) (value d))) ValueError
    ("Invalid " +:+ str_lower (IdentifierKind_value (kind d)) +:+ " identifier: " +:+ value d).

Definition parse (v : string) (expected_kind : option IdentifierKind) : result DomainIdentifier :=
  match expected_kind with
  | Some k => new (mkDomainIdentifier k v)
  | None =>
      match filter (λ kp, fullmatch kp.2 v = true) PATTERNS with
      | [(k, _)] => new (mkDomainIdentifier k v)
      | _ => raise ValueError ("Identifier is unknown or ambiguous: " +:+ v)
      end
  end.

Definition validate_identifier (v : string) (k : IdentifierKind) : result string :=
  value <$> new (mkDomainIdentifier k v).

(** ** Normalised components, on ASCII text *)
Definition is_alnum (c : ascii) : bool := is_alpha c || is_digit c.
(** [re.sub(r"[^A-Za-z0-9]+", "-", s)]. *)
Fixpoint sub_runs (in_run : bool) (s : string) : string :=
  match s with
  | EmptyString => EmptyString
  | String c s =>
      if is_alnum c then String c (sub_runs false s)
      else if in_run then sub_runs true s
      else String "-" (sub_runs true s)
  end.
Definition is_dash (c : ascii) : bool := Ascii.eqb c "-".
Definition normalize_identifier_component (v : string) : result string :=
  let component := str_upper (str_rstrip is_dash (str_lstrip is_dash (sub_runs false v))) in
  _ ← raise_if (negb (str_truthy component)) ValueError
        "identifier component cannot be empty after normalization";
  Ok component.

Definition project_identifier (name : string) : result DomainIdentifier :=
  component ← normalize_identifier_component name;
  let component :=
    if str_startswith "PROJECT-" component then str_drop 8 component else component in
  new (mkDomainIdentifier PROJECT ("PROJECT-" +:+ component)).

(** ** Deterministic digest identifiers *)
Definition unit_separator : string := String (ascii_of_nat 31) "".

(** [hashlib.sha256(canonical.encode("utf-8")).hexdigest()[:20].upper()] *)
Definition short_digest (canonical : string) : string :=
  str_upper (str_take 20 (Sha256.hexdigest canonical)).

Definition digest_prefix (k : IdentifierKind) : option string :=
  match k with
  | TRACE_LINK => Some "TRACE" | TRANSITION => Some "TRANS" | CATALOG_IMPORT => Some "IMPORT"
  | MUTATION => Some "MUT" | COMPILATION => Some "COMP" | BOOTSTRAP => Some "BOOT"
  | GAP => Some "GAP"
  | _ => None
  end.

Definition deterministic_identifier (k : IdentifierKind) (parts : list string)
  : result DomainIdentifier :=
  match digest_prefix k with
  | None => raise ValueError
      ("Deterministic digest identifiers are unsupported for " +:+ IdentifierKind_value k)
  | Some prefix =>
      let canonical := str_join unit_separator (str_strip <$> parts) in
      _ ← raise_if (negb (str_truthy canonical)
                    || existsb (λ p, negb (str_truthy (str_strip p))) parts)
            ValueError "deterministic identifier parts must be non-empty";
      new (mkDomainIdentifier k (prefix +:+ "-" +:+ short_digest canonical))
  end.

(** [control_identifier] and [scheduler_identifier] share their body. *)
Definition prefixed_identifier (label prefix : string) (parts : list string) : result string :=
  _ ← raise_if (bool_decide (parts = []) || existsb (λ p, negb (str_truthy (str_strip p))) parts)
        ValueError (label +:+ " identifier parts must be non-empty");
  Ok (prefix +:+ "-" +:+ short_digest (str_join unit_separator (str_strip <$> parts))).

Definition control_identifier (prefix : string) (parts : list string) : result string :=
  prefixed_identifier "control" prefix parts.
Definition scheduler_identifier (prefix : string) (parts : list string) : result string :=
  prefixed_identifier "scheduler" prefix parts.

Definition CONTROL_ID : re :=
  Cat (alts [lit "CTRL"; lit "SEQ"; lit "SCOPE"; lit "COMPLETE"]) (Cat (lit "-") (times 20 hex_upper)).
Definition SCHEDULER_ID : re :=
  Cat (alts [lit "SCHED"; lit "LANE"; lit "LEASE"; lit "SIM"]) (Cat (lit "-") (times 20 hex_upper)).

(** The validator shared by the records that carry such an identifier:
    the whole pattern and the prefix of the record's own kind. *)
Definition valid_prefixed_id (pattern : re) (prefix v : string) : bool :=
  fullmatch pattern v && str_startswith prefix v.

(** ** Lemmas *)

Lemma hex_lower_upper c : Sha256.is_hex_lower c = true → is_hex_upper (ascii_upper c) = true.
Proof. destruct c as [[] [] [] [] [] [] [] []]; vm_compute; congruence. Qed.

Lemma short_digest_shape s :
  str_forall is_hex_upper (short_digest s) = true ∧ String.length (short_digest s) = 20.
Proof.
  destruct (Sha256.hexdigest_ok s) as [Hh Hl]. unfold short_digest, str_upper. split.
  - rewrite str_forall_map.
    eapply str_forall_impl; [apply hex_lower_upper|]. by apply str_forall_take.
  - rewrite str_length_map, str_length_take; lia.
Qed.

Lemma short_digest_matches s : matches (times 20 hex_upper) (short_digest s).
Proof.
  destruct (short_digest_shape s) as [Hh <-]. by apply matches_times.
Qed.

Lemma digest_id_matches prefix s : matches (digest_id prefix) (prefix +:+ "-" +:+ short_digest s).
Proof.
  unfold digest_id. apply m_cat; [apply matches_lit|].
  apply m_cat; [apply (matches_lit "-") | apply short_digest_matches].
Qed.

Lemma digest_prefix_pattern k prefix :
  digest_prefix k = Some prefix → pattern_of k = digest_id prefix.
Proof. destruct k; simpl; intros [= <-]; reflexivity. Qed.

Lemma deterministic_identifier_value k prefix parts d :
  digest_prefix k = Some prefix →
  deterministic_identifier k parts = Ok d →
  d = mkDomainIdentifier k
        (prefix +:+ "-" +:+ short_digest (str_join unit_separator (str_strip <$> parts))).
Proof. intros Hk. unfold deterministic_identifier. rewrite Hk. intros Hd. by ok_inv. Qed.

Lemma new_digest_identifier k prefix s :
  digest_prefix k = Some prefix →
  new (mkDomainIdentifier k (prefix +:+ "-" +:+ short_digest s))
  = Ok (mkDomainIdentifier k (prefix +:+ "-" +:+ short_digest s)).
Proof.
  intros Hk. apply new_valid. unfold validate, DomainIdentifier_model. simpl.
  apply raise_if_ok, negb_false_iff, fullmatch_spec.
  rewrite (digest_prefix_pattern _ _ Hk). apply digest_id_matches.
Qed.

Lemma prefixed_identifier_ok label prefix parts v :
  prefixed_identifier label prefix parts = Ok v →
  v = prefix +:+ "-" +:+ short_digest (str_join unit_separator (str_strip <$> parts)).
Proof. unfold prefixed_identifier. intros Hv. by ok_inv. Qed.

Lemma prefixed_identifier_returns label prefix parts :
  parts ≠ [] → Forall (λ p, str_truthy (str_strip p) = true) parts →
  prefixed_identifier label prefix parts
  = Ok (prefix +:+ "-" +:+ short_digest (str_join unit_separator (str_strip <$> parts))).
Proof.
  intros Hne Hp. unfold prefixed_identifier. rewrite bool_decide_false by done. simpl.
  replace (existsb _ parts) with false; [done|]. symmetry. apply not_true_is_false.
  rewrite existsb_exists. intros (p & Hin%list_elem_of_In & Hs).
  rewrite Forall_forall in Hp. by rewrite Hp in Hs.
Qed.

(** *** The shape of a normalised component

    [shape p end_ok after_dash s]: letters satisfy [p], dashes are never
    adjacent, and (unless [end_ok]) the last character is not a dash. *)
Fixpoint shape (p : ascii → bool) (end_ok after_dash : bool) (s : string) : bool :=
  match s with
  | EmptyString => end_ok || negb after_dash
  | String c s =>
      if is_dash c then negb after_dash && shape p end_ok true s
      else p c && shape p end_ok false s
  end.
Definition is_ud (c : ascii) : bool := is_upper c || is_digit c.

Lemma sub_runs_shape b s : shape is_alnum true b (sub_runs b s) = true.
Proof.
  revert b. induction s as [|c s IH]; intros b; simpl; [done|].
  destruct (is_alnum c) eqn:E; simpl.
  - assert (is_dash c = false) as ->; [|by rewrite E, IH].
    revert E. destruct c as [[] [] [] [] [] [] [] []]; vm_compute; congruence.
  - destruct b; simpl; auto.
Qed.
Lemma lstrip_shape p b s :
  shape p true b s = true →
  str_lstrip is_dash s = "" ∨ shape p true true (str_lstrip is_dash s) = true.
Proof.
  revert b. induction s as [|c s IH]; intros b; simpl; [by left|].
  destruct (is_dash c) eqn:E.
  - intros [_ Hs]%andb_true_iff. by apply (IH true).
  - simpl. rewrite E. auto.
Qed.
Lemma rstrip_shape p b s :
  shape p true b s = true →
  str_rstrip is_dash s = "" ∨ shape p false b (str_rstrip is_dash s) = true.
Proof.
  revert b. induction s as [|c s IH]; intros b; simpl; [by left|].
  destruct (is_dash c) eqn:E; intros [Hc Hs]%andb_true_iff;
    destruct (IH _ Hs) as [Hn|Hn]; destruct (str_rstrip is_dash s) eqn:Er;
    try discriminate Hn; simpl; rewrite ?E; auto; right; simpl in *; rewrite ?Hc, ?Hn; auto.
Qed.
Lemma upper_shape b s :
  shape is_alnum false b s = true → shape is_ud false b (str_upper s) = true.
Proof.
  revert b. induction s as [|c s IH]; intros b; simpl; [done|].
  assert (is_dash (ascii_upper c) = is_dash c ∧ (is_alnum c = true → is_ud (ascii_upper c) = true))
    as [-> Hu] by (destruct c as [[] [] [] [] [] [] [] []]; vm_compute; split; congruence).
  destruct (is_dash c); rewrite !andb_true_iff; naive_solver.
Qed.
Lemma normalize_shape v c :
  normalize_identifier_component v = Ok c → shape is_ud false true c = true.
Proof.
  unfold normalize_identifier_component. intros Hv. apply bind_ok in Hv as ([] & Hne & [= <-]).
  apply raise_if_ok in Hne.
  destruct (lstrip_shape is_alnum false (sub_runs false v) (sub_runs_shape _ _)) as [E|Hl];
    [by rewrite E in Hne|].
  destruct (rstrip_shape _ _ _ Hl) as [E|Hr]; [by rewrite E in Hne|]. by apply upper_shape.
Qed.

Lemma shape_matches s :
  (shape is_ud false true s = true →
     matches (Cat (plus upper_digit) (Star (Cat (lit "-") (plus upper_digit)))) s)
  ∧ (shape is_ud false false s = true →
     matches (Cat (Star upper_digit) (Star (Cat (lit "-") (plus upper_digit)))) s).
Proof.
  induction s as [|c s [IHt IHf]]; simpl; split; intros Hs; try done.
  - apply (m_cat _ _ "" ""); constructor.
  - destruct (is_dash c); [done|]. apply andb_true_iff in Hs as [Hc Hs].
    specialize (IHf Hs). inv IHf. rewrite <-str_app_cons. apply m_cat; [|done].
    apply (m_cat _ _ (String c "")); [by constructor|done].
  - destruct (is_dash c) eqn:E.
    + specialize (IHt Hs). inv IHt. rewrite <-str_app_cons.
      assert (c = "-"%char) as -> by (by apply Ascii.eqb_eq).
      apply (m_cat _ _ "" (String "-" x +:+ y)); [constructor|]. apply m_star_cons; [|done].
      apply (m_cat _ _ "-"); [apply (matches_lit "-")|done].
    + apply andb_true_iff in Hs as [Hc Hs].
      specialize (IHf Hs). inv IHf. rewrite <-str_app_cons. apply m_cat; [|done].
      apply (m_star_cons _ (String c "")); [by constructor|done].
Qed.
Lemma shape_project_id s :
  shape is_ud false true s = true → matches PROJECT_ID ("PROJECT-" +:+ s).
Proof.
  intros Hs%shape_matches. apply m_cat; [apply matches_lit|done].
Qed.

Lemma shape_fixed b s :
  shape is_ud false b s = true →
  sub_runs b s = s ∧ str_rstrip is_dash s = s ∧ str_upper s = s
  ∧ (b = true → str_lstrip is_dash s = s).
Proof.
  revert b. induction s as [|c s IH]; intros b; simpl; [done|].
  assert (is_ud c = true → is_alnum c = true ∧ ascii_upper c = c) as Hud
    by (destruct c as [[] [] [] [] [] [] [] []]; vm_compute; split; congruence).
  assert (is_dash c = true → is_alnum c = false ∧ ascii_upper c = c ∧ c = "-"%char) as Hd
    by (destruct c as [[] [] [] [] [] [] [] []]; vm_compute; intuition congruence).
  destruct (is_dash c) eqn:E; intros [Hc Hs]%andb_true_iff;
    destruct (IH _ Hs) as (E1 & E2 & E3 & _); unfold str_upper in *; simpl.
  - destruct Hd as (Hd1 & Hd2 & ->); [done|]. destruct b; [done|].
    rewrite Hd1, E1, E2, E3. destruct s; [done|]. naive_solver.
  - destruct Hud as [Hu1 Hu2]; [done|]. rewrite Hu1, Hu2, E1, E2, E3. by destruct s.
Qed.

(** ** Properties *)

(** Filter [PATTERNS] on a digest identifier: only its own entry is left. *)
Lemma digest_patterns k prefix s :
  digest_prefix k = Some prefix →
  filter (λ kp, fullmatch kp.2 (prefix +:+ "-" +:+ short_digest s) = true) PATTERNS
  = [(k, pattern_of k)].
Proof.
  intros Hk.
  assert (fullmatch (pattern_of k) (prefix +:+ "-" +:+ short_digest s) = true) as Hown.
  { apply fullmatch_spec. rewrite (digest_prefix_pattern _ _ Hk). apply digest_id_matches. }
  unfold PATTERNS. rewrite <-str_app_assoc in *.
  destruct k; simpl in Hk; try done; injection Hk as <-;
    repeat first
      [ rewrite filter_cons_False
          by (simpl; rewrite fullmatch_prefix_Empty by (vm_compute; reflexivity); discriminate)
      | rewrite filter_cons_True by exact Hown ]; reflexivity.
Qed.

Lemma prefix_app s t : String.prefix s (s +:+ t) = true.
Proof.
  induction s as [|c s IH]; [by destruct t|]. rewrite str_app_cons. simpl.
  by destruct (ascii_dec c c).
Qed.
Lemma prefix_split s t : String.prefix s t = true → t = s +:+ str_drop (String.length s) t.
Proof.
  revert t. induction s as [|c s IH]; intros t; [done|]. destruct t as [|d t]; simpl; [done|].
  destruct (ascii_dec c d) as [<-|]; [|done]. intros Ht. rewrite str_app_cons. f_equal. by apply IH.
Qed.

(** ** Identifiers as parts of other identifiers *)
Lemma nonspace_truthy c s : is_space c = false → str_truthy (str_strip (String c s)) = true.
Proof.
  intros Hc. unfold str_strip. simpl. rewrite Hc. simpl. rewrite Hc. by destruct (str_rstrip _ s).
Qed.
Lemma matches_first r c s : matches r (String c s) → is_Empty (deriv c r) = false.
Proof.
  intros Hm%deriv_complete. by destruct (deriv c r); [inversion Hm|..].
Qed.
Lemma space_not_first k c : is_space c = true → is_Empty (deriv c (pattern_of k)) = true.
Proof. destruct c as [[] [] [] [] [] [] [] []]; try discriminate; by destruct k. Qed.
(** An accepted identifier is not blank, so it can be a digest part. *)
Lemma identifier_nonblank v k : is_ok (validate_identifier v k) = true → str_truthy (str_strip v) = true.
Proof.
  unfold validate_identifier. destruct (new _) as [d|e] eqn:E; [|done]. intros _.
  apply new_ok in E as [-> Hv%raise_if_ok]. apply negb_false_iff, fullmatch_spec in Hv. simpl in Hv.
  destruct v as [|c v].
  - apply nullable_spec in Hv. by destruct k.
  - apply nonspace_truthy. destruct (is_space c) eqn:Ec; [|done].
    apply matches_first in Hv. rewrite space_not_first in Hv; done.
Qed.
Lemma hex_not_space c : Sha256.is_hex_lower c = true → is_space c = false.
Proof. destruct c as [[] [] [] [] [] [] [] []]; vm_compute; congruence. Qed.
Lemma hexdigest_nonblank s : str_truthy (str_strip (Sha256.hexdigest s)) = true.
Proof.
  destruct (Sha256.hexdigest_ok s) as [Hh Hl]. destruct (Sha256.hexdigest s) as [|c h]; [done|].
  apply nonspace_truthy, hex_not_space. simpl in Hh. by apply andb_true_iff in Hh as [? _].
Qed.

(** Numbers are not blank. *)
Definition inked (s : string) : Prop := ∃ c s', s = String c s' ∧ is_space c = false.
Lemma pretty_char_inked n s : inked (String (pretty_N_char n) s).
Proof. do 2 eexists. split; [done|]. unfold pretty_N_char. by repeat case_match. Qed.
Lemma pretty_go_inked x s : inked s → inked (pretty_N_go x s).
Proof.
  revert s. induction (N.lt_wf_0 x) as [x _ IH]; intros s Hs.
  destruct (decide (0 < x)%N) as [Hx|Hx].
  - rewrite pretty_N_go_step by done. apply IH; [by apply N.div_lt|apply pretty_char_inked].
  - by replace x with 0%N by lia; rewrite pretty_N_go_0.
Qed.
Lemma pretty_pos_inked p : inked (pretty (Npos p)).
Proof.
  unfold pretty, pretty_N. rewrite decide_False by done. rewrite pretty_N_go_step by done.
  apply pretty_go_inked, pretty_char_inked.
Qed.
Lemma str_of_Z_nonblank z : str_truthy (str_strip (str_of_Z z)) = true.
Proof.
  destruct z as [|p|p]; [done| |].
  - change (str_of_Z (Zpos p)) with (pretty (Npos p)).
    destruct (pretty_pos_inked p) as (c & s & -> & Hc). by apply nonspace_truthy.
  - change (str_of_Z (Zneg p)) with (String "-"%char (pretty (Npos p))). by apply nonspace_truthy.
Qed.

(** A text with a nonblank part is nonblank. *)
Lemma rstrip_inked s : inked s → str_truthy (str_rstrip is_space s) = true.
Proof. intros (c & s' & -> & Hc). simpl. rewrite Hc. by destruct (str_rstrip is_space s'). Qed.
Lemma nonblank_lstrip s : str_truthy (str_strip s) = true ↔ inked (str_lstrip is_space s).
Proof.
  unfold str_strip. split; [|apply rstrip_inked].
  assert (str_lstrip is_space s = "" ∨ inked (str_lstrip is_space s)) as [E|?]; [|by rewrite E|done].
  induction s as [|c s IH]; [by left|]. simpl. destruct (is_space c) eqn:E; [done|]. right. by exists c, s.
Qed.
Lemma nonblank_app s t : str_truthy (str_strip s) = true → str_truthy (str_strip (s +:+ t)) = true.
Proof.
  rewrite !nonblank_lstrip. induction s as [|c s IH]; simpl; [by intros (? & ? & ? & _)|].
  change (String.append (String c s) t) with (String c (s +:+ t)). simpl.
  destruct (is_space c) eqn:E; [done|]. intros _. by exists c, (s +:+ t).
Qed.
Lemma hex_nonblank s : str_forall Sha256.is_hex_lower s = true → s ≠ "" → str_truthy (str_strip s) = true.
Proof.
  destruct s as [|c s]; [done|]. simpl. intros [Hc _]%andb_true_iff _. by apply nonspace_truthy, hex_not_space.
Qed.
Lemma prefixed_nonblank pattern c prefix v : is_space c = false →
  valid_prefixed_id pattern (String c prefix) v = true → str_truthy (str_strip v) = true.
Proof.
  intros Hc. unfold valid_prefixed_id. intros [_ Hp]%andb_true_iff. destruct v as [|d v]; [done|].
  unfold str_startswith in Hp. simpl in Hp. destruct (ascii_dec c d) as [<-|]; [|done]. by apply nonspace_truthy.
Qed.

(** Digest identifiers pass the validators of the records that carry them. *)
Lemma prefixed_id_valid r prefix s :
  matches r prefix →
  valid_prefixed_id (Cat r (Cat (lit "-") (times 20 hex_upper))) (prefix +:+ "-")
    (prefix +:+ "-" +:+ short_digest s) = true.
Proof.
  intros Hp. unfold valid_prefixed_id. apply andb_true_iff. split.
  - apply fullmatch_spec, m_cat; [done|]. apply m_cat; [apply (matches_lit "-")|apply short_digest_matches].
  - unfold str_startswith. rewrite <-(str_app_assoc prefix "-"). apply prefix_app.
Qed.
Lemma control_id_valid prefix s :
  prefix ∈ ["CTRL"; "SEQ"; "SCOPE"; "COMPLETE"] →
  valid_prefixed_id CONTROL_ID (prefix +:+ "-") (prefix +:+ "-" +:+ short_digest s) = true.
Proof.
  intros Hp. apply prefixed_id_valid. apply fullmatch_spec.
  repeat (apply elem_of_cons in Hp as [->|Hp]; [reflexivity|]). by apply elem_of_nil in Hp.
Qed.
Lemma scheduler_id_valid prefix s :
  prefix ∈ ["SCHED"; "LANE"; "LEASE"; "SIM"] →
  valid_prefixed_id SCHEDULER_ID (prefix +:+ "-") (prefix +:+ "-" +:+ short_digest s) = true.
Proof.
  intros Hp. apply prefixed_id_valid. apply fullmatch_spec.
  repeat (apply elem_of_cons in Hp as [->|Hp]; [reflexivity|]). by apply elem_of_nil in Hp.
Qed.

Lemma strip_project_shape c :
  shape is_ud false true c = true →
  shape is_ud false true
    (if str_startswith "PROJECT-" c then str_drop 8 c else c) = true.
Proof.
  intros Hc. destruct (str_startswith "PROJECT-" c) eqn:E; [|done].
  apply prefix_split in E. rewrite E in Hc. exact Hc.
Qed.
(** A digest identifier parses back, without an expected kind, to itself:
    exactly one pattern of the registry accepts it. *)
Theorem deterministic_identifier_parse k parts d :
  deterministic_identifier k parts = Ok d → parse (value d) None = Ok d.
Proof.
  intros Hd. unfold deterministic_identifier in Hd.
  destruct (digest_prefix k) as [prefix|] eqn:Hk; [|discriminate Hd].
  ok_inv. unfold parse. simpl. rewrite (digest_patterns _ _ _ Hk).
  by apply new_digest_identifier.
Qed.

(** A name with a usable component always gets a project identifier (the
    pattern check of the constructor cannot fail), and naming a project by an
    identifier already issued returns that identifier unchanged. *)
Theorem project_identifier_total_idempotent name c :
  normalize_identifier_component name = Ok c →
  ∃ d, project_identifier name = Ok d ∧ kind d = PROJECT
       ∧ matches PROJECT_ID (value d) ∧ project_identifier (value d) = Ok d.
Proof.
  intros Hc. pose proof (normalize_shape _ _ Hc) as Hs%strip_project_shape.
  set (c' := if str_startswith "PROJECT-" c then str_drop 8 c else c) in *.
  assert (∀ d, new (mkDomainIdentifier PROJECT ("PROJECT-" +:+ c')) = Ok d ↔
            d = mkDomainIdentifier PROJECT ("PROJECT-" +:+ c')) as Hnew.
  { intros d. rewrite new_ok. split; [naive_solver|]. intros ->. split; [done|].
    apply raise_if_ok, negb_false_iff, fullmatch_spec. by apply shape_project_id. }
  exists (mkDomainIdentifier PROJECT ("PROJECT-" +:+ c')).
  split; [|split; [done|split; [by apply shape_project_id|]]].
  - unfold project_identifier. rewrite Hc. simpl. by apply Hnew.
  - assert (shape is_ud false true ("PROJECT-" +:+ c') = true) as Hp by exact Hs.
    assert (shape is_ud false false ("PROJECT-" +:+ c') = true) as Hp' by exact Hs.
    destruct (shape_fixed _ _ Hp) as (_ & E2 & E3 & E4).
    destruct (shape_fixed _ _ Hp') as (E1 & _).
    unfold project_identifier, normalize_identifier_component. simpl value.
    rewrite E1, E4, E2, E3 by done.
    pose proof (prefix_app "PROJECT-" c') as Hpre. pose proof (str_drop_app "PROJECT-" c') as Hdrop.
    revert Hpre Hdrop. change (String.length "PROJECT-") with 8.
    change (raise_if (negb (str_truthy ("PROJECT-" +:+ c'))) ValueError
      "identifier component cannot be empty after normalization") with (Ok ()).
    cbn [mbind result_bind]. unfold str_startswith. intros -> ->. by apply Hnew.
Qed.

Lemma deterministic_identifier_parse_witness :
  ∃ d, deterministic_identifier TRANSITION ["task"; "PP-TASK-000001"] = Ok d
       ∧ parse (value d) None = Ok d.
Proof.
  destruct (deterministic_identifier TRANSITION ["task"; "PP-TASK-000001"]) as [d|e] eqn:E;
    [|vm_compute in E; discriminate E].
  exists d. split; [reflexivity|]. exact (deterministic_identifier_parse _ _ _ E).
Defined.

Lemma project_identifier_total_idempotent_witness :
  ∃ d, project_identifier "My  demo: app!" = Ok d ∧ kind d = PROJECT
       ∧ matches PROJECT_ID (value d) ∧ project_identifier (value d) = Ok d.
Proof. apply (project_identifier_total_idempotent _ "MY-DEMO-APP"). reflexivity. Defined.
