(* ===== verification/TaskState.v ===== *)
(** * TaskState: [domain/state.py]

    Project and task lifecycle states, the two transition tables, the
    versioned state records with their validators, and the audit record of a
    state transition.  Timestamps are UTC instants in microseconds. *)
From S2P Require Import Prelude PyStd PyRe Identifiers.
Local Open Scope Z_scope.

Inductive ProjectLifecycleState :=
  | PL_REGISTERED | PL_COMPILING | PL_READY | PL_ACTIVE | PL_BLOCKED
  | PL_VERIFYING | PL_COMPLETED | PL_FAILED | PL_ARCHIVED.
#[export] Instance ProjectLifecycleState_eq_dec : EqDecision ProjectLifecycleState.
Proof. solve_decision. Defined.

Definition ProjectLifecycleState_value (s : ProjectLifecycleState) : string :=
  match s with
  | PL_REGISTERED => "REGISTERED" | PL_COMPILING => "COMPILING" | PL_READY => "READY"
  | PL_ACTIVE => "ACTIVE" | PL_BLOCKED => "BLOCKED" | PL_VERIFYING => "VERIFYING"
  | PL_COMPLETED => "COMPLETED" | PL_FAILED => "FAILED" | PL_ARCHIVED => "ARCHIVED"
  end.

Inductive TaskLifecycleState :=
  | BACKLOG | READY | CLAIMED | IN_PROGRESS | BLOCKED
  | IN_REVIEW | VALIDATING | DONE | FAILED | CANCELLED.
#[export] Instance TaskLifecycleState_eq_dec : EqDecision TaskLifecycleState.
Proof. solve_decision. Defined.

Definition TaskLifecycleState_value (s : TaskLifecycleState) : string :=
  match s with
  | BACKLOG => "BACKLOG" | READY => "READY" | CLAIMED => "CLAIMED"
  | IN_PROGRESS => "IN_PROGRESS" | BLOCKED => "BLOCKED" | IN_REVIEW => "IN_REVIEW"
  | VALIDATING => "VALIDATING" | DONE => "DONE" | FAILED => "FAILED" | CANCELLED => "CANCELLED"
  end.

#[export] Instance TaskLifecycleState_value_inj : Inj (=) (=) TaskLifecycleState_value.
Proof. intros [] []; simpl; congruence. Qed.
#[export] Instance ProjectLifecycleState_value_inj : Inj (=) (=) ProjectLifecycleState_value.
Proof. intros [] []; simpl; congruence. Qed.

Definition PROJECT_TRANSITIONS (s : ProjectLifecycleState) : list ProjectLifecycleState :=
  match s with
  | PL_REGISTERED => [PL_COMPILING; PL_BLOCKED]
  | PL_COMPILING => [PL_READY; PL_BLOCKED; PL_FAILED]
  | PL_READY => [PL_ACTIVE; PL_BLOCKED; PL_ARCHIVED]
  | PL_ACTIVE => [PL_BLOCKED; PL_VERIFYING; PL_FAILED]
  | PL_BLOCKED => [PL_COMPILING; PL_READY; PL_ACTIVE; PL_FAILED]
  | PL_VERIFYING => [PL_ACTIVE; PL_BLOCKED; PL_COMPLETED; PL_FAILED]
  | PL_COMPLETED => [PL_ACTIVE; PL_ARCHIVED]
  | PL_FAILED => [PL_COMPILING; PL_BLOCKED; PL_ARCHIVED]
  | PL_ARCHIVED => []
  end.

Definition TASK_TRANSITIONS (s : TaskLifecycleState) : list TaskLifecycleState :=
  match s with
  | BACKLOG => [READY; BLOCKED; CANCELLED]
  | READY => [CLAIMED; BLOCKED; CANCELLED]
  | CLAIMED => [READY; IN_PROGRESS; BLOCKED]
  | IN_PROGRESS => [BLOCKED; IN_REVIEW; FAILED]
  | BLOCKED => [BACKLOG; READY; IN_PROGRESS; CANCELLED]
  | IN_REVIEW => [IN_PROGRESS; VALIDATING; BLOCKED]
  | VALIDATING => [IN_PROGRESS; BLOCKED; DONE; FAILED]
  | DONE => [IN_PROGRESS]
  | FAILED => [READY; IN_PROGRESS; CANCELLED]
  | CANCELLED => [BACKLOG]
  end.

Definition ensure_project_transition (previous next_state : ProjectLifecycleState) : result () :=
  raise_if (bool_decide (next_state ∉ PROJECT_TRANSITIONS previous)) ValueError
    ("invalid project transition: " +:+ ProjectLifecycleState_value previous +:+ " -> "
     +:+ ProjectLifecycleState_value next_state).

Definition ensure_task_transition (previous next_state : TaskLifecycleState) : result () :=
  raise_if (bool_decide (next_state ∉ TASK_TRANSITIONS previous)) ValueError
    ("invalid task transition: " +:+ TaskLifecycleState_value previous +:+ " -> "
     +:+ TaskLifecycleState_value next_state).

Definition jira_mapping : list (string * TaskLifecycleState) :=
  [("BACKLOG", BACKLOG); ("READY", READY); ("IN_PROGRESS", IN_PROGRESS); ("REVIEW", IN_REVIEW);
   ("IN_REVIEW", IN_REVIEW); ("VALIDATION", VALIDATING); ("VALIDATING", VALIDATING);
   ("MERGE_READY", VALIDATING); ("BLOCKED", BLOCKED); ("DONE", DONE); ("FAILED", FAILED);
   ("CANCELLED", CANCELLED)].
Definition task_state_from_jira (v : string) : result TaskLifecycleState :=
  match List.find (λ kv, String.eqb kv.1 v) jira_mapping with
  | Some kv => Ok kv.2
  | None => raise ValueError ("unsupported Jira lifecycle state: " +:+ v)
  end.

(** ** Versioned records *)
Definition max_length (n : nat) (s : string) : bool := bool_decide (String.length s ≤ n)%nat.
Definition min_length (n : nat) (s : string) : bool := bool_decide (n ≤ String.length s)%nat.
Definition opt_all {A} (p : A → bool) (o : option A) : bool :=
  match o with Some a => p a | None => true end.
(** Truth value of an optional string. *)
Definition opt_truthy (o : option string) : bool :=
  match o with Some s => str_truthy s | None => false end.

Definition PRIORITY : re := cats [lit "P"; alts [lit "0"; lit "1"; lit "2"; lit "3"]].

Record ProjectStateRecord := mkProjectStateRecord {
  ps_project_id : string;
  ps_state : ProjectLifecycleState;
  ps_version : Z;
  ps_manifest_revision : Z;
  ps_blocked_reason : option string;
  ps_task_counts : list (string * Z);
  ps_last_transition_id : option string;
  ps_updated_at_utc : Z;
}.

#[export] Instance ProjectStateRecord_model : Model ProjectStateRecord := λ r,
  _ ← validate_identifier (ps_project_id r) PROJECT;
  _ ← raise_if (ps_version r <? 1) ValidationError "version";
  _ ← raise_if (ps_manifest_revision r <? 1) ValidationError "manifest_revision";
  _ ← raise_if (negb (opt_all (max_length 2000) (ps_blocked_reason r))) ValidationError
        "blocked_reason";
  _ ← raise_if (bool_decide (ps_state r = PL_BLOCKED) && negb (opt_truthy (ps_blocked_reason r)))
        ValueError "blocked project state requires a reason";
  _ ← raise_if (bool_decide (ps_state r ≠ PL_BLOCKED) && opt_truthy (ps_blocked_reason r))
        ValueError "blocked reason is only valid for BLOCKED project state";
  raise_if (existsb (λ kv, kv.2 <? 0) (ps_task_counts r)) ValueError "task counts cannot be negative".

Record TaskStateRecord := mkTaskStateRecord {
  ts_task_id : string;
  ts_project_id : string;
  ts_state : TaskLifecycleState;
  ts_version : Z;
  ts_priority : string;
  ts_dependency_ids : list string;
  ts_blocker_ids : list string;
  ts_owner_id : option string;
  ts_blocked_reason : option string;
  ts_last_transition_id : option string;
  ts_updated_at_utc : Z;
}.

Definition validate_related_tasks (message : string) (values : list string) : result () :=
  _ ← raise_if (has_duplicates values) ValueError message;
  for_each (λ v, _ ← validate_identifier v ISSUE; Ok ()) values.

#[export] Instance TaskStateRecord_model : Model TaskStateRecord := λ r,
  _ ← validate_identifier (ts_task_id r) ISSUE;
  _ ← validate_identifier (ts_project_id r) PROJECT;
  _ ← raise_if (ts_version r <? 1) ValidationError "version";
  _ ← raise_if (negb (fullmatch PRIORITY (ts_priority r))) ValidationError "priority";
  _ ← validate_related_tasks "task relation lists cannot contain duplicates" (ts_dependency_ids r);
  _ ← validate_related_tasks "task relation lists cannot contain duplicates" (ts_blocker_ids r);
  _ ← raise_if (negb (opt_all (max_length 191) (ts_owner_id r))) ValidationError "owner_id";
  _ ← raise_if (negb (opt_all (max_length 2000) (ts_blocked_reason r))) ValidationError
        "blocked_reason";
  _ ← raise_if (str_in (ts_task_id r) (ts_dependency_ids r)
                || str_in (ts_task_id r) (ts_blocker_ids r))
        ValueError "task cannot depend on or be blocked by itself";
  _ ← raise_if (bool_decide (ts_state r = BLOCKED) && negb (opt_truthy (ts_blocked_reason r)))
        ValueError "blocked task state requires a reason";
  raise_if (bool_decide (ts_state r ≠ BLOCKED) && opt_truthy (ts_blocked_reason r))
    ValueError "blocked reason is only valid for BLOCKED task state".

Record DomainStateTransition := mkDomainStateTransition {
  tr_transition_id : string;
  tr_entity_type : string;
  tr_entity_id : string;
  tr_previous_state : string;
  tr_next_state : string;
  tr_expected_version : Z;
  tr_resulting_version : Z;
  tr_reason : string;
  tr_actor_id : string;
  tr_correlation_id : string;
  tr_occurred_at_utc : Z;
}.

#[export] Instance DomainStateTransition_model : Model DomainStateTransition := λ t,
  _ ← validate_identifier (tr_transition_id t) TRANSITION;
  _ ← raise_if (tr_expected_version t <? 1) ValidationError "expected_version";
  _ ← raise_if (tr_resulting_version t <? 2) ValidationError "resulting_version";
  _ ← raise_if (negb (min_length 1 (tr_reason t) && max_length 2000 (tr_reason t)))
        ValidationError "reason";
  _ ← raise_if (negb (min_length 3 (tr_actor_id t) && max_length 191 (tr_actor_id t)))
        ValidationError "actor_id";
  _ ← raise_if (negb (min_length 3 (tr_correlation_id t) && max_length 191 (tr_correlation_id t)))
        ValidationError "correlation_id";
  _ ← raise_if (bool_decide (tr_previous_state t = tr_next_state t)) ValueError
        "state transition cannot be a no-op";
  raise_if (negb (tr_resulting_version t =? tr_expected_version t + 1)) ValueError
    "resulting version must increment expected version by one".

(** [DomainStateTransition.create]; [now] is the [utc_now] default. *)
Definition create_transition (entity_type entity_id previous_state next_state : string)
    (expected_version : Z) (reason actor_id correlation_id : string) (now : Z)
  : result DomainStateTransition :=
  identifier ← deterministic_identifier TRANSITION
    [entity_type; entity_id; previous_state; next_state; str_of_Z expected_version; reason;
     actor_id; correlation_id];
  new (mkDomainStateTransition (value identifier) entity_type entity_id previous_state next_state
         expected_version (expected_version + 1) reason actor_id correlation_id now).

(** ** Lemmas *)
Lemma ensure_task_transition_ok previous next_state u :
  ensure_task_transition previous next_state = Ok u ↔ next_state ∈ TASK_TRANSITIONS previous.
Proof.
  unfold ensure_task_transition. rewrite raise_if_ok, bool_decide_eq_false.
  split; [apply dec_stable | tauto].
Qed.
Lemma ensure_project_transition_ok previous next_state u :
  ensure_project_transition previous next_state = Ok u ↔ next_state ∈ PROJECT_TRANSITIONS previous.
Proof.
  unfold ensure_project_transition. rewrite raise_if_ok, bool_decide_eq_false.
  split; [apply dec_stable | tauto].
Qed.

Lemma create_transition_fields et eid p n v reason actor corr now t :
  create_transition et eid p n v reason actor corr now = Ok t →
  tr_entity_type t = et ∧ tr_entity_id t = eid ∧ tr_previous_state t = p ∧ tr_next_state t = n
  ∧ tr_expected_version t = v ∧ tr_resulting_version t = v + 1 ∧ tr_occurred_at_utc t = now
  ∧ 1 ≤ v ∧ p ≠ n.
Proof.
  unfold create_transition. intros Ht. apply bind_ok in Ht as (d & _ & Ht).
  apply new_ok in Ht as [-> Hv]. unfold validate, DomainStateTransition_model in Hv. simpl in Hv.
  ok_inv. simpl. rewrite ?Z.ltb_ge in *. rewrite bool_decide_eq_false in *. naive_solver.
Qed.

(** ** Reachability in the lifecycle tables *)
Inductive task_path : TaskLifecycleState → list TaskLifecycleState → TaskLifecycleState → Prop :=
  | tp_nil s : task_path s [] s
  | tp_cons s t p u : t ∈ TASK_TRANSITIONS s → task_path t p u → task_path s (t :: p) u.

Lemma task_path_snoc s p u v :
  task_path s p u → v ∈ TASK_TRANSITIONS u → task_path s (p ++ [v]) v.
Proof. induction 1; simpl; intros; econstructor; eauto using task_path. Qed.
Lemma task_path_last s p u :
  task_path s p u →
  (p = [] ∧ u = s) ∨ ∃ q t, p = q ++ [u] ∧ task_path s q t ∧ u ∈ TASK_TRANSITIONS t.
Proof.
  induction 1 as [s|s t p u Ht Hp IH]; [by left|right].
  destruct IH as [[-> ->]|(q & w & -> & Hq & Hw)].
  - exists [], s. by repeat constructor.
  - exists (t :: q), w. split; [done|]. split; [by econstructor|done].
Qed.

(** The sources of the arcs into a state. *)
Lemma transition_sources t :
  (DONE ∈ TASK_TRANSITIONS t → t = VALIDATING)
  ∧ (VALIDATING ∈ TASK_TRANSITIONS t → t = IN_REVIEW)
  ∧ (IN_REVIEW ∈ TASK_TRANSITIONS t → t = IN_PROGRESS).
Proof. destruct t; repeat split; simpl; set_solver. Qed.

(** A task can only become DONE through the whole delivery chain: every
    sequence of legal transitions from a state before execution (or from
    BLOCKED, FAILED, CANCELLED) to DONE ends with IN_PROGRESS, IN_REVIEW,
    VALIDATING, DONE in that order. *)
Theorem done_requires_delivery_chain s p :
  s ∉ [IN_PROGRESS; IN_REVIEW; VALIDATING; DONE] → task_path s p DONE →
  ∃ q, p = q ++ [IN_PROGRESS; IN_REVIEW; VALIDATING; DONE].
Proof.
  intros Hs Hp.
  apply task_path_last in Hp as [[_ <-]|(q & t & -> & Hq & Ht)]; [set_solver|].
  apply (transition_sources t) in Ht as ->.
  apply task_path_last in Hq as [[_ <-]|(q' & t & -> & Hq & Ht)]; [set_solver|].
  apply (transition_sources t) in Ht as ->.
  apply task_path_last in Hq as [[_ <-]|(q & t & -> & Hq & Ht)]; [set_solver|].
  apply (transition_sources t) in Ht as ->.
  apply task_path_last in Hq as [[_ <-]|(q' & t & -> & Hq & Ht)]; [set_solver|].
  exists q'. by rewrite <-!(assoc_L (++)).
Qed.
Lemma done_requires_delivery_chain_witness :
  ∃ q, [READY; CLAIMED; IN_PROGRESS; IN_REVIEW; VALIDATING; DONE]
       = q ++ [IN_PROGRESS; IN_REVIEW; VALIDATING; DONE].
Proof.
  apply (done_requires_delivery_chain BACKLOG); [set_solver|].
  repeat (econstructor; [simpl; set_solver|]). constructor.
Defined.

