(* ===== verification/StateStore.v ===== *)
(** * StateStore: the canonical state tables of [persistence/sqlite.py]

    [SQLiteStateStore] keeps projects, project states, task states and the
    append-only transition log.  A table with a primary key is a finite map,
    the log is the list of its rows in insertion order.  Every mutating
    method runs its body in one [BEGIN IMMEDIATE] transaction: an exception
    rolls the store back. *)
From S2P Require Import Prelude PyStd PyRe Identifiers TaskState.
Local Open Scope Z_scope.

(** ** Project manifests ([domain/project.py]) *)
Inductive ProjectOrigin := ORIGIN_NEW | ORIGIN_ADOPTED.
Inductive RepositoryRole := ROLE_PRIMARY | ROLE_SUPPORTING | ROLE_REFERENCE.
#[export] Instance RepositoryRole_eq_dec : EqDecision RepositoryRole.
Proof. solve_decision. Defined.

Record ProjectRepository := mkProjectRepository {
  repository_id : string; repo_root_path : string;
  repo_role : RepositoryRole; canonical_url : option string;
}.
Record ProjectManifest := mkProjectManifest {
  pm_project_id : string;
  pm_project_name : string;
  pm_root_path : string;
  pm_origin : ProjectOrigin;
  pm_profile : string;
  pm_revision : Z;
  pm_repositories : list ProjectRepository;
  pm_created_at_utc : Z;
  pm_updated_at_utc : Z;
}.
Definition require_primary_repository (values : list ProjectRepository) : result () :=
  _ ← raise_if (bool_decide (length values = O)) ValueError
        "project manifest requires at least one repository";
  _ ← raise_if (negb (count_if (λ r, bool_decide (repo_role r = ROLE_PRIMARY)) values =? 1))
        ValueError "project manifest requires exactly one primary repository";
  raise_if (has_duplicates (repository_id <$> values)) ValueError
    "project repository identifiers must be unique".
Definition primary_repository (m : ProjectManifest) : option ProjectRepository :=
  List.find (λ r, bool_decide (repo_role r = ROLE_PRIMARY)) (pm_repositories m).

(** ** The store *)
Record store := mkStore {
  projects : gmap string (ProjectManifest * Z);
  project_states : gmap string ProjectStateRecord;
  task_states : gmap string TaskStateRecord;
  state_transitions : list (string * DomainStateTransition);
}.
Definition empty_store : store := mkStore ∅ ∅ ∅ [].

(** [with self.transaction() as connection: body]. *)
Definition transaction {A} (body : store → result (store * A)) (st : store) : store * result A :=
  match body st with
  | Ok (st', a) => (st', Ok a)
  | Raise e => (st, Raise e)
  end.

Definition put_project_manifest (m : ProjectManifest) : store → store * result () :=
  transaction (λ st,
    (* the document column holds the new manifest, [created_at_utc] the first one *)
    let created := match projects st !! pm_project_id m with
                   | Some (_, created) => created
                   | None => pm_created_at_utc m end in
    let state :=
      match project_states st !! pm_project_id m with
      | None => mkProjectStateRecord (pm_project_id m) PL_REGISTERED 1 (pm_revision m) None []
                  None (pm_updated_at_utc m)
      | Some s => mkProjectStateRecord (ps_project_id s) (ps_state s) (ps_version s) (pm_revision m)
                    (ps_blocked_reason s) (ps_task_counts s) (ps_last_transition_id s)
                    (pm_updated_at_utc m)
      end in
    Ok (mkStore (<[pm_project_id m := (m, created)]> (projects st))
                (<[pm_project_id m := state]> (project_states st))
                (task_states st) (state_transitions st), ())).

Definition get_project_manifest (st : store) (project_id : string) : option ProjectManifest :=
  fst <$> projects st !! project_id.

(** Reading a row rebuilds, and so revalidates, the record. *)
Definition get_project_state (st : store) (project_id : string)
  : result (option ProjectStateRecord) :=
  match project_states st !! project_id with
  | None => Ok None
  | Some row => r ← new row; Ok (Some r)
  end.
Definition get_task_state (st : store) (task_id : string) : result (option TaskStateRecord) :=
  match task_states st !! task_id with
  | None => Ok None
  | Some row => r ← new row; Ok (Some r)
  end.

(** [SELECT task_id ... WHERE project_id = ? ORDER BY task_id], then one
    [get_task_state] per row. *)
Definition project_task_ids (st : store) (project_id : string) : list string :=
  sorted_by id (fst <$> filter (λ kv, ts_project_id kv.2 = project_id)
                          (map_to_list (task_states st))).
Fixpoint read_tasks (st : store) (ids : list string) : result (list TaskStateRecord) :=
  match ids with
  | [] => Ok []
  | i :: ids =>
      state ← get_task_state st i;
      rest ← read_tasks st ids;
      Ok (match state with Some r => r :: rest | None => rest end)
  end.
Definition list_task_states (st : store) (project_id : string) : result (list TaskStateRecord) :=
  read_tasks st (project_task_ids st project_id).

(** [_insert_transition]: foreign key to [projects], primary key on the
    transition identifier. *)
Definition insert_transition (st : store) (project_id : string) (t : DomainStateTransition)
  : result store :=
  _ ← raise_if (bool_decide (projects st !! project_id = None)) IntegrityError
        "FOREIGN KEY constraint failed";
  _ ← raise_if (str_in (tr_transition_id t) ((λ x, tr_transition_id x.2) <$> state_transitions st))
        IntegrityError "UNIQUE constraint failed: state_transitions.transition_id";
  Ok (mkStore (projects st) (project_states st) (task_states st)
        (state_transitions st ++ [(project_id, t)])).

Definition list_transitions (st : store) (entity_type entity_id : string)
  : list DomainStateTransition :=
  sorted_by tr_resulting_version
    (filter (λ t, tr_entity_type t = entity_type ∧ tr_entity_id t = entity_id)
       (snd <$> state_transitions st)).

(** [UPDATE project_states ... WHERE project_id = ? AND version = ?] with its
    row count. *)
Definition update_project_row (st : store) (project_id : string) (expected_version : Z)
    (f : ProjectStateRecord → ProjectStateRecord) : store * Z :=
  match project_states st !! project_id with
  | Some row =>
      if ps_version row =? expected_version
      then (mkStore (projects st) (<[project_id := f row]> (project_states st))
              (task_states st) (state_transitions st), 1)
      else (st, 0)
  | None => (st, 0)
  end.
Definition update_task_row (st : store) (task_id : string) (expected_version : Z)
    (f : TaskStateRecord → TaskStateRecord) : store * Z :=
  match task_states st !! task_id with
  | Some row =>
      if ts_version row =? expected_version
      then (mkStore (projects st) (project_states st)
              (<[task_id := f row]> (task_states st)) (state_transitions st), 1)
      else (st, 0)
  | None => (st, 0)
  end.

Definition transition_project (project_id : string) (next_state : ProjectLifecycleState)
    (expected_version : Z) (reason actor_id correlation_id : string)
    (blocked_reason : option string) (now : Z) (st : store)
  : store * result ProjectStateRecord :=
  let '(st', r) := transaction (λ st,
    match project_states st !! project_id with
    | None => raise MissingStateError ("project state does not exist: " +:+ project_id)
    | Some row =>
        _ ← raise_if (negb (ps_version row =? expected_version)) ConcurrentStateChangeError
              "project version mismatch";
        _ ← ensure_project_transition (ps_state row) next_state;
        _ ← raise_if (bool_decide (next_state = PL_BLOCKED) && negb (opt_truthy blocked_reason))
              ValueError "blocked project transition requires blocked_reason";
        _ ← raise_if (bool_decide (next_state ≠ PL_BLOCKED) && opt_truthy blocked_reason)
              ValueError "blocked_reason is only valid for a BLOCKED project";
        t ← create_transition "project" project_id (ProjectLifecycleState_value (ps_state row))
              (ProjectLifecycleState_value next_state) expected_version reason actor_id
              correlation_id now;
        let '(st1, rowcount) := update_project_row st project_id expected_version (λ row,
          mkProjectStateRecord (ps_project_id row) next_state (tr_resulting_version t)
            (ps_manifest_revision row) blocked_reason (ps_task_counts row)
            (Some (tr_transition_id t)) (tr_occurred_at_utc t)) in
        _ ← raise_if (negb (rowcount =? 1)) ConcurrentStateChangeError
              "project state changed during transition";
        st2 ← insert_transition st1 project_id t;
        Ok (st2, ())
    end) st in
  (st', _ ← r;
        o ← get_project_state st' project_id;
        match o with
        | Some rec => Ok rec
        | None => raise PersistenceError "project state disappeared after transition"
        end).

(** One [INSERT ... ON CONFLICT(task_id) DO NOTHING]. *)
Definition insert_task_row (st : store) (t : TaskStateRecord) : result store :=
  match task_states st !! ts_task_id t with
  | Some _ => Ok st
  | None =>
      _ ← raise_if (bool_decide (projects st !! ts_project_id t = None)) IntegrityError
            "FOREIGN KEY constraint failed";
      Ok (mkStore (projects st) (project_states st) (<[ts_task_id t := t]> (task_states st))
            (state_transitions st))
  end.
Fixpoint insert_task_rows (st : store) (l : list TaskStateRecord) : result store :=
  match l with
  | [] => Ok st
  | t :: l => st' ← insert_task_row st t; insert_task_rows st' l
  end.
Definition put_task_states (tasks : list TaskStateRecord) : store → store * result Z :=
  transaction (λ st, st' ← insert_task_rows st tasks; Ok (st', Z.of_nat (length tasks))).

Definition transition_task (task_id : string) (next_state : TaskLifecycleState)
    (expected_version : Z) (reason actor_id correlation_id : string)
    (blocked_reason owner_id : option string) (now : Z) (st : store)
  : store * result TaskStateRecord :=
  let '(st', r) := transaction (λ st,
    match task_states st !! task_id with
    | None => raise MissingStateError ("task state does not exist: " +:+ task_id)
    | Some row =>
        _ ← raise_if (negb (ts_version row =? expected_version)) ConcurrentStateChangeError
              "task version mismatch";
        _ ← ensure_task_transition (ts_state row) next_state;
        _ ← raise_if (bool_decide (next_state = BLOCKED) && negb (opt_truthy blocked_reason))
              ValueError "blocked task transition requires blocked_reason";
        _ ← raise_if (bool_decide (next_state ≠ BLOCKED) && opt_truthy blocked_reason)
              ValueError "blocked_reason is only valid for a BLOCKED task";
        t ← create_transition "task" task_id (TaskLifecycleState_value (ts_state row))
              (TaskLifecycleState_value next_state) expected_version reason actor_id
              correlation_id now;
        let '(st1, rowcount) := update_task_row st task_id expected_version (λ row,
          mkTaskStateRecord (ts_task_id row) (ts_project_id row) next_state
            (tr_resulting_version t) (ts_priority row) (ts_dependency_ids row)
            (ts_blocker_ids row)
            (match owner_id with Some o => Some o | None => ts_owner_id row end)
            blocked_reason (Some (tr_transition_id t)) (tr_occurred_at_utc t)) in
        _ ← raise_if (negb (rowcount =? 1)) ConcurrentStateChangeError
              "task state changed during transition";
        st2 ← insert_transition st1 (ts_project_id row) t;
        Ok (st2, ())
    end) st in
  (st', _ ← r;
        o ← get_task_state st' task_id;
        match o with
        | Some rec => Ok rec
        | None => raise PersistenceError "task state disappeared after transition"
        end).

(** ** What a committed task transition does *)
Definition updated_task (row : TaskStateRecord) (next_state : TaskLifecycleState)
    (blocked_reason owner_id : option string) (t : DomainStateTransition) : TaskStateRecord :=
  mkTaskStateRecord (ts_task_id row) (ts_project_id row) next_state
    (ts_version row + 1) (ts_priority row) (ts_dependency_ids row) (ts_blocker_ids row)
    (match owner_id with Some o => Some o | None => ts_owner_id row end)
    blocked_reason (Some (tr_transition_id t)) (tr_occurred_at_utc t).

Lemma transaction_cases {A} (body : store → result (store * A)) st st' r :
  transaction body st = (st', r) →
  (st' = st ∧ ∃ e, body st = Raise e ∧ r = Raise e) ∨ (∃ a, body st = Ok (st', a) ∧ r = Ok a).
Proof. unfold transaction. destruct (body st) as [[s a]|e]; naive_solver. Qed.

Lemma insert_transition_ok st pid t st' :
  insert_transition st pid t = Ok st' →
  is_Some (projects st !! pid)
  ∧ (tr_transition_id t ∉ ((λ x, tr_transition_id x.2) <$> state_transitions st))
  ∧ st' = mkStore (projects st) (project_states st) (task_states st)
            (state_transitions st ++ [(pid, t)]).
Proof.
  unfold insert_transition. intros Hi. apply bind_ok in Hi as ([] & Hp & Hi).
  apply bind_ok in Hi as ([] & Hu & [= <-]). apply raise_if_ok in Hp, Hu.
  rewrite bool_decide_eq_false in Hp. rewrite str_in_false in Hu.
  split; [|done]. by apply not_eq_None_Some.
Qed.

(** A task transition either changes nothing and raises, or commits exactly
    one row update and one log entry; only the read-back can raise after a
    commit. *)
Lemma transition_task_cases task_id next v reason actor corr br owner now st st' r :
  transition_task task_id next v reason actor corr br owner now st = (st', r) →
  (st' = st ∧ ∃ e, r = Raise e)
  ∨ ∃ row t, task_states st !! task_id = Some row ∧ ts_version row = v
      ∧ next ∈ TASK_TRANSITIONS (ts_state row)
      ∧ create_transition "task" task_id (TaskLifecycleState_value (ts_state row))
          (TaskLifecycleState_value next) v reason actor corr now = Ok t
      ∧ (is_Some (projects st !! ts_project_id row)
         ∧ (tr_transition_id t ∉ ((λ x, tr_transition_id x.2) <$> state_transitions st)))
      ∧ bool_decide (next = BLOCKED) = opt_truthy br
      ∧ st' = mkStore (projects st) (project_states st)
                (<[task_id := updated_task row next br owner t]> (task_states st))
                (state_transitions st ++ [(ts_project_id row, t)])
      ∧ r = new (updated_task row next br owner t).
Proof.
  unfold transition_task.
  match goal with |- context [transaction ?b st] => destruct (transaction b st) as [s q] eqn:E end.
  apply transaction_cases in E as [[-> (e & _ & ->)]|([] & Hb & ->)]; intros [= <- <-];
    [left; split; [done|by eexists]|right].
  destruct (task_states st !! task_id) as [row|] eqn:Hrow; [|done].
  apply bind_ok in Hb as ([] & Hv & Hb). apply raise_if_ok in Hv.
  apply negb_false_iff, Z.eqb_eq in Hv.
  apply bind_ok in Hb as ([] & Hn%ensure_task_transition_ok & Hb).
  apply bind_ok in Hb as ([] & Hb1 & Hb). apply bind_ok in Hb as ([] & Hb2 & Hb).
  apply raise_if_ok in Hb1, Hb2.
  apply bind_ok in Hb as (t & Ht & Hb).
  unfold update_task_row in Hb. rewrite Hrow, Hv, Z.eqb_refl in Hb. simpl in Hb.
  apply bind_ok in Hb as (s2 & Hi%insert_transition_ok & [= <-]).
  destruct Hi as (Hp & Hfresh & ->). simpl in *.
  destruct (create_transition_fields _ _ _ _ _ _ _ _ _ _ Ht) as (_&_&_&_&_&Hres&_).
  exists row, t. rewrite Hres. unfold updated_task. rewrite Hv.
  repeat (split; [done|]). split.
  { destruct (opt_truthy br); repeat case_bool_decide; naive_solver. }
  split; [done|]. unfold get_task_state. simpl. rewrite lookup_insert_eq.
  by destruct (new _).
Qed.

(** ** The audit log *)

(** The rows of the log a path of task states leaves behind, starting at
    version [v]. *)
Definition summary (t : DomainStateTransition) : string * string * Z * Z :=
  (tr_previous_state t, tr_next_state t, tr_expected_version t, tr_resulting_version t).
Fixpoint path_log (v : Z) (s : TaskLifecycleState) (p : list TaskLifecycleState)
  : list (string * string * Z * Z) :=
  match p with
  | [] => []
  | s' :: p =>
      (TaskLifecycleState_value s, TaskLifecycleState_value s', v, v + 1) :: path_log (v + 1) s' p
  end.

Definition task_history (st : store) (id : string) (row : TaskStateRecord) : Prop :=
  ∃ v0 s0 p, 1 ≤ v0 ∧ ts_version row = v0 + Z.of_nat (length p)
    ∧ task_path s0 p (ts_state row)
    ∧ summary <$> list_transitions st "task" id = path_log v0 s0 p.

Definition store_inv (st : store) : Prop :=
  (∀ id row, task_states st !! id = Some row → ts_task_id row = id ∧ task_history st id row)
  ∧ (∀ id, task_states st !! id = None → list_transitions st "task" id = []).

Inductive step (st : store) : store → Prop :=
  | step_manifest m : step st (put_project_manifest m st).1
  | step_project pid n v reason actor corr br now :
      step st (transition_project pid n v reason actor corr br now st).1
  | step_tasks l : Forall (λ t, validate t = Ok ()) l → step st (put_task_states l st).1
  | step_task id n v reason actor corr br owner now :
      step st (transition_task id n v reason actor corr br owner now st).1.

Inductive reachable : store → Prop :=
  | reach_empty : reachable empty_store
  | reach_step st st' : reachable st → step st st' → reachable st'.

Lemma path_log_snoc v s p u n :
  task_path s p u →
  path_log v s (p ++ [n])
  = path_log v s p ++ [(TaskLifecycleState_value u, TaskLifecycleState_value n,
                        v + Z.of_nat (length p), v + Z.of_nat (length p) + 1)].
Proof.
  intros Hp. revert v. induction Hp as [s|s t p u Ht Hp IH]; intros v; simpl.
  - by rewrite Z.add_0_r.
  - rewrite IH. by replace (v + 1 + Z.of_nat (length p)) with (v + Z.of_nat (S (length p))) by lia.
Qed.
Lemma path_log_bound v s p x : x ∈ path_log v s p → x.2 ≤ v + Z.of_nat (length p).
Proof.
  revert v s. induction p as [|s' p IH]; intros v s; simpl; [set_solver|].
  intros [->|Hx]%elem_of_cons; simpl; [lia|]. apply IH in Hx. lia.
Qed.

Lemma list_transitions_snoc st st' et id pid t :
  state_transitions st' = state_transitions st ++ [(pid, t)] →
  ¬ (tr_entity_type t = et ∧ tr_entity_id t = id) →
  list_transitions st' et id = list_transitions st et id.
Proof.
  intros E Hne. unfold list_transitions. rewrite E, fmap_app, filter_app. simpl.
  rewrite filter_cons_False by done. by rewrite filter_nil, (right_id_L [] (++)).
Qed.
Lemma list_transitions_snoc_same st st' id pid t row :
  state_transitions st' = state_transitions st ++ [(pid, t)] →
  tr_entity_type t = "task" → tr_entity_id t = id →
  task_history st id row → ts_version row ≤ tr_resulting_version t →
  list_transitions st' "task" id = list_transitions st "task" id ++ [t].
Proof.
  intros E Het Hid (v0 & s0 & p & _ & Hv & _ & Hlog) Hle.
  unfold list_transitions in *. rewrite E, fmap_app, filter_app. simpl.
  rewrite filter_cons_True, filter_nil by done. apply sorted_by_snoc.
  apply Forall_forall. intros x Hx. unfold pyleb, Z_pyord. apply Z.leb_le.
  enough (tr_resulting_version x ≤ v0 + Z.of_nat (length p)) by lia.
  apply (path_log_bound v0 s0 p (summary x)). rewrite <-Hlog.
  apply list_elem_of_fmap_2. by rewrite elem_of_sorted_by.
Qed.

Lemma transition_task_inv id n v reason actor corr br owner now st :
  store_inv st → store_inv (transition_task id n v reason actor corr br owner now st).1.
Proof.
  intros [Hrow Hnone].
  destruct (transition_task _ _ _ _ _ _ _ _ _ _) as [st' r] eqn:E. simpl.
  apply transition_task_cases in E
    as [[-> _]|(row & t & Hl & Hv & Hn & Ht & _ & _ & -> & _)]; [done|].
  destruct (create_transition_fields _ _ _ _ _ _ _ _ _ _ Ht)
    as (Het & Heid & Hprev & Hnext & Hexp & Hres & _).
  destruct (Hrow _ _ Hl) as [Hid Hh].
  split; simpl.
  - intros i r'. rewrite lookup_insert. case_decide as Ei.
    + subst i. intros [= <-]. split; [done|].
      destruct Hh as (v0 & s0 & p & Hv0 & Hver & Hp & Hlog) eqn:EH. clear EH.
      exists v0, s0, (p ++ [n]). simpl. rewrite length_app. simpl.
      split; [done|]. split; [lia|]. split; [by eapply task_path_snoc|].
      erewrite list_transitions_snoc_same by (done || lia).
      rewrite fmap_app, Hlog, (path_log_snoc _ _ _ _ _ Hp). simpl. unfold summary.
      rewrite Hprev, Hnext, Hexp, Hres, <-Hv, Hver. done.
    + intros Hi. destruct (Hrow _ _ Hi) as [? (v0 & s0 & p & ? & ? & ? & ?)]. split; [done|].
      exists v0, s0, p. erewrite list_transitions_snoc; [done..|naive_solver].
  - intros i. rewrite lookup_insert_None. intros [Hi Hne].
    erewrite list_transitions_snoc; [by apply Hnone|done|naive_solver].
Qed.

Lemma transition_project_cases pid n v reason actor corr br now st st' r :
  transition_project pid n v reason actor corr br now st = (st', r) →
  (st' = st ∧ ∃ e, r = Raise e)
  ∨ ∃ row t, project_states st !! pid = Some row ∧ ps_version row = v
      ∧ n ∈ PROJECT_TRANSITIONS (ps_state row)
      ∧ create_transition "project" pid (ProjectLifecycleState_value (ps_state row))
          (ProjectLifecycleState_value n) v reason actor corr now = Ok t
      ∧ st' = mkStore (projects st)
                (<[pid := mkProjectStateRecord (ps_project_id row) n (v + 1)
                     (ps_manifest_revision row) br (ps_task_counts row)
                     (Some (tr_transition_id t)) (tr_occurred_at_utc t)]> (project_states st))
                (task_states st) (state_transitions st ++ [(pid, t)]).
Proof.
  unfold transition_project.
  match goal with |- context [transaction ?b st] => destruct (transaction b st) as [s q] eqn:E end.
  apply transaction_cases in E as [[-> (e & _ & ->)]|([] & Hb & ->)]; intros [= <- <-];
    [left; split; [done|by eexists]|right].
  destruct (project_states st !! pid) as [row|] eqn:Hrow; [|done].
  apply bind_ok in Hb as ([] & Hv & Hb). apply raise_if_ok in Hv.
  apply negb_false_iff, Z.eqb_eq in Hv.
  apply bind_ok in Hb as ([] & Hn%ensure_project_transition_ok & Hb).
  apply bind_ok in Hb as ([] & _ & Hb). apply bind_ok in Hb as ([] & _ & Hb).
  apply bind_ok in Hb as (t & Ht & Hb).
  unfold update_project_row in Hb. rewrite Hrow, Hv, Z.eqb_refl in Hb. simpl in Hb.
  apply bind_ok in Hb as (s2 & Hi%insert_transition_ok & [= <-]).
  destruct Hi as (_ & _ & ->). simpl in *.
  destruct (create_transition_fields _ _ _ _ _ _ _ _ _ _ Ht) as (_&_&_&_&_&Hres&_).
  exists row, t. by rewrite Hres.
Qed.

(** Steps that leave the task table alone and log nothing about tasks. *)
Lemma store_inv_frame st st' :
  task_states st' = task_states st →
  (∀ id, list_transitions st' "task" id = list_transitions st "task" id) →
  store_inv st → store_inv st'.
Proof.
  intros E Hl [Hrow Hnone]. unfold store_inv, task_history in *. rewrite E.
  split; intros id; rewrite Hl; auto.
Qed.

Lemma transition_project_inv pid n v reason actor corr br now st :
  store_inv st → store_inv (transition_project pid n v reason actor corr br now st).1.
Proof.
  intros Hinv. destruct (transition_project _ _ _ _ _ _ _ _ _) as [st' r] eqn:E. simpl.
  apply transition_project_cases in E as [[-> _]|(row & t & _ & _ & _ & Ht & ->)]; [done|].
  destruct (create_transition_fields _ _ _ _ _ _ _ _ _ _ Ht) as (Het & _).
  eapply store_inv_frame; [|..|exact Hinv]; [done|].
  intros id. by eapply list_transitions_snoc; [|rewrite Het; intros []].
Qed.

Lemma insert_task_row_inv st t st' :
  validate t = Ok () → insert_task_row st t = Ok st' → store_inv st → store_inv st'.
Proof.
  intros Hval Hi [Hrow Hnone]. unfold insert_task_row in Hi.
  destruct (task_states st !! ts_task_id t) eqn:Hl; [by simplify_eq|].
  apply bind_ok in Hi as ([] & _ & [= <-]). split; simpl.
  - intros id row. rewrite lookup_insert. case_decide as E; [|apply Hrow].
    intros [= <-]. split; [done|]. exists (ts_version t), (ts_state t), [].
    unfold list_transitions. simpl. fold (list_transitions st "task" id).
    rewrite (Hnone id) by (by rewrite <-E). simpl.
    assert (1 ≤ ts_version t).
    { unfold validate, TaskStateRecord_model in Hval. ok_inv. by apply Z.ltb_ge. }
    repeat split; [done|lia|constructor].
  - intros id [Hne _]%lookup_insert_None. by apply Hnone.
Qed.

Lemma put_task_states_inv l st :
  Forall (λ t, validate t = Ok ()) l → store_inv st → store_inv (put_task_states l st).1.
Proof.
  intros Hl Hinv. unfold put_task_states.
  destruct (transaction _ st) as [st' r] eqn:E. simpl.
  apply transaction_cases in E as [[-> _]|(n & Hb & _)]; [done|].
  apply bind_ok in Hb as (s & Hs & [= <- _]). revert st Hinv Hs.
  induction Hl as [|t l Ht _ IH]; intros st Hinv; simpl; [by intros [= <-]|].
  intros (s1 & H1 & H2)%bind_ok. eapply IH; [|exact H2]. by eapply insert_task_row_inv.
Qed.

Lemma reachable_inv st : reachable st → store_inv st.
Proof.
  induction 1 as [|st st' _ IH Hs].
  { split; [by intros id row; simpl; rewrite lookup_empty|done]. }
  destruct Hs; [|by apply transition_project_inv|by apply put_task_states_inv
               |by apply transition_task_inv].
  eapply store_inv_frame; [..|exact IH]; [done|]. intros id. reflexivity.
Qed.

(** C1. In every reachable store the transition log of a task, read back in
    version order, is exactly the record of one path of legal lifecycle
    transitions from its initial state to its current one: no gap, no
    duplicate, no illegal step, and the row's version counts them. *)
Theorem audit_log_replays_task_state st id row :
  reachable st → task_states st !! id = Some row → task_history st id row.
Proof. intros Hst Hl. by apply (reachable_inv st Hst). Qed.

(** C27. Optimistic concurrency: of two writers that read the same version of
    a task, once one has committed the other is refused with the store
    untouched, whatever it asks for. *)
Theorem stale_writer_refused id n v reason actor corr br owner now st st' rec
    n2 reason2 actor2 corr2 br2 owner2 now2 :
  transition_task id n v reason actor corr br owner now st = (st', Ok rec) →
  transition_task id n2 v reason2 actor2 corr2 br2 owner2 now2 st'
  = (st', Raise (Exn ConcurrentStateChangeError "task version mismatch"))
  ∧ ts_version rec = v + 1.
Proof.
  intros E. apply transition_task_cases in E
    as [[-> [e ?]]|(row & t & Hl & Hv & _ & _ & _ & _ & -> & Hr)]; [done|].
  symmetry in Hr. apply new_ok in Hr as [-> _]. split; [|by simpl; rewrite Hv].
  unfold transition_task, transaction. simpl. rewrite lookup_insert_eq. simpl.
  rewrite Hv. by rewrite (proj2 (Z.eqb_neq (v + 1) v)) by lia.
Qed.

(** Conversely, a transition whose guards hold commits. *)
Lemma transition_task_commits task_id next v reason actor corr br owner now st row t :
  task_states st !! task_id = Some row → ts_version row = v →
  next ∈ TASK_TRANSITIONS (ts_state row) →
  create_transition "task" task_id (TaskLifecycleState_value (ts_state row))
    (TaskLifecycleState_value next) v reason actor corr now = Ok t →
  is_Some (projects st !! ts_project_id row) →
  tr_transition_id t ∉ ((λ x, tr_transition_id x.2) <$> state_transitions st) →
  bool_decide (next = BLOCKED) = opt_truthy br →
  transition_task task_id next v reason actor corr br owner now st
  = (mkStore (projects st) (project_states st)
       (<[task_id := updated_task row next br owner t]> (task_states st))
       (state_transitions st ++ [(ts_project_id row, t)]),
     new (updated_task row next br owner t)).
Proof.
  intros Hl Hv Hn Ht [m Hp] Hf Hb.
  destruct (create_transition_fields _ _ _ _ _ _ _ _ _ _ Ht) as (_&_&_&_&_&Hres&_).
  unfold transition_task, transaction. rewrite Hl, Hv, Z.eqb_refl. simpl.
  rewrite (proj2 (ensure_task_transition_ok _ _ ()) Hn). simpl.
  assert (raise_if (bool_decide (next = BLOCKED) && negb (opt_truthy br)) ValueError
    "blocked task transition requires blocked_reason" = Ok ()) as ->
    by (rewrite Hb; by destruct (opt_truthy br)). simpl.
  assert (raise_if (bool_decide (next ≠ BLOCKED) && opt_truthy br) ValueError
    "blocked_reason is only valid for a BLOCKED task" = Ok ()) as ->
    by (rewrite <-Hb; by repeat case_bool_decide). simpl.
  rewrite Ht. simpl. unfold update_task_row. rewrite Hl, Hv, Z.eqb_refl. simpl.
  unfold insert_transition. simpl. rewrite Hp, (proj2 (str_in_false _ _) Hf). simpl.
  unfold get_task_state, updated_task. simpl. rewrite lookup_insert_eq, Hres, Hv.
  by destruct (new _).
Qed.

Lemma long_owner_invalid row o :
  (191 < String.length o)%nat → ts_owner_id row = Some o → ∃ e, new row = Raise e.
Proof.
  intros Hlen Ho. destruct (new row) as [r|e] eqn:E; [|by eexists].
  exfalso. apply new_ok in E as [_ Hval].
  unfold validate, TaskStateRecord_model in Hval. rewrite Ho in Hval. ok_inv.
  match goal with H : negb (opt_all _ _) = false |- _ =>
    simpl in H; apply negb_false_iff, bool_decide_eq_true in H; lia end.
Qed.

(** The owner of a transition is not checked before the commit: a task
    transition that would succeed, given an owner longer than the record
    allows, raises although the new row is already committed, and from then
    on the task cannot be read back. *)
Theorem overlong_owner_poisons_row id n v reason actor corr br now st st1 rec o :
  transition_task id n v reason actor corr br None now st = (st1, Ok rec) →
  (191 < String.length o)%nat →
  ∃ st2 e row, transition_task id n v reason actor corr br (Some o) now st = (st2, Raise e)
    ∧ task_states st2 !! id = Some row ∧ ts_state row = n ∧ ts_version row = v + 1
    ∧ get_task_state st2 id = Raise e.
Proof.
  intros E Hlen. apply transition_task_cases in E
    as [[_ [e ?]]|(row & t & Hl & Hv & Hn & Ht & [Hp Hf] & Hb & _ & _)]; [done|].
  destruct (long_owner_invalid (updated_task row n br (Some o) t) o Hlen eq_refl) as [e He].
  eexists _, e, _. split; [by rewrite (transition_task_commits _ _ v _ _ _ _ _ _ _ row t), He|].
  unfold get_task_state. simpl. rewrite lookup_insert_eq, He. by rewrite <-Hv.
Qed.

(** ** A concrete run *)
Definition demo_manifest : ProjectManifest :=
  mkProjectManifest "PROJECT-DEMO" "Demo" "." ORIGIN_NEW "python" 1
    [mkProjectRepository "demo" "." ROLE_PRIMARY None] 0 0.
Definition demo_task : TaskStateRecord :=
  mkTaskStateRecord "PP-TASK-000001" "PROJECT-DEMO" BACKLOG 1 "P1" [] [] None None None 0.
Definition demo_store : store :=
  (put_task_states [demo_task] (put_project_manifest demo_manifest empty_store).1).1.
Definition demo_transition (owner : option string) (st : store) : store * result TaskStateRecord :=
  transition_task "PP-TASK-000001" READY 1 "ready" "kernel" "corr-1" None owner 7 st.

Lemma demo_reachable : reachable (demo_transition None demo_store).1.
Proof.
  assert (Forall (λ t, validate t = Ok ()) [demo_task]) as Hv by (by repeat constructor).
  exact (reach_step demo_store _
    (reach_step (put_project_manifest demo_manifest empty_store).1 _
       (reach_step empty_store _ reach_empty (step_manifest empty_store demo_manifest))
       (step_tasks _ [demo_task] Hv))
    (step_task demo_store "PP-TASK-000001" READY 1 "ready" "kernel" "corr-1" None None 7)).
Qed.

Lemma audit_log_replays_task_state_witness :
  ∃ row, task_states (demo_transition None demo_store).1 !! "PP-TASK-000001" = Some row
         ∧ ts_version row = 2
         ∧ task_history (demo_transition None demo_store).1 "PP-TASK-000001" row.
Proof.
  destruct (task_states (demo_transition None demo_store).1 !! "PP-TASK-000001") as [row|] eqn:E;
    [|vm_compute in E; discriminate E].
  exists row. split; [reflexivity|]. split; [vm_compute in E; injection E as <-; reflexivity|].
  exact (audit_log_replays_task_state _ _ _ demo_reachable E).
Defined.

Lemma stale_writer_refused_witness :
  ∃ st' rec, demo_transition None demo_store = (st', Ok rec)
    ∧ (transition_task "PP-TASK-000001" BLOCKED 1 "late" "other" "corr-2" (Some "x") None 9 st'
       = (st', Raise (Exn ConcurrentStateChangeError "task version mismatch")))
    ∧ ts_version rec = 2.
Proof.
  destruct (demo_transition None demo_store) as [st' [rec|e]] eqn:E;
    [|vm_compute in E; discriminate E].
  exists st', rec. split; [reflexivity|].
  exact (stale_writer_refused _ _ _ _ _ _ _ _ _ _ _ _ BLOCKED "late" "other" "corr-2" (Some "x")
           None 9 E).
Defined.

Lemma overlong_owner_poisons_row_witness :
  ∃ st2 e row, demo_transition (Some (str_join "" (replicate 192 "x"))) demo_store = (st2, Raise e)
    ∧ task_states st2 !! "PP-TASK-000001" = Some row ∧ ts_state row = READY
    ∧ ts_version row = 2 ∧ get_task_state st2 "PP-TASK-000001" = Raise e.
Proof.
  destruct (demo_transition None demo_store) as [st' [rec|e]] eqn:E;
    [|vm_compute in E; discriminate E].
  refine (overlong_owner_poisons_row _ _ _ _ _ _ _ _ _ _ _ _ E _). apply Nat.ltb_lt. reflexivity.
Defined.
