(* ===== verification/ControlDomain.v ===== *)
(** * ControlDomain: [domain/control.py] and [control/authority.py]

    The records of the project control plane with the validators pydantic
    runs when they are built.  [schema_version] constants carry no
    information and are left out; timestamps are UTC microseconds. *)
From S2P Require Import Prelude PyStd PyRe PyJson Identifiers TaskState.
Local Open Scope Z_scope.

Inductive EligibilityState :=
  | EL_ELIGIBLE | EL_ALREADY_ACTIVE | EL_TERMINAL | EL_BLOCKED | EL_BLOCKED_EXTERNAL
  | EL_RECONCILIATION_REQUIRED | EL_PRODUCT_SCOPE_PAUSED | EL_POLICY_DENIED.
#[export] Instance EligibilityState_eq_dec : EqDecision EligibilityState.
Proof. solve_decision. Defined.

Definition EligibilityState_value (s : EligibilityState) : string :=
  match s with
  | EL_ELIGIBLE => "ELIGIBLE" | EL_ALREADY_ACTIVE => "ALREADY_ACTIVE" | EL_TERMINAL => "TERMINAL"
  | EL_BLOCKED => "BLOCKED" | EL_BLOCKED_EXTERNAL => "BLOCKED_EXTERNAL"
  | EL_RECONCILIATION_REQUIRED => "RECONCILIATION_REQUIRED"
  | EL_PRODUCT_SCOPE_PAUSED => "PRODUCT_SCOPE_PAUSED" | EL_POLICY_DENIED => "POLICY_DENIED"
  end.

Inductive ReadinessState :=
  | RD_READY | RD_WAITING_DEPENDENCIES | RD_BLOCKED | RD_WAITING_APPROVAL | RD_WAITING_CONTEXT
  | RD_WAITING_RESOURCES | RD_WAITING_ENVIRONMENT | RD_NOT_ELIGIBLE | RD_ACTIVE | RD_TERMINAL.
#[export] Instance ReadinessState_eq_dec : EqDecision ReadinessState.
Proof. solve_decision. Defined.

Definition ReadinessState_value (s : ReadinessState) : string :=
  match s with
  | RD_READY => "READY" | RD_WAITING_DEPENDENCIES => "WAITING_DEPENDENCIES" | RD_BLOCKED => "BLOCKED"
  | RD_WAITING_APPROVAL => "WAITING_APPROVAL" | RD_WAITING_CONTEXT => "WAITING_CONTEXT"
  | RD_WAITING_RESOURCES => "WAITING_RESOURCES" | RD_WAITING_ENVIRONMENT => "WAITING_ENVIRONMENT"
  | RD_NOT_ELIGIBLE => "NOT_ELIGIBLE" | RD_ACTIVE => "ACTIVE" | RD_TERMINAL => "TERMINAL"
  end.

Inductive ScopeFindingKind :=
  | REQUIREMENT_WITHOUT_WORK | WORK_WITHOUT_REQUIREMENT | UNKNOWN_REQUIREMENT
  | UNKNOWN_DEPENDENCY | DONE_WITHOUT_EVIDENCE | DONE_WITHOUT_IMPLEMENTATION
  | IMPLEMENTED_REQUIREMENT_WITHOUT_ARTIFACT.
#[export] Instance ScopeFindingKind_eq_dec : EqDecision ScopeFindingKind.
Proof. solve_decision. Defined.
Definition ScopeFindingKind_value (k : ScopeFindingKind) : string :=
  match k with
  | REQUIREMENT_WITHOUT_WORK => "REQUIREMENT_WITHOUT_WORK"
  | WORK_WITHOUT_REQUIREMENT => "WORK_WITHOUT_REQUIREMENT"
  | UNKNOWN_REQUIREMENT => "UNKNOWN_REQUIREMENT"
  | UNKNOWN_DEPENDENCY => "UNKNOWN_DEPENDENCY"
  | DONE_WITHOUT_EVIDENCE => "DONE_WITHOUT_EVIDENCE"
  | DONE_WITHOUT_IMPLEMENTATION => "DONE_WITHOUT_IMPLEMENTATION"
  | IMPLEMENTED_REQUIREMENT_WITHOUT_ARTIFACT => "IMPLEMENTED_REQUIREMENT_WITHOUT_ARTIFACT"
  end.

Inductive CompletionProjectionState :=
  | CP_INCOMPLETE | CP_BLOCKED | CP_FAILED | CP_READY_FOR_COMPLETION_GATE.
#[export] Instance CompletionProjectionState_eq_dec : EqDecision CompletionProjectionState.
Proof. solve_decision. Defined.
Definition CompletionProjectionState_value (s : CompletionProjectionState) : string :=
  match s with
  | CP_INCOMPLETE => "INCOMPLETE" | CP_BLOCKED => "BLOCKED" | CP_FAILED => "FAILED"
  | CP_READY_FOR_COMPLETION_GATE => "READY_FOR_COMPLETION_GATE"
  end.

Record ControlCohortCounts := mkCohorts {
  total_work_items : Z;
  reconciliation_facts : Z;
  structural_container_facts : Z;
  leaf_reconciliation_facts : Z;
  eligibility_reconciliation : Z;
  eligibility_eligible : Z;
  eligibility_policy_denied : Z;
  eligibility_product_scope_paused : Z;
  eligibility_terminal : Z;
  eligibility_already_active : Z;
  eligibility_blocked : Z;
  eligibility_blocked_external : Z;
  dependency_ready : Z;
}.
#[export] Instance ControlCohortCounts_eq_dec : EqDecision ControlCohortCounts.
Proof. solve_decision. Defined.
Definition cohort_values (c : ControlCohortCounts) : list Z :=
  [total_work_items c; reconciliation_facts c; structural_container_facts c;
   leaf_reconciliation_facts c; eligibility_reconciliation c; eligibility_eligible c;
   eligibility_policy_denied c; eligibility_product_scope_paused c; eligibility_terminal c;
   eligibility_already_active c; eligibility_blocked c; eligibility_blocked_external c;
   dependency_ready c].
#[export] Instance ControlCohortCounts_model : Model ControlCohortCounts := λ c,
  for_each (λ n, raise_if (n <? 0) ValidationError "cohort count") (cohort_values c).

Inductive IssueType := EPIC | STORY | TASK | SUBTASK | BUG | SPIKE.
#[export] Instance IssueType_eq_dec : EqDecision IssueType.
Proof. solve_decision. Defined.
Definition IssueType_value (t : IssueType) : string :=
  match t with
  | EPIC => "EPIC" | STORY => "STORY" | TASK => "TASK" | SUBTASK => "SUBTASK" | BUG => "BUG"
  | SPIKE => "SPIKE" end.
Inductive Risk := LOW | MEDIUM | HIGH | CRITICAL.
#[export] Instance Risk_eq_dec : EqDecision Risk.
Proof. solve_decision. Defined.
Definition Risk_value (r : Risk) : string :=
  match r with LOW => "LOW" | MEDIUM => "MEDIUM" | HIGH => "HIGH" | CRITICAL => "CRITICAL" end.

Record TaskControlFact := mkFact {
  task_id : string;
  project_id : string;
  state : TaskLifecycleState;
  issue_type : IssueType;
  priority : string;
  risk : Risk;
  dependency_ids : list string;
  blocker_ids : list string;
  requirement_ids : list string;
  accepted : bool;
  policy_eligible : bool;
  approval_required : bool;
  approval_satisfied : bool;
  context_required : bool;
  context_satisfied : bool;
  resources_available : bool;
  environment_available : bool;
  external_blocked : bool;
  reconciliation_required : bool;
  remote_readback_required : bool;
  product_scope_allowed : bool;
  expected_duration_minutes : option Z;
  deadline_utc : option Z;
}.
#[export] Instance TaskControlFact_eq_dec : EqDecision TaskControlFact.
Proof. solve_decision. Defined.

#[export] Instance TaskControlFact_model : Model TaskControlFact := λ f,
  _ ← validate_identifier (task_id f) ISSUE;
  _ ← validate_identifier (project_id f) PROJECT;
  _ ← raise_if (negb (fullmatch PRIORITY (priority f))) ValidationError "priority";
  _ ← validate_related_tasks "control task relations cannot contain duplicates" (dependency_ids f);
  _ ← validate_related_tasks "control task relations cannot contain duplicates" (blocker_ids f);
  _ ← raise_if (has_duplicates (requirement_ids f)) ValueError
        "requirement relations cannot contain duplicates";
  _ ← for_each (λ v, _ ← validate_identifier v REQUIREMENT; Ok ()) (requirement_ids f);
  _ ← raise_if (negb (opt_all (λ n, (1 <=? n) && (n <=? 525600)) (expected_duration_minutes f)))
        ValidationError "expected_duration_minutes";
  raise_if (str_in (task_id f) (dependency_ids f) || str_in (task_id f) (blocker_ids f))
    ValueError "control task cannot depend on or be blocked by itself".

Record TaskEligibility := mkEligibility {
  el_task_id : string;
  el_state : EligibilityState;
  el_eligible : bool;
  el_reasons : list string;
}.
#[export] Instance TaskEligibility_model : Model TaskEligibility := λ e,
  _ ← validate_identifier (el_task_id e) ISSUE;
  _ ← raise_if (negb (Bool.eqb (el_eligible e) (bool_decide (el_state e = EL_ELIGIBLE))))
        ValueError "eligibility boolean must agree with eligibility state";
  raise_if (negb (el_eligible e) && bool_decide (el_reasons e = [])) ValueError
    "ineligible tasks require at least one reason".

Record TaskReadiness := mkReadiness {
  rd_task_id : string;
  rd_state : ReadinessState;
  rd_ready : bool;
  rd_unresolved_dependencies : list string;
  rd_unresolved_blockers : list string;
  rd_reasons : list string;
}.
#[export] Instance TaskReadiness_model : Model TaskReadiness := λ r,
  _ ← validate_identifier (rd_task_id r) ISSUE;
  _ ← raise_if (negb (Bool.eqb (rd_ready r) (bool_decide (rd_state r = RD_READY))))
        ValueError "readiness boolean must agree with readiness state";
  raise_if (negb (rd_ready r) && bool_decide (rd_reasons r = [])) ValueError
    "non-ready tasks require at least one reason".

Inductive DurationSource := DS_DECLARED | DS_MIXED | DS_DEFAULT_HEURISTIC | DS_EMPTY.

Record CriticalPathAnalysis := mkCriticalPath {
  cp_path : list string;
  cp_total_duration_minutes : Z;
  cp_duration_source : DurationSource;
  cp_earliest_finish_minutes : gmap string Z;
  cp_slack_minutes : gmap string Z;
}.
#[export] Instance CriticalPathAnalysis_model : Model CriticalPathAnalysis := λ c,
  _ ← raise_if (cp_total_duration_minutes c <? 0) ValidationError "total_duration_minutes";
  for_each (λ v, _ ← validate_identifier v ISSUE; Ok ()) (cp_path c).

Record SequenceScore := mkScore {
  sc_task_id : string;
  priority_score : Z;
  critical_path_score : Z;
  deadline_score : Z;
  risk_score : Z;
  unblock_score : Z;
  duration_score : Z;
  total_score : Z;
}.
#[export] Instance SequenceScore_model : Model SequenceScore := λ s,
  _ ← validate_identifier (sc_task_id s) ISSUE;
  raise_if (negb (total_score s =? priority_score s + critical_path_score s + deadline_score s
                    + risk_score s + unblock_score s + duration_score s))
    ValueError "sequence score total does not match its components".

Record SequenceItem := mkItem {
  si_rank : Z;
  si_task_id : string;
  si_readiness : ReadinessState;
  si_score : SequenceScore;
  si_dependency_depth : Z;
  si_downstream_count : Z;
  si_on_critical_path : bool;
}.
#[export] Instance SequenceItem_model : Model SequenceItem := λ i,
  _ ← raise_if (si_rank i <? 1) ValidationError "rank";
  _ ← validate_identifier (si_task_id i) ISSUE;
  _ ← raise_if (si_dependency_depth i <? 0) ValidationError "dependency_depth";
  raise_if (si_downstream_count i <? 0) ValidationError "downstream_count".

Record BuildSequence := mkSequence {
  sequence_id : string;
  sq_project_id : string;
  graph_fingerprint_hex : string;
  task_count : Z;
  edge_count : Z;
  ready_count : Z;
  active_count : Z;
  blocked_count : Z;
  critical_path_analysis : CriticalPathAnalysis;
  ordered_ready_work : list SequenceItem;
  sq_generated_at_utc : Z;
}.
Definition is_hex64 (s : string) : bool :=
  str_forall Sha256.is_hex_lower s && bool_decide (String.length s = 64%nat).
Lemma json_fingerprint_hex j : is_hex64 (json_fingerprint j) = true.
Proof. unfold is_hex64, json_fingerprint. destruct (Sha256.hexdigest_ok (dumps j)) as [-> ->]. done. Qed.
#[export] Instance BuildSequence_model : Model BuildSequence := λ q,
  _ ← raise_if (negb (valid_prefixed_id CONTROL_ID "SEQ-" (sequence_id q))) ValueError
        ("invalid sequence identifier: " +:+ sequence_id q);
  _ ← validate_identifier (sq_project_id q) PROJECT;
  _ ← raise_if (negb (is_hex64 (graph_fingerprint_hex q))) ValidationError "graph_fingerprint";
  raise_if ((task_count q <? 0) || (edge_count q <? 0) || (ready_count q <? 0)
            || (active_count q <? 0) || (blocked_count q <? 0)) ValidationError "count".

Record ScopeFinding := mkScopeFinding {
  sf_kind : ScopeFindingKind;
  subject_id : string;
  related_id : option string;
  detail : string;
}.
#[export] Instance ScopeFinding_model : Model ScopeFinding := λ f,
  raise_if (negb (min_length 1 (detail f) && max_length 2000 (detail f))) ValidationError "detail".
Record ScopeReconciliationReport := mkScopeReport {
  report_id : string;
  sr_project_id : string;
  requirement_count : Z;
  work_item_count : Z;
  findings : list ScopeFinding;
  sr_fingerprint : string;
}.
#[export] Instance ScopeReconciliationReport_model : Model ScopeReconciliationReport := λ r,
  _ ← raise_if (negb (valid_prefixed_id CONTROL_ID "SCOPE-" (report_id r))) ValueError
        ("invalid scope report identifier: " +:+ report_id r);
  _ ← validate_identifier (sr_project_id r) PROJECT;
  _ ← raise_if ((requirement_count r <? 0) || (work_item_count r <? 0)) ValidationError "count";
  raise_if (negb (is_hex64 (sr_fingerprint r))) ValidationError "fingerprint".

Record CompletionProjection := mkProjection {
  projection_id : string;
  pj_project_id : string;
  pj_state : CompletionProjectionState;
  pj_total_work_items : Z;
  completed_work_items : Z;
  active_work_items : Z;
  blocked_work_items : Z;
  failed_work_items : Z;
  accepted_requirements : Z;
  implemented_or_external_blocked_requirements : Z;
  ready_work_items : Z;
  verification_eligible : bool;
  final_completion_gate_satisfied : bool;
  pj_reasons : list string;
  cohorts : ControlCohortCounts;
}.
#[export] Instance CompletionProjection_model : Model CompletionProjection := λ p,
  _ ← raise_if (negb (valid_prefixed_id CONTROL_ID "COMPLETE-" (projection_id p))) ValueError
        ("invalid completion projection identifier: " +:+ projection_id p);
  _ ← validate_identifier (pj_project_id p) PROJECT;
  _ ← for_each (λ n, raise_if (n <? 0) ValidationError "projection count")
        [pj_total_work_items p; completed_work_items p; active_work_items p; blocked_work_items p;
         failed_work_items p; accepted_requirements p;
         implemented_or_external_blocked_requirements p; ready_work_items p];
  _ ← raise_if (final_completion_gate_satisfied p) ValueError
        "control-plane completion projection cannot satisfy the independent Completion Gate";
  raise_if (negb (Bool.eqb (verification_eligible p)
                    (bool_decide (pj_state p = CP_READY_FOR_COMPLETION_GATE))))
    ValueError "verification eligibility must agree with completion projection state".

Record ControlSnapshot := mkSnapshot {
  snapshot_id : string;
  cs_project_id : string;
  sequence : BuildSequence;
  scope : ScopeReconciliationReport;
  completion : CompletionProjection;
  eligibility_results : list TaskEligibility;
  readiness_results : list TaskReadiness;
  snapshot_fingerprint : string;
}.
#[export] Instance ControlSnapshot_model : Model ControlSnapshot := λ s,
  _ ← raise_if (negb (valid_prefixed_id CONTROL_ID "CTRL-" (snapshot_id s))) ValueError
        ("invalid control snapshot identifier: " +:+ snapshot_id s);
  _ ← validate_identifier (cs_project_id s) PROJECT;
  raise_if (negb (is_hex64 (snapshot_fingerprint s))) ValidationError "snapshot_fingerprint".

(** ** Advisory recommendations ([control/authority.py]) *)
Inductive RecommendationDisposition := ACCEPT | REJECT | ESCALATE.
#[export] Instance RecommendationDisposition_eq_dec : EqDecision RecommendationDisposition.
Proof. solve_decision. Defined.
Record RecommendationAuthorityDecision := mkDecision {
  recommendation_id : string;
  disposition : RecommendationDisposition;
  may_apply : bool;
  ra_reasons : list string;
}.
Definition evaluate_recommendation_authority (rid : string)
    (conflicts_with_canonical_plan conflicts_with_policy : bool)
  : RecommendationAuthorityDecision :=
  if conflicts_with_policy then
    mkDecision rid REJECT false ["recommendation conflicts with governing policy"]
  else if conflicts_with_canonical_plan then
    mkDecision rid ESCALATE false
      ["recommendation conflicts with the canonical plan and requires explicit reconciliation"]
  else
    mkDecision rid ACCEPT true ["recommendation is aligned with canonical plan and policy"].

(** ** Shared lemmas *)
Lemma validate_identifier_ok v k : is_ok (validate_identifier v k) = true →
  validate_identifier v k = Ok v.
Proof.
  unfold validate_identifier. destruct (new _) as [d|e] eqn:E; [|done].
  apply new_ok in E as [-> _]. done.
Qed.

Lemma fact_valid f : validate f = Ok () →
  validate_identifier (task_id f) ISSUE = Ok (task_id f)
  ∧ validate_identifier (project_id f) PROJECT = Ok (project_id f)
  ∧ fullmatch PRIORITY (priority f) = true
  ∧ opt_all (λ n, (1 <=? n) && (n <=? 525600)) (expected_duration_minutes f) = true
  ∧ task_id f ∉ dependency_ids f.
Proof.
  unfold validate, TaskControlFact_model. intros Hv.
  repeat match goal with
  | H : (_ ≫= _) = Ok _ |- _ => apply bind_ok in H as (? & ? & ?)
  | H : raise_if _ _ _ = Ok _ |- _ => apply raise_if_ok in H
  end.
  repeat match goal with
  | H : validate_identifier ?v ?k = Ok ?x |- context [validate_identifier ?v ?k] =>
      rewrite (validate_identifier_ok v k) by (by rewrite H)
  end.
  rewrite negb_false_iff in *. rewrite orb_false_iff, !str_in_false in *. naive_solver.
Qed.
