(* ===== verification/DepGraph.v ===== *)
(** * DepGraph: directed graphs and the interface to networkx

    A [digraph] is the contents of an [nx.DiGraph]: its nodes and edges in
    insertion order, without duplicates.  The graph algorithms are the
    third-party package's and so are operations of a class; [NetworkxLaws]
    states the documented behaviour the control plane relies on.  [Kahn]
    is an instance, which shows that the laws can hold. *)
From S2P Require Import Prelude PyStd.

Record digraph := mkDigraph { dg_nodes : list string; dg_edges : list (string * string) }.

Definition empty_digraph : digraph := mkDigraph [] [].
Definition add_node (g : digraph) (n : string) : digraph :=
  if str_in n (dg_nodes g) then g else mkDigraph (dg_nodes g ++ [n]) (dg_edges g).
Definition add_edge (g : digraph) (u v : string) : digraph :=
  let g := add_node (add_node g u) v in
  if bool_decide ((u, v) ∈ dg_edges g) then g
  else mkDigraph (dg_nodes g) (dg_edges g ++ [(u, v)]).
Definition predecessors (g : digraph) (n : string) : list string :=
  fst <$> filter (λ e, e.2 = n) (dg_edges g).
Definition successors (g : digraph) (n : string) : list string :=
  snd <$> filter (λ e, e.1 = n) (dg_edges g).
Definition number_of_edges (g : digraph) : Z := Z.of_nat (length (dg_edges g)).

Definition edge (g : digraph) (x y : string) : Prop := (x, y) ∈ dg_edges g.
Definition acyclic (g : digraph) : Prop := ∀ x, ¬ tc (edge g) x x.

Record wf_digraph (g : digraph) : Prop := {
  wf_nodes : NoDup (dg_nodes g);
  wf_edges : NoDup (dg_edges g);
  wf_closed : ∀ x y, edge g x y → x ∈ dg_nodes g ∧ y ∈ dg_nodes g;
}.

(** [l] lists every node once, each after all its predecessors. *)
Definition topological (g : digraph) (l : list string) : Prop :=
  l ≡ₚ dg_nodes g ∧ ∀ l1 x l2, l = l1 ++ x :: l2 → ∀ y, edge g y x → y ∈ l1.

Class Networkx := {
  is_directed_acyclic_graph : digraph → bool;
  lexicographical_topological_sort : digraph → list string;
  descendants : digraph → string → list string;
}.
Class NetworkxLaws `{Networkx} := {
  nx_dag g : wf_digraph g → is_directed_acyclic_graph g = true ↔ acyclic g;
  nx_topological g :
    wf_digraph g → acyclic g → topological g (lexicographical_topological_sort g);
}.

Lemma elem_of_predecessors g x y : y ∈ predecessors g x ↔ edge g y x.
Proof.
  unfold predecessors, edge. rewrite list_elem_of_fmap. setoid_rewrite list_elem_of_filter.
  split; [by intros ([? ?] & -> & <- & ?) | intros ?; by exists (y, x)].
Qed.
Lemma elem_of_successors g x y : y ∈ successors g x ↔ edge g x y.
Proof.
  unfold successors, edge. rewrite list_elem_of_fmap. setoid_rewrite list_elem_of_filter.
  split; [by intros ([? ?] & -> & <- & ?) | intros ?; by exists (x, y)].
Qed.

Lemma add_node_wf g n : wf_digraph g → wf_digraph (add_node g n).
Proof.
  intros [H1 H2 H3]. unfold add_node. destruct (str_in n (dg_nodes g)) eqn:E; [done|].
  apply str_in_false in E. split; simpl; [|done|].
  - apply NoDup_app. split; [done|]. split; [|apply NoDup_singleton]. set_solver.
  - intros x y ?%H3. set_solver.
Qed.
Lemma add_node_edges g n : dg_edges (add_node g n) = dg_edges g.
Proof. unfold add_node. by destruct (str_in _ _). Qed.
Lemma elem_of_add_node g n x : x ∈ dg_nodes (add_node g n) ↔ x ∈ dg_nodes g ∨ x = n.
Proof.
  unfold add_node. destruct (str_in n (dg_nodes g)) eqn:E; simpl; [|set_solver].
  apply str_in_spec in E. naive_solver.
Qed.
Lemma add_node_known g n : n ∈ dg_nodes g → add_node g n = g.
Proof. intros Hn. unfold add_node. by rewrite (proj2 (str_in_spec _ _) Hn). Qed.
Lemma add_edge_known g u v :
  u ∈ dg_nodes g → v ∈ dg_nodes g → dg_nodes (add_edge g u v) = dg_nodes g.
Proof.
  intros Hu Hv. unfold add_edge. rewrite (add_node_known g u), add_node_known by done.
  by case_bool_decide.
Qed.
Lemma add_edge_wf g u v : wf_digraph g → wf_digraph (add_edge g u v).
Proof.
  intros Hg. unfold add_edge.
  pose proof (add_node_wf _ v (add_node_wf _ u Hg)) as [H1 H2 H3].
  case_bool_decide as E; [done|]. split; simpl; [done| |].
  - apply NoDup_app. split; [done|]. split; [|apply NoDup_singleton]. set_solver.
  - intros x y. unfold edge. simpl. rewrite elem_of_app, list_elem_of_singleton.
    intros [?%H3|[= -> ->]]; [done|]. rewrite !elem_of_add_node. naive_solver.
Qed.
Lemma edge_add_edge g u v x y : edge (add_edge g u v) x y ↔ edge g x y ∨ (x = u ∧ y = v).
Proof.
  unfold edge, add_edge. case_bool_decide as E; simpl; rewrite ?add_node_edges in *; [naive_solver|].
  rewrite elem_of_app, list_elem_of_singleton. naive_solver.
Qed.

(** ** Topological orders *)
Lemma topological_tc g l x y l1 l2 :
  topological g l → tc (edge g) x y → l = l1 ++ y :: l2 → x ∈ l1.
Proof.
  intros [_ Hl] Hxy. revert l1 l2. induction Hxy as [x y Hxy|x y z Hxy Hyz IH]; intros l1 l2 E.
  - by eapply Hl.
  - pose proof (IH _ _ E) as Hy. apply list_elem_of_split in Hy as (a & b & ->).
    rewrite <-(assoc_L (++)) in E. apply elem_of_app. left. by eapply Hl.
Qed.
Lemma topological_acyclic g l : wf_digraph g → topological g l → acyclic g.
Proof.
  intros Hg Hl x Hx.
  assert (x ∈ l) as Hin.
  { rewrite (proj1 Hl). assert (∃ y, edge g x y) as [y Hy] by (inv Hx; eauto).
    by destruct (wf_closed _ Hg _ _ Hy). }
  assert (NoDup l) as Hnd by (rewrite (proj1 Hl); apply Hg).
  apply list_elem_of_split in Hin as (l1 & l2 & E).
  pose proof (topological_tc _ _ _ _ _ _ Hl Hx E) as Hx1. subst l.
  apply NoDup_app in Hnd as (_ & Hd & _). apply (Hd x); set_solver.
Qed.

(** ** Chains: sequences of nodes along edges *)
Inductive chain (g : digraph) : list string → Prop :=
  | chain_one x : chain g [x]
  | chain_cons x y l : edge g x y → chain g (y :: l) → chain g (x :: y :: l).
#[export] Hint Constructors chain : pipeline.

Lemma chain_tc g x l y : chain g (x :: l) → y ∈ l → tc (edge g) x y.
Proof.
  revert x. induction l as [|z l IH]; intros x Hc; [set_solver|].
  inv Hc. intros [->|Hy]%elem_of_cons; [by apply tc_once|].
  eapply tc_l; [done|]. by apply IH.
Qed.
Lemma chain_tail g x l : chain g (x :: l) → l = [] ∨ chain g l.
Proof. intros Hc. inv Hc; auto. Qed.
Lemma chain_NoDup g l : acyclic g → chain g l → NoDup l.
Proof.
  intros Hac. induction l as [|x l IH]; intros Hc; [constructor|].
  constructor; [intros Hx; by apply (Hac x), (chain_tc g x l)|].
  apply chain_tail in Hc as [->|Hc]; [constructor|auto].
Qed.
Lemma chain_length_bound g l (S : list string) :
  acyclic g → chain g l → Forall (.∈ S) l → length l ≤ length S.
Proof.
  intros Hac Hc Hl. apply submseteq_length, NoDup_submseteq; [by eapply chain_NoDup|].
  by rewrite Forall_forall in Hl.
Qed.
Lemma chain_snoc g l x y :
  chain g (l ++ [x]) → edge g x y → chain g (l ++ [x; y]).
Proof.
  induction l as [|z l IH]; simpl; intros Hc He; [auto with pipeline|].
  destruct l as [|w l]; simpl in *; inv Hc; auto with pipeline.
Qed.
Lemma chain_snoc_inv g l x y : chain g (l ++ [x; y]) → chain g (l ++ [x]) ∧ edge g x y.
Proof.
  induction l as [|z l IH]; simpl; intros Hc.
  - inv Hc. auto with pipeline.
  - destruct l as [|w l]; simpl in *; inv Hc; naive_solver (auto with pipeline).
Qed.
Lemma chain_app g l1 x l2 : chain g (l1 ++ [x]) → chain g (x :: l2) → chain g (l1 ++ x :: l2).
Proof.
  induction l1 as [|z l1 IH]; simpl; [done|]. intros H1 H2.
  destruct l1 as [|w l1]; simpl in *; inv H1; auto with pipeline.
Qed.
Lemma chain_app_inv g l1 x l2 : chain g (l1 ++ x :: l2) → chain g (l1 ++ [x]) ∧ chain g (x :: l2).
Proof.
  induction l1 as [|z l1 IH]; simpl; intros Hc; [auto with pipeline|].
  destruct l1 as [|w l1]; simpl in *; inv Hc; naive_solver (auto with pipeline).
Qed.

(** ** An instance: repeatedly take the least node without open predecessors *)
Definition available (g : digraph) (done_ todo : list string) : list string :=
  filter (λ x, Forall (.∈ done_) (predecessors g x)) todo.
Fixpoint kahn (fuel : nat) (g : digraph) (done_ todo : list string) : list string :=
  match fuel with
  | O => done_
  | S fuel =>
      match sorted_by id (available g done_ todo) with
      | [] => done_
      | x :: _ => kahn fuel g (done_ ++ [x]) (filter (.≠ x) todo)
      end
  end.
Definition kahn_sort (g : digraph) : list string := kahn (length (dg_nodes g)) g [] (dg_nodes g).
Definition reach_from (g : digraph) (x : string) : list string :=
  let step s := remove_dups (s ++ (s ≫= successors g)) in
  filter (.≠ x) (Nat.iter (length (dg_nodes g)) step [x]).

#[export] Instance Kahn : Networkx := {|
  is_directed_acyclic_graph g := bool_decide (length (kahn_sort g) = length (dg_nodes g));
  lexicographical_topological_sort := kahn_sort;
  descendants := reach_from;
|}.

Definition closed_prefix (g : digraph) (l : list string) : Prop :=
  ∀ l1 x l2, l = l1 ++ x :: l2 → ∀ y, edge g y x → y ∈ l1.

Lemma closed_prefix_snoc g l x :
  closed_prefix g l → (∀ y, edge g y x → y ∈ l) → closed_prefix g (l ++ [x]).
Proof.
  intros Hl Hx l1 z l2 E y Hy. destruct l2 as [|w l2] using rev_ind.
  - apply app_inj_tail in E as [-> <-]. by apply Hx.
  - rewrite app_comm_cons, (assoc_L (++)) in E. apply app_inj_tail in E as [-> _].
    by eapply Hl.
Qed.

Lemma available_nonempty g done_ todo :
  wf_digraph g → acyclic g → done_ ++ todo ≡ₚ dg_nodes g → todo ≠ [] →
  sorted_by id (available g done_ todo) ≠ [].
Proof.
  intros Hg Hac Hp Hne E.
  assert (available g done_ todo = []) as Hav.
  { apply elem_of_nil_inv. intros x. rewrite <-(elem_of_sorted_by id), E. set_solver. }
  assert (∀ x, x ∈ todo → ∃ y, y ∈ todo ∧ edge g y x) as Hstep.
  { intros x Hx. destruct (decide (Forall (.∈ done_) (predecessors g x))) as [Hd|Hd].
    { assert (x ∈ available g done_ todo) by (by apply list_elem_of_filter).
      rewrite Hav in *. set_solver. }
    apply not_Forall_Exists, Exists_exists in Hd as (y & Hy%elem_of_predecessors & Hyd); [|apply _].
    exists y. split; [|done].
    assert (y ∈ done_ ++ todo) as Hyn by (rewrite Hp; by destruct (wf_closed _ Hg _ _ Hy)).
    apply elem_of_app in Hyn as [?|?]; done. }
  assert (∀ n, ∃ x l, chain g (x :: l) ∧ length l = n ∧ Forall (.∈ todo) (x :: l)) as Hwalk.
  { induction n as [|n (x & l & Hc & <- & Hl)].
    - destruct todo as [|x todo]; [done|]. exists x, []. repeat constructor.
    - inv Hl. destruct (Hstep x) as (y & Hy & He); [done|].
      exists y, (x :: l). split; [by constructor|]. split; [done|]. by repeat constructor. }
  destruct (Hwalk (length todo)) as (x & l & Hc & Hlen & Hl).
  pose proof (chain_length_bound _ _ _ Hac Hc Hl). simpl in *. lia.
Qed.

Lemma filter_ne_perm (x : string) l : NoDup l → x ∈ l → l ≡ₚ x :: filter (.≠ x) l.
Proof.
  intros Hnd Hx. apply NoDup_Permutation; [done| |].
  - constructor; [rewrite list_elem_of_filter; naive_solver|by apply NoDup_filter].
  - intros y. rewrite elem_of_cons, list_elem_of_filter. destruct (decide (y = x)); naive_solver.
Qed.

Lemma kahn_topological fuel g done_ todo :
  wf_digraph g → done_ ++ todo ≡ₚ dg_nodes g → length todo ≤ fuel → closed_prefix g done_ →
  closed_prefix g (kahn fuel g done_ todo)
  ∧ (∃ k, dg_nodes g ≡ₚ kahn fuel g done_ todo ++ k)
  ∧ (acyclic g → kahn fuel g done_ todo ≡ₚ dg_nodes g).
Proof.
  intros Hg. revert done_ todo. induction fuel as [|fuel IH]; intros done_ todo Hp Hlen Hd; simpl.
  { destruct todo; [|simpl in Hlen; lia]. rewrite app_nil_r in Hp.
    split; [done|]. split; [exists []; by rewrite app_nil_r|done]. }
  destruct (sorted_by id (available g done_ todo)) as [|x l] eqn:E.
  - split; [done|]. split; [by exists todo|]. intros Hac. destruct todo as [|z todo'] eqn:Et.
    + by rewrite app_nil_r in Hp.
    + by apply available_nonempty in E.
  - assert (x ∈ available g done_ todo) as [Hpre Hx]%list_elem_of_filter
      by (rewrite <-(elem_of_sorted_by id), E; left).
    assert (NoDup (done_ ++ todo)) as Hnd by (rewrite Hp; apply Hg).
    apply NoDup_app in Hnd as (_ & _ & Hnd).
    assert (todo ≡ₚ x :: filter (.≠ x) todo) as Htodo by (by apply filter_ne_perm).
    apply IH.
    + rewrite <-(assoc_L (++)). simpl. by rewrite <-Htodo.
    + apply Permutation_length in Htodo. simpl in Htodo. lia.
    + apply closed_prefix_snoc; [done|]. intros y Hy%elem_of_predecessors.
      rewrite Forall_forall in Hpre. by apply Hpre.
Qed.

Lemma closed_prefix_nil g : closed_prefix g [].
Proof. intros l1 x l2 E. by destruct l1. Qed.

#[export] Instance Kahn_laws : NetworkxLaws.
Proof.
  split; intros g Hg; simpl; unfold kahn_sort.
  - destruct (kahn_topological (length (dg_nodes g)) g [] (dg_nodes g) Hg) as (Hc & [k Hk] & Ha);
      [done..|apply closed_prefix_nil|].
    rewrite bool_decide_eq_true. split; [|by intros ?; rewrite Ha].
    intros Hl. eapply topological_acyclic; [done|]. split; [|exact Hc].
    apply Permutation_length in Hk as Hkl. rewrite length_app in Hkl.
    destruct k; [|simpl in Hkl; lia]. by rewrite app_nil_r in Hk.
  - intros Hac.
    destruct (kahn_topological (length (dg_nodes g)) g [] (dg_nodes g) Hg) as (Hc & _ & Ha);
      [done..|apply closed_prefix_nil|].
    split; [by apply Ha|exact Hc].
Qed.
