(* ===== verification/ControlGraph.v ===== *)
(** * ControlGraph: [control/graph.py], the build sequencer

    [BuildSequencer] turns accepted task facts into a dependency graph and
    computes eligibility, readiness, the critical path with its slack, and
    the ranked list of ready work.  Graph algorithms come through the
    [Networkx] interface. *)
From S2P Require Import Prelude PyStd PyRe PyJson Identifiers TaskState ControlDomain DepGraph.
Local Open Scope Z_scope.

Definition is_terminal (s : TaskLifecycleState) : bool := bool_decide (s ∈ [DONE; CANCELLED]).
Definition is_active (s : TaskLifecycleState) : bool :=
  bool_decide (s ∈ [CLAIMED; IN_PROGRESS; IN_REVIEW; VALIDATING]).

(** [d[k]] of a dict: [KeyError] when absent. *)
Definition dict_get {A} (m : gmap string A) (k : string) : result A :=
  match m !! k with Some a => Ok a | None => raise KeyError k end.

Record BuildSequencer := mkSequencer {
  facts : list TaskControlFact;
  by_id : gmap string TaskControlFact;
  bs_project_id : string;
  graph : digraph;
}.

(** ** Eligibility: the first condition that applies decides *)
Definition eligibility (fact : TaskControlFact) : result TaskEligibility :=
  let deny st reasons := new (mkEligibility (task_id fact) st false reasons) in
  if bool_decide (issue_type fact = EPIC) then
    deny EL_POLICY_DENIED ["epic is a structural work container and is not directly executable"]
  else if is_terminal (state fact) then
    deny EL_TERMINAL ["task is terminal: " +:+ TaskLifecycleState_value (state fact)]
  else if remote_readback_required fact then
    deny EL_POLICY_DENIED
      ["implementation already projected; local DONE waits for integrated main and remote readback beyond To Do"]
  else if reconciliation_required fact then
    deny EL_RECONCILIATION_REQUIRED
      ["issue-specific artifacts, tests, criteria, or evidence indicate existing delivery; audit and batch-reconcile this item instead of opening a fresh implementation lane"]
  else if is_active (state fact) then
    deny EL_ALREADY_ACTIVE
      ["task already has active execution state: " +:+ TaskLifecycleState_value (state fact)]
  else if external_blocked fact then
    deny EL_BLOCKED_EXTERNAL
      ["task has an unavailable external precondition; autonomous recovery owns the recheck and unaffected lanes continue"]
  else if negb (product_scope_allowed fact) then
    deny EL_PRODUCT_SCOPE_PAUSED
      ["ordinary backlog selection is paused by the product-outcome correction; only the bounded autonomous-runtime critical-path slices may be admitted"]
  else if negb (accepted fact) || negb (policy_eligible fact) then
    deny EL_POLICY_DENIED
      ((if negb (accepted fact) then ["task is not accepted into executable scope"] else [])
       ++ (if negb (policy_eligible fact) then ["task is denied by current policy eligibility"] else []))
  else if bool_decide (state fact ∈ [BLOCKED; FAILED]) then
    deny EL_BLOCKED
      ["task state requires reconciliation before admission: " +:+ TaskLifecycleState_value (state fact)]
  else new (mkEligibility (task_id fact) EL_ELIGIBLE true []).

(** ** Readiness *)
(** Dependencies whose task is not DONE; an unknown dependency is a
    [KeyError]. *)
Fixpoint unresolved_dependencies (known : gmap string TaskControlFact) (ids : list string)
  : result (list string) :=
  match ids with
  | [] => Ok []
  | d :: ids =>
      dep ← dict_get known d;
      rest ← unresolved_dependencies known ids;
      Ok (if bool_decide (state dep ≠ DONE) then d :: rest else rest)
  end.
(** Blockers that are known and not DONE. *)
Definition blocker_open (known : gmap string TaskControlFact) (b : string) : bool :=
  match known !! b with Some f => bool_decide (state f ≠ DONE) | None => false end.
Definition unresolved_blockers (known : gmap string TaskControlFact) (ids : list string)
  : list string := List.filter (blocker_open known) ids.

Definition readiness (self : BuildSequencer) (fact : TaskControlFact) : result TaskReadiness :=
  e ← eligibility fact;
  let out st deps blockers reasons :=
    new (mkReadiness (task_id fact) st false deps blockers reasons) in
  if bool_decide (el_state e = EL_TERMINAL) then out RD_TERMINAL [] [] (el_reasons e)
  else if bool_decide (el_state e = EL_ALREADY_ACTIVE) then out RD_ACTIVE [] [] (el_reasons e)
  else if negb (el_eligible e) then
    out (if bool_decide (el_state e = EL_BLOCKED) then RD_BLOCKED else RD_NOT_ELIGIBLE) [] []
      (el_reasons e)
  else
    deps ← unresolved_dependencies (by_id self) (dependency_ids fact);
    let blockers := unresolved_blockers (by_id self) (blocker_ids fact) in
    if negb (bool_decide (deps = [])) then
      out RD_WAITING_DEPENDENCIES deps [] ["one or more blocking dependencies are not done"]
    else if negb (bool_decide (blockers = [])) then
      out RD_BLOCKED [] blockers ["one or more explicit blockers remain unresolved"]
    else if approval_required fact && negb (approval_satisfied fact) then
      out RD_WAITING_APPROVAL [] [] ["required approval is not satisfied"]
    else if context_required fact && negb (context_satisfied fact) then
      out RD_WAITING_CONTEXT [] [] ["required execution context is not available"]
    else if negb (resources_available fact) then
      out RD_WAITING_RESOURCES [] [] ["required resources are not available"]
    else if negb (environment_available fact) then
      out RD_WAITING_ENVIRONMENT [] [] ["required execution environment is not available"]
    else new (mkReadiness (task_id fact) RD_READY true [] [] []).

(** ** Durations *)
Definition DEFAULT_DURATION_MINUTES : Z := 60.
Definition counts_duration (f : TaskControlFact) : bool :=
  negb (is_terminal (state f) || bool_decide (issue_type f = EPIC)).
Definition duration_of (f : TaskControlFact) : Z :=
  if counts_duration f then
    match expected_duration_minutes f with Some d => d | None => DEFAULT_DURATION_MINUTES end
  else 0.
Definition durations (self : BuildSequencer) : gmap string Z * DurationSource :=
  let values := foldl (λ m f, <[task_id f := duration_of f]> m) ∅ (facts self) in
  let remaining := count_if counts_duration (facts self) in
  let declared := count_if (λ f, counts_duration f
                    && match expected_duration_minutes f with Some _ => true | None => false end)
                    (facts self) in
  let source :=
    if bool_decide (facts self = []) || (remaining =? 0)
    then (if bool_decide (facts self = []) then DS_EMPTY else DS_DEFAULT_HEURISTIC)
    else if declared =? remaining then DS_DECLARED
    else if declared =? 0 then DS_DEFAULT_HEURISTIC
    else DS_MIXED in
  (values, source).

(** ** Critical path *)
(** [max(preds, key=lambda item: (earliest_finish[item], item))]. *)
Definition best_by (ef : gmap string Z) (l : list string) : result string :=
  keyed ← traverse (λ p, v ← dict_get ef p; Ok (v, p)) l;
  match max_by id keyed with
  | Some (_, p) => Ok p
  | None => raise ValueError "max() arg is an empty sequence"
  end.

(** One pass over the topological order. *)
Definition forward_step (g : digraph) (dur : gmap string Z)
    (acc : gmap string Z * gmap string (option string)) (node : string)
  : result (gmap string Z * gmap string (option string)) :=
  let '(ef, pred) := acc in
  let preds := sorted_by id (predecessors g node) in
  d ← dict_get dur node;
  if bool_decide (preds = []) then Ok (<[node := d]> ef, <[node := None]> pred)
  else
    best ← best_by ef preds;
    e ← dict_get ef best;
    Ok (<[node := e + d]> ef, <[node := Some best]> pred).
Fixpoint forward_pass (g : digraph) (dur : gmap string Z)
    (acc : gmap string Z * gmap string (option string)) (topo : list string)
  : result (gmap string Z * gmap string (option string)) :=
  match topo with
  | [] => Ok acc
  | n :: topo => acc' ← forward_step g dur acc n; forward_pass g dur acc' topo
  end.

(** [while cursor is not None]: the predecessor links, last node first. *)
Fixpoint follow (fuel : nat) (pred : gmap string (option string)) (cursor : option string)
  : result (list string) :=
  match cursor, fuel with
  | None, _ => Ok []
  | Some _, O => raise RuntimeError "predecessor links do not end"
  | Some c, S fuel =>
      next ← dict_get pred c;
      rest ← follow fuel pred next;
      Ok (c :: rest)
  end.

Fixpoint min_list (best : Z) (l : list Z) : Z :=
  match l with [] => best | x :: l => min_list (Z.min best x) l end.

Definition backward_step (g : digraph) (dur lf : gmap string Z) (node : string)
  : result (gmap string Z) :=
  let succs := sorted_by id (successors g node) in
  vs ← traverse (λ s, l ← dict_get lf s; d ← dict_get dur s; Ok (l - d)) succs;
  match vs with
  | [] => Ok lf
  | v :: vs => Ok (<[node := min_list v vs]> lf)
  end.
Fixpoint backward_pass (g : digraph) (dur lf : gmap string Z) (rtopo : list string)
  : result (gmap string Z) :=
  match rtopo with
  | [] => Ok lf
  | n :: rtopo => lf' ← backward_step g dur lf n; backward_pass g dur lf' rtopo
  end.

Section with_networkx.
Context `{Networkx}.

(** ** Construction *)
Fixpoint add_dependencies (known : gmap string TaskControlFact) (t : string) (deps : list string)
    (g : digraph) : result digraph :=
  match deps with
  | [] => Ok g
  | d :: deps =>
      match known !! d with
      | None => raise ControlGraphError
          ("task " +:+ t +:+ " depends on unknown work item " +:+ d)
      | Some _ => add_dependencies known t deps (add_edge g d t)
      end
  end.
Fixpoint add_facts (known : gmap string TaskControlFact) (l : list TaskControlFact) (g : digraph)
  : result digraph :=
  match l with
  | [] => Ok g
  | f :: l => g' ← add_dependencies known (task_id f) (dependency_ids f) g; add_facts known l g'
  end.
Definition build_graph (known : gmap string TaskControlFact) (l : list TaskControlFact)
  : result digraph :=
  let nodes := foldl add_node empty_digraph (task_id <$> l) in
  g ← add_facts known l nodes;
  _ ← raise_if (negb (is_directed_acyclic_graph g)) ControlGraphError
        "blocking dependency graph contains a cycle";
  Ok g.

Definition new_sequencer (input : list TaskControlFact) : result BuildSequencer :=
  let fs := sorted_by task_id input in
  _ ← raise_if (has_duplicates (task_id <$> fs)) ControlGraphError
        "task control facts contain duplicate task identifiers";
  let project_ids := remove_dups (project_id <$> fs) in
  _ ← raise_if (bool_decide (1 < length project_ids)%nat) ControlGraphError
        "one build sequence cannot mix multiple projects";
  g ← build_graph (dict_of task_id fs) fs;
  Ok (mkSequencer fs (dict_of task_id fs) (hd "PROJECT-PIPELINE" project_ids) g).

(** ** The canonical fingerprint of the graph *)
Definition fact_json (f : TaskControlFact) : json :=
  JObj [("task_id", JStr (task_id f));
        ("state", JStr (TaskLifecycleState_value (state f)));
        ("issue_type", JStr (IssueType_value (issue_type f)));
        ("priority", JStr (priority f));
        ("risk", JStr (Risk_value (risk f)));
        ("dependencies", JList (JStr <$> dependency_ids f));
        ("blockers", JList (JStr <$> blocker_ids f));
        ("duration", JOptInt (expected_duration_minutes f));
        ("deadline", JOptStr (isoformat <$> deadline_utc f));
        ("accepted", JBool (accepted f));
        ("policy_eligible", JBool (policy_eligible f));
        ("approval_satisfied", JBool (approval_satisfied f));
        ("context_satisfied", JBool (context_satisfied f));
        ("resources_available", JBool (resources_available f));
        ("environment_available", JBool (environment_available f));
        ("external_blocked", JBool (external_blocked f));
        ("reconciliation_required", JBool (reconciliation_required f));
        ("remote_readback_required", JBool (remote_readback_required f));
        ("product_scope_allowed", JBool (product_scope_allowed f))].
Definition graph_fingerprint (self : BuildSequencer) : string :=
  json_fingerprint
    (JObj [("nodes", JList (fact_json <$> facts self));
           ("edges", JList ((λ e, JList [JStr e.1; JStr e.2])
                              <$> sorted_by id (dg_edges (graph self))))]).

Definition critical_path (self : BuildSequencer) : result CriticalPathAnalysis :=
  if bool_decide (facts self = []) then new (mkCriticalPath [] 0 DS_EMPTY ∅ ∅)
  else
    let '(dur, source) := durations self in
    let topo := lexicographical_topological_sort (graph self) in
    '(ef, pred) ← forward_pass (graph self) dur (∅, ∅) topo;
    end_ ← best_by ef topo;
    total ← dict_get ef end_;
    rpath ← follow (length topo) pred (Some end_);
    let lf0 := foldl (λ m n, <[n := total]> m) ∅ topo in
    lf ← backward_pass (graph self) dur lf0 (reverse topo);
    slack ← traverse (λ n, l ← dict_get lf n; e ← dict_get ef n; Ok (n, Z.max 0 (l - e))) topo;
    new (mkCriticalPath (reverse rpath) total source ef (list_to_map slack)).

(** Longest chain of dependencies above each node. *)
Fixpoint depth_pass (g : digraph) (acc : gmap string Z) (topo : list string)
  : result (gmap string Z) :=
  match topo with
  | [] => Ok acc
  | n :: topo =>
      vs ← traverse (dict_get acc) (predecessors g n);
      depth_pass g (<[n := match vs with
                           | [] => 0
                           | v :: vs => 1 + foldl Z.max v vs
                           end]> acc) topo
  end.
Definition depths (self : BuildSequencer) : result (gmap string Z) :=
  depth_pass (graph self) ∅ (lexicographical_topological_sort (graph self)).

(** ** Scores *)
(** [(deadline - now).total_seconds() / 3600] compared to hour marks, in
    floating point as the source computes it. *)
Definition deadline_hours (deadline now : Z) : PyFloat.float :=
  PyFloat.div (PyFloat.truediv (deadline - now) 1000000) (PyFloat.of_Z 3600).
Definition deadline_score_of (deadline : option Z) (now : Z) : Z :=
  match deadline with
  | None => 0
  | Some d =>
      let hours := deadline_hours d now in
      if PyFloat.leb hours (PyFloat.of_Z 0) then 200
      else if PyFloat.leb hours (PyFloat.of_Z 24) then 150
      else if PyFloat.leb hours (PyFloat.of_Z 72) then 100
      else if PyFloat.leb hours (PyFloat.of_Z 168) then 50
      else 0
  end.

Definition priority_points : list (string * Z) :=
  [("P0", 1000); ("P1", 700); ("P2", 400); ("P3", 100)].
Definition risk_points (r : Risk) : Z :=
  match r with LOW => 0 | MEDIUM => 10 | HIGH => 25 | CRITICAL => 40 end.

Definition score (fact : TaskControlFact) (critical_nodes : list string) (downstream_count now : Z)
  : result SequenceScore :=
  p ← dict_get (list_to_map priority_points) (priority fact);
  let critical := if str_in (task_id fact) critical_nodes then 200 else 0 in
  let deadline := deadline_score_of (deadline_utc fact) now in
  let r := risk_points (risk fact) in
  let unblock := Z.min 150 (downstream_count * 10) in
  duration ← match expected_duration_minutes fact with
             | None => Ok 0
             | Some d => q ← PyFloat.trunc (PyFloat.truediv d 60); Ok (Z.max (-80) (- q * 2))
             end;
  new (mkScore (task_id fact) p critical deadline r unblock duration
         (p + critical + deadline + r + unblock + duration)).

(** ** The ranked sequence of ready work *)
Definition blocked_state (s : ReadinessState) : bool :=
  bool_decide (s ∈ [RD_BLOCKED; RD_WAITING_APPROVAL; RD_WAITING_CONTEXT; RD_WAITING_DEPENDENCIES;
                    RD_WAITING_ENVIRONMENT; RD_WAITING_RESOURCES; RD_NOT_ELIGIBLE]).

Definition critical_nodes (self : BuildSequencer) (c : CriticalPathAnalysis)
  : result (list string) :=
  flagged ← traverse (λ kv : string * Z,
      if kv.2 =? 0 then
        f ← dict_get (by_id self) kv.1; Ok (kv.1, negb (is_terminal (state f)))
      else Ok (kv.1, false))
    (map_to_list (cp_slack_minutes c));
  Ok (fst <$> List.filter snd flagged).

Fixpoint number {A} (i : Z) (l : list A) : list (Z * A) :=
  match l with [] => [] | x :: l => (i, x) :: number (i + 1) l end.

Definition candidate_key (c : TaskControlFact * SequenceScore * Z) : Z * string :=
  (- total_score c.1.2, task_id c.1.1).

Definition build_sequence (self : BuildSequencer) (now : Z) : result BuildSequence :=
  critical ← critical_path self;
  crit ← critical_nodes self critical;
  ds ← depths self;
  rds ← traverse (readiness self) (facts self);
  let table := combine (facts self) rds in
  let active := count_if (λ r, bool_decide (rd_state r = RD_ACTIVE)) rds in
  let blocked := count_if (λ fr, blocked_state (rd_state fr.2)
                                 && bool_decide (issue_type fr.1 ≠ EPIC)) table in
  candidates ← traverse (λ fr,
      let downstream := Z.of_nat (length (descendants (graph self) (task_id fr.1))) in
      sc ← score fr.1 crit downstream now;
      Ok (fr.1, sc, downstream))
    (List.filter (λ fr, rd_ready fr.2) table);
  let ranked := sorted_by candidate_key candidates in
  items ← traverse (λ ic,
      depth ← dict_get ds (task_id ic.2.1.1);
      new (mkItem ic.1 (task_id ic.2.1.1) RD_READY ic.2.1.2 depth ic.2.2
             (str_in (task_id ic.2.1.1) crit)))
    (number 1 ranked);
  let fingerprint := graph_fingerprint self in
  sid ← control_identifier "SEQ" (bs_project_id self :: fingerprint :: (si_task_id <$> items));
  new (mkSequence sid (bs_project_id self) fingerprint (Z.of_nat (length (facts self)))
         (number_of_edges (graph self)) (Z.of_nat (length items)) active blocked critical items now).

End with_networkx.
