(* ===== verification/CriticalPath.v ===== *)
(** * CriticalPath: what the longest-path computation of the build sequencer
    computes

    The forward pass is related to the longest chain ending at a node, the
    backward pass to the longest chain after it, the predecessor links to an
    actual chain; the theorems about [critical_path] follow. *)
From S2P Require Import Prelude PyStd PyRe PyJson Identifiers TaskState ControlDomain DepGraph ControlGraph.
Local Open Scope Z_scope.

Definition weight (d : string → Z) (l : list string) : Z := Z_sum (d <$> l).

Lemma weight_app d l k : weight d (l ++ k) = weight d l + weight d k.
Proof. unfold weight. by rewrite fmap_app, Z_sum_app. Qed.
Lemma weight_cons d x l : weight d (x :: l) = d x + weight d l.
Proof. done. Qed.
Lemma weight_nil d : weight d [] = 0.
Proof. done. Qed.
Lemma weight_perm d l k : l ≡ₚ k → weight d l = weight d k.
Proof. intros Hp. unfold weight. apply Z_sum_perm. by f_equiv. Qed.
#[export] Hint Rewrite weight_app weight_cons weight_nil : pipeline.

(** [v] is the largest weight of a chain that ends at [n] (starts after [n]). *)
Definition longest_to (g : digraph) (d : string → Z) (n : string) (v : Z) : Prop :=
  (∀ l, chain g (l ++ [n]) → weight d (l ++ [n]) ≤ v)
  ∧ ∃ l, chain g (l ++ [n]) ∧ weight d (l ++ [n]) = v.
Definition longest_after (g : digraph) (d : string → Z) (n : string) (v : Z) : Prop :=
  (∀ l, chain g (n :: l) → weight d l ≤ v) ∧ ∃ l, chain g (n :: l) ∧ weight d l = v.

Lemma dict_get_ok {A} (m : gmap string A) k a : dict_get m k = Ok a ↔ m !! k = Some a.
Proof. unfold dict_get. destruct (m !! k); naive_solver. Qed.
Lemma dict_get_lookup {A} (m : gmap string A) k a : m !! k = Some a → dict_get m k = Ok a.
Proof. apply dict_get_ok. Qed.

Lemma keyed_traverse (ef : gmap string Z) l :
  (∀ p, p ∈ l → is_Some (ef !! p)) →
  traverse (λ p, v ← dict_get ef p; Ok (v, p)) l = Ok ((λ p, (default 0 (ef !! p), p)) <$> l).
Proof.
  intros Hl. apply traverse_map_ok. intros p [v Hv]%Hl. by rewrite (dict_get_lookup _ _ _ Hv), Hv.
Qed.

Lemma best_by_ok (ef : gmap string Z) l :
  l ≠ [] → (∀ p, p ∈ l → is_Some (ef !! p)) →
  ∃ p v, best_by ef l = Ok p ∧ p ∈ l ∧ ef !! p = Some v
         ∧ ∀ q w, q ∈ l → ef !! q = Some w → w ≤ v.
Proof.
  intros Hne Hl. unfold best_by. rewrite keyed_traverse by done. simpl.
  destruct (max_by id _) as [[v p]|] eqn:E; [|by destruct l].
  pose proof (max_by_elem _ _ _ E) as (q & [= -> ->] & Hq)%list_elem_of_fmap.
  destruct (Hl q Hq) as [v Hv]. exists q, v. split; [done|]. split; [done|]. split; [done|].
  intros p w Hp Hw.
  pose proof (max_by_le _ _ _ (w, p) E) as Hle. rewrite Hv in Hle. simpl in Hle.
  unfold pyleb, prod_pyord, prod_pyleb, pyleb, Z_pyord in Hle; simpl in Hle.
  assert ((w, p) ∈ (λ p, (default 0 (ef !! p), p)) <$> l) as Hin.
  { apply list_elem_of_fmap. exists p. by rewrite Hw. }
  specialize (Hle Hin). destruct (w <=? v) eqn:Ew; [by apply Z.leb_le|done].
Qed.

Lemma min_list_spec b l :
  min_list b l ∈ b :: l ∧ ∀ x, x ∈ b :: l → min_list b l ≤ x.
Proof.
  revert b. induction l as [|y l IH]; intros b; simpl.
  - split; [left|]. by intros x ->%list_elem_of_singleton.
  - destruct (IH (Z.min b y)) as [Hin Hle]. split.
    + destruct (Z.min_spec b y) as [[_ E]|[_ E]]; rewrite E in *; set_solver.
    + intros x Hx. assert (min_list (Z.min b y) l ≤ Z.min b y) by (apply Hle; left).
      assert (x = b ∨ x = y ∨ x ∈ l) as [->|[->|?]] by set_solver; [lia|lia|].
      apply Hle. by right.
Qed.

(** ** The forward pass *)
Section passes.
Context (g : digraph) (d : string → Z) (dur : gmap string Z).
Hypothesis d_nonneg : ∀ n, 0 ≤ d n.
Hypothesis dur_d : ∀ n, n ∈ dg_nodes g → dur !! n = Some (d n).

Lemma weight_nonneg l : 0 ≤ weight d l.
Proof. apply Z_sum_nonneg, Forall_fmap, Forall_true. intros n. apply d_nonneg. Qed.

(** The predecessor links from a node back to a source. *)
Inductive links (pred : gmap string (option string)) : string → list string → Prop :=
  | links_source x : pred !! x = Some None → links pred x [x]
  | links_pred x b l : pred !! x = Some (Some b) → links pred b l → links pred x (x :: l).

Lemma links_follow pred x l fuel :
  links pred x l → (length l ≤ fuel)%nat → follow fuel pred (Some x) = Ok l.
Proof.
  intros Hl. revert fuel. induction Hl as [x Hx|x b l Hx Hl IH]; intros [|fuel] Hf; simpl in *;
    try lia; rewrite (dict_get_lookup _ _ _ Hx); simpl.
  - by destruct fuel.
  - by rewrite IH by lia.
Qed.
Lemma links_insert pred n o x l :
  links pred x l → n ∉ l → links (<[n := o]> pred) x l.
Proof.
  induction 1 as [x Hx|x b l Hx Hl IH]; intros Hn; econstructor;
    rewrite ?lookup_insert_ne by set_solver; eauto. apply IH. set_solver.
Qed.

Record forward_inv (pre : list string) (ef : gmap string Z) (pred : gmap string (option string))
  : Prop := {
  fi_dom x : is_Some (ef !! x) ↔ x ∈ pre;
  fi_longest x v : ef !! x = Some v → longest_to g d x v;
  fi_links x v : ef !! x = Some v →
    ∃ l, links pred x l ∧ Forall (.∈ pre) l ∧ chain g (reverse l) ∧ weight d l = v;
}.

Lemma longest_to_source n : (∀ p, ¬ edge g p n) → longest_to g d n (d n).
Proof.
  intros Hn. split.
  - intros l Hc. destruct l as [|p l _] using rev_ind; [simpl; rewrite weight_cons, weight_nil; lia|].
    rewrite <-(assoc_L (++)) in Hc. simpl in Hc. apply chain_snoc_inv in Hc as [_ He].
    by apply Hn in He.
  - exists []. split; [constructor|]. simpl. rewrite weight_cons, weight_nil. lia.
Qed.
Lemma longest_to_step n p v :
  edge g p n → longest_to g d p v →
  (∀ q w, edge g q n → longest_to g d q w → w ≤ v) →
  (∀ q, edge g q n → ∃ w, longest_to g d q w) →
  longest_to g d n (v + d n).
Proof.
  intros Hpn [Hub (l & Hc & Hw)] Hbest Hall. split.
  - intros k Hk. destruct k as [|q k _] using rev_ind.
    + simpl. rewrite weight_cons, weight_nil. pose proof (weight_nonneg (l ++ [p])). lia.
    + rewrite <-(assoc_L (++)) in Hk. simpl in Hk. apply chain_snoc_inv in Hk as [Hk He].
      destruct (Hall q He) as [w Hqw]. pose proof (Hbest q w He Hqw).
      pose proof (proj1 Hqw k Hk). rewrite weight_app, weight_cons, weight_nil. lia.
  - exists (l ++ [p]). rewrite <-(assoc_L (++)). simpl. split; [by apply chain_snoc|].
    rewrite weight_app, !weight_cons, weight_nil.
    rewrite weight_app, weight_cons, weight_nil in Hw. lia.
Qed.

Lemma forward_step_ok pre ef pred n :
  n ∈ dg_nodes g → n ∉ pre → (∀ p, edge g p n → p ∈ pre) →
  forward_inv pre ef pred →
  ∃ ef' pred', forward_step g dur (ef, pred) n = Ok (ef', pred')
               ∧ forward_inv (pre ++ [n]) ef' pred'.
Proof.
  intros Hn Hfresh Hpre Hinv. unfold forward_step. rewrite (dict_get_lookup _ _ _ (dur_d n Hn)).
  cbn [mbind result_bind].
  assert (∀ p, p ∈ sorted_by id (predecessors g n) ↔ edge g p n) as Hp.
  { intros p. by rewrite elem_of_sorted_by, elem_of_predecessors. }
  (* what is left to show once the value, its bound and its links are known *)
  assert (∀ v o l, longest_to g d n v → links (<[n := o]> pred) n l → Forall (.∈ pre ++ [n]) l →
    chain g (reverse l) → weight d l = v →
    forward_inv (pre ++ [n]) (<[n := v]> ef) (<[n := o]> pred)) as Hfin.
  { intros v o l Hlong Hlk Hall Hch Hwt. split.
    - intros x. rewrite lookup_insert, elem_of_app, list_elem_of_singleton.
      case_decide; subst; [naive_solver|]. rewrite (fi_dom _ _ _ Hinv). naive_solver.
    - intros x w. rewrite lookup_insert. case_decide; subst; [by intros [= <-]|].
      apply (fi_longest _ _ _ Hinv).
    - intros x w. rewrite lookup_insert. case_decide; subst; [intros [= <-]; by exists l|].
      intros Hx. destruct (fi_links _ _ _ Hinv _ _ Hx) as (k & Hk & Hkp & Hkc & Hkw).
      exists k. split; [|split; [|done]].
      + apply links_insert; [done|]. rewrite Forall_forall in Hkp. naive_solver.
      + eapply Forall_impl; [exact Hkp|]. set_solver. }
  case_bool_decide as E.
  - do 2 eexists. split; [done|]. apply (Hfin _ _ [n]).
    + apply longest_to_source. intros p He%Hp. rewrite E in He. set_solver.
    + apply links_source, lookup_insert_eq.
    + repeat constructor. set_solver.
    + constructor.
    + rewrite weight_cons, weight_nil. lia.
  - destruct (best_by_ok ef _ E) as (p & v & -> & Hpin & Hpv & Hmax).
    { intros p Hpe%Hp%Hpre. by apply (fi_dom _ _ _ Hinv). }
    cbn [mbind result_bind]. rewrite (dict_get_lookup _ _ _ Hpv). cbn [mbind result_bind].
    do 2 eexists. split; [done|]. apply Hp in Hpin.
    destruct (fi_links _ _ _ Hinv _ _ Hpv) as (k & Hk & Hkp & Hkc & Hkw).
    apply (Hfin _ _ (n :: k)).
    + eapply longest_to_step; [done|by apply (fi_longest _ _ _ Hinv)| |].
      * intros q w Hq Hw. assert (is_Some (ef !! q)) as [w' Hw'] by (by apply (fi_dom _ _ _ Hinv), Hpre).
        apply (Z.le_trans _ w'); [|eapply Hmax; [by apply Hp|done]].
        destruct Hw as [_ (l' & Hl' & <-)]. by apply (fi_longest _ _ _ Hinv _ _ Hw').
      * intros q Hq. assert (is_Some (ef !! q)) as [w Hw] by (by apply (fi_dom _ _ _ Hinv), Hpre).
        exists w. by apply (fi_longest _ _ _ Hinv).
    + eapply links_pred; [apply lookup_insert_eq|]. apply links_insert; [done|].
      rewrite Forall_forall in Hkp. naive_solver.
    + constructor; [set_solver|]. eapply Forall_impl; [exact Hkp|]. set_solver.
    + rewrite reverse_cons. inv Hk; rewrite ?reverse_cons in *; simpl in *;
        [by constructor; [|constructor]|].
      rewrite <-(assoc_L (++)). by apply chain_snoc.
    + rewrite weight_cons. lia.
Qed.

Context (topo : list string).
Hypothesis g_wf : wf_digraph g.
Hypothesis topo_ok : topological g topo.

Lemma topo_NoDup : NoDup topo.
Proof. rewrite (proj1 topo_ok). apply g_wf. Qed.
Lemma elem_of_topo n : n ∈ topo ↔ n ∈ dg_nodes g.
Proof. by rewrite (proj1 topo_ok). Qed.

Lemma forward_pass_ok suf pre ef pred :
  topo = pre ++ suf → forward_inv pre ef pred →
  ∃ ef' pred', forward_pass g dur (ef, pred) suf = Ok (ef', pred') ∧ forward_inv topo ef' pred'.
Proof.
  revert pre ef pred. induction suf as [|n suf IH]; intros pre ef pred E Hinv; cbn [forward_pass].
  { rewrite app_nil_r in E. rewrite E. eauto. }
  assert (n ∉ pre) as Hn.
  { pose proof topo_NoDup as Hnd. rewrite E in Hnd. apply NoDup_app in Hnd as (_ & Hd & _).
    intros Hn. by apply (Hd n); [|left]. }
  destruct (forward_step_ok pre ef pred n) as (ef1 & pred1 & -> & Hinv1); [|done| |done|].
  - apply elem_of_topo. rewrite E. set_solver.
  - intros p Hp. by apply (proj2 topo_ok pre n suf E).
  - cbn [mbind result_bind]. apply (IH (pre ++ [n])); [|done]. by rewrite <-(assoc_L (++)).
Qed.

Lemma forward_pass_total :
  ∃ ef pred, forward_pass g dur (∅, ∅) topo = Ok (ef, pred) ∧ forward_inv topo ef pred.
Proof.
  apply (forward_pass_ok topo []); [done|]. split.
  - intros x. rewrite lookup_empty. split; [by intros []|set_solver].
  - intros x v. by rewrite lookup_empty.
  - intros x v. by rewrite lookup_empty.
Qed.

(** ** The backward pass *)
Definition backward_inv (total : Z) (suf : list string) (lf : gmap string Z) : Prop :=
  ∀ x, x ∈ topo →
    (x ∈ suf → ∃ v, lf !! x = Some (total - v) ∧ longest_after g d x v)
    ∧ (x ∉ suf → lf !! x = Some total).

Lemma longest_after_sink n : (∀ s, ¬ edge g n s) → longest_after g d n 0.
Proof.
  intros Hn. split.
  - intros l Hc. inv Hc; [done|]. exfalso. by eapply Hn.
  - exists []. split; [constructor|done].
Qed.

Lemma backward_step_ok total pre n suf lf :
  topo = pre ++ n :: suf → backward_inv total suf lf →
  ∃ lf', backward_step g dur lf n = Ok lf' ∧ backward_inv total (n :: suf) lf'.
Proof.
  intros E Hinv. pose proof topo_NoDup as Hnd. rewrite E in Hnd.
  apply NoDup_app in Hnd as (_ & Hd & [Hns _]%NoDup_cons).
  assert (∀ s, edge g n s → s ∈ suf) as Hsuf.
  { intros s Hs. assert (s ∈ topo) as Hin by (apply elem_of_topo; by destruct (wf_closed _ g_wf _ _ Hs)).
    rewrite E in Hin. apply elem_of_app in Hin as [Hin|[->|?]%elem_of_cons]; [|exfalso|done].
    - apply list_elem_of_split in Hin as (a & b & ->). exfalso. apply (Hd n); [|left].
      rewrite <-(assoc_L (++)) in E. pose proof (proj2 topo_ok a s _ E n Hs). set_solver.
    - pose proof (proj2 topo_ok pre n suf E n Hs). by apply (Hd n); [|left]. }
  assert (∀ s, s ∈ suf → ∃ v, lf !! s = Some (total - v) ∧ longest_after g d s v) as Hval.
  { intros s Hs. apply Hinv; [rewrite E; set_solver|done]. }
  assert (∀ s, s ∈ suf → dur !! s = Some (d s)) as Hdur.
  { intros s Hs. apply dur_d, elem_of_topo. rewrite E. set_solver. }
  set (f := λ s, default 0 (lf !! s) - d s).
  unfold backward_step.
  assert (traverse (λ s, l ← dict_get lf s; d0 ← dict_get dur s; Ok (l - d0))
            (sorted_by id (successors g n)) = Ok (f <$> sorted_by id (successors g n))) as ->.
  { apply traverse_map_ok. intros s. rewrite elem_of_sorted_by, elem_of_successors.
    intros Hs%Hsuf. destruct (Hval s Hs) as (v & Hv & _).
    by rewrite (dict_get_lookup _ _ _ Hv), (dict_get_lookup _ _ _ (Hdur s Hs)); unfold f; rewrite Hv. }
  simpl. assert (∀ s, s ∈ sorted_by id (successors g n) ↔ edge g n s) as Hsucc
    by (intros s; by rewrite elem_of_sorted_by, elem_of_successors).
  assert (∀ lf' v, longest_after g d n v → lf' !! n = Some (total - v) →
    (∀ x, x ≠ n → lf' !! x = lf !! x) → backward_inv total (n :: suf) lf') as Hfin.
  { intros lf' v Hlong Hlf' Hframe x Hx. split.
    - intros [->|Hxs]%elem_of_cons; [by exists v|].
      rewrite Hframe by (intros ->; done). by apply Hval.
    - intros Hxs. apply not_elem_of_cons in Hxs as [Hxn Hxs]. rewrite Hframe by done. by apply Hinv. }
  destruct (f <$> sorted_by id (successors g n)) as [|v vs] eqn:Ef.
  - exists lf. split; [done|]. apply (Hfin _ 0); [|rewrite Z.sub_0_r; apply Hinv|done].
    + apply longest_after_sink. intros s Hs%Hsucc. apply fmap_nil_inv in Ef. rewrite Ef in Hs. set_solver.
    + rewrite E. set_solver.
    + done.
  - exists (<[n := min_list v vs]> lf). split; [done|].
    destruct (min_list_spec v vs) as [Hin Hle]. rewrite <-Ef in Hin, Hle.
    apply list_elem_of_fmap in Hin as (s & Hs & Hsin). apply Hsucc in Hsin as Hedge.
    destruct (Hval s (Hsuf s Hedge)) as (w & Hw & Hub & (l & Hl & Hlw)).
    assert (min_list v vs = total - (w + d s)) as Hm by (rewrite Hs; unfold f; rewrite Hw; simpl; lia).
    apply (Hfin _ (w + d s)).
    + split.
      * intros k Hk. inv Hk; [rewrite weight_nil; pose proof (weight_nonneg (s :: l)) as Hnn;
          rewrite weight_cons in Hnn; lia|].
        destruct (Hval y) as (wy & Hwy & Huby & _); [by apply Hsuf|].
        assert (min_list v vs ≤ f y) as Hfy by (apply Hle, list_elem_of_fmap_2; by apply Hsucc).
        unfold f in Hfy. rewrite Hwy in Hfy. simpl in Hfy. rewrite weight_cons.
        match goal with H : chain g (y :: ?l0) |- _ => pose proof (Huby l0 H) end. lia.
      * exists (s :: l). split; [by constructor|]. rewrite weight_cons. lia.
    + by rewrite lookup_insert_eq, Hm.
    + intros x Hx. by rewrite lookup_insert_ne.
Qed.

Lemma backward_pass_ok total pre suf lf :
  topo = pre ++ suf → backward_inv total suf lf →
  ∃ lf', backward_pass g dur lf (reverse pre) = Ok lf' ∧ backward_inv total topo lf'.
Proof.
  revert suf lf. induction pre as [|n pre IH] using rev_ind; intros suf lf E Hinv.
  { exists lf. split; [done|]. by rewrite E. }
  rewrite reverse_snoc. cbn [backward_pass]. rewrite <-(assoc_L (++)) in E.
  destruct (backward_step_ok total pre n suf lf E Hinv) as (lf1 & -> & Hinv1). cbn [mbind result_bind].
  by apply (IH (n :: suf)).
Qed.

Lemma backward_pass_total total lf0 :
  (∀ x, x ∈ topo → lf0 !! x = Some total) →
  ∃ lf, backward_pass g dur lf0 (reverse topo) = Ok lf
        ∧ ∀ x, x ∈ topo → ∃ v, lf !! x = Some (total - v) ∧ longest_after g d x v.
Proof.
  intros H0. destruct (backward_pass_ok total topo [] lf0) as (lf & Hlf & Hinv).
  - by rewrite app_nil_r.
  - intros x Hx. split; [set_solver|]. auto.
  - exists lf. split; [done|]. intros x Hx. by apply Hinv.
Qed.

(** Chains through a node are no heavier than the heaviest chain of all. *)
Lemma through_node x e t total :
  longest_to g d x e → longest_after g d x t →
  (∀ y v, longest_to g d y v → y ∈ topo → v ≤ total) →
  (∀ y, y ∈ topo → ∃ v, longest_to g d y v) → x ∈ topo →
  e + t ≤ total.
Proof.
  intros [_ (l & Hl & <-)] [_ (k & Hk & <-)] Htot Hall Hx.
  pose proof (chain_app g l x k Hl Hk) as Hc.
  assert (∃ l' y, l ++ x :: k = l' ++ [y]) as (l' & y & Ey).
  { destruct (exists_last (l := l ++ x :: k)) as (l' & y & ?); [by destruct l|eauto]. }
  assert (y ∈ topo) as Hy.
  { destruct k as [|z k] using rev_ind.
    - apply app_inj_tail in Ey as [_ <-]. done.
    - rewrite app_comm_cons, (assoc_L (++)) in Ey. apply app_inj_tail in Ey as [_ <-].
      apply elem_of_topo. assert (tc (edge g) x z) as Ht by (eapply chain_tc; [exact Hk|set_solver]).
      clear -Ht g_wf. induction Ht as [x y He|]; [by destruct (wf_closed _ g_wf _ _ He)|done]. }
  destruct (Hall y Hy) as [v Hv]. pose proof (Htot _ _ Hv Hy).
  rewrite Ey in Hc. pose proof (proj1 Hv _ Hc) as Hle. rewrite <-Ey in Hle.
  rewrite !weight_app, !weight_cons, weight_nil in *. lia.
Qed.

Lemma const_dict_lookup (l : list string) (v : Z) x :
  x ∈ l → foldl (λ (m : gmap string Z) n, <[n := v]> m) ∅ l !! x = Some v.
Proof.
  induction l as [|y l IH] using rev_ind; [set_solver|].
  rewrite foldl_app. simpl. rewrite lookup_insert. case_decide; [done|].
  intros [?|?%list_elem_of_singleton]%elem_of_app; [auto|done].
Qed.

(** Both passes, the end node and the links, together. *)
Lemma analysis_total : topo ≠ [] →
  ∃ ef pred e_ total rpath lf,
    forward_pass g dur (∅, ∅) topo = Ok (ef, pred)
    ∧ best_by ef topo = Ok e_ ∧ ef !! e_ = Some total
    ∧ follow (length topo) pred (Some e_) = Ok rpath
    ∧ backward_pass g dur (foldl (λ m n, <[n := total]> m) ∅ topo) (reverse topo) = Ok lf
    ∧ Forall (.∈ topo) rpath ∧ chain g (reverse rpath) ∧ weight d rpath = total
    ∧ ∀ n, n ∈ topo → ∃ e t, ef !! n = Some e ∧ lf !! n = Some (total - t)
        ∧ longest_to g d n e ∧ longest_after g d n t ∧ e ≤ total ∧ e + t ≤ total.
Proof.
  intros Htne. destruct forward_pass_total as (ef & pred & Hfwd & Hinv).
  assert (∀ n, n ∈ topo → is_Some (ef !! n)) as Hef by (intros n; apply (fi_dom _ _ _ Hinv)).
  destruct (best_by_ok ef topo Htne Hef) as (e_ & total & Hbest & He_in & He & Hmax).
  destruct (fi_links _ _ _ Hinv _ _ He) as (rpath & Hlk & Hrp & Hrc & Hrw).
  assert (length rpath ≤ length topo)%nat as Hlen.
  { rewrite <-length_reverse. apply (chain_length_bound g); [|done|by apply Forall_reverse].
    by eapply topological_acyclic. }
  destruct (backward_pass_total total _ (const_dict_lookup topo total)) as (lf & Hbwd & Hlf).
  assert (∀ y v, longest_to g d y v → y ∈ topo → v ≤ total) as Hub.
  { intros y v [_ (l & Hl & <-)] Hy. destruct (Hef y Hy) as [w Hw].
    apply (Z.le_trans _ w); [by apply (fi_longest _ _ _ Hinv _ _ Hw)|by eapply Hmax]. }
  assert (∀ y, y ∈ topo → ∃ v, longest_to g d y v) as Hall.
  { intros y [w Hw]%Hef. exists w. by apply (fi_longest _ _ _ Hinv). }
  exists ef, pred, e_, total, rpath, lf. do 3 (split; [done|]).
  split; [by apply links_follow|]. do 4 (split; [done|]).
  intros n Hn. destruct (Hlf n Hn) as (t & Hlt & Ht). destruct (Hef n Hn) as [e Hen].
  pose proof (fi_longest _ _ _ Hinv _ _ Hen) as Hlong. exists e, t.
  do 4 (split; [done|]). split; [by apply (Hub n)|]. by apply (through_node n).
Qed.
End passes.
