(* ===== verification/Sequencer.v ===== *)
(** * Sequencer: properties of the build sequencer

    What a constructed [BuildSequencer] satisfies, when its methods return,
    and the theorems about readiness, the critical path, slack and the ranked
    sequence of ready work. *)
From S2P Require Import Prelude PyStd PyRe PyJson Identifiers TaskState ControlDomain DepGraph ControlGraph CriticalPath.
Local Open Scope Z_scope.

Lemma max_fold v vs :
  foldl Z.max v vs ∈ v :: vs ∧ ∀ x, x ∈ v :: vs → x ≤ foldl Z.max v vs.
Proof.
  revert v. induction vs as [|y l IH]; intros b; simpl.
  - split; [left|]. by intros x ->%list_elem_of_singleton.
  - destruct (IH (Z.max b y)) as [Hin Hle]. split.
    + destruct (Z.max_spec b y) as [[_ E]|[_ E]]; rewrite E in *; set_solver.
    + intros x Hx. assert (Z.max b y ≤ foldl Z.max (Z.max b y) l) by (apply Hle; left).
      assert (x = b ∨ x = y ∨ x ∈ l) as [->|[->|?]] by set_solver; [lia|lia|].
      apply Hle. by right.
Qed.

Section sequencer.
Context `{Networkx, !NetworkxLaws}.

(** ** Construction *)
Lemma add_dependencies_ok known t deps g g' :
  wf_digraph g → t ∈ dg_nodes g → (∀ d, is_Some (known !! d) → d ∈ dg_nodes g) →
  add_dependencies known t deps g = Ok g' →
  wf_digraph g' ∧ dg_nodes g' = dg_nodes g ∧ Forall (λ d, is_Some (known !! d)) deps
  ∧ ∀ x y, edge g' x y ↔ edge g x y ∨ (x ∈ deps ∧ y = t).
Proof.
  revert g. induction deps as [|d deps IH]; intros g Hg Ht Hk; simpl.
  { intros [= <-]. set_solver. }
  destruct (known !! d) as [f|] eqn:Ed; [|done]. intros Hg'.
  assert (d ∈ dg_nodes g) as Hd by (apply Hk; eauto).
  assert (dg_nodes (add_edge g d t) = dg_nodes g) as En by (by apply add_edge_known).
  destruct (IH (add_edge g d t)) as (Hw & Hn & Hf & He); [by apply add_edge_wf| | |done|].
  { by rewrite En. }
  { by rewrite En. }
  split; [done|]. split; [congruence|]. split; [constructor; eauto|].
  intros x y. rewrite He, edge_add_edge. set_solver.
Qed.

Lemma add_facts_ok known l g g' :
  wf_digraph g → (∀ f, f ∈ l → task_id f ∈ dg_nodes g) →
  (∀ d, is_Some (known !! d) → d ∈ dg_nodes g) →
  add_facts known l g = Ok g' →
  wf_digraph g' ∧ dg_nodes g' = dg_nodes g
  ∧ (∀ f, f ∈ l → Forall (λ d, is_Some (known !! d)) (dependency_ids f))
  ∧ ∀ x y, edge g' x y ↔ edge g x y ∨ ∃ f, f ∈ l ∧ task_id f = y ∧ x ∈ dependency_ids f.
Proof.
  revert g. induction l as [|f l IH]; intros g Hg Hl Hk; simpl.
  { intros [= <-]. split; [done|]. split; [done|]. split; [set_solver|]. set_solver. }
  intros (g1 & H1 & H2)%bind_ok.
  apply add_dependencies_ok in H1 as (Hw1 & Hn1 & Hf1 & He1); [|done|apply Hl; left|done].
  apply IH in H2 as (Hw & Hn & Hf & He); [|done|rewrite Hn1; set_solver|by rewrite Hn1].
  split; [done|]. split; [congruence|]. split.
  - intros f' [->|Hf']%elem_of_cons; auto.
  - intros x y. rewrite He, He1. set_solver.
Qed.

Lemma foldl_add_node_wf l g : wf_digraph g →
  wf_digraph (foldl add_node g l) ∧ dg_edges (foldl add_node g l) = dg_edges g
  ∧ ∀ x, x ∈ dg_nodes (foldl add_node g l) ↔ x ∈ dg_nodes g ∨ x ∈ l.
Proof.
  revert g. induction l as [|n l IH]; intros g Hg; simpl; [set_solver|].
  destruct (IH (add_node g n)) as (H1 & H2 & H3); [by apply add_node_wf|].
  split; [done|]. split; [by rewrite H2, add_node_edges|].
  intros x. rewrite H3, elem_of_add_node, elem_of_cons. tauto.
Qed.

Record sequencer_ok (self : BuildSequencer) : Prop := {
  so_sorted : StronglySorted (key_le task_id) (facts self);
  so_nodup : NoDup (task_id <$> facts self);
  so_by_id : by_id self = dict_of task_id (facts self);
  so_wf : wf_digraph (graph self);
  so_acyclic : acyclic (graph self);
  so_nodes : ∀ x, x ∈ dg_nodes (graph self) ↔ x ∈ task_id <$> facts self;
  so_deps : ∀ f, f ∈ facts self → Forall (λ d, d ∈ task_id <$> facts self) (dependency_ids f);
  so_edges : ∀ x y, edge (graph self) x y ↔
    ∃ f, f ∈ facts self ∧ task_id f = y ∧ x ∈ dependency_ids f;
}.

Lemma new_sequencer_ok input self :
  new_sequencer input = Ok self → sequencer_ok self ∧ facts self = sorted_by task_id input.
Proof.
  unfold new_sequencer. intros Hs. apply bind_ok in Hs as ([] & Hd & Hs).
  apply raise_if_ok, has_duplicates_false in Hd.
  apply bind_ok in Hs as ([] & _ & Hs). apply bind_ok in Hs as (g & Hg & [= <-]).
  set (fs := sorted_by task_id input) in *. unfold build_graph in Hg.
  apply bind_ok in Hg as (g' & Hf & Hg). apply bind_ok in Hg as ([] & Hdag & [= <-]).
  apply raise_if_ok, negb_false_iff in Hdag.
  destruct (foldl_add_node_wf (task_id <$> fs) empty_digraph) as (Hw0 & He0 & Hn0).
  { split; [constructor..|]. intros x y. unfold edge. simpl. set_solver. }
  apply add_facts_ok in Hf as (Hw & Hn & Hdeps & He); [|done| |].
  - split; [|done]. split; simpl; [apply sorted_by_sorted, _|done|done|done| | | |].
    + by apply nx_dag.
    + intros x. rewrite Hn, Hn0. set_solver.
    + intros f Hfin. eapply Forall_impl; [by apply Hdeps|]. intros d. by rewrite dict_of_dom.
    + intros x y. rewrite He. unfold edge at 1. rewrite He0. set_solver.
  - intros f Hfin. apply Hn0. right. by apply list_elem_of_fmap_2.
  - intros d Hdk%dict_of_dom. apply Hn0. by right.
Qed.

Lemma by_id_lookup self f : sequencer_ok self → f ∈ facts self → by_id self !! task_id f = Some f.
Proof. intros Hok Hf. rewrite (so_by_id _ Hok). apply dict_of_lookup; [apply Hok|done]. Qed.
Lemma by_id_elem self n : sequencer_ok self → n ∈ task_id <$> facts self →
  ∃ f, by_id self !! n = Some f ∧ f ∈ facts self ∧ task_id f = n.
Proof. intros Hok (f & -> & Hf)%list_elem_of_fmap. exists f. split; [by apply by_id_lookup|done]. Qed.
Lemma by_id_facts self n f : sequencer_ok self → by_id self !! n = Some f → f ∈ facts self ∧ task_id f = n.
Proof. intros Hok. rewrite (so_by_id _ Hok). apply dict_of_lookup_Some. Qed.

(** ** Durations *)
Definition task_duration (self : BuildSequencer) (n : string) : Z :=
  match by_id self !! n with Some f => duration_of f | None => 0 end.

Lemma durations_lookup self n : sequencer_ok self → n ∈ task_id <$> facts self →
  (durations self).1 !! n = Some (task_duration self n).
Proof.
  intros Hok (f & -> & Hf)%list_elem_of_fmap. unfold task_duration. rewrite by_id_lookup by done.
  unfold durations; simpl. pose proof (so_nodup _ Hok) as Hnd. revert Hnd Hf.
  induction (facts self) as [|h l IH] using rev_ind; [set_solver|].
  rewrite fmap_app, NoDup_app, foldl_app. simpl. intros (Hnd & Hh & _) Hf.
  rewrite lookup_insert. case_decide as E.
  - apply elem_of_app in Hf as [Hf|Hf%list_elem_of_singleton]; [|by subst].
    exfalso. apply (Hh (task_id f)); [by apply list_elem_of_fmap_2|rewrite E; left].
  - apply IH; [done|]. apply elem_of_app in Hf as [?|Hf%list_elem_of_singleton]; [done|by subst].
Qed.

Lemma duration_nonneg self n :
  sequencer_ok self → Forall (λ f, validate f = Ok ()) (facts self) → 0 ≤ task_duration self n.
Proof.
  intros Hok Hv. unfold task_duration. destruct (by_id self !! n) as [f|] eqn:E; [|done].
  apply by_id_facts in E as [Hf _]; [|done]. rewrite Forall_forall in Hv.
  destruct (fact_valid f (Hv f Hf)) as (_ & _ & _ & Hd & _). unfold duration_of.
  destruct (counts_duration f); [|done]. destruct (expected_duration_minutes f) as [z|]; [|done].
  simpl in Hd. apply andb_true_iff in Hd as [Hd _]. apply Z.leb_le in Hd. lia.
Qed.

(** ** The critical path *)
Lemma critical_path_valid self c :
  Forall (λ f, validate f = Ok ()) (facts self) → 0 ≤ cp_total_duration_minutes c →
  Forall (.∈ task_id <$> facts self) (cp_path c) → validate c = Ok ().
Proof.
  intros Hv Htot Hp. unfold validate, CriticalPathAnalysis_model.
  rewrite (proj2 (raise_if_ok _ _ _ ())) by (by apply Z.ltb_ge). simpl.
  apply for_each_ok. intros v Hin. rewrite Forall_forall in Hp.
  apply Hp, list_elem_of_fmap in Hin as (f & -> & Hf).
  rewrite Forall_forall in Hv. by destruct (fact_valid f (Hv f Hf)) as [-> _].
Qed.

Lemma critical_path_spec self :
  sequencer_ok self → Forall (λ f, validate f = Ok ()) (facts self) → facts self ≠ [] →
  ∃ c, critical_path self = Ok c
    ∧ chain (graph self) (cp_path c)
    ∧ weight (task_duration self) (cp_path c) = cp_total_duration_minutes c
    ∧ (∀ n, n ∈ task_id <$> facts self →
        ∃ e t, cp_earliest_finish_minutes c !! n = Some e
          ∧ cp_slack_minutes c !! n = Some (cp_total_duration_minutes c - (e + t))
          ∧ longest_to (graph self) (task_duration self) n e
          ∧ longest_after (graph self) (task_duration self) n t
          ∧ e ≤ cp_total_duration_minutes c ∧ e + t ≤ cp_total_duration_minutes c)
    ∧ ∀ n v, cp_slack_minutes c !! n = Some v → n ∈ task_id <$> facts self.
Proof.
  intros Hok Hv Hne. set (g := graph self). set (d := task_duration self).
  pose proof (nx_topological g (so_wf _ Hok) (so_acyclic _ Hok)) as Htopo.
  set (topo := lexicographical_topological_sort g) in *.
  assert (∀ n, n ∈ topo ↔ n ∈ task_id <$> facts self) as Hin
    by (intros n; rewrite (proj1 Htopo); apply (so_nodes _ Hok)).
  assert (∀ n, 0 ≤ d n) as Hd by (intros n; by apply duration_nonneg).
  assert (∀ n, n ∈ dg_nodes g → (durations self).1 !! n = Some (d n)) as Hdur
    by (intros n Hn; apply durations_lookup; [done|by apply (so_nodes _ Hok)]).
  assert (topo ≠ []) as Htne.
  { intros E. destruct (facts self) as [|f l] eqn:Ef; [done|].
    assert (task_id f ∈ topo) as Hf by (apply Hin; left). rewrite E in Hf. set_solver. }
  destruct (analysis_total g d _ Hd Hdur topo (so_wf _ Hok) Htopo Htne)
    as (ef & pred & e_ & total & rpath & lf & Hfwd & Hbest & He & Hfol & Hbwd & Hrp & Hrc & Hrw & Hn).
  set (slack := λ n, Z.max 0 (default 0 (lf !! n) - default 0 (ef !! n))).
  assert (traverse (λ n, l ← dict_get lf n; e ← dict_get ef n; Ok (n, Z.max 0 (l - e))) topo
          = Ok ((λ n, (n, slack n)) <$> topo)) as Hslack.
  { apply traverse_map_ok. intros n (e & t & Hen & Hlt & _)%Hn. unfold slack.
    by rewrite (dict_get_lookup _ _ _ Hlt), (dict_get_lookup _ _ _ Hen), Hlt, Hen. }
  exists (mkCriticalPath (reverse rpath) total (durations self).2 ef
            (list_to_map ((λ n, (n, slack n)) <$> topo))).
  split; [|split; [done|split; [simpl; rewrite <-Hrw; apply weight_perm, reverse_Permutation|split]]].
  - unfold critical_path. rewrite bool_decide_false by done.
    destruct (durations self) as [dur source]. simpl in Hfwd, Hbwd |- *.
    fold g topo. rewrite Hfwd. simpl. rewrite Hbest. simpl.
    rewrite (dict_get_lookup _ _ _ He). simpl. rewrite Hfol. simpl.
    rewrite Hbwd. simpl. rewrite Hslack. simpl. apply new_valid, (critical_path_valid self); [done|..].
    + simpl. rewrite <-Hrw. by apply weight_nonneg.
    + simpl. apply Forall_reverse. eapply Forall_impl; [exact Hrp|]. intros n. apply Hin.
  - simpl. intros n Hn'%Hin. destruct (Hn n Hn') as (e & t & Hen & Hlt & Hlong & Haft & Hle & Hle2).
    exists e, t. split; [done|]. split; [|done].
    assert (slack n = total - (e + t)) as Hs by (unfold slack; rewrite Hlt, Hen; simpl; lia).
    apply elem_of_list_to_map_1'.
    + intros y. rewrite list_elem_of_fmap. intros (m & [= <- ->] & _). by rewrite Hs.
    + apply list_elem_of_fmap. exists n. by rewrite Hs.
  - simpl. intros n v Hs%elem_of_list_to_map_2. apply list_elem_of_fmap in Hs as (m & [= -> _] & Hm).
    by apply Hin.
Qed.
Lemma critical_path_empty self : facts self = [] → critical_path self = Ok (mkCriticalPath [] 0 DS_EMPTY ∅ ∅).
Proof. intros E. unfold critical_path. rewrite E, bool_decide_true by done. done. Qed.

(** ** Eligibility and readiness *)
(** The states and flags a task needs before its relations are looked at. *)
Record executable (f : TaskControlFact) : Prop := {
  ex_leaf : issue_type f ≠ EPIC;
  ex_state : state f ∉ [DONE; CANCELLED; CLAIMED; IN_PROGRESS; IN_REVIEW; VALIDATING; BLOCKED; FAILED];
  ex_readback : remote_readback_required f = false;
  ex_reconciliation : reconciliation_required f = false;
  ex_external : external_blocked f = false;
  ex_scope : product_scope_allowed f = true;
  ex_accepted : accepted f = true;
  ex_policy : policy_eligible f = true;
}.
(** The gates that open last. *)
Record gates_open (f : TaskControlFact) : Prop := {
  go_approval : approval_required f = true → approval_satisfied f = true;
  go_context : context_required f = true → context_satisfied f = true;
  go_resources : resources_available f = true;
  go_environment : environment_available f = true;
}.

Lemma new_eligibility_ok t st e reasons :
  validate_identifier t ISSUE = Ok t → e = bool_decide (st = EL_ELIGIBLE) →
  (e = false → reasons ≠ []) →
  new (mkEligibility t st e reasons) = Ok (mkEligibility t st e reasons).
Proof.
  intros Ht -> Hr. apply new_valid. unfold validate, TaskEligibility_model; simpl. rewrite Ht. simpl.
  rewrite Bool.eqb_reflx. simpl. destruct (bool_decide _); simpl; [done|].
  by rewrite bool_decide_false by auto.
Qed.
Lemma new_readiness_ok t st r deps blockers reasons :
  validate_identifier t ISSUE = Ok t → r = bool_decide (st = RD_READY) →
  (r = false → reasons ≠ []) →
  new (mkReadiness t st r deps blockers reasons) = Ok (mkReadiness t st r deps blockers reasons).
Proof.
  intros Ht -> Hr. apply new_valid. unfold validate, TaskReadiness_model; simpl. rewrite Ht. simpl.
  rewrite Bool.eqb_reflx. simpl. destruct (bool_decide _); simpl; [done|].
  by rewrite bool_decide_false by auto.
Qed.

(** A branch that denies: the condition just tested contradicts [executable]. *)
Ltac denied Hnew :=
  apply Hnew; [done|done|]; split; [done|]; intros [? Hs ? ? ? ? ? ?];
  first [congruence | exfalso; set_solver].

Lemma eligibility_ok f : validate f = Ok () →
  ∃ e, eligibility f = Ok e ∧ el_task_id e = task_id f
    ∧ el_eligible e = bool_decide (el_state e = EL_ELIGIBLE)
    ∧ (el_eligible e = false → el_reasons e ≠ [])
    ∧ (el_eligible e = true ↔ executable f).
Proof.
  intros Hv. destruct (fact_valid f Hv) as [Ht _]. unfold eligibility.
  assert (∀ st e rs, e = bool_decide (st = EL_ELIGIBLE) → (e = false → rs ≠ []) →
    (e = true ↔ executable f) →
    ∃ e', new (mkEligibility (task_id f) st e rs) = Ok e' ∧ el_task_id e' = task_id f
      ∧ el_eligible e' = bool_decide (el_state e' = EL_ELIGIBLE)
      ∧ (el_eligible e' = false → el_reasons e' ≠ [])
      ∧ (el_eligible e' = true ↔ executable f)) as Hnew.
  { intros st e rs He Hr Hx. eexists. split; [by apply new_eligibility_ok|]. done. }
  unfold is_terminal, is_active.
  case_bool_decide as H1; [denied Hnew|].
  case_bool_decide as H2; [denied Hnew|].
  destruct (remote_readback_required f) eqn:H3;
    [denied Hnew|].
  destruct (reconciliation_required f) eqn:H4;
    [denied Hnew|].
  case_bool_decide as H5; [denied Hnew|].
  destruct (external_blocked f) eqn:H6;
    [denied Hnew|].
  destruct (product_scope_allowed f) eqn:H7; simpl;
    [|denied Hnew].
  destruct (accepted f) eqn:H8, (policy_eligible f) eqn:H9; simpl;
    [|denied Hnew..].
  case_bool_decide as H10; [denied Hnew|].
  apply Hnew; [done..|]. split; [|done]. intros _. split; try done. set_solver.
Qed.

Lemma unresolved_dependencies_ok known ids :
  Forall (λ d, is_Some (known !! d)) ids →
  ∃ l, unresolved_dependencies known ids = Ok l
    ∧ ∀ d, d ∈ l ↔ d ∈ ids ∧ ∃ g, known !! d = Some g ∧ state g ≠ DONE.
Proof.
  induction 1 as [|d ids [g Hg] _ (l & IH & Hl)]; simpl; [exists []; set_solver|].
  unfold dict_get. rewrite Hg. simpl. rewrite IH. simpl. eexists. split; [done|].
  intros x. case_bool_decide as E; set_unfold; rewrite Hl; naive_solver.
Qed.
Lemma elem_of_unresolved_blockers known ids b :
  b ∈ unresolved_blockers known ids ↔ b ∈ ids ∧ ∃ g, known !! b = Some g ∧ state g ≠ DONE.
Proof.
  unfold unresolved_blockers, blocker_open. rewrite list_elem_of_In, filter_In, <-list_elem_of_In.
  destruct (known !! b); rewrite ?bool_decide_eq_true; naive_solver.
Qed.
Lemma elem_of_no_members (l : list string) : l = [] ↔ ∀ x, x ∉ l.
Proof. destruct l; split; [set_solver|done|done|set_solver]. Qed.

(** When a task may start: its own flags, its gates and its relations. *)
Record may_start (self : BuildSequencer) (f : TaskControlFact) : Prop := {
  ms_executable : executable f;
  ms_gates : gates_open f;
  ms_dependencies : ∀ d, d ∈ dependency_ids f →
    ∃ g, g ∈ facts self ∧ task_id g = d ∧ state g = DONE;
  ms_blockers : ∀ g, g ∈ facts self → task_id g ∈ blocker_ids f → state g = DONE;
}.
(** What a call of [readiness] reports. *)
Record readiness_reports (self : BuildSequencer) (f : TaskControlFact) (r : TaskReadiness) : Prop := {
  rr_task : rd_task_id r = task_id f;
  rr_flag : rd_ready r = bool_decide (rd_state r = RD_READY);
  rr_reasons : rd_ready r = false → rd_reasons r ≠ [];
  rr_exact : rd_ready r = true ↔ may_start self f;
  rr_waiting : rd_state r = RD_WAITING_DEPENDENCIES → ∀ d,
    d ∈ rd_unresolved_dependencies r ↔
    d ∈ dependency_ids f ∧ ∃ g, g ∈ facts self ∧ task_id g = d ∧ state g ≠ DONE;
  rr_blocked : rd_unresolved_blockers r ≠ [] → ∀ b,
    b ∈ rd_unresolved_blockers r ↔
    b ∈ blocker_ids f ∧ ∃ g, g ∈ facts self ∧ task_id g = b ∧ state g ≠ DONE;
}.

Lemma by_id_open self d : sequencer_ok self →
  (∃ g, by_id self !! d = Some g ∧ state g ≠ DONE)
  ↔ ∃ g, g ∈ facts self ∧ task_id g = d ∧ state g ≠ DONE.
Proof.
  intros Hok. split; intros (g & H1 & H2).
  - exists g. apply by_id_facts in H1; naive_solver.
  - destruct H2 as [<- H2]. exists g. by rewrite by_id_lookup.
Qed.
Lemma dependencies_resolved self f : sequencer_ok self → f ∈ facts self →
  ∃ deps, unresolved_dependencies (by_id self) (dependency_ids f) = Ok deps
    ∧ (∀ d, d ∈ deps ↔ d ∈ dependency_ids f ∧ ∃ g, g ∈ facts self ∧ task_id g = d ∧ state g ≠ DONE)
    ∧ (deps = [] ↔ ∀ d, d ∈ dependency_ids f → ∃ g, g ∈ facts self ∧ task_id g = d ∧ state g = DONE).
Proof.
  intros Hok Hf. pose proof (so_deps _ Hok f Hf) as Hall. rewrite Forall_forall in Hall.
  destruct (unresolved_dependencies_ok (by_id self) (dependency_ids f)) as (deps & E & Hdeps).
  { apply Forall_forall. intros d (g & -> & _)%Hall%(by_id_elem _ _ Hok). done. }
  exists deps. split; [done|]. setoid_rewrite (by_id_open self) in Hdeps; [|done].
  split; [done|]. rewrite elem_of_no_members. setoid_rewrite Hdeps. split.
  - intros Hno d Hd. destruct (by_id_elem _ _ Hok (Hall d Hd)) as (g & Hg & Hgf & Hgd).
    exists g. destruct (decide (state g = DONE)); [done|]. exfalso. apply (Hno d). eauto.
  - intros Hdone d (Hd & g & Hg & <- & Hst). destruct (Hdone _ Hd) as (h & Hh & E' & Hst').
    apply (by_id_lookup _ _ Hok) in Hg, Hh. congruence.
Qed.
Lemma blockers_resolved self f : sequencer_ok self →
  (∀ b, b ∈ unresolved_blockers (by_id self) (blocker_ids f) ↔
    b ∈ blocker_ids f ∧ ∃ g, g ∈ facts self ∧ task_id g = b ∧ state g ≠ DONE)
  ∧ (unresolved_blockers (by_id self) (blocker_ids f) = [] ↔
      ∀ g, g ∈ facts self → task_id g ∈ blocker_ids f → state g = DONE).
Proof.
  intros Hok. assert (∀ b, b ∈ unresolved_blockers (by_id self) (blocker_ids f) ↔
    b ∈ blocker_ids f ∧ ∃ g, g ∈ facts self ∧ task_id g = b ∧ state g ≠ DONE) as Hb.
  { intros b. by rewrite elem_of_unresolved_blockers, by_id_open. }
  split; [done|]. rewrite elem_of_no_members. setoid_rewrite Hb. split.
  - intros Hno g Hg Hin. destruct (decide (state g = DONE)); [done|]. exfalso.
    apply (Hno (task_id g)). eauto.
  - intros Hdone b (Hin & g & Hg & <- & Hst). auto.
Qed.

Lemma readiness_ok self f :
  sequencer_ok self → f ∈ facts self → validate f = Ok () →
  ∃ r, readiness self f = Ok r ∧ readiness_reports self f r.
Proof.
  intros Hok Hf Hv. destruct (fact_valid f Hv) as [Ht _]. unfold readiness.
  destruct (eligibility_ok f Hv) as (e & -> & _ & Hel & Hrs & Hex). cbn [mbind result_bind].
  assert (∀ st r deps blockers rs, r = bool_decide (st = RD_READY) → (r = false → rs ≠ []) →
    (r = true ↔ may_start self f) →
    (st = RD_WAITING_DEPENDENCIES → ∀ d, d ∈ deps ↔
      d ∈ dependency_ids f ∧ ∃ g, g ∈ facts self ∧ task_id g = d ∧ state g ≠ DONE) →
    (blockers ≠ [] → ∀ b, b ∈ blockers ↔
      b ∈ blocker_ids f ∧ ∃ g, g ∈ facts self ∧ task_id g = b ∧ state g ≠ DONE) →
    ∃ r', new (mkReadiness (task_id f) st r deps blockers rs) = Ok r'
      ∧ readiness_reports self f r') as Hnew.
  { intros st r deps blockers rs Hr Hreason Hms Hw Hb. eexists.
    split; [by apply new_readiness_ok|by split]. }
  destruct (el_eligible e) eqn:Ee.
  2: { assert (¬ may_start self f) as Hno by (intros [?%Hex]; done).
    specialize (Hrs eq_refl). repeat case_bool_decide; apply Hnew; naive_solver. }
  symmetry in Hel. apply bool_decide_eq_true in Hel. rewrite Hel. simpl.
  destruct (dependencies_resolved self f) as (deps & -> & Hdeps & Hdone); [done..|].
  destruct (blockers_resolved self f Hok) as [Hblk Hbdone].
  cbn [mbind result_bind]. set (blockers := unresolved_blockers _ _) in *.
  assert (∀ P : Prop, ¬ P → (false = true ↔ P)) as Hno by naive_solver.
  case_bool_decide as Hd; simpl; [|apply Hnew; try done; apply Hno; intros []; naive_solver].
  case_bool_decide as Hb; simpl; [|apply Hnew; try done; apply Hno; intros []; naive_solver].
  destruct (approval_required f && negb (approval_satisfied f)) eqn:H1.
  { apply Hnew; try done. apply Hno. intros [? [Ha ? ? ?] ? ?].
    apply andb_true_iff in H1 as [H1 H3%negb_true_iff]. specialize (Ha H1). congruence. }
  destruct (context_required f && negb (context_satisfied f)) eqn:H2.
  { apply Hnew; try done. apply Hno. intros [? [? Ha ? ?] ? ?].
    apply andb_true_iff in H2 as [H2 H3%negb_true_iff]. specialize (Ha H2). congruence. }
  destruct (resources_available f) eqn:H3; simpl;
    [|apply Hnew; try done; apply Hno; intros [? [] ? ?]; congruence].
  destruct (environment_available f) eqn:H4; simpl;
    [|apply Hnew; try done; apply Hno; intros [? [] ? ?]; congruence].
  apply Hnew; try done. split; [|done]. intros _.
  split; [by apply Hex| |by apply Hdone|by apply Hbdone].
  split; [|..|done|done]; intros E; rewrite E in *; simpl in *; by apply negb_false_iff.
Qed.

(** ** Depths and scores *)
Lemma depth_pass_ok g topo suf pre ds :
  wf_digraph g → topological g topo → topo = pre ++ suf →
  (∀ x, x ∈ pre → ∃ z, ds !! x = Some z ∧ longest_to g (λ _, 1) x (z + 1)) →
  ∃ ds', depth_pass g ds suf = Ok ds'
    ∧ ∀ x, x ∈ topo → ∃ z, ds' !! x = Some z ∧ longest_to g (λ _, 1) x (z + 1).
Proof.
  intros Hg Ht. revert pre ds. induction suf as [|n suf IH]; intros pre ds E Hpre; simpl.
  { rewrite app_nil_r in E. subst. eauto. }
  assert (∀ p, p ∈ predecessors g n → p ∈ pre) as Hp.
  { intros p Hp%elem_of_predecessors. by apply (proj2 Ht pre n suf E). }
  rewrite (traverse_map_ok _ (λ p, default 0 (ds !! p)) (predecessors g n)).
  2: { intros p (z & Hz & _)%Hp%Hpre. unfold dict_get. by rewrite Hz. }
  cbn [mbind result_bind]. apply (IH (pre ++ [n])); [by rewrite <-(assoc_L (++))|].
  intros x Hx. rewrite lookup_insert. case_decide as Exn.
  2: { apply Hpre. set_solver. }
  subst x. eexists. split; [done|].
  destruct (map _ (predecessors g n)) as [|v vs] eqn:Ev.
  - apply (longest_to_source g (λ _, 1)). intros p Hpn%elem_of_predecessors.
    apply map_eq_nil in Ev. rewrite Ev in Hpn. set_solver.
  - destruct (max_fold v vs) as [Hin Hmax]. rewrite <-Ev in Hin, Hmax.
    apply list_elem_of_fmap in Hin as (p & Hpv & Hpin).
    destruct (Hpre p (Hp p Hpin)) as (z & Hz & Hlong). rewrite Hz in Hpv. simpl in Hpv.
    rewrite Hpv. replace (1 + z + 1) with (z + 1 + 1) by lia.
    apply (longest_to_step g (λ _, 1)) with p; [by intros|by apply elem_of_predecessors|done|..].
    + intros q w Hq%elem_of_predecessors Hw. destruct (Hpre q (Hp q Hq)) as (zq & Hzq & Hlq).
      assert (zq ≤ z) as Hle.
      { rewrite <-Hpv. apply Hmax. apply list_elem_of_fmap. exists q. by rewrite Hzq. }
      destruct Hw as [_ (l & Hl & <-)]. pose proof (proj1 Hlq l Hl). lia.
    + intros q Hq%elem_of_predecessors. destruct (Hpre q (Hp q Hq)) as (zq & _ & ?). eauto.
Qed.

Lemma depths_ok self : sequencer_ok self →
  ∃ ds, depths self = Ok ds ∧ ∀ n, n ∈ task_id <$> facts self →
    ∃ z, ds !! n = Some z ∧ 0 ≤ z ∧ longest_to (graph self) (λ _, 1) n (z + 1).
Proof.
  intros Hok. pose proof (nx_topological _ (so_wf _ Hok) (so_acyclic _ Hok)) as Ht.
  destruct (depth_pass_ok (graph self) _ (lexicographical_topological_sort (graph self)) [] ∅
              (so_wf _ Hok) Ht eq_refl) as (ds & Hds & Hall); [set_solver|].
  exists ds. split; [done|]. intros n Hn. destruct (Hall n) as (z & Hz & Hl).
  { rewrite (proj1 Ht). by apply (so_nodes _ Hok). }
  exists z. split; [done|]. split; [|done].
  pose proof (proj1 Hl [] (chain_one _ _)) as H1. unfold weight in H1. simpl in H1. lia.
Qed.

Lemma priority_points_total p : fullmatch PRIORITY p = true →
  ∃ v, (list_to_map priority_points : gmap string Z) !! p = Some v ∧ 100 ≤ v ≤ 1000.
Proof.
  intros Hp. assert (p ∈ ["P0"; "P1"; "P2"; "P3"]) as Hin.
  { apply fullmatch_spec in Hp. unfold PRIORITY in Hp. simpl in Hp. unfold chr in Hp.
    repeat match goal with
    | H : matches (Cat _ _) _ |- _ => inv H
    | H : matches (Alt _ _) _ |- _ => inv H
    | H : matches (Cls _) _ |- _ => inv H
    | H : matches Eps _ |- _ => inv H
    | H : Ascii.eqb _ _ = true |- _ => apply Ascii.eqb_eq in H; subst
    end; vm_compute; repeat (first [by left | right]). }
  set_unfold in Hin. destruct Hin as [->|[->|[->|[->|[]]]]];
    [exists 1000|exists 700|exists 400|exists 100]; (split; [by vm_compute|lia]).
Qed.

Lemma deadline_score_range d now : 0 ≤ deadline_score_of d now ≤ 200.
Proof.
  unfold deadline_score_of. destruct d; [|lia]. cbv zeta.
  repeat match goal with |- context [if ?b then _ else _] => destruct b end; lia.
Qed.

Lemma score_ok f crit downstream now : validate f = Ok () → 0 ≤ downstream →
  ∃ s, score f crit downstream now = Ok s ∧ sc_task_id s = task_id f ∧ 20 ≤ total_score s ≤ 1590.
Proof.
  intros Hv Hd. destruct (fact_valid f Hv) as (Ht & _ & Hp & Hdur & _). unfold score.
  destruct (priority_points_total _ Hp) as (p & Hlk & Hpr). unfold dict_get. rewrite Hlk.
  cbn [mbind result_bind].
  assert (∃ q, match expected_duration_minutes f with
               | None => Ok 0
               | Some d => q ← PyFloat.trunc (PyFloat.truediv d 60); Ok (Z.max (-80) (- q * 2))
               end = Ok q ∧ -80 ≤ q ≤ 0) as (q & -> & Hq).
  { destruct (expected_duration_minutes f) as [d|]; [|eauto with lia]. simpl in Hdur.
    apply andb_true_iff in Hdur as [H1%Z.leb_le H2%Z.leb_le].
    destruct (PyFloat.truediv_trunc d 60) as (q & -> & Hq); [lia..|].
    eexists. split; [done|]. lia. }
  cbn [mbind result_bind]. eexists. split.
  - apply new_valid. unfold validate, SequenceScore_model; simpl. rewrite Ht. simpl.
    by rewrite Z.eqb_refl.
  - simpl. split; [done|]. pose proof (deadline_score_range (deadline_utc f) now).
    assert (0 ≤ risk_points (risk f) ≤ 40) by (destruct (risk f); simpl; lia).
    destruct (str_in _ _); lia.
Qed.

(** ** The ranked sequence *)
Lemma critical_nodes_ok self c :
  sequencer_ok self → (∀ n v, cp_slack_minutes c !! n = Some v → n ∈ task_id <$> facts self) →
  is_ok (critical_nodes self c) = true.
Proof.
  intros Hok Hs. unfold critical_nodes.
  set (g := λ kv : string * Z, (kv.1, (kv.2 =? 0) &&
     match by_id self !! kv.1 with Some f => negb (is_terminal (state f)) | None => false end)).
  rewrite (traverse_map_ok _ g); [done|]. intros [n v] Hin%elem_of_map_to_list. simpl.
  destruct (v =? 0) eqn:Ev; unfold g; simpl; [|by rewrite Ev].
  destruct (by_id_elem _ _ Hok (Hs _ _ Hin)) as (f & Hf & _). unfold dict_get. rewrite Hf, Ev. done.
Qed.

Lemma number_map {A} i (l : list A) : (number i l).*1 = seqZ i (Z.of_nat (length l)) ∧ (number i l).*2 = l.
Proof.
  revert i. induction l as [|x l IH]; intros i; [done|].
  cbn [number]. rewrite !fmap_cons. destruct (IH (i + 1)) as [-> ->]. split; [|done].
  rewrite (seqZ_cons i) by (simpl; lia). simpl length. do 2 f_equal; lia.
Qed.
Lemma number_elem {A} i (l : list A) ic : ic ∈ number i l → i ≤ ic.1 ∧ ic.2 ∈ l.
Proof.
  revert i. induction l as [|x l IH]; intros i; simpl; [set_solver|].
  intros [->|Hin%IH]%elem_of_cons; [split; [simpl; lia|left]|]. split; [lia|right; apply Hin].
Qed.
End sequencer.
