(* ===== verification/BuildOrder.v ===== *)
(** * BuildOrder: the theorems about the build sequencer

    Readiness, the critical path, slack, and the ranked sequence of ready
    work, for every list of valid facts the constructor accepts. *)
From S2P Require Import Prelude PyStd PyRe PyJson Identifiers TaskState ControlDomain DepGraph ControlGraph CriticalPath Sequencer.
Local Open Scope Z_scope.

Section build_order.
Context `{Networkx, !NetworkxLaws}.

Lemma new_sequencer_facts input self :
  new_sequencer input = Ok self → Forall (λ f, validate f = Ok ()) input →
  sequencer_ok self ∧ Forall (λ f, validate f = Ok ()) (facts self)
  ∧ (∀ f, f ∈ facts self ↔ f ∈ input).
Proof.
  intros Hs Hv. apply new_sequencer_ok in Hs as [Hok E]. split; [done|]. rewrite E. split.
  - by rewrite sorted_by_perm.
  - intros f. by rewrite elem_of_sorted_by.
Qed.

Lemma project_id_valid input self :
  new_sequencer input = Ok self → Forall (λ f, validate f = Ok ()) input →
  validate_identifier (bs_project_id self) PROJECT = Ok (bs_project_id self).
Proof.
  unfold new_sequencer. intros Hs Hv. ok_inv. simpl. clear -Hv.
  destruct (remove_dups _) as [|p l] eqn:E; [by vm_compute|]. simpl.
  assert (p ∈ project_id <$> sorted_by task_id input) as Hp.
  { apply elem_of_remove_dups. rewrite E. left. }
  apply list_elem_of_fmap in Hp as (f & -> & Hf%elem_of_sorted_by).
  rewrite Forall_forall in Hv. by destruct (fact_valid f (Hv f Hf)) as (_ & ? & _).
Qed.

(** The candidates are the ready facts. *)
Definition candidate_fact (c : TaskControlFact * SequenceScore * Z) : TaskControlFact := c.1.1.
Definition candidate_of (self : BuildSequencer) (c : TaskControlFact * SequenceScore * Z) : Prop :=
  c.1.1 ∈ facts self ∧ sc_task_id c.1.2 = task_id c.1.1 ∧ 0 ≤ c.2
  ∧ 20 ≤ total_score c.1.2 ≤ 1590.

Lemma candidates_ok self rds crit now :
  sequencer_ok self → Forall (λ f, validate f = Ok ()) (facts self) →
  Forall2 (readiness_reports self) (facts self) rds →
  ∃ cs, traverse (λ fr : TaskControlFact * TaskReadiness,
      let downstream := Z.of_nat (length (descendants (graph self) (task_id fr.1))) in
      sc ← score fr.1 crit downstream now;
      Ok (fr.1, sc, downstream)) (List.filter (λ fr, rd_ready fr.2) (combine (facts self) rds)) = Ok cs
    ∧ Forall (candidate_of self) cs ∧ NoDup (task_id <$> (candidate_fact <$> cs))
    ∧ ∀ f, f ∈ candidate_fact <$> cs ↔ f ∈ facts self ∧ may_start self f.
Proof.
  intros Hok Hv Hr. set (table := combine (facts self) rds).
  destruct (Forall2_combine _ _ _ Hr) as (Htab & Hfst & _). fold table in Htab, Hfst.
  assert (∀ fr, fr ∈ table → fr.1 ∈ facts self) as Hin.
  { intros fr Hfr. rewrite <-Hfst. by apply list_elem_of_fmap_2. }
  rewrite Forall_forall in Htab. rewrite Forall_forall in Hv.
  destruct (traverse_total (λ fr : TaskControlFact * TaskReadiness,
      let downstream := Z.of_nat (length (descendants (graph self) (task_id fr.1))) in
      sc ← score fr.1 crit downstream now; Ok (fr.1, sc, downstream))
    (λ fr c, fr.1 = c.1.1 ∧ candidate_of self c) (List.filter (λ fr, rd_ready fr.2) table))
    as (cs & Hcs & Hall).
  { intros fr [Hfr _]%elem_of_List_filter. cbv zeta.
    destruct (score_ok fr.1 crit (Z.of_nat (length (descendants (graph self) (task_id fr.1)))) now)
      as (sc & -> & Hid & Hb); [by apply Hv, Hin|lia|].
    eexists. split; [done|]. split; [done|]. split; [by apply Hin|]. simpl. auto with lia. }
  assert (candidate_fact <$> cs = (List.filter (λ fr, rd_ready fr.2) table).*1) as Hmap.
  { symmetry. apply Forall2_fmap_eq. eapply Forall2_impl; [exact Hall|]. by intros ?? [? _]. }
  exists cs. split; [done|]. split; [|split].
  - clear -Hall. induction Hall as [|?? ?? [??]]; by constructor.
  - rewrite Hmap. apply (sublist_NoDup _ (task_id <$> facts self)); [apply Hok|].
    rewrite <-Hfst. apply fmap_sublist, fmap_sublist. clear.
    induction table as [|x t IH]; simpl; [constructor|]. destruct (rd_ready _); by constructor.
  - intros f. rewrite Hmap, list_elem_of_fmap. setoid_rewrite elem_of_List_filter. split.
    + intros (fr & -> & Hfr & Hrd). split; [by apply Hin|]. by apply (rr_exact _ _ _ (Htab _ Hfr)).
    + intros [Hf Hms]. rewrite <-Hfst in Hf. apply list_elem_of_fmap in Hf as (fr & -> & Hfr).
      exists fr. do 2 (split; [done|]). by apply (rr_exact _ _ _ (Htab _ Hfr)).
Qed.

Definition item_key (i : SequenceItem) : Z * string := (- total_score (si_score i), si_task_id i).

Lemma items_ok self crit ds cs :
  Forall (λ f, validate f = Ok ()) (facts self) → Forall (candidate_of self) cs →
  (∀ n, n ∈ task_id <$> facts self → ∃ z, ds !! n = Some z ∧ 0 ≤ z) →
  ∃ items, traverse (λ ic : Z * (TaskControlFact * SequenceScore * Z),
      depth ← dict_get ds (task_id ic.2.1.1);
      new (mkItem ic.1 (task_id ic.2.1.1) RD_READY ic.2.1.2 depth ic.2.2
             (str_in (task_id ic.2.1.1) crit))) (number 1 cs) = Ok items
    ∧ si_rank <$> items = seqZ 1 (Z.of_nat (length items))
    ∧ si_task_id <$> items = task_id <$> (candidate_fact <$> cs)
    ∧ item_key <$> items = candidate_key <$> cs.
Proof.
  intros Hv Hcs Hds. destruct (number_map 1 cs) as [Hn1 Hn2].
  destruct (traverse_total (λ ic : Z * (TaskControlFact * SequenceScore * Z),
      depth ← dict_get ds (task_id ic.2.1.1);
      new (mkItem ic.1 (task_id ic.2.1.1) RD_READY ic.2.1.2 depth ic.2.2
             (str_in (task_id ic.2.1.1) crit)))
    (λ ic item, ic.1 = si_rank item ∧ candidate_key ic.2 = item_key item) (number 1 cs))
    as (items & E & Hall).
  { intros ic [Hrank Hc]%number_elem. rewrite Forall_forall in Hcs.
    destruct (Hcs _ Hc) as (Hf & Hid & Hd & Hb). rewrite Forall_forall in Hv.
    destruct (Hds (task_id ic.2.1.1)) as (z & Hz & Hz0); [by apply list_elem_of_fmap_2|].
    unfold dict_get. rewrite Hz. simpl. eexists. split; [apply new_valid|by split].
    unfold validate, SequenceItem_model; simpl. destruct (fact_valid _ (Hv _ Hf)) as [-> _].
    rewrite (proj2 (Z.ltb_ge ic.1 1)) by lia. rewrite (proj2 (Z.ltb_ge z 0)) by lia.
    by rewrite (proj2 (Z.ltb_ge ic.2.2 0)) by lia. }
  exists items. split; [done|].
  assert (length items = length cs) as Hlen.
  { apply Forall2_length in Hall. rewrite <-Hall, <-(length_fmap snd), Hn2. done. }
  assert (item_key <$> items = candidate_key <$> cs) as Hkey.
  { rewrite <-Hn2, <-list_fmap_compose. symmetry. apply Forall2_fmap_eq.
    eapply Forall2_impl; [exact Hall|]. by intros ?? [_ ?]. }
  split; [|split; [|done]].
  - rewrite Hlen, <-Hn1. symmetry. apply Forall2_fmap_eq. eapply Forall2_impl; [exact Hall|].
    by intros ?? [? _].
  - transitivity (snd <$> (item_key <$> items)); [by rewrite <-list_fmap_compose|].
    by rewrite Hkey, <-!list_fmap_compose.
Qed.

(** What a published sequence says about the facts. *)
Record sequence_reports (self : BuildSequencer) (q : BuildSequence) : Prop := {
  sq_ranks : si_rank <$> ordered_ready_work q = seqZ 1 (ready_count q);
  sq_ready : ∀ t, t ∈ si_task_id <$> ordered_ready_work q ↔
    ∃ f, f ∈ facts self ∧ task_id f = t ∧ may_start self f;
  sq_nodup : NoDup (si_task_id <$> ordered_ready_work q);
  sq_sorted : StronglySorted (key_le item_key) (ordered_ready_work q);
  sq_ready_count : ready_count q = Z.of_nat (length (ordered_ready_work q));
  sq_counts : ready_count q + active_count q ≤ task_count q;
}.

Lemma sequence_valid sid pid fp tc ec rc ac bc c items now :
  valid_prefixed_id CONTROL_ID "SEQ-" sid = true → validate_identifier pid PROJECT = Ok pid →
  is_hex64 fp = true → 0 ≤ tc → 0 ≤ ec → 0 ≤ rc → 0 ≤ ac → 0 ≤ bc →
  new (mkSequence sid pid fp tc ec rc ac bc c items now)
  = Ok (mkSequence sid pid fp tc ec rc ac bc c items now).
Proof.
  intros Hs Hp Hf H1 H2 H3 H4 H5. apply new_valid. unfold validate, BuildSequence_model; simpl.
  rewrite Hs, Hp, Hf. simpl. by rewrite !(proj2 (Z.ltb_ge _ 0)).
Qed.
Lemma fingerprint_hex self : is_hex64 (graph_fingerprint self) = true.
Proof. apply json_fingerprint_hex. Qed.

Lemma critical_path_returns self :
  sequencer_ok self → Forall (λ f, validate f = Ok ()) (facts self) →
  ∃ c, critical_path self = Ok c
    ∧ ∀ n v, cp_slack_minutes c !! n = Some v → n ∈ task_id <$> facts self.
Proof.
  intros Hok Hv. destruct (decide (facts self = [])) as [E|E].
  - rewrite (critical_path_empty _ E). by eexists.
  - destruct (critical_path_spec self Hok Hv E) as (c & ? & _ & _ & _ & ?). eauto.
Qed.

(** Ready and active tasks are different tasks. *)
Lemma ready_active_disjoint self rds fs :
  Forall2 (readiness_reports self) fs rds →
  Z.of_nat (length (List.filter (λ fr : TaskControlFact * TaskReadiness, rd_ready fr.2) (combine fs rds)))
  + count_if (λ r, bool_decide (rd_state r = RD_ACTIVE)) rds ≤ Z.of_nat (length fs).
Proof.
  induction 1 as [|f r fs rds Hr _ IH]; [done|].
  cbn [combine List.filter length]. rewrite count_if_cons. simpl.
  pose proof (rr_flag _ _ _ Hr) as Hflag. destruct (rd_ready r) eqn:E; simpl.
  - symmetry in Hflag. apply bool_decide_eq_true in Hflag. rewrite bool_decide_false by congruence. lia.
  - clear Hflag. destruct (bool_decide _); lia.
Qed.

Lemma build_sequence_ok self now :
  sequencer_ok self → Forall (λ f, validate f = Ok ()) (facts self) →
  validate_identifier (bs_project_id self) PROJECT = Ok (bs_project_id self) →
  ∃ q, build_sequence self now = Ok q ∧ sequence_reports self q.
Proof.
  intros Hok Hv Hpid. unfold build_sequence.
  destruct (critical_path_returns self Hok Hv) as (c & -> & Hc). cbn [mbind result_bind].
  pose proof (critical_nodes_ok self c Hok Hc) as Hcn.
  destruct (critical_nodes self c) as [crit|]; [clear Hcn|done]. cbn [mbind result_bind].
  destruct (depths_ok self Hok) as (ds & -> & Hds). cbn [mbind result_bind].
  destruct (traverse_total (readiness self) (readiness_reports self) (facts self)) as (rds & -> & Hrds).
  { intros f Hf. apply readiness_ok; [done..|]. rewrite Forall_forall in Hv. auto. }
  cbn [mbind result_bind]. cbv zeta.
  destruct (candidates_ok self rds crit now Hok Hv Hrds) as (cs & Hcs & Hall & Hnd & Hready).
  cbv zeta in Hcs. rewrite Hcs. cbn [mbind result_bind].
  assert (sorted_by candidate_key cs ≡ₚ cs) as Hperm by apply sorted_by_perm.
  destruct (items_ok self crit ds (sorted_by candidate_key cs) Hv) as (items & -> & Hrank & Hids & Hkeys).
  { by rewrite Hperm. }
  { intros n (z & ? & ? & _)%Hds. eauto. }
  cbn [mbind result_bind].
  assert (si_task_id <$> items ≡ₚ task_id <$> (candidate_fact <$> cs)) as Hidp
    by (by rewrite Hids, Hperm).
  assert (∀ t, t ∈ si_task_id <$> items ↔ ∃ f, f ∈ facts self ∧ task_id f = t ∧ may_start self f) as Hmem.
  { intros t. rewrite Hidp, list_elem_of_fmap. setoid_rewrite Hready. naive_solver. }
  unfold control_identifier. rewrite prefixed_identifier_returns; [|done|].
  2: { rewrite Forall_forall in Hv. constructor; [|constructor; [apply hexdigest_nonblank|]].
    - apply (identifier_nonblank _ PROJECT). by rewrite Hpid.
    - apply Forall_forall. intros t (f & Hf & <- & _)%Hmem.
      apply (identifier_nonblank _ ISSUE). destruct (fact_valid f (Hv f Hf)) as [-> _]. done. }
  cbn [mbind result_bind]. rewrite sequence_valid;
    [|by apply control_id_valid; right; left|done|apply fingerprint_hex|lia|unfold number_of_edges; lia
     |lia|apply count_if_nonneg|apply count_if_nonneg].
  eexists. split; [done|]. split; simpl; [done|done| | |done|].
  - by rewrite Hidp.
  - eapply sorted_keys; [symmetry; exact Hkeys|]. apply sorted_by_sorted, _.
  - assert (length items = length (List.filter (λ fr : TaskControlFact * TaskReadiness, rd_ready fr.2)
                                     (combine (facts self) rds))) as ->.
    { rewrite <-(length_fmap si_task_id), Hidp, !length_fmap.
      apply traverse_ok, Forall2_length in Hcs. done. }
    by apply (ready_active_disjoint self).
Qed.

(** ** Which inputs the constructor accepts *)
Definition depends (input : list TaskControlFact) (x y : string) : Prop :=
  ∃ f, f ∈ input ∧ task_id f = y ∧ x ∈ dependency_ids f.

Lemma add_dependencies_total known t deps g :
  Forall (λ d, is_Some (known !! d)) deps → is_ok (add_dependencies known t deps g) = true.
Proof. intros Hd. revert g. induction Hd as [|d deps [f Hf] _ IH]; intros g; simpl; [done|]. by rewrite Hf. Qed.
Lemma add_facts_total known l g :
  Forall (λ f, Forall (λ d, is_Some (known !! d)) (dependency_ids f)) l →
  is_ok (add_facts known l g) = true.
Proof.
  intros Hl. revert g. induction Hl as [|f l Hf _ IH]; intros g; simpl; [done|].
  pose proof (add_dependencies_total known (task_id f) _ g Hf) as Hd.
  destruct (add_dependencies _ _ _ _); [apply IH|done].
Qed.
Lemma one_project l : (length (remove_dups (project_id <$> l)) ≤ 1)%nat ↔
  ∀ f g, f ∈ l → g ∈ l → project_id f = project_id g.
Proof.
  split.
  - intros Hlen f g Hf Hg. assert (project_id f ∈ remove_dups (project_id <$> l)
      ∧ project_id g ∈ remove_dups (project_id <$> l)) as [H1 H2].
    { rewrite !elem_of_remove_dups. split; by apply list_elem_of_fmap_2. }
    destruct (remove_dups _) as [|p [|]]; [set_solver| |simpl in Hlen; lia]. set_solver.
  - intros Hall. pose proof (NoDup_remove_dups (project_id <$> l)) as Hnd.
    destruct (remove_dups (project_id <$> l)) as [|p [|q k]] eqn:E; simpl; [lia..|]. exfalso.
    assert (p ∈ project_id <$> l ∧ q ∈ project_id <$> l) as [H1 H2].
    { split; apply elem_of_remove_dups; rewrite E; [left|right; left]. }
    apply list_elem_of_fmap in H1 as (f & -> & Hf). apply list_elem_of_fmap in H2 as (g & -> & Hg).
    apply NoDup_cons in Hnd as [Hn _]. apply Hn. rewrite (Hall f g) by done. left.
Qed.

Lemma tc_mono {A} (R R' : A → A → Prop) x y : (∀ a b, R a b → R' a b) → tc R x y → tc R' x y.
Proof. intros HR. induction 1; eauto using tc_once, tc_l. Qed.

(** C38. The sequencer accepts exactly the inputs that form one project's work
    graph: unique task ids, a single project, every dependency present and no
    cycle of dependencies.  Any other input is refused with an exception. *)
Theorem sequencer_accepts_exactly_dags input :
  is_ok (new_sequencer input) = true ↔
  NoDup (task_id <$> input)
  ∧ (∀ f g, f ∈ input → g ∈ input → project_id f = project_id g)
  ∧ (∀ f d, f ∈ input → d ∈ dependency_ids f → d ∈ task_id <$> input)
  ∧ ∀ x, ¬ tc (depends input) x x.
Proof.
  assert (∀ f, f ∈ sorted_by task_id input ↔ f ∈ input) as Hin by (intros f; apply elem_of_sorted_by).
  assert (task_id <$> sorted_by task_id input ≡ₚ task_id <$> input) as Hp by (by rewrite sorted_by_perm).
  split.
  - intros Hok. destruct (new_sequencer input) as [self|] eqn:E; [clear Hok|done].
    pose proof (new_sequencer_ok _ _ E) as [Hok Ef]. split; [|split; [|split]].
    + rewrite <-Hp, <-Ef. apply Hok.
    + unfold new_sequencer in E. ok_inv.
      match goal with H : bool_decide (1 < _)%nat = false |- _ => apply bool_decide_eq_false in H;
        rename H into Hone end.
      intros f g Hf%Hin Hg%Hin. apply (proj1 (one_project (sorted_by task_id input))); [lia|done..].
    + intros f d Hf Hd. rewrite <-Hp, <-Ef. pose proof (so_deps _ Hok f) as Hdeps.
      rewrite Ef in Hdeps at 1. specialize (Hdeps (proj2 (Hin f) Hf)). rewrite Forall_forall in Hdeps. auto.
    + intros x Hx. apply (so_acyclic _ Hok x). eapply tc_mono; [|exact Hx].
      intros a b (f & Hf & ? & ?). apply (so_edges _ Hok). exists f. by rewrite Ef, Hin.
  - intros (Hnd & Hproj & Hdeps & Hac). unfold new_sequencer.
    rewrite (proj2 (has_duplicates_false _)) by (by rewrite Hp). simpl.
    rewrite bool_decide_false.
    2: { rewrite Nat.nlt_ge. apply one_project. intros f g ?%Hin ?%Hin. auto. }
    cbn [raise_if mbind result_bind]. set (fs := sorted_by task_id input) in *. unfold build_graph.
    set (g0 := foldl add_node empty_digraph (task_id <$> fs)).
    pose proof (add_facts_total (dict_of task_id fs) fs g0) as Hadd.
    destruct (add_facts (dict_of task_id fs) fs g0) as [g|] eqn:Eg; simpl.
    2: { discriminate Hadd. apply Forall_forall. intros f Hf. apply Forall_forall. intros d Hd.
      apply dict_of_dom. rewrite Hp. by eapply Hdeps; [apply Hin|]. }
    destruct (foldl_add_node_wf (task_id <$> fs) empty_digraph) as (Hw0 & He0 & Hn0).
    { split; [constructor..|]. intros x y. unfold edge. simpl. set_solver. }
    apply add_facts_ok in Eg as (Hw & Hn & _ & He); [|done| |].
    + rewrite (proj2 (nx_dag g Hw)); [done|]. intros x Hx. apply (Hac x).
      eapply tc_mono; [|exact Hx]. intros a b [Hab|(f & Hf & ? & ?)]%He.
      { unfold edge, g0 in Hab. rewrite He0 in Hab. simpl in Hab. set_solver. }
      exists f. by rewrite <-Hin.
    + intros f Hf. apply Hn0. right. by apply list_elem_of_fmap_2.
    + intros d Hdk%dict_of_dom. apply Hn0. by right.
Qed.

(** The sequencer does not depend on the order in which the facts arrive:
    every permutation builds the same sequencer or raises the same error, so
    the published sequence is a function of the set of facts. *)
Theorem sequencer_order_independent input input' now :
  input ≡ₚ input' →
  (s ← new_sequencer input; build_sequence s now) = (s ← new_sequencer input'; build_sequence s now).
Proof.
  intros Hp. assert (new_sequencer input = new_sequencer input') as ->; [|done].
  unfold new_sequencer.
  destruct (has_duplicates (task_id <$> sorted_by task_id input)) eqn:E.
  - assert (has_duplicates (task_id <$> sorted_by task_id input') = true) as ->; [|done].
    apply not_false_iff_true. intros Hnd. apply has_duplicates_false in Hnd.
    apply not_false_iff_true in E. apply E, has_duplicates_false.
    rewrite sorted_by_perm, Hp, <-(sorted_by_perm task_id input'). done.
  - apply has_duplicates_false in E. rewrite sorted_by_perm in E.
    by rewrite (sorted_by_perm_eq task_id _ _ E Hp), (proj2 (has_duplicates_false _))
      by (by rewrite sorted_by_perm, <-Hp).
Qed.

(** ** The critical path *)
Lemma chain_last_known self l : sequencer_ok self → chain (graph self) l →
  (∃ x, l = [x]) ∨ ∃ l' n, l = l' ++ [n] ∧ n ∈ task_id <$> facts self.
Proof.
  intros Hok Hc. destruct l as [|n l' _] using rev_ind; [inv Hc|].
  destruct l' as [|m l' _] using rev_ind; [left; eauto|]. right. exists (l' ++ [m]), n. split; [done|].
  rewrite <-(assoc_L (++)) in Hc. apply chain_snoc_inv in Hc as [_ He].
  apply (so_nodes _ Hok). by destruct (wf_closed _ (so_wf _ Hok) _ _ He).
Qed.

(** C3. The critical path is a longest chain of dependencies: for valid,
    non-empty input the analysis returns, its path follows dependency edges,
    its reported total is the remaining duration along that path, and no
    chain of dependent tasks takes longer. *)
Theorem critical_path_longest_chain input self :
  new_sequencer input = Ok self → Forall (λ f, validate f = Ok ()) input → input ≠ [] →
  ∃ c, critical_path self = Ok c
    ∧ chain (graph self) (cp_path c)
    ∧ weight (task_duration self) (cp_path c) = cp_total_duration_minutes c
    ∧ ∀ l, chain (graph self) l → weight (task_duration self) l ≤ cp_total_duration_minutes c.
Proof.
  intros Hs Hv Hne. destruct (new_sequencer_facts _ _ Hs Hv) as (Hok & Hvf & Hin).
  destruct (critical_path_spec self Hok Hvf) as (c & Hc & Hch & Hw & Hn & _).
  { intros E. destruct input as [|f]; [done|]. assert (f ∈ facts self) as Hf by (apply Hin; left).
    rewrite E in Hf. set_solver. }
  exists c. do 3 (split; [done|]). intros l Hl.
  assert (0 ≤ cp_total_duration_minutes c) as Htot.
  { rewrite <-Hw. apply weight_nonneg. intros n. by apply duration_nonneg. }
  destruct (chain_last_known self l Hok Hl) as [[x ->]|(l' & n & -> & Hnf)].
  - destruct (decide (x ∈ task_id <$> facts self)) as [Hx|Hx].
    + destruct (Hn x Hx) as (e & t & _ & _ & [Hub _] & _ & Hle & _). pose proof (Hub [] Hl). simpl in *. lia.
    + rewrite weight_cons, weight_nil. unfold task_duration. rewrite (so_by_id _ Hok).
      destruct (dict_of _ _ !! x) eqn:E; [|lia]. exfalso. apply Hx, (dict_of_dom task_id). eauto.
  - destruct (Hn n Hnf) as (e & t & _ & _ & [Hub _] & _ & Hle & _). pose proof (Hub l' Hl). lia.
Qed.

(** Slack is exact: the reported slack of a task is the total duration
    minus the longest chain of dependent tasks through it.  It is never
    negative, so clamping it at zero changes nothing, and it is zero exactly
    for the tasks that lie on some longest chain. *)
Theorem slack_is_exact input self n :
  new_sequencer input = Ok self → Forall (λ f, validate f = Ok ()) input →
  n ∈ task_id <$> input →
  ∃ c v, critical_path self = Ok c ∧ cp_slack_minutes c !! n = Some v ∧ 0 ≤ v
    ∧ (∀ a b, chain (graph self) (a ++ n :: b) →
        weight (task_duration self) (a ++ n :: b) ≤ cp_total_duration_minutes c - v)
    ∧ ∃ a b, chain (graph self) (a ++ n :: b)
        ∧ weight (task_duration self) (a ++ n :: b) = cp_total_duration_minutes c - v.
Proof.
  intros Hs Hv Hn. destruct (new_sequencer_facts _ _ Hs Hv) as (Hok & Hvf & Hin).
  assert (n ∈ task_id <$> facts self) as Hnf.
  { apply list_elem_of_fmap in Hn as (f & -> & Hf). by apply list_elem_of_fmap_2, Hin. }
  destruct (critical_path_spec self Hok Hvf) as (c & Hc & _ & _ & Hall & _).
  { intros E. rewrite E in Hnf. set_solver. }
  destruct (Hall n Hnf) as (e & t & He & Hsl & [Hub1 (l1 & Hl1 & Hw1)] & [Hub2 (l2 & Hl2 & Hw2)] & _ & Hle).
  exists c, (cp_total_duration_minutes c - (e + t)). do 2 (split; [done|]). split; [lia|]. split.
  - intros a b [Ha Hb]%chain_app_inv. pose proof (Hub1 a Ha) as H1. pose proof (Hub2 b Hb) as H2.
    rewrite weight_app, weight_cons in *. rewrite weight_nil in H1. lia.
  - exists l1, l2. split; [by apply chain_app|]. rewrite weight_app, weight_cons in *.
    rewrite weight_nil in Hw1. lia.
Qed.

(** Readiness is decided exactly by the documented conditions: for valid
    input the check returns for every task, and it reports READY if and only
    if the task is executable, its gates are open, every dependency is DONE
    and every known blocker is DONE.  A task waiting on dependencies reports
    exactly the ones that are not DONE. *)
Theorem readiness_decided_exactly input self f :
  new_sequencer input = Ok self → Forall (λ f, validate f = Ok ()) input → f ∈ input →
  ∃ r, readiness self f = Ok r ∧ readiness_reports self f r.
Proof.
  intros Hs Hv Hf. destruct (new_sequencer_facts _ _ Hs Hv) as (Hok & Hvf & Hin).
  apply readiness_ok; [done|by apply Hin|]. rewrite Forall_forall in Hv. auto.
Qed.

(** C25. The published sequence is the ready work and nothing else: for valid
    input [build_sequence] returns, lists every task that may start exactly
    once, ranks them 1 to n by descending score with ties broken by task id,
    and counts ready and active tasks as disjoint parts of the facts. *)
Theorem build_sequence_lists_ready_work input self now :
  new_sequencer input = Ok self → Forall (λ f, validate f = Ok ()) input →
  ∃ q, build_sequence self now = Ok q ∧ sequence_reports self q.
Proof.
  intros Hs Hv. destruct (new_sequencer_facts _ _ Hs Hv) as (Hok & Hvf & Hin).
  apply build_sequence_ok; [done..|]. by eapply project_id_valid.
Qed.
End build_order.

(** ** A concrete work graph *)
Definition demo_fact (t : string) (st : TaskLifecycleState) (deps : list string) (minutes : option Z)
  : TaskControlFact :=
  mkFact t "PROJECT-DEMO" st TASK "P1" MEDIUM deps [] [] true true false false false false true true
    false false false true minutes None.
Definition demo_facts : list TaskControlFact :=
  [demo_fact "PP-TASK-000003" READY ["PP-TASK-000001"; "PP-TASK-000002"] (Some 30);
   demo_fact "PP-TASK-000001" DONE [] (Some 240);
   demo_fact "PP-TASK-000002" READY [] (Some 90);
   demo_fact "PP-TASK-000004" READY ["PP-TASK-000001"] None].
Definition demo_sequencer : BuildSequencer :=
  Eval vm_compute in match new_sequencer demo_facts with Ok s => s | Raise _ => mkSequencer [] ∅ "" empty_digraph end.
Lemma demo_new : new_sequencer demo_facts = Ok demo_sequencer.
Proof. by vm_compute. Qed.
Lemma demo_valid : Forall (λ f, validate f = Ok ()) demo_facts.
Proof. repeat constructor. Qed.

(** The reports of the demonstration graph. *)
Example demo_path :
  cp_path <$> critical_path demo_sequencer = Ok ["PP-TASK-000002"; "PP-TASK-000003"].
Proof. by vm_compute. Qed.
Example demo_ready :
  (λ q, si_task_id <$> ordered_ready_work q) <$> build_sequence demo_sequencer 0
  = Ok ["PP-TASK-000002"; "PP-TASK-000004"].
Proof. by vm_compute. Qed.

(** The graph is accepted, and so it has no cycle of dependencies. *)
Lemma sequencer_accepts_exactly_dags_witness :
  is_ok (new_sequencer demo_facts) = true ∧ ∀ x, ¬ tc (depends demo_facts) x x.
Proof.
  split; [by vm_compute|].
  destruct (proj1 (sequencer_accepts_exactly_dags demo_facts)) as (_ & _ & _ & Hacyclic); [by vm_compute|exact Hacyclic].
Defined.
Lemma sequencer_order_independent_witness :
  (s ← new_sequencer demo_facts; build_sequence s 0)
  = (s ← new_sequencer (reverse demo_facts); build_sequence s 0).
Proof. apply sequencer_order_independent. symmetry. apply reverse_Permutation. Defined.
Lemma critical_path_longest_chain_witness :
  ∃ c, critical_path demo_sequencer = Ok c
    ∧ chain (graph demo_sequencer) (cp_path c)
    ∧ weight (task_duration demo_sequencer) (cp_path c) = cp_total_duration_minutes c
    ∧ ∀ l, chain (graph demo_sequencer) l →
        weight (task_duration demo_sequencer) l ≤ cp_total_duration_minutes c.
Proof. by apply (critical_path_longest_chain demo_facts); [apply demo_new|apply demo_valid|]. Defined.
Lemma slack_is_exact_witness :
  ∃ c v, critical_path demo_sequencer = Ok c ∧ cp_slack_minutes c !! "PP-TASK-000004" = Some v ∧ 0 ≤ v
    ∧ (∀ a b, chain (graph demo_sequencer) (a ++ "PP-TASK-000004" :: b) →
        weight (task_duration demo_sequencer) (a ++ "PP-TASK-000004" :: b) ≤ cp_total_duration_minutes c - v)
    ∧ ∃ a b, chain (graph demo_sequencer) (a ++ "PP-TASK-000004" :: b)
        ∧ weight (task_duration demo_sequencer) (a ++ "PP-TASK-000004" :: b)
          = cp_total_duration_minutes c - v.
Proof.
  apply (slack_is_exact demo_facts); [apply demo_new|apply demo_valid|].
  apply str_in_spec. by vm_compute.
Defined.
Lemma readiness_decided_exactly_witness :
  ∃ r, readiness demo_sequencer (demo_fact "PP-TASK-000001" DONE [] (Some 240)) = Ok r
    ∧ readiness_reports demo_sequencer (demo_fact "PP-TASK-000001" DONE [] (Some 240)) r.
Proof.
  apply (readiness_decided_exactly demo_facts); [apply demo_new|apply demo_valid|right; left].
Defined.
Lemma build_sequence_lists_ready_work_witness :
  ∃ q, build_sequence demo_sequencer 0 = Ok q ∧ sequence_reports demo_sequencer q.
Proof. apply (build_sequence_lists_ready_work demo_facts); [apply demo_new|apply demo_valid]. Defined.
