(* ===== verification/Cohorts.v ===== *)
(** * Cohorts: [control/cohorts.py]

    The labelled counts of one control snapshot and the runtime check that
    they agree with the facts. *)
From S2P Require Import Prelude PyStd PyRe PyJson Identifiers TaskState ControlDomain DepGraph ControlGraph CriticalPath Sequencer BuildOrder.
Local Open Scope Z_scope.

Definition is_structural_container (f : TaskControlFact) : bool := bool_decide (issue_type f = EPIC).

Definition eligibility_count (s : EligibilityState) (l : list TaskEligibility) : Z :=
  count_if (λ e, bool_decide (el_state e = s)) l.

Definition summarize_control_cohorts (facts_ : list TaskControlFact)
    (eligibility_ : list TaskEligibility) (readiness_ : list TaskReadiness)
  : result ControlCohortCounts :=
  let reconciliation :=
    List.filter (λ f, reconciliation_required f && negb (is_terminal (state f))) facts_ in
  let structural := List.filter is_structural_container reconciliation in
  let len {A} (l : list A) := Z.of_nat (length l) in
  new (mkCohorts (len facts_) (len reconciliation) (len structural)
         (len reconciliation - len structural)
         (eligibility_count EL_RECONCILIATION_REQUIRED eligibility_)
         (eligibility_count EL_ELIGIBLE eligibility_)
         (eligibility_count EL_POLICY_DENIED eligibility_)
         (eligibility_count EL_PRODUCT_SCOPE_PAUSED eligibility_)
         (eligibility_count EL_TERMINAL eligibility_)
         (eligibility_count EL_ALREADY_ACTIVE eligibility_)
         (eligibility_count EL_BLOCKED eligibility_)
         (eligibility_count EL_BLOCKED_EXTERNAL eligibility_)
         (count_if (λ r, bool_decide (rd_state r = RD_READY)) readiness_)).

Definition describe_reconciliation_cohorts (c : ControlCohortCounts) : string :=
  str_of_Z (reconciliation_facts c) +:+ " reconciliation-class facts ("
  +:+ str_of_Z (leaf_reconciliation_facts c)
  +:+ " RECONCILIATION_REQUIRED leaves are directly reconcilable; "
  +:+ str_of_Z (structural_container_facts c)
  +:+ " structural container projections are not independently executable)".

Definition assert_cohort_invariants (facts_ : list TaskControlFact)
    (eligibility_ : list TaskEligibility) (readiness_ : list TaskReadiness)
    (cohorts_ : ControlCohortCounts) : result () :=
  recomputed ← summarize_control_cohorts facts_ eligibility_ readiness_;
  _ ← raise_if (bool_decide (recomputed ≠ cohorts_)) ValueError
        "control cohort counts drifted from the same-snapshot facts";
  _ ← raise_if (negb (reconciliation_facts cohorts_
                      =? leaf_reconciliation_facts cohorts_ + structural_container_facts cohorts_))
        ValueError "reconciliation facts must equal leaf plus structural container counts";
  _ ← raise_if (reconciliation_facts cohorts_ <? eligibility_reconciliation cohorts_)
        ValueError "eligibility reconciliation cannot exceed reconciliation-class facts";
  raise_if (eligibility_eligible cohorts_ <? dependency_ready cohorts_)
    ValueError "dependency-ready items cannot exceed eligible items".

(** ** The counts of the sequencer's own results *)
Lemma filter_length_count {A} (p : A → bool) l : Z.of_nat (length (List.filter p l)) = count_if p l.
Proof. induction l as [|x l IH]; [done|]. rewrite count_if_cons. simpl. destruct (p x); simpl; lia. Qed.
Lemma filter_length_le {A} (p : A → bool) l : (length (List.filter p l) ≤ length l)%nat.
Proof. induction l as [|x l IH]; simpl; [done|]. destruct (p x); simpl; lia. Qed.

Lemma summarize_total fs es rs : ∃ c, summarize_control_cohorts fs es rs = Ok c.
Proof.
  unfold summarize_control_cohorts. eexists. apply new_valid.
  unfold validate, ControlCohortCounts_model. apply for_each_ok. intros n Hn.
  apply raise_if_ok, Z.ltb_ge. unfold cohort_values in Hn. simpl in Hn.
  set (rec := List.filter (λ f, reconciliation_required f && negb (is_terminal (state f))) fs) in *.
  pose proof (filter_length_le is_structural_container rec).
  repeat (apply elem_of_cons in Hn as [->|Hn]; [first [apply count_if_nonneg|lia]|]).
  by apply elem_of_nil in Hn.
Qed.

(** A task is reported as needing reconciliation only when it does. *)
Lemma eligibility_reconciliation_fact f e :
  eligibility f = Ok e → el_state e = EL_RECONCILIATION_REQUIRED →
  reconciliation_required f = true ∧ is_terminal (state f) = false ∧ is_structural_container f = false
  ∧ remote_readback_required f = false.
Proof.
  unfold eligibility, is_structural_container.
  case_bool_decide; [intros [-> _]%new_ok; done|].
  destruct (is_terminal (state f)); [intros [-> _]%new_ok; done|].
  destruct (remote_readback_required f); [intros [-> _]%new_ok; done|].
  destruct (reconciliation_required f); [done|].
  repeat match goal with |- context [if ?b then _ else _] => destruct b end;
    intros [-> _]%new_ok; done.
Qed.
Lemma eligibility_reconciliation_iff f e :
  eligibility f = Ok e →
  bool_decide (el_state e = EL_RECONCILIATION_REQUIRED)
  = (reconciliation_required f && negb (is_terminal (state f)) && negb (is_structural_container f)
     && negb (remote_readback_required f)).
Proof.
  intros He. case_bool_decide as E.
  - destruct (eligibility_reconciliation_fact f e He E) as (-> & -> & -> & ->). done.
  - symmetry. apply not_true_iff_false. rewrite !andb_true_iff, !negb_true_iff.
    intros [[[H1 H2] H3] H4]. apply E. unfold eligibility in He.
    unfold is_structural_container in H3. rewrite H1, H2, H3, H4 in He.
    apply new_ok in He as [-> _]. done.
Qed.
Lemma readiness_ready_eligible self f e r :
  eligibility f = Ok e → readiness self f = Ok r → rd_state r = RD_READY → el_state e = EL_ELIGIBLE.
Proof.
  intros He Hr Hs. unfold readiness in Hr. rewrite He in Hr. cbn [mbind result_bind] in Hr.
  assert (validate e = Ok ()) as Hv.
  { unfold eligibility in He.
    repeat match goal with H : context [if ?b then _ else _] |- _ => destruct b end;
      apply new_ok in He as [-> Hv]; exact Hv. }
  unfold validate, TaskEligibility_model in Hv. ok_inv.
  match goal with H : negb (Bool.eqb _ _) = false |- _ => apply negb_false_iff, Bool.eqb_prop in H; rename H into Hflag end.
  destruct (el_eligible e); [by symmetry in Hflag; apply bool_decide_eq_true in Hflag|].
  repeat case_bool_decide; apply new_ok in Hr as [-> _]; done.
Qed.

Lemma count_if_Forall2 {A B} (p : A → bool) (q : B → bool) l k :
  Forall2 (λ x y, p x = true → q y = true) l k → count_if p l ≤ count_if q k.
Proof.
  induction 1 as [|x y l k Hxy _ IH]; [done|]. rewrite !count_if_cons.
  destruct (p x), (q y); naive_solver lia.
Qed.
Lemma count_if_Forall2_eq {A B} (p : A → bool) (q : B → bool) l k :
  Forall2 (λ x y, p x = q y) l k → count_if p l = count_if q k.
Proof.
  induction 1 as [|x y l k Hxy _ IH]; [done|]. rewrite !count_if_cons, Hxy. lia.
Qed.

Lemma count_if_split {A} (p q : A → bool) l :
  count_if q l - count_if p (List.filter q l) = count_if (λ x, q x && negb (p x)) l.
Proof.
  induction l as [|x l IH]; [done|]. rewrite !count_if_cons. simpl.
  destruct (q x); simpl; rewrite ?count_if_cons; [destruct (p x); simpl|]; lia.
Qed.

Lemma traverse_Forall2 {A B C} (f : A → result B) (g : A → result C) (P : A → B → C → Prop) l ys zs :
  traverse f l = Ok ys → traverse g l = Ok zs →
  (∀ x y z, x ∈ l → f x = Ok y → g x = Ok z → P x y z) →
  Forall2 (λ y z, ∃ x, x ∈ l ∧ P x y z) ys zs.
Proof.
  intros Hf%traverse_ok. revert zs. induction Hf as [|x y l ys Hx Hf IH]; intros zs Hg HP.
  - injection Hg as <-. constructor.
  - apply traverse_ok, Forall2_cons_inv_l in Hg as (z & zs' & Hz & Hg & ->). constructor.
    + exists x. split; [left|]. apply HP; [left|done..].
    + eapply Forall2_impl; [apply IH; [by apply traverse_ok|]|].
      * intros. apply HP; [by right|done..].
      * intros y' z' (x' & ? & ?). exists x'. split; [by right|done].
Qed.

Lemma cohort_check self fs es rs c :
  traverse eligibility fs = Ok es → traverse (readiness self) fs = Ok rs →
  summarize_control_cohorts fs es rs = Ok c →
  assert_cohort_invariants fs es rs c = Ok ()
  ∧ (Forall (λ f, reconciliation_required f = true → remote_readback_required f = false) fs →
     eligibility_reconciliation c = leaf_reconciliation_facts c).
Proof.
  intros He Hr Hc.
  unfold assert_cohort_invariants. rewrite Hc. simpl.
  rewrite bool_decide_false by (intros Hn; by apply Hn). simpl.
  apply new_ok in Hc as [-> _]. simpl.
  rewrite !filter_length_count, Z.sub_add, Z.eqb_refl. simpl.
  assert (Forall2 (λ f e, eligibility f = Ok e) fs es) as Hfe by (by apply traverse_ok).
  set (rec := λ f, reconciliation_required f && negb (is_terminal (state f))) in *.
  assert (eligibility_count EL_RECONCILIATION_REQUIRED es ≤ count_if rec fs) as H1.
  { apply (count_if_Forall2 _ _ es fs), Forall2_flip. eapply Forall2_impl; [exact Hfe|].
    intros f e H1. unfold rec. rewrite (eligibility_reconciliation_iff f e H1), !andb_true_iff. tauto. }
  assert (count_if (λ r, bool_decide (rd_state r = RD_READY)) rs ≤ eligibility_count EL_ELIGIBLE es) as H2.
  { apply count_if_Forall2.
    eapply Forall2_impl; [eapply (traverse_Forall2 (readiness self) eligibility
      (λ _ r e, rd_state r = RD_READY → el_state e = EL_ELIGIBLE)); [exact Hr|exact He|]|].
    + intros f r e _ Hrf Hef. by eapply readiness_ready_eligible.
    + intros r e (f & _ & Himp). by rewrite !bool_decide_eq_true. }
  apply Z.ltb_ge in H1, H2. rewrite H1, H2. split; [done|].
  intros Hno. rewrite count_if_split. unfold eligibility_count. apply count_if_Forall2_eq, Forall2_flip.
  clear -Hfe Hno. induction Hfe as [|f e fs es H _ IH]; constructor; [|by inv Hno; apply IH].
  apply Forall_cons in Hno as [Hf _]. unfold rec. rewrite (eligibility_reconciliation_iff f e H).
  destruct (reconciliation_required f); [|done]. by rewrite (Hf eq_refl), andb_true_r.
Qed.

(** The runtime cohort check never fires on the sequencer's own output:
    for any facts whose eligibility and readiness were computed by the
    sequencer, summarising them and asserting the invariants succeeds; when
    no fact both waits for readback and asks for reconciliation, the leaves
    counted from the facts are the tasks reported as needing it. *)
Theorem cohort_invariants_hold self fs es rs :
  traverse eligibility fs = Ok es → traverse (readiness self) fs = Ok rs →
  ∃ c, summarize_control_cohorts fs es rs = Ok c
    ∧ assert_cohort_invariants fs es rs c = Ok ()
    ∧ (Forall (λ f, reconciliation_required f = true → remote_readback_required f = false) fs →
       eligibility_reconciliation c = leaf_reconciliation_facts c).
Proof.
  intros He Hr. destruct (summarize_total fs es rs) as [c Hc]. exists c. split; [done|].
  by apply (cohort_check self).
Qed.

Definition demo_eligibility : list TaskEligibility :=
  Eval vm_compute in match traverse eligibility demo_facts with Ok l => l | Raise _ => [] end.
Definition demo_readiness : list TaskReadiness :=
  Eval vm_compute in match traverse (readiness demo_sequencer) demo_facts with Ok l => l | Raise _ => [] end.
Lemma cohort_invariants_hold_witness :
  ∃ c, summarize_control_cohorts demo_facts demo_eligibility demo_readiness = Ok c
    ∧ assert_cohort_invariants demo_facts demo_eligibility demo_readiness c = Ok ()
    ∧ (Forall (λ f, reconciliation_required f = true → remote_readback_required f = false) demo_facts →
       eligibility_reconciliation c = leaf_reconciliation_facts c).
Proof. apply (cohort_invariants_hold demo_sequencer); by vm_compute. Defined.
