(* ===== verification/ControlKernel.v ===== *)
(** * ControlKernel: [control/kernel.py]

    [ProjectControlKernel] reads the local issue and requirement catalogues
    and the task table, derives task facts, runs the sequencer, reconciles
    scope, projects completion and moves ready work from BACKLOG to READY.

    Catalogue rows are JSON objects.  Reading the files is left to a
    [Workspace], the contents the readers return; [dict]s have distinct keys,
    as the JSON reader guarantees. *)
From S2P Require Import Prelude PyStd PyRe PyJson Identifiers TaskState StateStore ControlDomain DepGraph ControlGraph CriticalPath Sequencer BuildOrder Cohorts.
Local Open Scope Z_scope.

(** ** JSON values as Python objects *)
Definition dict := list (string * json).
Definition dget (d : dict) (k : string) : option json :=
  snd <$> List.find (λ kv, String.eqb kv.1 k) d.
(** [d[k]]. *)
Definition ditem (d : dict) (k : string) : result json :=
  match dget d k with Some v => Ok v | None => raise KeyError k end.
Definition jtruthy (o : option json) : bool :=
  match o with
  | None | Some JNull => false
  | Some (JBool b) => b
  | Some (JInt n) => negb (n =? 0)
  | Some (JStr s) => str_truthy s
  | Some (JList l) => negb (bool_decide (length l = O))
  | Some (JObj l) => negb (bool_decide (length l = O))
  end.
(** [str(v)]; of a container only whether the text is blank or one of a few
    plain words is ever used. *)
Definition py_str (j : json) : string :=
  match j with
  | JNull => "None" | JBool true => "True" | JBool false => "False"
  | JInt n => str_of_Z n | JStr s => s | JList _ | JObj _ => dumps j
  end.
(** Iteration over a JSON value. *)
Definition jiter (j : json) : result (list json) :=
  match j with
  | JList l => Ok l
  | JObj l => Ok ((λ kv, JStr kv.1) <$> l)
  | JStr s => Ok ((λ c, JStr (String c "")) <$> Strings.String.list_ascii_of_string s)
  | _ => raise TypeError "object is not iterable"
  end.
(** [d.get(k, ())] iterated over. *)
Definition dget_iter (d : dict) (k : string) : result (list json) :=
  match dget d k with None => Ok [] | Some j => jiter j end.
(** A value used as a set element or dictionary key. *)
Definition jkey (j : json) : result (option string) :=
  match j with
  | JStr s => Ok (Some s)
  | JList _ | JObj _ => raise TypeError "unhashable type"
  | _ => Ok None
  end.
Definition jin (o : option json) (l : list string) : result bool :=
  match o with
  | None => Ok false
  | Some j => k ← jkey j; Ok (match k with Some s => str_in s l | None => false end)
  end.
Definition jeq (o : option json) (s : string) : bool :=
  match o with Some (JStr t) => String.eqb s t | _ => false end.
(** A field pydantic validates as [str]. *)
Definition as_str (j : json) : result string :=
  match j with JStr s => Ok s | _ => raise ValidationError "Input should be a valid string" end.
Definition as_dict (j : json) : result dict :=
  match j with JObj d => Ok d | _ => raise AttributeError "get" end.

(** ** What the readers return *)
Record Workspace := mkWorkspace {
  path_exists : string → bool;
  load_issues : list dict;
  load_requirement_catalog : list dict;
  requirement_catalog_present : bool;
  product_outcome : dict;
  audit_findings : option dict;
}.

(** ** Constants *)
Definition COMPLETE_REQUIREMENT_STATES : list string :=
  ["IMPLEMENTED"; "MOCK_VERIFIED"; "LIVE_VERIFIED"; "BLOCKED_EXTERNAL"].
Definition PRODUCT_SELECTION_BOUNDED_MODES : list string :=
  ["PAUSED_PENDING_INDEPENDENT_PRODUCT_MODEL_AUDIT"; "PRODUCT_OUTCOME_CRITICAL_PATH_ONLY"].
Definition CRITICAL_PATH_PREDECESSORS : list string :=
  (λ n, "PP-TASK-" +:+ pad_int 6 n) <$> seqZ 380 5.
Definition COMPLETE_ISSUE_IMPLEMENTATION_STATES : list string :=
  ["IMPLEMENTED"; "MOCK_VERIFIED"; "LIVE_VERIFIED"].
Definition RECONCILABLE_ISSUE_IMPLEMENTATION_STATES : list string :=
  ["IMPLEMENTED"; "MOCK_VERIFIED"; "LIVE_VERIFIED"].
Definition CYCLE_OWNED_VALIDATION_JOBS : list string := ["PP-TASK-000992"; "PP-TASK-000993"].

(** ** Evidence on one issue *)
(** [isinstance(path, str) and (root / path).exists()]. *)
Definition path_present (ws : Workspace) (j : json) : bool :=
  match j with JStr p => path_exists ws p | _ => false end.
Fixpoint criteria_ok (ws : Workspace) (reconcilable : bool) (l : list json) : bool :=
  match l with
  | [] => true
  | item :: l =>
      match item with
      | JObj d =>
          match dget d "verification" with
          | Some (JObj v) =>
              match dget v "path" with
              | Some p =>
                  if negb (path_present ws p) then false
                  else if reconcilable && negb (jeq (dget v "status") "VERIFIED") then false
                  else criteria_ok ws reconcilable l
              | None => false
              end
          | _ => false
          end
      | _ => false
      end
  end.
Definition issue_has_reconciliation_evidence (ws : Workspace) (issue : dict) : result bool :=
  let st := dget issue "implementation_state" in
  known ← jin st (RECONCILABLE_ISSUE_IMPLEMENTATION_STATES ++ ["PLANNED_ONLY"; "PARTIALLY_IMPLEMENTED"]);
  if negb known then Ok false else
  if negb (jtruthy (dget issue "expected_implementation_artifacts")) then Ok false else
  (artifacts ← dget_iter issue "expected_implementation_artifacts";
  if negb (forallb (path_present ws) artifacts) then Ok false else
  if negb (jtruthy (dget issue "acceptance_criteria")) then Ok false else
  (criteria ← dget_iter issue "acceptance_criteria";
  reconcilable ← jin st RECONCILABLE_ISSUE_IMPLEMENTATION_STATES;
  if negb (criteria_ok ws reconcilable criteria) then Ok false else
  Ok (jtruthy (dget issue "required_tests") && jtruthy (dget issue "completion_evidence")))).

Definition issue_waits_for_remote_readback (issue : dict) : result bool :=
  if negb (jeq (dget issue "implementation_state") "IMPLEMENTED") then Ok false else
  (terminal ← jin (dget issue "state") ["DONE"; "CANCELLED"];
  if (terminal : bool) then Ok false else
  Ok (match dget issue "last_observed_remote_state" with
      | Some (JObj observed) =>
          let name := dget observed "status_name" in
          let status := str_lower (str_strip
            (if jtruthy name then match name with Some j => py_str j | None => "" end else "")) in
          str_truthy status && negb (str_in status ["done"; "in progress"])
      | _ => false
      end)).

Definition reconciliation_quarantine_ids (ws : Workspace) : result (list string) :=
  match audit_findings ws with
  | None => Ok []
  | Some audit =>
      items ← dget_iter audit "issue_findings";
      ids ← traverse (λ j, d ← as_dict j;
        Ok (if jeq (dget d "status") "ISSUE_SPECIFIC_AUDIT_REQUIRED"
            then Some (match dget d "issue_id" with Some v => py_str v | None => "None" end)
            else None)) items;
      Ok (somes ids)
  end.

(** ** Selection scope *)
(** [(mode, allowed_ids, fail_closed_pause)]. *)
Definition selection_scope (ws : Workspace) : string * list string * bool :=
  match default (JObj []) (dget (product_outcome ws) "control_selection") with
  | JObj selection =>
      let mode := str_strip (match dget selection "mode" with Some j => py_str j | None => "" end) in
      let allowed :=
        match dget selection "allowed_issue_ids" with
        | Some (JList l) => List.filter (λ s, str_truthy (str_strip s)) (py_str <$> l)
        | _ => []
        end in
      if negb (str_in mode PRODUCT_SELECTION_BOUNDED_MODES) then (mode, [], true)
      else if bool_decide (allowed = []) then (mode, [], true)
      else (mode, allowed, false)
  | _ => ("", [], true)
  end.

(** [{item[k]: item for item in l}]. *)
Fixpoint keyed_from (k : string) (m : gmap string dict) (l : list dict) : result (gmap string dict) :=
  match l with
  | [] => Ok m
  | d :: l => j ← ditem d k; i ← as_str j; keyed_from k (<[i := d]> m) l
  end.
Definition keyed_by (k : string) (l : list dict) : result (gmap string dict) := keyed_from k ∅ l.

Fixpoint predecessors_accepted (issues : gmap string dict) (ids : list string) : result bool :=
  match ids with
  | [] => Ok true
  | t :: ids =>
      b ← jin (dget (default [] (issues !! t)) "implementation_state")
            COMPLETE_ISSUE_IMPLEMENTATION_STATES;
      if (b : bool) then predecessors_accepted issues ids else Ok false
  end.

(** [[requirements[item] for item in issue.get("requirement_ids", []) if item in requirements]] *)
Definition linked_requirements (requirements : gmap string dict) (issue : dict) : result (list dict) :=
  items ← dget_iter issue "requirement_ids";
  keys ← traverse jkey items;
  Ok (somes ((λ k, match k with Some i => requirements !! i | None => None end) <$> keys)).

Fixpoint any_incomplete (l : list dict) : result bool :=
  match l with
  | [] => Ok false
  | r :: l =>
      if negb (jeq (dget r "disposition") "ACCEPTED") then any_incomplete l else
      (b ← jin (dget r "implementation_state") COMPLETE_REQUIREMENT_STATES;
       if (b : bool) then any_incomplete l else Ok true)
  end.
Definition completion_convergence_allowed (issue : dict) (requirements : gmap string dict)
    (accepted_before : bool) : result bool :=
  if negb accepted_before then Ok false
  else (linked ← linked_requirements requirements issue; any_incomplete linked).

(** ** Task facts *)
Definition ISSUE_TYPES : list (string * IssueType) :=
  (λ t, (IssueType_value t, t)) <$> [EPIC; STORY; TASK; SUBTASK; BUG; SPIKE].
Definition RISKS : list (string * Risk) := (λ r, (Risk_value r, r)) <$> [LOW; MEDIUM; HIGH; CRITICAL].
(** A [Literal] field read with [issue.get(k, default)]. *)
Definition literal {A} (table : list (string * A)) (dflt : A) (o : option json) : result A :=
  match o with
  | None => Ok dflt
  | Some j =>
      match List.find (λ kv, jeq (Some j) kv.1) table with
      | Some kv => Ok kv.2
      | None => raise ValidationError "literal_error"
      end
  end.
Definition cycle_job_issue : dict :=
  [("issue_type", JStr "TASK"); ("risk_classification", JStr "LOW"); ("requirement_ids", JList []);
   ("state", JStr "")].

Definition task_fact (ws : Workspace) (project : string) (issues requirements : gmap string dict)
    (quarantined scope_ids : list string) (fail_closed accepted_before : bool)
    (row : TaskStateRecord) : result (option TaskControlFact) :=
  let issue := match issues !! ts_task_id row with
               | Some i => Some i
               | None => if str_in (ts_task_id row) CYCLE_OWNED_VALIDATION_JOBS
                         then Some cycle_job_issue else None
               end in
  match issue with
  | None => Ok None
  | Some issue =>
      linked ← linked_requirements requirements issue;
      let accepted_ := forallb (λ r, jeq (dget r "disposition") "ACCEPTED") linked in
      let external := negb (bool_decide (length linked = O))
                      && forallb (λ r, jeq (dget r "implementation_state") "BLOCKED_EXTERNAL") linked in
      let lifecycle := if jeq (dget issue "state") "DONE" then DONE
                       else if jeq (dget issue "state") "CANCELLED" then CANCELLED
                       else ts_state row in
      kind_ ← literal ISSUE_TYPES TASK (dget issue "issue_type");
      risk_ ← literal RISKS MEDIUM (dget issue "risk_classification");
      reqs ← dget_iter issue "requirement_ids";
      req_ids ← traverse as_str reqs;
      evidence ← issue_has_reconciliation_evidence ws issue;
      waits ← issue_waits_for_remote_readback issue;
      scope_ok ← (if fail_closed then Ok false
                  else if str_in (ts_task_id row) scope_ids
                          || str_in (ts_task_id row) CYCLE_OWNED_VALIDATION_JOBS then Ok true
                  else completion_convergence_allowed issue requirements accepted_before);
      f ← new (mkFact (ts_task_id row) project lifecycle kind_ (ts_priority row) risk_
                 (ts_dependency_ids row) (ts_blocker_ids row) req_ids accepted_ true false true
                 false true true true external
                 ((evidence || str_in (ts_task_id row) quarantined) && negb waits) waits scope_ok
                 None None);
      Ok (Some f)
  end.

Definition task_facts (ws : Workspace) (st : store) (project : string) : result (list TaskControlFact) :=
  issues ← keyed_by "local_id" (load_issues ws);
  requirements ← keyed_by "requirement_id" (load_requirement_catalog ws);
  states ← list_task_states st project;
  quarantined ← reconciliation_quarantine_ids ws;
  let '(_, scope_ids, fail_closed) := selection_scope ws in
  before ← predecessors_accepted issues CRITICAL_PATH_PREDECESSORS;
  facts_ ← traverse (task_fact ws project issues requirements quarantined scope_ids fail_closed
                       (before && negb fail_closed)) states;
  Ok (sorted_by task_id (somes facts_)).

(** ** Scope reconciliation *)
Definition finding_if (b : bool) (mk : result ScopeFinding) : result (list ScopeFinding) :=
  if b then f ← mk; Ok [f] else Ok [].
Definition str_item (d : dict) (k : string) : result string := j ← ditem d k; as_str j.
Definition scope_finding (kind_ : ScopeFindingKind) (d : dict) (key : string) (related : option string)
    (text : string) : result ScopeFinding :=
  subject ← str_item d key; new (mkScopeFinding kind_ subject related text).

Definition requirement_findings (r : dict) : result (list ScopeFinding) :=
  if negb (jeq (dget r "disposition") "ACCEPTED") then Ok [] else
  (jira_ids ← dget_iter r "jira_ids";
   without_work ← finding_if (bool_decide (length jira_ids = O))
     (scope_finding REQUIREMENT_WITHOUT_WORK r "requirement_id" None
        "Accepted requirement has no mapped work item.");
   complete ← jin (dget r "implementation_state") COMPLETE_REQUIREMENT_STATES;
   without_artifact ← finding_if (complete && negb (jtruthy (dget r "implementation_paths")))
     (scope_finding IMPLEMENTED_REQUIREMENT_WITHOUT_ARTIFACT r "requirement_id" None
        "Requirement is represented as implemented or externally blocked without an implementation artifact mapping.");
   Ok (without_work ++ without_artifact)).

Definition opt_str (j : json) : result (option string) :=
  match j with JNull => Ok None | _ => s ← as_str j; Ok (Some s) end.
Definition unknown_requirement (known : gmap string dict) (issue : dict) (j : json)
  : result (list ScopeFinding) :=
  k ← jkey j;
  finding_if (match k with Some i => bool_decide (known !! i = None) | None => true end)
    (related ← opt_str j;
     scope_finding UNKNOWN_REQUIREMENT issue "local_id" related
       "Work item references a requirement absent from the authoritative registry.").

(** A member of the relation set: falsy members are dropped, other members
    that are not text cannot be sorted or reported. *)
Definition relation_key (j : json) : result (option string) :=
  if negb (jtruthy (Some j)) then k ← jkey j; Ok None else s ← as_str j; Ok (Some s).
Definition relationship_target (j : json) : result (option string) :=
  r ← as_dict j;
  b ← jin (dget r "type") ["DEPENDS_ON"; "BLOCKED_BY"; "IS_BLOCKED_BY"];
  if (b : bool) then match dget r "target" with Some t => relation_key t | None => Ok None end
  else Ok None.
Definition related_issues (issue : dict) : result (list string) :=
  deps ← dget_iter issue "dependencies";
  blockers ← dget_iter issue "blockers";
  d ← traverse relation_key deps;
  b ← traverse relation_key blockers;
  rels ← dget_iter issue "relationships";
  r ← traverse relationship_target rels;
  Ok (sorted_by id (remove_dups (somes (d ++ b ++ r)))).

Definition issue_findings (known : gmap string dict) (issue_ids : list string) (issue : dict)
  : result (list ScopeFinding) :=
  reqs ← dget_iter issue "requirement_ids";
  epic ← jin (dget issue "issue_type") ["EPIC"];
  without_requirement ← finding_if (bool_decide (length reqs = O) && negb epic)
    (scope_finding WORK_WITHOUT_REQUIREMENT issue "local_id" None "Work item has no requirement mapping.");
  unknown ← traverse (unknown_requirement known issue) reqs;
  related ← related_issues issue;
  dangling ← traverse (λ t, finding_if (negb (str_in t issue_ids))
      (scope_finding UNKNOWN_DEPENDENCY issue "local_id" (Some t)
         "Work item references a dependency or blocker absent from the local Jira authority.")) related;
  let done_ := jeq (dget issue "state") "DONE" in
  no_evidence ← finding_if (done_ && negb (jtruthy (dget issue "completion_evidence")))
    (scope_finding DONE_WITHOUT_EVIDENCE issue "local_id" None
       "Done work item has no completion evidence mapping.");
  planned ← finding_if (done_ && jeq (dget issue "implementation_state") "PLANNED_ONLY")
    (scope_finding DONE_WITHOUT_IMPLEMENTATION issue "local_id" None
       "Done work item is still represented as planned only.");
  Ok (without_requirement ++ concat unknown ++ concat dangling ++ no_evidence ++ planned).

Definition finding_key (f : ScopeFinding) : string * (string * string) :=
  (ScopeFindingKind_value (sf_kind f), (subject_id f, default "" (related_id f))).
Definition finding_json (f : ScopeFinding) : json :=
  JObj [("schema_version", JStr "1.0.0"); ("kind", JStr (ScopeFindingKind_value (sf_kind f)));
        ("subject_id", JStr (subject_id f)); ("related_id", JOptStr (related_id f));
        ("detail", JStr (detail f))].

Definition scope_findings (ws : Workspace) : result (list ScopeFinding) :=
  known ← keyed_by "requirement_id" (load_requirement_catalog ws);
  issue_ids ← traverse (λ d, str_item d "local_id") (load_issues ws);
  from_requirements ← traverse requirement_findings (load_requirement_catalog ws);
  from_issues ← traverse (issue_findings known issue_ids) (load_issues ws);
  Ok (sorted_by finding_key (concat from_requirements ++ concat from_issues)).
Definition scope_reconciliation (ws : Workspace) (project : string) : result ScopeReconciliationReport :=
  found ← scope_findings ws;
  let fingerprint := json_fingerprint (JList (finding_json <$> found)) in
  rid ← control_identifier "SCOPE" [project; fingerprint];
  new (mkScopeReport rid project (Z.of_nat (length (load_requirement_catalog ws)))
         (Z.of_nat (length (load_issues ws))) found fingerprint).

(** ** Completion projection *)
Definition PAUSED_MODE : string := "PAUSED_PENDING_INDEPENDENT_PRODUCT_MODEL_AUDIT".

(** The counts the projection decides on. *)
Record CompletionCounts := mkCounts {
  cc_total : Z; cc_completed : Z; cc_active : Z; cc_blocked : Z; cc_failed : Z;
  cc_ordinary_active : Z; cc_ordinary_ready : Z;
  cc_requirements : Z; cc_req_complete : Z; cc_catalog_present : bool;
  cc_ready : Z; cc_cohorts : ControlCohortCounts;
}.
Definition all_work_terminal (n : CompletionCounts) : bool :=
  (0 <? cc_total n) && (cc_completed n =? cc_total n).
Definition all_requirements_complete (n : CompletionCounts) : bool :=
  cc_catalog_present n && negb (cc_requirements n =? 0) && (cc_req_complete n =? cc_requirements n).
Definition when (b : bool) (s : string) : list string := if b then [s] else [].

Definition projection_state (mode : string) (n : CompletionCounts)
  : CompletionProjectionState * list string :=
  let reconciliation := reconciliation_facts (cc_cohorts n) in
  let pos z := negb (z =? 0) in
  if String.eqb mode PAUSED_MODE && (pos (cc_ordinary_active n) || pos (cc_ordinary_ready n)) then
    (CP_FAILED,
     when (pos (cc_ordinary_active n))
       ("ordinary active lanes remain while product-model audit is pending: "
        +:+ str_of_Z (cc_ordinary_active n))
     ++ when (pos (cc_ordinary_ready n))
          ("ordinary backlog remains ready while product-model audit is pending: "
           +:+ str_of_Z (cc_ordinary_ready n)))
  else if pos (cc_failed n) then
    (CP_FAILED, [str_of_Z (cc_failed n) +:+ " work items are in FAILED state"])
  else if pos (cc_blocked n) && (cc_ready n =? 0) && (cc_active n =? 0) && (reconciliation =? 0) then
    (CP_BLOCKED, ["no independent ready or active work remains while blocked work exists"])
  else if all_work_terminal n && all_requirements_complete n then
    (CP_READY_FOR_COMPLETION_GATE,
     ["all accepted requirements and work items satisfy the control-plane projection";
      "independent Completion Gate evaluation is still required"])
  else
    (CP_INCOMPLETE,
     when (negb (all_work_terminal n))
       (str_of_Z (cc_total n - cc_completed n) +:+ " work items are not terminal")
     ++ (if negb (cc_catalog_present n) then ["requirement catalog is missing"]
         else when (negb (all_requirements_complete n))
                (str_of_Z (cc_requirements n - cc_req_complete n)
                 +:+ " accepted requirements are not implemented or externally blocked"))
     ++ when (pos (cc_ready n)) (str_of_Z (cc_ready n) +:+ " independent work items are ready to continue")
     ++ when (pos reconciliation) (describe_reconciliation_cohorts (cc_cohorts n))
     ++ when ((cc_ready n <=? 1)
              && (pos reconciliation || pos (cc_requirements n - cc_req_complete n)))
          "a single ready item is not a stop signal while reconciliation or incomplete requirements remain").

(** [{item.task_id: item for item in readiness}], then the ready entries
    outside the scope. *)
Definition ordinary_ready_count (scope_ids : list string) (rs : list TaskReadiness) : Z :=
  count_if (λ kv : string * TaskReadiness, negb (str_in kv.1 scope_ids) && rd_ready kv.2)
    (map_to_list (dict_of rd_task_id rs)).

Section kernel.
Context `{Networkx}.

Definition completion_projection (ws : Workspace) (st : store) (project : string)
    (sequence_ : BuildSequence) (rs : list TaskReadiness) (es : list TaskEligibility)
    (facts_ : option (list TaskControlFact)) : result CompletionProjection :=
  let requirements :=
    List.filter (λ r, jeq (dget r "disposition") "ACCEPTED") (load_requirement_catalog ws) in
  states ← list_task_states st project;
  let '(mode, scope_ids, _) := selection_scope ws in
  complete ← traverse (λ r, jin (dget r "implementation_state") COMPLETE_REQUIREMENT_STATES) requirements;
  fact_list ← match facts_ with Some l => Ok l | None => task_facts ws st project end;
  es' ← (if bool_decide (length es = O)
         then (_ ← new_sequencer fact_list; traverse eligibility fact_list) else Ok es);
  c ← summarize_control_cohorts fact_list es' rs;
  let n := mkCounts (Z.of_nat (length states))
    (count_if (λ s, is_terminal (ts_state s)) states)
    (count_if (λ s, is_active (ts_state s)) states)
    (count_if (λ s, bool_decide (ts_state s = BLOCKED)) states)
    (count_if (λ s, bool_decide (ts_state s = FAILED)) states)
    (count_if (λ s, is_active (ts_state s) && negb (str_in (ts_task_id s) scope_ids)) states)
    (ordinary_ready_count scope_ids rs)
    (Z.of_nat (length requirements)) (count_if id complete) (requirement_catalog_present ws)
    (ready_count sequence_) c in
  let '(verdict, reasons) := projection_state mode n in
  pid ← control_identifier "COMPLETE"
    [project; str_of_Z (cc_total n); str_of_Z (cc_completed n); str_of_Z (cc_req_complete n);
     CompletionProjectionState_value verdict];
  new (mkProjection pid project verdict (cc_total n) (cc_completed n) (cc_active n) (cc_blocked n)
         (cc_failed n) (cc_requirements n) (cc_req_complete n) (cc_ready n)
         (bool_decide (verdict = CP_READY_FOR_COMPLETION_GATE)) false reasons c).

(** ** One evaluation *)
Definition eligibility_json (e : TaskEligibility) : json :=
  JObj [("schema_version", JStr "1.0.0"); ("task_id", JStr (el_task_id e));
        ("state", JStr (EligibilityState_value (el_state e))); ("eligible", JBool (el_eligible e));
        ("reasons", JList (JStr <$> el_reasons e))].
Definition readiness_json (r : TaskReadiness) : json :=
  JObj [("schema_version", JStr "1.0.0"); ("task_id", JStr (rd_task_id r));
        ("state", JStr (ReadinessState_value (rd_state r))); ("ready", JBool (rd_ready r));
        ("unresolved_dependencies", JList (JStr <$> rd_unresolved_dependencies r));
        ("unresolved_blockers", JList (JStr <$> rd_unresolved_blockers r));
        ("reasons", JList (JStr <$> rd_reasons r))].

Definition evaluate (ws : Workspace) (st : store) (project : string) (now : Z) : result ControlSnapshot :=
  facts_ ← task_facts ws st project;
  sequencer ← new_sequencer facts_;
  sequence_ ← build_sequence sequencer now;
  es ← traverse eligibility facts_;
  rs ← traverse (readiness sequencer) facts_;
  scope_ ← scope_reconciliation ws project;
  completion_ ← completion_projection ws st project sequence_ rs es (Some facts_);
  _ ← assert_cohort_invariants facts_ es rs (cohorts completion_);
  let fingerprint := json_fingerprint
    (JObj [("sequence_id", JStr (sequence_id sequence_));
           ("graph_fingerprint", JStr (graph_fingerprint_hex sequence_));
           ("scope_report_id", JStr (report_id scope_));
           ("completion_projection_id", JStr (projection_id completion_));
           ("eligibility", JList (eligibility_json <$> es));
           ("readiness", JList (readiness_json <$> rs))]) in
  cid ← control_identifier "CTRL" [project; fingerprint];
  new (mkSnapshot cid project sequence_ scope_ completion_ es rs fingerprint).

(** ** Readiness transitions *)
Record PlannedTransition := mkPlanned { pt_task_id : string; pt_expected_version : Z }.
Definition PLAN_REASON : string :=
  "Control Kernel recomputed all deterministic readiness predicates as satisfied.".

Fixpoint plan_operations (states : gmap string TaskStateRecord) (ids : list string)
  : result (list PlannedTransition) :=
  match ids with
  | [] => Ok []
  | t :: ids =>
      row ← dict_get states t;
      rest ← plan_operations states ids;
      Ok (if bool_decide (ts_state row = BACKLOG) then mkPlanned t (ts_version row) :: rest else rest)
  end.
Definition readiness_transition_plan (ws : Workspace) (st : store) (project : string)
    (task_ids : option (list string)) (now : Z) : result (list PlannedTransition) :=
  snapshot ← evaluate ws st project now;
  let ready := rd_task_id <$> List.filter rd_ready (readiness_results snapshot) in
  rows ← list_task_states st project;
  let states := dict_of ts_task_id rows in
  ready' ← match task_ids with
           | None => Ok ready
           | Some ids =>
               let unknown := List.filter (λ t, bool_decide (states !! t = None)) ids in
               _ ← raise_if (negb (bool_decide (unknown = []))) ValueError
                     ("unknown task IDs in readiness transition request: "
                      +:+ str_join ", " (sorted_by id (remove_dups unknown)));
               Ok (List.filter (λ t, str_in t ids) ready)
           end;
  plan_operations states (sorted_by id (remove_dups ready')).

(** Each operation is its own transaction: a failure leaves the earlier ones
    committed.  [clock] gives the time of each write. *)
Fixpoint apply_operations (actor corr : string) (ops : list PlannedTransition) (clock : list Z)
    (st : store) : store * result (list TaskStateRecord) :=
  match ops with
  | [] => (st, Ok [])
  | op :: ops =>
      match transition_task (pt_task_id op) READY (pt_expected_version op) PLAN_REASON actor corr
              None None (hd 0 clock) st with
      | (st', Raise e) => (st', Raise e)
      | (st', Ok row) =>
          let '(st'', rest) := apply_operations actor corr ops (tl clock) st' in
          (st'', rows ← rest; Ok (row :: rows))
      end
  end.
Definition apply_readiness_transitions (ws : Workspace) (project actor corr : string)
    (task_ids : option (list string)) (now : Z) (clock : list Z) (st : store)
  : store * result (list TaskStateRecord) :=
  match readiness_transition_plan ws st project task_ids now with
  | Raise e => (st, Raise e)
  | Ok ops => apply_operations actor corr ops clock st
  end.
End kernel.
