(* ===== verification/ControlLoop.v ===== *)
(** * ControlLoop: the theorems about the control kernel

    One evaluation over a store and a workspace, the completion projection,
    and the transitions of ready work from BACKLOG to READY. *)
From S2P Require Import Prelude PyStd PyRe PyJson Identifiers TaskState StateStore ControlDomain DepGraph ControlGraph CriticalPath Sequencer BuildOrder Cohorts ControlKernel.
From Stdlib Require Import Ascii.
Local Open Scope Z_scope.

(** ** The rows the kernel reads *)
Lemma read_tasks_ok st ids rows :
  read_tasks st ids = Ok rows →
  ∀ r, r ∈ rows ↔ ∃ i, i ∈ ids ∧ task_states st !! i = Some r ∧ validate r = Ok ().
Proof.
  revert rows. induction ids as [|i ids IH]; intros rows; simpl; [intros [= <-]; set_solver|].
  intros (o & Ho & Hr)%bind_ok. apply bind_ok in Hr as (rest & Hrest & [= <-]).
  specialize (IH _ Hrest). unfold get_task_state in Ho. intros r.
  destruct (task_states st !! i) as [row|] eqn:Hi.
  - apply bind_ok in Ho as (r' & [-> Hv]%new_ok & [= <-]). rewrite elem_of_cons, IH. split.
    + intros [->|(j & Hj & ? & ?)]; [exists i|exists j]; set_solver.
    + intros (j & [->|Hj]%elem_of_cons & Hl & ?); [left; congruence|right; eauto].
  - injection Ho as <-. rewrite IH. split.
    + intros (j & ? & ?). exists j. set_solver.
    + intros (j & [->|Hj]%elem_of_cons & Hl & ?); [congruence|eauto].
Qed.
Lemma list_task_states_ok st project rows :
  store_inv st → list_task_states st project = Ok rows →
  ∀ r, r ∈ rows ↔
    task_states st !! ts_task_id r = Some r ∧ ts_project_id r = project ∧ validate r = Ok ().
Proof.
  intros [Hrow _] Hl r. rewrite (read_tasks_ok _ _ _ Hl). unfold project_task_ids.
  setoid_rewrite elem_of_sorted_by. setoid_rewrite list_elem_of_fmap.
  setoid_rewrite list_elem_of_filter. split.
  - intros (i & ([k row] & -> & Hp & Hin%elem_of_map_to_list) & Hl' & Hv). simpl in *.
    assert (row = r) as -> by congruence. destruct (Hrow _ _ Hl') as [-> _]. auto.
  - intros (Hl' & Hp & Hv). exists (ts_task_id r). split; [|done].
    exists (ts_task_id r, r). by rewrite elem_of_map_to_list.
Qed.
Lemma states_lookup st project rows t row :
  store_inv st → list_task_states st project = Ok rows →
  dict_of ts_task_id rows !! t = Some row →
  task_states st !! t = Some row ∧ ts_project_id row = project.
Proof.
  intros Hinv Hl [Hin <-]%dict_of_lookup_Some. by apply (list_task_states_ok _ _ _ Hinv Hl) in Hin as (?&?&_).
Qed.

Section loop.
Context `{Networkx, !NetworkxLaws}.

(** ** Facts *)
Lemma task_fact_ok ws project issues reqs quarantined scope_ids fc before row f :
  task_fact ws project issues reqs quarantined scope_ids fc before row = Ok (Some f) →
  validate f = Ok () ∧ task_id f = ts_task_id row ∧ project_id f = project
  ∧ (reconciliation_required f = true → remote_readback_required f = false).
Proof.
  unfold task_fact. destruct (match issues !! _ with Some _ => _ | None => _ end) as [issue|]; [|done].
  intros Hf. ok_inv. simpl. do 3 (split; [done|]).
  intros [_ Hw%negb_true_iff]%andb_true_iff. done.
Qed.
Lemma task_facts_ok ws st project fs :
  task_facts ws st project = Ok fs →
  ∃ rows, list_task_states st project = Ok rows
    ∧ ∀ f, f ∈ fs → validate f = Ok () ∧ project_id f = project
        ∧ (∃ row, row ∈ rows ∧ ts_task_id row = task_id f)
        ∧ (reconciliation_required f = true → remote_readback_required f = false).
Proof.
  unfold task_facts. intros Hf. apply bind_ok in Hf as (issues & _ & Hf).
  apply bind_ok in Hf as (reqs & _ & Hf). apply bind_ok in Hf as (rows & Hrows & Hf).
  apply bind_ok in Hf as (q & _ & Hf). destruct (selection_scope ws) as [[mode ids] fc].
  apply bind_ok in Hf as (before & _ & Hf). apply bind_ok in Hf as (l & Hl & [= <-]).
  exists rows. split; [done|]. intros f. rewrite elem_of_sorted_by, elem_of_somes. intros Hin.
  apply traverse_ok in Hl. apply list_elem_of_lookup in Hin as [i Hi].
  destruct (Forall2_lookup_r _ _ _ _ _ Hl Hi) as (row & Hrow & Hfact).
  apply task_fact_ok in Hfact as (?&?&?&?). apply list_elem_of_lookup_2 in Hrow. eauto 10.
Qed.

(** ** Evaluation *)
Lemma evaluate_inv ws st project now snap :
  evaluate ws st project now = Ok snap →
  ∃ fs s, task_facts ws st project = Ok fs ∧ new_sequencer fs = Ok s
    ∧ traverse (readiness s) fs = Ok (readiness_results snap)
    ∧ traverse eligibility fs = Ok (eligibility_results snap)
    ∧ build_sequence s now = Ok (sequence snap)
    ∧ completion_projection ws st project (sequence snap) (readiness_results snap)
        (eligibility_results snap) (Some fs) = Ok (completion snap).
Proof.
  unfold evaluate. intros He. apply bind_ok in He as (fs & Hfs & He).
  apply bind_ok in He as (s & Hs & He). apply bind_ok in He as (q & Hq & He).
  apply bind_ok in He as (es & Hes & He). apply bind_ok in He as (rs & Hrs & He).
  apply bind_ok in He as (sc & Hsc & He). apply bind_ok in He as (c & Hc & He).
  apply bind_ok in He as ([] & _ & He). apply bind_ok in He as (cid & _ & He).
  apply new_ok in He as [-> _]. exists fs, s. by simpl.
Qed.

(** The tasks an evaluation reports ready. *)
Definition reported_ready (ws : Workspace) (st : store) (project t : string) : Prop :=
  ∃ fs s f, task_facts ws st project = Ok fs ∧ new_sequencer fs = Ok s
    ∧ f ∈ fs ∧ task_id f = t ∧ may_start s f.

Lemma evaluate_ready ws st project now snap t :
  evaluate ws st project now = Ok snap →
  t ∈ rd_task_id <$> List.filter rd_ready (readiness_results snap) ↔ reported_ready ws st project t.
Proof.
  intros He. apply evaluate_inv in He as (fs & s & Hfs & Hs & Hrs & _).
  apply traverse_ok in Hrs.
  assert (∀ f r, f ∈ fs → readiness s f = Ok r → readiness_reports s f r) as Hrep.
  { intros f r Hf Hr. destruct (task_facts_ok _ _ _ _ Hfs) as (rows & _ & Hv).
    destruct (new_sequencer_facts fs s Hs) as (Hok & _ & Hin).
    { apply Forall_forall. intros g Hg. by destruct (Hv g Hg). }
    destruct (readiness_ok s f Hok) as (r' & Hr' & ?); [by apply Hin|by apply Hv|congruence]. }
  unfold reported_ready. rewrite list_elem_of_fmap. setoid_rewrite elem_of_List_filter. split.
  - intros (r & -> & Hr & Hready). apply list_elem_of_lookup in Hr as [i Hi].
    destruct (Forall2_lookup_r _ _ _ _ _ Hrs Hi) as (f & Hf & Hrf). apply list_elem_of_lookup_2 in Hf.
    pose proof (Hrep _ _ Hf Hrf) as Hrr. exists fs, s, f. do 3 (split; [done|]).
    split; [symmetry; apply Hrr|by apply (rr_exact _ _ _ Hrr)].
  - intros (fs' & s' & f & Hfs' & Hs' & Hf & <- & Hms).
    assert (fs' = fs) as -> by congruence. assert (s' = s) as -> by congruence.
    apply list_elem_of_lookup in Hf as [i Hi]. destruct (Forall2_lookup_l _ _ _ _ _ Hrs Hi) as (r & Hr & Hrf).
    apply list_elem_of_lookup_2 in Hi. apply list_elem_of_lookup_2 in Hr.
    pose proof (Hrep _ _ Hi Hrf) as Hrr. exists r. split; [symmetry; apply Hrr|].
    split; [done|by apply (rr_exact _ _ _ Hrr)].
Qed.

(** ** The transition plan *)
Lemma plan_operations_ok states ids ops :
  plan_operations states ids = Ok ops → NoDup ids →
  NoDup (pt_task_id <$> ops)
  ∧ ∀ op, op ∈ ops ↔ pt_task_id op ∈ ids ∧ ∃ row, states !! pt_task_id op = Some row
       ∧ ts_state row = BACKLOG ∧ pt_expected_version op = ts_version row.
Proof.
  intros Hp Hnd. revert ops Hp. induction Hnd as [|t ids Ht _ IH]; intros ops; simpl.
  { intros [= <-]. split; [constructor|set_solver]. }
  intros (row & Hrow%dict_get_ok & Hops)%bind_ok. apply bind_ok in Hops as (rest & Hrest & [= <-]).
  destruct (IH _ Hrest) as [Hnd Hin]. case_bool_decide as E.
  - split.
    + rewrite fmap_cons. constructor; [|done]. simpl.
      intros (op & -> & Hop)%list_elem_of_fmap. by apply Hin in Hop as [? _].
    + intros op. rewrite elem_of_cons, Hin. split.
      * intros [->|(? & ?)]; simpl; [|set_solver]. split; [left|eauto].
      * intros ([Et|?]%elem_of_cons & row' & Hrow' & ? & ?); [left|right; eauto].
        assert (row' = row) as -> by congruence. destruct op. simpl in *. congruence.
  - split; [done|]. intros op. rewrite Hin. split; [set_solver|].
    intros ([Et|?]%elem_of_cons & row' & Hrow' & ? & ?); [|eauto].
    assert (row' = row) by congruence. congruence.
Qed.

Definition requested (task_ids : option (list string)) (t : string) : Prop :=
  match task_ids with Some ids => t ∈ ids | None => True end.

(** What the plan contains: exactly the requested BACKLOG tasks that may
    start, each with the version it was read at. *)
Lemma plan_ok ws st project task_ids now ops :
  store_inv st → readiness_transition_plan ws st project task_ids now = Ok ops →
  NoDup (pt_task_id <$> ops)
  ∧ ∀ t v, mkPlanned t v ∈ ops ↔ reported_ready ws st project t ∧ requested task_ids t
      ∧ ∃ row, task_states st !! t = Some row ∧ ts_project_id row = project
          ∧ ts_state row = BACKLOG ∧ v = ts_version row.
Proof.
  intros Hinv Hp. unfold readiness_transition_plan in Hp.
  apply bind_ok in Hp as (snap & He & Hp). apply bind_ok in Hp as (rows & Hrows & Hp).
  apply bind_ok in Hp as (ready & Hready & Hp).
  assert (∀ t, t ∈ ready ↔ reported_ready ws st project t ∧ requested task_ids t) as Hr.
  { intros t. rewrite <-(evaluate_ready _ _ _ _ _ t He). destruct task_ids as [ids|]; simpl.
    - apply bind_ok in Hready as ([] & _ & [= <-]). by rewrite elem_of_List_filter, str_in_spec.
    - injection Hready as <-. tauto. }
  apply plan_operations_ok in Hp as [Hnd Hin].
  2: { rewrite sorted_by_perm. apply NoDup_remove_dups. }
  split; [done|]. intros t v. rewrite Hin, elem_of_sorted_by, elem_of_remove_dups, Hr. simpl.
  split.
  - intros ([? ?] & row & Hrow & ? & ?). apply (states_lookup _ _ _ _ _ Hinv Hrows) in Hrow as [??].
    eauto 10.
  - intros (Hrep & Hreq & row & Hrow & Hproj & ? & ->). split; [done|]. exists row. split; [|done].
    destruct Hrep as (fs & s & f & Hfs & _ & Hf & <- & _).
    destruct (task_facts_ok _ _ _ _ Hfs) as (rows' & Hrows' & Hall).
    assert (rows' = rows) as -> by congruence.
    destruct (Hall f Hf) as (_ & _ & (row' & Hin' & Hid) & _).
    assert (is_Some (dict_of ts_task_id rows !! task_id f)) as [r Hr'].
    { apply dict_of_dom. rewrite <-Hid. by apply list_elem_of_fmap_2. }
    rewrite Hr'. apply (states_lookup _ _ _ _ _ Hinv Hrows) in Hr' as [??]. congruence.
Qed.

(** ** Applying the plan *)
(** Each planned task either keeps its row or moves once from the planned
    version to READY; if all writes succeed, all of them moved. *)
Definition moved (row row' : TaskStateRecord) : Prop :=
  ts_state row' = READY ∧ ts_version row' = ts_version row + 1.

Lemma apply_operations_ok actor corr ops clock st st' r :
  apply_operations actor corr ops clock st = (st', r) → NoDup (pt_task_id <$> ops) →
  (∀ t row, task_states st !! t = Some row → ∃ row', task_states st' !! t = Some row'
      ∧ (row' = row ∨ (mkPlanned t (ts_version row) ∈ ops ∧ moved row row')))
  ∧ (is_ok r = true → ∀ op row, op ∈ ops → task_states st !! pt_task_id op = Some row →
      ∃ row', task_states st' !! pt_task_id op = Some row' ∧ moved row row').
Proof.
  revert clock st st' r. induction ops as [|op ops IH]; intros clock st st' r; simpl.
  { intros [= <- <-] _. split; [eauto|set_solver]. }
  destruct (transition_task _ _ _ _ _ _ _ _ _ _) as [st1 r1] eqn:E. rewrite NoDup_cons.
  intros Happ [Hop Hnd]. apply transition_task_cases in E
    as [[-> [e ->]]|(row & t & Hl & Hv & _ & _ & _ & _ & -> & Hr1)].
  { injection Happ as <- <-. split; [eauto|done]. }
  set (row1 := updated_task row READY None None t) in *.
  assert (moved row row1) as Hm by (by split).
  assert (mkPlanned (pt_task_id op) (ts_version row) = op) as Heq by (rewrite Hv; by destruct op).
  destruct r1 as [x|e]; symmetry in Hr1.
  - destruct (apply_operations _ _ _ _ _) as [st2 r2] eqn:E2. injection Happ as <- <-.
    destruct (IH _ _ _ _ E2 Hnd) as [Hsafe Hlive]. simpl in Hsafe, Hlive. split.
    + intros k row0 Hk. destruct (decide (k = pt_task_id op)) as [->|Hne].
      * destruct (Hsafe (pt_task_id op) row1) as (row' & Hr' & Hc); [by rewrite lookup_insert_eq|].
        exists row'. split; [done|]. right. assert (row0 = row) as -> by congruence.
        split; [rewrite Heq; left|].
        destruct Hc as [->|[Hc _]]; [done|]. exfalso. apply Hop. by apply (list_elem_of_fmap_2 pt_task_id) in Hc.
      * destruct (Hsafe k row0) as (row' & Hr' & Hc); [by rewrite lookup_insert_ne|].
        exists row'. split; [done|]. destruct Hc as [?|[??]]; [by left|right; split; [by right|done]].
    + intros Hok o row0 [->|Ho]%elem_of_cons Hk.
      * assert (row0 = row) as -> by congruence.
        destruct (Hsafe (pt_task_id op) row1) as (row' & Hr' & Hc); [by rewrite lookup_insert_eq|].
        exists row'. split; [done|]. destruct Hc as [->|[Hc _]]; [done|].
        exfalso. apply Hop. by apply (list_elem_of_fmap_2 pt_task_id) in Hc.
      * apply Hlive; [by destruct r2|done|]. rewrite lookup_insert_ne; [done|].
        intros Hid. apply Hop. rewrite Hid. by apply list_elem_of_fmap_2.
  - injection Happ as <- <-. simpl. split; [|done]. intros k row0 Hk. rewrite lookup_insert.
    case_decide as Ek; [|eauto]. subst k. exists row1. split; [done|]. right.
    assert (row0 = row) as -> by congruence. split; [rewrite Heq; left|done].
Qed.

(** C24. Applying readiness transitions is safe and complete: whatever the call
    returns, every task row is either untouched or belongs to a requested
    BACKLOG task that the sequencer reports may start, and that row moved to
    READY with its version incremented once; when the call succeeds, every
    such task has moved. *)
Theorem readiness_transitions_exact ws project actor corr task_ids now clock st st' r :
  reachable st →
  apply_readiness_transitions ws project actor corr task_ids now clock st = (st', r) →
  (∀ t row, task_states st !! t = Some row → ∃ row', task_states st' !! t = Some row'
      ∧ (row' = row ∨ (ts_state row = BACKLOG ∧ moved row row' ∧ ts_project_id row = project
                       ∧ reported_ready ws st project t ∧ requested task_ids t)))
  ∧ (is_ok r = true → ∀ t row, task_states st !! t = Some row → ts_project_id row = project →
      ts_state row = BACKLOG → reported_ready ws st project t → requested task_ids t →
      ∃ row', task_states st' !! t = Some row' ∧ moved row row').
Proof.
  intros Hinv%reachable_inv Happ. unfold apply_readiness_transitions in Happ.
  destruct (readiness_transition_plan ws st project task_ids now) as [ops|e] eqn:Ep.
  2: { injection Happ as <- <-. split; [eauto|done]. }
  destruct (plan_ok _ _ _ _ _ _ Hinv Ep) as [Hnd Hops].
  destruct (apply_operations_ok _ _ _ _ _ _ _ Happ Hnd) as [Hsafe Hlive]. split.
  - intros t row Hrow. destruct (Hsafe t row Hrow) as (row' & Hr' & Hc). exists row'. split; [done|].
    destruct Hc as [?|[(? & ? & row0 & ? & ? & ? & _)%Hops Hm]]; [by left|right].
    assert (row0 = row) as -> by congruence. done.
  - intros Hok t row Hrow Hproj Hst Hrep Hreq.
    apply (Hlive Hok (mkPlanned t (ts_version row)) row); [|done]. apply Hops. eauto 10.
Qed.

(** ** The completion projection *)
Definition complete_requirement (r : dict) : Prop :=
  ∃ s, dget r "implementation_state" = Some (JStr s) ∧ s ∈ COMPLETE_REQUIREMENT_STATES.
Definition accepted_requirement (r : dict) : Prop := dget r "disposition" = Some (JStr "ACCEPTED").

Lemma jeq_spec o s : jeq o s = true ↔ o = Some (JStr s).
Proof.
  destruct o as [[| | |t| |]|]; simpl; try (split; congruence).
  rewrite String.eqb_eq. split; congruence.
Qed.
Lemma jin_true o l : jin o l = Ok true ↔ ∃ s, o = Some (JStr s) ∧ s ∈ l.
Proof.
  destruct o as [[| | |t| |]|]; simpl; try (split; [discriminate|intros (? & ? & ?); congruence]).
  split; [intros [= Hs]; apply str_in_spec in Hs; eauto|].
  intros (s & [= ->] & Hs). by rewrite (proj2 (str_in_spec _ _) Hs).
Qed.
Lemma count_if_all {A} (p : A → bool) l : count_if p l = Z.of_nat (length l) ↔ ∀ x, x ∈ l → p x = true.
Proof.
  induction l as [|x l IH]; [set_solver|]. rewrite count_if_cons. simpl length.
  pose proof (count_if_le_length p l). setoid_rewrite elem_of_cons. destruct (p x) eqn:E; split; intros Hx.
  - intros y [->|Hy]; [done|]. apply IH; [lia|done].
  - rewrite (proj2 IH); [lia|auto].
  - lia.
  - rewrite (Hx x) in E by auto. done.
Qed.
(** Of terminal tasks none is active, blocked or failed. *)
Lemma all_terminal_counts rows (p : TaskStateRecord → bool) :
  count_if (λ s, is_terminal (ts_state s)) rows = Z.of_nat (length rows) →
  (∀ s, is_terminal (ts_state s) = true → p s = false) → count_if p rows = 0.
Proof. intros Hall Hp. apply count_if_zero. intros x Hx. apply Hp. by apply (proj1 (count_if_all _ _) Hall). Qed.

Lemma projection_ready_exact mode n :
  (cc_completed n = cc_total n → cc_failed n = 0 ∧ cc_blocked n = 0 ∧ cc_ordinary_active n = 0) →
  (projection_state mode n).1 = CP_READY_FOR_COMPLETION_GATE ↔
  all_work_terminal n = true ∧ all_requirements_complete n = true
  ∧ (mode = PAUSED_MODE → cc_ordinary_ready n = 0).
Proof.
  intros Hpart. unfold projection_state. split.
  - intros Hs.
    destruct (String.eqb mode PAUSED_MODE && _) eqn:E1 in Hs; [done|].
    destruct (negb (cc_failed n =? 0)); [done|].
    destruct (negb (cc_blocked n =? 0) && _ && _ && _); [done|].
    destruct (all_work_terminal n && all_requirements_complete n) eqn:E2; [|done].
    apply andb_true_iff in E2 as [??]. do 2 (split; [done|]). intros ->.
    rewrite String.eqb_refl in E1. simpl in E1. apply orb_false_iff in E1 as [_ E1].
    by apply negb_false_iff, Z.eqb_eq in E1.
  - intros (Hw & Hr & Hm). rewrite Hw, Hr. unfold all_work_terminal in Hw.
    apply andb_true_iff in Hw as [_ Hw%Z.eqb_eq]. destruct (Hpart Hw) as (-> & -> & ->). simpl.
    destruct (String.eqb_spec mode PAUSED_MODE) as [->|]; simpl; [by rewrite Hm|done].
Qed.

Lemma work_terminal_spec rows n :
  cc_total n = Z.of_nat (length rows) → cc_completed n = count_if (λ s, is_terminal (ts_state s)) rows →
  all_work_terminal n = true ↔ rows ≠ [] ∧ ∀ r, r ∈ rows → ts_state r ∈ [DONE; CANCELLED].
Proof.
  intros Ht Hc. unfold all_work_terminal. rewrite Ht, Hc, andb_true_iff, Z.ltb_lt, Z.eqb_eq, count_if_all.
  unfold is_terminal. setoid_rewrite bool_decide_eq_true. destruct rows; simpl; naive_solver lia.
Qed.
Lemma requirements_complete_spec ws complete n :
  let accepted_rows := List.filter (λ r, jeq (dget r "disposition") "ACCEPTED") (load_requirement_catalog ws) in
  traverse (λ r, jin (dget r "implementation_state") COMPLETE_REQUIREMENT_STATES) accepted_rows = Ok complete →
  cc_requirements n = Z.of_nat (length accepted_rows) → cc_req_complete n = count_if id complete →
  cc_catalog_present n = requirement_catalog_present ws →
  all_requirements_complete n = true ↔
  requirement_catalog_present ws = true
  ∧ (∃ r, r ∈ load_requirement_catalog ws ∧ accepted_requirement r)
  ∧ ∀ r, r ∈ load_requirement_catalog ws → accepted_requirement r → complete_requirement r.
Proof.
  intros accepted_rows Hcomp Hn Hc Hp. unfold all_requirements_complete.
  assert (∀ r, r ∈ accepted_rows ↔ r ∈ load_requirement_catalog ws ∧ accepted_requirement r) as Hacc.
  { intros r. unfold accepted_rows. by rewrite elem_of_List_filter, jeq_spec. }
  apply traverse_ok in Hcomp. pose proof (Forall2_length _ _ _ Hcomp) as Hlen.
  rewrite Hn, Hc, Hp, Hlen, !andb_true_iff, negb_true_iff, Z.eqb_eq, Z.eqb_neq, count_if_all.
  assert ((∀ b, b ∈ complete → id b = true) ↔ ∀ r, r ∈ accepted_rows → complete_requirement r) as ->.
  { clear -Hcomp. induction Hcomp as [|r b l k Hrb _ IH]; [set_solver|].
    assert (b = true ↔ complete_requirement r) as Hb.
    { unfold complete_requirement. rewrite <-jin_true, Hrb. split; congruence. }
    setoid_rewrite elem_of_cons. unfold id in *. naive_solver. }
  setoid_rewrite Hacc. rewrite <-Hlen.
  assert (Z.of_nat (length accepted_rows) ≠ 0 ↔ ∃ r, r ∈ load_requirement_catalog ws ∧ accepted_requirement r) as ->.
  { setoid_rewrite <-Hacc. destruct accepted_rows as [|r l]; simpl; [set_solver|].
    split; [exists r; left|lia]. }
  naive_solver.
Qed.

(** The completion projection hands over to the Completion Gate exactly
    when the project has work, all of it is terminal, the catalogue is
    present with at least one accepted requirement, every accepted
    requirement is implemented, verified or externally blocked, and, under
    the audit pause, no ordinary work is ready.  It never satisfies the gate
    itself. *)
Theorem completion_gate_handover ws st project q rs es fs p rows :
  completion_projection ws st project q rs es fs = Ok p → list_task_states st project = Ok rows →
  final_completion_gate_satisfied p = false
  ∧ (verification_eligible p = true ↔ pj_state p = CP_READY_FOR_COMPLETION_GATE)
  ∧ (pj_state p = CP_READY_FOR_COMPLETION_GATE ↔
      rows ≠ [] ∧ (∀ r, r ∈ rows → ts_state r ∈ [DONE; CANCELLED])
      ∧ requirement_catalog_present ws = true
      ∧ (∃ r, r ∈ load_requirement_catalog ws ∧ accepted_requirement r)
      ∧ (∀ r, r ∈ load_requirement_catalog ws → accepted_requirement r → complete_requirement r)
      ∧ ((selection_scope ws).1.1 = PAUSED_MODE →
         ordinary_ready_count (selection_scope ws).1.2 rs = 0)).
Proof.
  intros Hp Hrows. unfold completion_projection in Hp. rewrite Hrows in Hp. cbn [mbind result_bind] in Hp.
  destruct (selection_scope ws) as [[mode ids] fc]. apply bind_ok in Hp as (complete & Hcomp & Hp).
  apply bind_ok in Hp as (fl & _ & Hp). apply bind_ok in Hp as (es' & _ & Hp).
  apply bind_ok in Hp as (c & _ & Hp). set (n := mkCounts _ _ _ _ _ _ _ _ _ _ _ _) in Hp.
  destruct (projection_state mode n) as [verdict reasons] eqn:Ev.
  apply bind_ok in Hp as (pid & _ & Hp). apply new_ok in Hp as [-> _]. simpl.
  split; [done|]. split; [by rewrite bool_decide_eq_true|].
  change verdict with (verdict, reasons).1. rewrite <-Ev, projection_ready_exact.
  2: { simpl. intros Hall. repeat split; apply (all_terminal_counts rows _ Hall); intros r;
       unfold is_terminal, is_active; destruct (ts_state r); done. }
  rewrite (work_terminal_spec rows n), (requirements_complete_spec ws complete n) by done. tauto.
Qed.

(** ** Evaluation returns *)
Lemma control_id_new prefix parts :
  prefix ∈ ["CTRL"; "SEQ"; "SCOPE"; "COMPLETE"] → parts ≠ [] →
  Forall (λ p, str_truthy (str_strip p) = true) parts →
  ∃ i, control_identifier prefix parts = Ok i ∧ valid_prefixed_id CONTROL_ID (prefix +:+ "-") i = true.
Proof.
  intros Hp Hne Hall. eexists. split; [by apply prefixed_identifier_returns|]. by apply control_id_valid.
Qed.
Lemma CompletionProjectionState_nonblank v : str_truthy (str_strip (CompletionProjectionState_value v)) = true.
Proof. by destruct v. Qed.

Lemma completion_projection_returns ws st project q rs es fs rows complete :
  validate_identifier project PROJECT = Ok project → 0 ≤ ready_count q →
  list_task_states st project = Ok rows → traverse eligibility fs = Ok es → is_ok (new_sequencer fs) = true →
  traverse (λ r, jin (dget r "implementation_state") COMPLETE_REQUIREMENT_STATES)
    (List.filter (λ r, jeq (dget r "disposition") "ACCEPTED") (load_requirement_catalog ws)) = Ok complete →
  ∃ p c, completion_projection ws st project q rs es (Some fs) = Ok p
    ∧ summarize_control_cohorts fs es rs = Ok c ∧ cohorts p = c.
Proof.
  intros Hid Hready Hrows Hes Hs Hcomp. destruct (summarize_total fs es rs) as [c Hc].
  unfold completion_projection. rewrite Hrows. cbn [mbind result_bind].
  destruct (selection_scope ws) as [[mode ids] fc]. rewrite Hcomp. cbn [mbind result_bind].
  assert ((if bool_decide (length es = O) then (_ ← new_sequencer fs; traverse eligibility fs) else Ok es)
          = Ok es) as ->.
  { case_bool_decide; [|done]. destruct (new_sequencer fs); [|done]. simpl. done. }
  cbn [mbind result_bind]. rewrite Hc. cbn [mbind result_bind].
  set (n := mkCounts _ _ _ _ _ _ _ _ _ _ _ _).
  destruct (projection_state mode n) as [verdict reasons].
  destruct (control_id_new "COMPLETE" [project; str_of_Z (cc_total n); str_of_Z (cc_completed n);
    str_of_Z (cc_req_complete n); CompletionProjectionState_value verdict]) as (pid & -> & Hpid); [|done|..].
  { do 3 right. left. }
  { repeat constructor; try apply str_of_Z_nonblank; [|apply CompletionProjectionState_nonblank].
    apply (identifier_nonblank _ PROJECT). by rewrite Hid. }
  cbn [mbind result_bind]. do 2 eexists. split; [apply new_valid|done].
  change ("COMPLETE" +:+ "-") with "COMPLETE-" in Hpid.
  unfold validate, CompletionProjection_model.
  cbn [projection_id pj_project_id pj_state final_completion_gate_satisfied verification_eligible].
  rewrite Hpid, Hid.
  rewrite Bool.eqb_reflx. cbn [negb raise_if mbind result_bind].
  rewrite (proj2 (for_each_ok _ _ ())); [done|]. intros z Hz. apply raise_if_ok, Z.ltb_ge. simpl in Hz.
  repeat (apply elem_of_cons in Hz as [->|Hz]; [first [apply count_if_nonneg|simpl; lia]|]).
  by apply elem_of_nil in Hz.
Qed.

(** An evaluation whose inputs are readable always completes: if the
    facts, the work graph, the scope report and the requirement states can be
    read, [evaluate] returns a snapshot.  The cohort assertion inside it never
    fires, the snapshot lists one readiness result per fact, and its sequence
    lists exactly the tasks that may start. *)
Theorem evaluate_returns ws st project now fs s scope_ complete :
  task_facts ws st project = Ok fs → new_sequencer fs = Ok s →
  scope_reconciliation ws project = Ok scope_ →
  traverse (λ r, jin (dget r "implementation_state") COMPLETE_REQUIREMENT_STATES)
    (List.filter (λ r, jeq (dget r "disposition") "ACCEPTED") (load_requirement_catalog ws)) = Ok complete →
  validate_identifier project PROJECT = Ok project →
  ∃ snap, evaluate ws st project now = Ok snap
    ∧ rd_task_id <$> readiness_results snap = task_id <$> fs
    ∧ sequence_reports s (sequence snap)
    ∧ assert_cohort_invariants fs (eligibility_results snap) (readiness_results snap)
        (cohorts (completion snap)) = Ok ().
Proof.
  intros Hfs Hs Hsc Hcomp Hid. destruct (task_facts_ok _ _ _ _ Hfs) as (rows & Hrows & Hv).
  assert (Forall (λ f, validate f = Ok ()) fs) as Hval.
  { apply Forall_forall. intros f Hf. by apply Hv. }
  destruct (new_sequencer_facts fs s Hs Hval) as (Hok & Hvf & Hin).
  destruct (build_sequence_ok s now Hok Hvf (project_id_valid fs s Hs Hval)) as (q & Hq & Hqr).
  destruct (traverse_total eligibility (λ _ _, True) fs) as (es & Hes & _).
  { intros f Hf. destruct (eligibility_ok f) as (e & ? & _); [by apply Hv|eauto]. }
  destruct (traverse_total (readiness s) (λ f r, rd_task_id r = task_id f) fs) as (rs & Hrs & Hids).
  { intros f Hf. destruct (readiness_ok s f Hok) as (r & ? & Hr); [by apply Hin|by apply Hv|].
    exists r. split; [done|apply Hr]. }
  destruct (completion_projection_returns ws st project q rs es fs rows complete)
    as (p & c & Hp & Hc & Hpc); [done| |done|done|by rewrite Hs|done|].
  { rewrite (sq_ready_count _ _ Hqr). lia. }
  destruct (cohort_check s fs es rs c Hes Hrs Hc) as [Hassert _].
  unfold evaluate. rewrite Hfs. cbn [mbind result_bind]. rewrite Hs. cbn [mbind result_bind].
  rewrite Hq. cbn [mbind result_bind]. rewrite Hes. cbn [mbind result_bind].
  rewrite Hrs. cbn [mbind result_bind]. rewrite Hsc. cbn [mbind result_bind].
  rewrite Hp. cbn [mbind result_bind]. rewrite Hpc, Hassert. cbn [mbind result_bind].
  set (fp := json_fingerprint _).
  destruct (control_id_new "CTRL" [project; fp]) as (cid & -> & Hcid); [left|done|..].
  { repeat constructor; [|apply hexdigest_nonblank]. apply (identifier_nonblank _ PROJECT). by rewrite Hid. }
  cbn [mbind result_bind]. eexists. split; [apply new_valid|].
  - change ("CTRL" +:+ "-") with "CTRL-" in Hcid.
    unfold validate, ControlSnapshot_model. cbn [snapshot_id cs_project_id snapshot_fingerprint].
    rewrite Hcid, Hid. cbn [negb raise_if mbind result_bind]. by rewrite (json_fingerprint_hex _ : is_hex64 fp = true).
  - simpl. rewrite Hpc. split; [|done]. symmetry. apply Forall2_fmap_eq.
    eapply Forall2_impl; [exact Hids|]. by intros ??.
Qed.
End loop.

(** ** A concrete evaluation *)
Definition demo_workspace : Workspace :=
  mkWorkspace (λ _, true)
    [[("local_id", JStr "PP-TASK-000001"); ("issue_type", JStr "TASK");
      ("risk_classification", JStr "LOW"); ("requirement_ids", JList [JStr "REQ-CORE-0001"]);
      ("state", JStr "BACKLOG"); ("implementation_state", JStr "PLANNED_ONLY")]]
    [[("requirement_id", JStr "REQ-CORE-0001"); ("disposition", JStr "ACCEPTED");
      ("implementation_state", JStr "PLANNED_ONLY"); ("jira_ids", JList [JStr "PP-TASK-000001"])]]
    true
    [("control_selection", JObj
        [("mode", JStr "PRODUCT_OUTCOME_CRITICAL_PATH_ONLY");
         ("allowed_issue_ids", JList [JStr "PP-TASK-000001"])])]
    None.
Definition demo_apply : store * result (list TaskStateRecord) :=
  apply_readiness_transitions demo_workspace "PROJECT-DEMO" "kernel" "corr-1" None 5 [6] demo_store.

Example demo_apply_moves :
  (λ r, (ts_state r, ts_version r)) <$> task_states demo_apply.1 !! "PP-TASK-000001" = Some (READY, 2)
  ∧ is_ok demo_apply.2 = true.
Proof. split; by vm_compute. Qed.

Lemma demo_store_reachable : reachable demo_store.
Proof.
  assert (Forall (λ t, validate t = Ok ()) [demo_task]) as Hv by (by repeat constructor).
  exact (reach_step (put_project_manifest demo_manifest empty_store).1 _
    (reach_step empty_store _ reach_empty (step_manifest empty_store demo_manifest))
    (step_tasks _ [demo_task] Hv)).
Qed.

Definition demo_loop_facts : list TaskControlFact :=
  Eval vm_compute in match task_facts demo_workspace demo_store "PROJECT-DEMO" with Ok l => l | _ => [] end.
Definition demo_loop_sequencer : BuildSequencer :=
  Eval vm_compute in match new_sequencer demo_loop_facts with Ok s => s | _ => demo_sequencer end.
Lemma demo_reported : reported_ready demo_workspace demo_store "PROJECT-DEMO" "PP-TASK-000001".
Proof.
  exists demo_loop_facts, demo_loop_sequencer, (hd (demo_fact "" DONE [] None) demo_loop_facts).
  split; [by vm_compute|]. split; [by vm_compute|]. split; [left|]. split; [done|].
  split; [split; try done; simpl; set_solver|by split|simpl; set_solver|simpl; set_solver].
Qed.
Lemma readiness_transitions_exact_witness :
  ∃ row', task_states demo_apply.1 !! "PP-TASK-000001" = Some row' ∧ moved demo_task row'.
Proof.
  refine (proj2 (readiness_transitions_exact demo_workspace "PROJECT-DEMO" "kernel" "corr-1" None 5 [6]
    demo_store demo_apply.1 demo_apply.2 demo_store_reachable (surjective_pairing demo_apply))
    (proj2 demo_apply_moves) "PP-TASK-000001" demo_task eq_refl eq_refl eq_refl demo_reported I).
Defined.

Definition demo_scope : ScopeReconciliationReport :=
  Eval vm_compute in match scope_reconciliation demo_workspace "PROJECT-DEMO" with
                     | Ok r => r | _ => mkScopeReport "" "" 0 0 [] "" end.

Lemma evaluate_returns_witness :
  ∃ snap, evaluate demo_workspace demo_store "PROJECT-DEMO" 5 = Ok snap
    ∧ rd_task_id <$> readiness_results snap = task_id <$> demo_loop_facts
    ∧ sequence_reports demo_loop_sequencer (sequence snap)
    ∧ assert_cohort_invariants demo_loop_facts (eligibility_results snap) (readiness_results snap)
        (cohorts (completion snap)) = Ok ().
Proof.
  apply (evaluate_returns demo_workspace demo_store "PROJECT-DEMO" 5 demo_loop_facts
    demo_loop_sequencer demo_scope [false]); by vm_compute.
Defined.

Definition demo_sequence : BuildSequence :=
  mkSequence "" "PROJECT-DEMO" "" 0 0 0 0 0 (mkCriticalPath [] 0 DS_EMPTY ∅ ∅) [] 0.
Definition demo_projection : CompletionProjection :=
  Eval vm_compute in
    match completion_projection demo_workspace demo_store "PROJECT-DEMO" demo_sequence [] []
            (Some demo_loop_facts) with
    | Ok p => p
    | _ => mkProjection "" "" CP_FAILED 0 0 0 0 0 0 0 0 false true [] (mkCohorts 0 0 0 0 0 0 0 0 0 0 0 0 0)
    end.
Lemma completion_gate_handover_witness :
  final_completion_gate_satisfied demo_projection = false.
Proof.
  refine (proj1 (completion_gate_handover demo_workspace demo_store "PROJECT-DEMO" demo_sequence [] []
    (Some demo_loop_facts) demo_projection [demo_task] _ _)); by vm_compute.
Defined.
