(* ===== verification/SchedulerDomain.v ===== *)
(** * SchedulerDomain: [domain/scheduler.py]

    Resource claims, task profiles, pools, leases, backpressure records and
    plans of the lane scheduler, with their validators.  Observation of the
    local host ([local_resource_pools]) is not modelled. *)
From S2P Require Import Prelude PyStd PyRe PyJson Identifiers TaskState ControlDomain.
From Stdlib Require Import Ascii.
Local Open Scope Z_scope.

Inductive ResourceType :=
  | RT_PATH | RT_SYMBOL | RT_MODULE | RT_DATABASE | RT_SCHEMA | RT_API_CONTRACT | RT_CONFIGURATION
  | RT_INFRASTRUCTURE | RT_DOCKER | RT_ENVIRONMENT | RT_RELEASE | RT_FIXTURE | RT_SERVICE | RT_PORT
  | RT_GPU | RT_GPU_MEMORY_MB | RT_CPU_SLOT | RT_MEMORY_MB | RT_DISK_MB | RT_NETWORK_SLOT
  | RT_PROCESS_SLOT | RT_CONCURRENCY_SLOT | RT_PROVIDER_SLOT | RT_REVIEW_SLOT.
#[export] Instance ResourceType_eq_dec : EqDecision ResourceType.
Proof. solve_decision. Defined.
Definition ResourceType_value (t : ResourceType) : string :=
  match t with
  | RT_PATH => "PATH" | RT_SYMBOL => "SYMBOL" | RT_MODULE => "MODULE" | RT_DATABASE => "DATABASE"
  | RT_SCHEMA => "SCHEMA" | RT_API_CONTRACT => "API_CONTRACT" | RT_CONFIGURATION => "CONFIGURATION"
  | RT_INFRASTRUCTURE => "INFRASTRUCTURE" | RT_DOCKER => "DOCKER" | RT_ENVIRONMENT => "ENVIRONMENT"
  | RT_RELEASE => "RELEASE" | RT_FIXTURE => "FIXTURE" | RT_SERVICE => "SERVICE" | RT_PORT => "PORT"
  | RT_GPU => "GPU" | RT_GPU_MEMORY_MB => "GPU_MEMORY_MB" | RT_CPU_SLOT => "CPU_SLOT"
  | RT_MEMORY_MB => "MEMORY_MB" | RT_DISK_MB => "DISK_MB" | RT_NETWORK_SLOT => "NETWORK_SLOT"
  | RT_PROCESS_SLOT => "PROCESS_SLOT" | RT_CONCURRENCY_SLOT => "CONCURRENCY_SLOT"
  | RT_PROVIDER_SLOT => "PROVIDER_SLOT" | RT_REVIEW_SLOT => "REVIEW_SLOT"
  end.
Inductive AccessMode := SHARED | EXCLUSIVE.
#[export] Instance AccessMode_eq_dec : EqDecision AccessMode.
Proof. solve_decision. Defined.
Definition AccessMode_value (m : AccessMode) : string :=
  match m with SHARED => "SHARED" | EXCLUSIVE => "EXCLUSIVE" end.
Inductive BackpressureMode := BP_NORMAL | BP_CONGESTED | BP_BROWNOUT | BP_HALT_NEW_WORK.
#[export] Instance BackpressureMode_eq_dec : EqDecision BackpressureMode.
Proof. solve_decision. Defined.
Definition BackpressureMode_value (m : BackpressureMode) : string :=
  match m with
  | BP_NORMAL => "NORMAL" | BP_CONGESTED => "CONGESTED" | BP_BROWNOUT => "BROWNOUT"
  | BP_HALT_NEW_WORK => "HALT_NEW_WORK" end.
Inductive AdmissionState :=
  | AD_ADMITTED | AD_CONFLICT | AD_CAPACITY_EXHAUSTED | AD_LEASE_UNAVAILABLE | AD_BACKPRESSURE
  | AD_POLICY_DENIED | AD_WORKSPACE_UNSAFE.
#[export] Instance AdmissionState_eq_dec : EqDecision AdmissionState.
Proof. solve_decision. Defined.

(** ** Resource claims *)
Record ResourceClaim := mkClaim {
  resource_key : string;
  resource_type : ResourceType;
  access_mode : AccessMode;
  quantity : Z;
  cl_machine_id : option string;
  purpose : option string;
}.
#[export] Instance ResourceClaim_eq_dec : EqDecision ResourceClaim.
Proof. solve_decision. Defined.

Definition is_slash (c : ascii) : bool := Ascii.eqb c "/".
Definition is_nul (c : ascii) : bool := Ascii.eqb c (ascii_of_nat 0).
(** [re.match(r"^[A-Za-z]:/", value)]. *)
Definition drive_prefixed (s : string) : bool :=
  match s with String c (String ":" (String "/" _)) => is_alpha c | _ => false end.
(** [re.sub(r"/+", "/", value)]. *)
Fixpoint squeeze_slashes (after_slash : bool) (s : string) : string :=
  match s with
  | EmptyString => EmptyString
  | String c s =>
      if is_slash c then (if after_slash then squeeze_slashes true s else String c (squeeze_slashes true s))
      else String c (squeeze_slashes false s)
  end.
Definition normalize_resource_key (raw : string) : result string :=
  let v := str_replace_char (ascii_of_nat 92) "/" (str_strip raw) in
  _ ← raise_if (negb (str_truthy v) || negb (str_forall (λ c, negb (is_nul c)) v)) ValueError
        "resource key must be non-empty and contain no NUL bytes";
  _ ← raise_if (str_startswith "/" v || drive_prefixed v) ValueError
        "resource keys must be logical or repository-relative, not absolute paths";
  _ ← raise_if (str_in ".." (str_split "/" v)) ValueError "resource keys cannot escape their logical root";
  let k := str_rstrip is_slash (squeeze_slashes false v) in
  Ok (if str_truthy k then k else ".").

(** Construction normalises the key after the field bounds are checked. *)
Definition new_claim (raw : string) (t : ResourceType) (m : AccessMode) (q : Z)
    (machine purpose_ : option string) : result ResourceClaim :=
  _ ← raise_if (negb (min_length 1 raw && max_length 512 raw)) ValidationError "resource_key";
  key ← normalize_resource_key raw;
  _ ← raise_if (negb ((1 <=? q) && (q <=? 10000000))) ValidationError "quantity";
  _ ← raise_if (negb (opt_all (max_length 191) machine)) ValidationError "machine_id";
  _ ← raise_if (negb (opt_all (max_length 1000) purpose_)) ValidationError "purpose";
  Ok (mkClaim key t m q machine purpose_).

Definition overlaps (a b : ResourceClaim) : bool :=
  if bool_decide (resource_type a = RT_PATH) && bool_decide (resource_type b = RT_PATH) then
    let left := resource_key a in let right := resource_key b in
    String.eqb left right || str_startswith (right +:+ "/") left || str_startswith (left +:+ "/") right
  else String.eqb (resource_key a) (resource_key b).
Definition conflicts_with (a b : ResourceClaim) : bool :=
  overlaps a b && (bool_decide (access_mode a = EXCLUSIVE) || bool_decide (access_mode b = EXCLUSIVE)).

Lemma conflicts_sym a b : conflicts_with a b = conflicts_with b a.
Proof.
  unfold conflicts_with, overlaps.
  rewrite (orb_comm (bool_decide (access_mode a = EXCLUSIVE))), (String.eqb_sym (resource_key a)). f_equal.
  destruct (bool_decide (resource_type a = RT_PATH)), (bool_decide (resource_type b = RT_PATH)); simpl; try done.
  by rewrite <-!orb_assoc, (orb_comm (str_startswith (resource_key b +:+ "/") _)).
Qed.

(** ** Profiles, pools and leases *)
Record SchedulerTaskProfile := mkProfile {
  pr_task_id : string;
  pr_project_id : string;
  sequence_rank : Z;
  utility_score : Z;
  pr_priority : string;
  pr_critical_path : bool;
  claims : list ResourceClaim;
  pr_owner_id : option string;
  workspace_isolated : bool;
  pr_policy_eligible : bool;
  productive_idle : bool;
  protected_capacity_consumption : bool;
}.
Definition claim_identity (c : ResourceClaim) : string * string * string :=
  (ResourceType_value (resource_type c), resource_key c, AccessMode_value (access_mode c)).
#[export] Instance SchedulerTaskProfile_model : Model SchedulerTaskProfile := λ p,
  _ ← validate_identifier (pr_task_id p) ISSUE;
  _ ← validate_identifier (pr_project_id p) PROJECT;
  _ ← raise_if (sequence_rank p <? 1) ValidationError "sequence_rank";
  _ ← raise_if (utility_score p <? 0) ValidationError "utility_score";
  _ ← raise_if (negb (fullmatch PRIORITY (pr_priority p))) ValidationError "priority";
  _ ← raise_if (negb (opt_all (max_length 191) (pr_owner_id p))) ValidationError "owner_id";
  raise_if (has_duplicates (claim_identity <$> claims p)) ValueError
    "scheduler task profile contains duplicate resource claims".

Record ResourcePool := mkPool {
  pl_resource_key : string;
  pl_resource_type : ResourceType;
  capacity_units : Z;
  reserved_units : Z;
  pl_machine_id : option string;
  observed : bool;
}.
#[export] Instance ResourcePool_eq_dec : EqDecision ResourcePool.
Proof. solve_decision. Defined.
#[export] Instance ResourcePool_model : Model ResourcePool := λ p,
  _ ← raise_if (negb (min_length 1 (pl_resource_key p) && max_length 512 (pl_resource_key p)))
        ValidationError "resource_key";
  _ ← raise_if (capacity_units p <? 1) ValidationError "capacity_units";
  _ ← raise_if (reserved_units p <? 0) ValidationError "reserved_units";
  _ ← raise_if (negb (opt_all (max_length 191) (pl_machine_id p))) ValidationError "machine_id";
  raise_if (capacity_units p <=? reserved_units p) ValueError
    "resource reserve must leave at least one allocatable unit".
Definition allocatable_units (p : ResourcePool) : Z := capacity_units p - reserved_units p.

Record ResourceLease := mkLease {
  lease_id : string;
  ls_task_id : string;
  holder_id : string;
  claim : ResourceClaim;
  fencing_token : Z;
  acquired_at_utc : Z;
  expires_at_utc : Z;
  renewed_at_utc : option Z;
  released_at_utc : option Z;
}.
#[export] Instance ResourceLease_eq_dec : EqDecision ResourceLease.
Proof. solve_decision. Defined.
#[export] Instance ResourceLease_model : Model ResourceLease := λ l,
  _ ← raise_if (negb (valid_prefixed_id SCHEDULER_ID "LEASE-" (lease_id l))) ValueError
        ("invalid resource lease identifier: " +:+ lease_id l);
  _ ← validate_identifier (ls_task_id l) ISSUE;
  _ ← raise_if (negb (min_length 1 (holder_id l) && max_length 191 (holder_id l))) ValidationError
        "holder_id";
  _ ← raise_if (fencing_token l <? 1) ValidationError "fencing_token";
  _ ← raise_if (expires_at_utc l <=? acquired_at_utc l) ValueError
        "lease expiry must be later than acquisition";
  _ ← raise_if (negb (opt_all (λ t, acquired_at_utc l <=? t) (renewed_at_utc l))) ValueError
        "lease renewal cannot precede acquisition";
  raise_if (negb (opt_all (λ t, acquired_at_utc l <=? t) (released_at_utc l))) ValueError
    "lease release cannot precede acquisition".
Definition active_at (l : ResourceLease) (when : Z) : bool :=
  bool_decide (released_at_utc l = None) && (when <? expires_at_utc l).

Definition lease_expiry (now ttl_seconds : Z) : result Z :=
  _ ← raise_if (ttl_seconds <=? 0) ValueError "lease TTL must be positive";
  Ok (now + ttl_seconds * 1000000).

Record ResourceRegistrySnapshot := mkRegistry {
  registry_id : string;
  pools : list ResourcePool;
  registry_leases : list ResourceLease;
  observed_at_utc : Z;
}.
#[export] Instance ResourceRegistrySnapshot_model : Model ResourceRegistrySnapshot := λ r,
  _ ← raise_if (negb (is_hex64 (registry_id r))) ValidationError "registry_id";
  raise_if (has_duplicates (pl_resource_key <$> pools r)) ValueError
    "resource registry contains duplicate pool keys".

(** [model_dump(mode="json")]: UTC instants end in [Z]. *)
Definition json_instant (us : Z) : json :=
  let iso := isoformat us in JStr (str_take (String.length iso - 6) iso +:+ "Z").
Definition json_opt_instant (o : option Z) : json :=
  match o with Some us => json_instant us | None => JNull end.
Definition claim_json (c : ResourceClaim) : json :=
  JObj [("schema_version", JStr "1.0.0"); ("resource_key", JStr (resource_key c));
        ("resource_type", JStr (ResourceType_value (resource_type c)));
        ("access_mode", JStr (AccessMode_value (access_mode c))); ("quantity", JInt (quantity c));
        ("machine_id", JOptStr (cl_machine_id c)); ("purpose", JOptStr (purpose c))].
Definition pool_json (p : ResourcePool) : json :=
  JObj [("schema_version", JStr "1.0.0"); ("resource_key", JStr (pl_resource_key p));
        ("resource_type", JStr (ResourceType_value (pl_resource_type p)));
        ("capacity_units", JInt (capacity_units p)); ("reserved_units", JInt (reserved_units p));
        ("machine_id", JOptStr (pl_machine_id p)); ("observed", JBool (observed p))].
Definition lease_json (l : ResourceLease) : json :=
  JObj [("schema_version", JStr "1.0.0"); ("lease_id", JStr (lease_id l)); ("task_id", JStr (ls_task_id l));
        ("holder_id", JStr (holder_id l)); ("claim", claim_json (claim l));
        ("fencing_token", JInt (fencing_token l)); ("acquired_at_utc", json_instant (acquired_at_utc l));
        ("expires_at_utc", json_instant (expires_at_utc l));
        ("renewed_at_utc", json_opt_instant (renewed_at_utc l));
        ("released_at_utc", json_opt_instant (released_at_utc l))].
Definition create_registry (pools_ : list ResourcePool) (leases : list ResourceLease) (now : Z)
  : result ResourceRegistrySnapshot :=
  let ps := sorted_by pl_resource_key pools_ in
  let ls := sorted_by lease_id leases in
  new (mkRegistry (json_fingerprint (JObj [("pools", JList (pool_json <$> ps));
                                           ("active_leases", JList (lease_json <$> ls))])) ps ls now).

(** ** Backpressure *)
Record BackpressureSignals := mkSignals {
  queue_depth : Z;
  scheduler_queue_lag_seconds : PyFloat.float;
  memory_used_percent : option PyFloat.float;
  disk_free_percent : option PyFloat.float;
  outbox_depth : Z;
  verification_queue_depth : Z;
  retry_storm_count : Z;
}.
Record BackpressurePolicy := mkPolicy {
  congested_queue_depth : Z;
  brownout_queue_depth : Z;
  halt_queue_depth : Z;
  congested_lag_seconds : PyFloat.float;
  brownout_lag_seconds : PyFloat.float;
  memory_brownout_percent : PyFloat.float;
  memory_halt_percent : PyFloat.float;
  disk_brownout_free_percent : PyFloat.float;
  disk_halt_free_percent : PyFloat.float;
  retry_storm_brownout_count : Z;
  congested_lane_fraction : PyFloat.float;
}.
Definition default_policy : BackpressurePolicy :=
  mkPolicy 50 200 1000 (PyFloat.of_Z 30) (PyFloat.of_Z 120) (PyFloat.of_Z 90) (PyFloat.of_Z 97)
    (PyFloat.of_Z 10) (PyFloat.of_Z 3) 8 (PyFloat.truediv 1 2).
#[export] Instance BackpressurePolicy_model : Model BackpressurePolicy := λ p,
  _ ← raise_if ((congested_queue_depth p <? 1) || (brownout_queue_depth p <? 1)
                || (halt_queue_depth p <? 1) || (retry_storm_brownout_count p <? 1))
        ValidationError "greater_than_equal";
  _ ← raise_if (negb (forallb (PyFloat.leb (PyFloat.of_Z 0))
                        [congested_lag_seconds p; brownout_lag_seconds p;
                         disk_brownout_free_percent p; disk_halt_free_percent p]))
        ValidationError "greater_than_equal";
  _ ← raise_if (negb (forallb (λ x, PyFloat.leb (PyFloat.of_Z 1) x && PyFloat.leb x (PyFloat.of_Z 100))
                        [memory_brownout_percent p; memory_halt_percent p]))
        ValidationError "percent";
  _ ← raise_if (negb (forallb (λ x, PyFloat.leb x (PyFloat.of_Z 100))
                        [disk_brownout_free_percent p; disk_halt_free_percent p]))
        ValidationError "less_than_equal";
  _ ← raise_if (negb (PyFloat.ltb (PyFloat.of_Z 0) (congested_lane_fraction p)
                      && PyFloat.leb (congested_lane_fraction p) (PyFloat.of_Z 1)))
        ValidationError "congested_lane_fraction";
  _ ← raise_if (negb ((congested_queue_depth p <? brownout_queue_depth p)
                      && (brownout_queue_depth p <? halt_queue_depth p)))
        ValueError "queue backpressure thresholds must be strictly increasing";
  _ ← raise_if (PyFloat.leb (memory_halt_percent p) (memory_brownout_percent p))
        ValueError "memory brownout threshold must be below halt threshold";
  raise_if (PyFloat.leb (disk_brownout_free_percent p) (disk_halt_free_percent p))
    ValueError "disk halt threshold must be below brownout free-space threshold".
Record BackpressureDecision := mkBackpressure {
  bp_mode : BackpressureMode;
  lane_fraction : PyFloat.float;
  admit_new_work : bool;
  bp_reasons : list string;
}.

#[export] Instance BackpressureDecision_model : Model BackpressureDecision := λ d,
  raise_if (negb (PyFloat.leb (PyFloat.of_Z 0) (lane_fraction d)
                  && PyFloat.leb (lane_fraction d) (PyFloat.of_Z 1))) ValidationError "lane_fraction".

(** ** Plans *)
Record ConflictEdge := mkConflict { left_task_id : string; right_task_id : string; cf_reasons : list string }.
#[export] Instance ConflictEdge_model : Model ConflictEdge := λ e,
  _ ← validate_identifier (left_task_id e) ISSUE;
  _ ← validate_identifier (right_task_id e) ISSUE;
  _ ← raise_if (pyleb (right_task_id e) (left_task_id e)) ValueError
        "conflict edges must use stable ascending task ordering";
  raise_if (bool_decide (cf_reasons e = [])) ValueError "conflict edges require at least one reason".

Record AdmissionDecision := mkAdmission {
  ad_task_id : string; ad_state : AdmissionState; ad_admitted : bool; ad_reasons : list string }.
#[export] Instance AdmissionDecision_model : Model AdmissionDecision := λ a,
  _ ← validate_identifier (ad_task_id a) ISSUE;
  _ ← raise_if (negb (Bool.eqb (ad_admitted a) (bool_decide (ad_state a = AD_ADMITTED)))) ValueError
        "admission boolean must agree with admission state";
  raise_if (negb (ad_admitted a) && bool_decide (ad_reasons a = [])) ValueError
    "rejected admission requires at least one reason".

Record LaneAssignment := mkLane {
  lane_id : string; ln_task_id : string; ln_rank : Z; ln_utility_score : Z; ln_claims : list ResourceClaim }.
#[export] Instance LaneAssignment_model : Model LaneAssignment := λ l,
  _ ← raise_if (negb (valid_prefixed_id SCHEDULER_ID "LANE-" (lane_id l))) ValueError
        ("invalid lane identifier: " +:+ lane_id l);
  _ ← validate_identifier (ln_task_id l) ISSUE;
  raise_if ((ln_rank l <? 1) || (ln_utility_score l <? 0)) ValidationError "lane".

Inductive SelectionMethod := EXACT_BOUNDED | DETERMINISTIC_GREEDY | ORTOOLS_CP_SAT.
#[export] Instance SelectionMethod_eq_dec : EqDecision SelectionMethod.
Proof. solve_decision. Defined.
Record SchedulerPlan := mkPlan {
  plan_id : string;
  pn_project_id : string;
  control_snapshot_id : string;
  pn_registry_id : string;
  backpressure : BackpressureDecision;
  selection_method : SelectionMethod;
  candidate_count : Z;
  lane_limit : Z;
  lanes : list LaneAssignment;
  conflicts : list ConflictEdge;
  admissions : list AdmissionDecision;
  pn_generated_at_utc : Z;
}.
#[export] Instance SchedulerPlan_model : Model SchedulerPlan := λ p,
  _ ← raise_if (negb (valid_prefixed_id SCHEDULER_ID "SCHED-" (plan_id p))) ValueError
        ("invalid scheduler plan identifier: " +:+ plan_id p);
  _ ← validate_identifier (pn_project_id p) PROJECT;
  _ ← raise_if (negb (is_hex64 (pn_registry_id p))) ValidationError "registry_id";
  _ ← raise_if ((candidate_count p <? 0) || (lane_limit p <? 0)) ValidationError "count";
  _ ← raise_if (has_duplicates (ln_task_id <$> lanes p)) ValueError
        "scheduler plan cannot select a task more than once";
  raise_if (lane_limit p <? Z.of_nat (length (lanes p))) ValueError "scheduler plan exceeds lane limit".

Record LeaseBundle := mkBundle {
  lb_task_id : string; lb_holder_id : string; leases : list ResourceLease; acquired : bool;
  lb_reasons : list string }.
#[export] Instance LeaseBundle_model : Model LeaseBundle := λ b,
  _ ← validate_identifier (lb_task_id b) ISSUE;
  _ ← raise_if (acquired b && bool_decide (leases b = [])) ValueError
        "acquired lease bundle must contain leases";
  raise_if (negb (acquired b) && bool_decide (lb_reasons b = [])) ValueError
    "failed lease bundle must include reasons".

Record SchedulerSimulationResult := mkSimulation {
  simulation_id : string; scenario_name : string; sm_plan : SchedulerPlan;
  expected_lane_count : option Z; assertions_passed : bool; sm_findings : list string }.
#[export] Instance SchedulerSimulationResult_model : Model SchedulerSimulationResult := λ s,
  _ ← raise_if (negb (valid_prefixed_id SCHEDULER_ID "SIM-" (simulation_id s))) ValueError
        ("invalid scheduler simulation identifier: " +:+ simulation_id s);
  _ ← raise_if (negb (min_length 1 (scenario_name s) && max_length 191 (scenario_name s)))
        ValidationError "scenario_name";
  raise_if (negb (opt_all (λ n, 0 <=? n) (expected_lane_count s))) ValidationError "expected_lane_count".
