(* ===== verification/LeaseStore.v ===== *)
(** * LeaseStore: [scheduler/persistence.py], fenced resource leases

    [SchedulerStore] keeps resource pools, one fencing counter per resource
    key and the lease rows.  [acquire_bundle] runs in one [BEGIN IMMEDIATE]
    transaction; renewals and releases are single updates.  Rows hold the
    JSON of their record, so reading one rebuilds it: the validators run
    again, and the claim's key is normalised again.

    The expiry column is compared as ISO text.  All instants are UTC, and a
    fraction that is left out because it is zero puts a plus sign where the
    others have a dot, which sorts before it: the order of the texts is the
    order of the instants, used here.  Instants are microseconds as integers;
    the year 9999 limit of [datetime] is not modelled. *)
From S2P Require Import Prelude PyStd PyRe PyJson Identifiers TaskState ControlDomain SchedulerDomain.
Local Open Scope Z_scope.

Record lease_store := mkLeaseStore {
  resource_pools : gmap string ResourcePool;
  fencing_tokens : gmap string Z;
  resource_leases : gmap string ResourceLease;
  scheduler_plans : gmap string SchedulerPlan;
  scheduler_simulations : gmap string SchedulerSimulationResult;
}.
Definition empty_lease_store : lease_store := mkLeaseStore ∅ ∅ ∅ ∅ ∅.
Definition with_leases (st : lease_store) (ls : gmap string ResourceLease) : lease_store :=
  mkLeaseStore (resource_pools st) (fencing_tokens st) ls (scheduler_plans st) (scheduler_simulations st).

(** ** Reading rows *)
Definition reload_claim (c : ResourceClaim) : result ResourceClaim :=
  new_claim (resource_key c) (resource_type c) (access_mode c) (quantity c) (cl_machine_id c) (purpose c).
Definition reload_lease (l : ResourceLease) : result ResourceLease :=
  c ← reload_claim (claim l);
  new (mkLease (lease_id l) (ls_task_id l) (holder_id l) c (fencing_token l) (acquired_at_utc l)
         (expires_at_utc l) (renewed_at_utc l) (released_at_utc l)).

Definition register_pools (ps : list ResourcePool) (st : lease_store) : lease_store :=
  mkLeaseStore (foldl (λ m p, <[pl_resource_key p := p]> m) (resource_pools st) ps)
    (fencing_tokens st) (resource_leases st) (scheduler_plans st) (scheduler_simulations st).
Definition list_pools (st : lease_store) : result (list ResourcePool) :=
  traverse new (snd <$> sorted_by fst (map_to_list (resource_pools st))).

Definition lease_order (l : ResourceLease) : string * (Z * string) :=
  (resource_key (claim l), (fencing_token l, lease_id l)).
Definition active_lease_rows (st : lease_store) (when : Z) : list ResourceLease :=
  sorted_by lease_order
    (List.filter (λ l, active_at l when) (snd <$> map_to_list (resource_leases st))).
Definition list_active_leases (st : lease_store) (when : Z) : result (list ResourceLease) :=
  traverse reload_lease (active_lease_rows st when).

(** [local] is what the host observation returns. *)
Definition registry_snapshot (local : list ResourcePool) (when : Z) (st : lease_store)
  : lease_store * result ResourceRegistrySnapshot :=
  match list_pools st with
  | Raise e => (st, Raise e)
  | Ok ps =>
      let st' := if bool_decide (length ps = O) then register_pools local st else st in
      let ps' := if bool_decide (length ps = O) then local else ps in
      (st', ls ← list_active_leases st' when; create_registry ps' ls when)
  end.

(** ** Acquisition *)
Definition next_fencing_token (st : lease_store) (key : string) : Z * lease_store :=
  let token := match fencing_tokens st !! key with Some t => t + 1 | None => 1 end in
  (token, mkLeaseStore (resource_pools st) (<[key := token]> (fencing_tokens st))
            (resource_leases st) (scheduler_plans st) (scheduler_simulations st)).
Definition insert_lease (st : lease_store) (l : ResourceLease) : result lease_store :=
  _ ← raise_if (bool_decide (resource_leases st !! lease_id l ≠ None)) IntegrityError
        "UNIQUE constraint failed: scheduler_resource_leases.lease_id";
  Ok (with_leases st (<[lease_id l := l]> (resource_leases st))).

(** The quantity of a pool key that some leases take. *)
Definition lease_usage (key : string) (ls : list ResourceLease) : Z :=
  Z_sum ((λ l, if String.eqb (resource_key (claim l)) key then quantity (claim l) else 0) <$> ls).

(** Why one claim cannot be granted next to [taken], if it cannot. *)
Definition refusal (pools_ : gmap string ResourcePool) (taken : list ResourceLease) (c : ResourceClaim)
  : option string :=
  match pools_ !! resource_key c with
  | Some pool =>
      let used := lease_usage (resource_key c) taken in
      if allocatable_units pool <? used + quantity c then
        Some ("capacity:" +:+ resource_key c +:+ ":" +:+ str_of_Z (quantity c) +:+ ">"
              +:+ str_of_Z (Z.max 0 (allocatable_units pool - used)))
      else None
  | None =>
      match List.find (λ l, conflicts_with c (claim l)) taken with
      | Some l => Some ("lease:" +:+ resource_key c +:+ ":held_by:" +:+ holder_id l)
      | None => None
      end
  end.

Definition same_lease (task holder : string) (c : ResourceClaim) (l : ResourceLease) : bool :=
  String.eqb (ls_task_id l) task && String.eqb (holder_id l) holder && bool_decide (claim l = c).

Definition grant (task holder : string) (ttl now : Z) (c : ResourceClaim) (st : lease_store)
  : result (lease_store * ResourceLease) :=
  let '(token, st1) := next_fencing_token st (resource_key c) in
  lid ← scheduler_identifier "LEASE" [task; holder; resource_key c; str_of_Z token];
  expiry ← lease_expiry now ttl;
  l ← new (mkLease lid task holder c token now expiry None None);
  st2 ← insert_lease st1 l;
  Ok (st2, l).

(** The loop over the claims: either all are covered, or the first refusal. *)
Fixpoint acquire_loop (pools_ : gmap string ResourcePool) (active : list ResourceLease)
    (task holder : string) (ttl now : Z) (cs : list ResourceClaim) (st : lease_store)
    (created : list ResourceLease) : result (lease_store * list ResourceLease + string) :=
  match cs with
  | [] => Ok (inl (st, created))
  | c :: cs =>
      match List.find (same_lease task holder c) active with
      | Some l => acquire_loop pools_ active task holder ttl now cs st (created ++ [l])
      | None =>
          match refusal pools_ (active ++ created) c with
          | Some reason => Ok (inr reason)
          | None =>
              '(st', l) ← grant task holder ttl now c st;
              acquire_loop pools_ active task holder ttl now cs st' (created ++ [l])
          end
      end
  end.

Definition acquire_bundle (task holder : string) (cs : list ResourceClaim) (ttl now : Z)
    (st : lease_store) : lease_store * result LeaseBundle :=
  if bool_decide (length cs = O) then
    (st, new (mkBundle task holder [] false ["no_resource_claims"]))
  else
    match (ps ← list_pools st;
           active ← list_active_leases st now;
           acquire_loop (dict_of pl_resource_key ps) active task holder ttl now cs st []) with
    | Raise e => (st, Raise e)
    | Ok (inr reason) => (st, new (mkBundle task holder [] false [reason]))
    | Ok (inl (st', created)) => (st', new (mkBundle task holder created true []))
    end.

(** ** Renewal and release *)
Definition read_lease (st : lease_store) (lid : string) : result ResourceLease :=
  match resource_leases st !! lid with
  | None => raise KeyError ("unknown lease: " +:+ lid)
  | Some row => reload_lease row
  end.
Definition renew_lease (lid holder : string) (token ttl now : Z) (st : lease_store)
  : lease_store * result ResourceLease :=
  match (l ← read_lease st lid;
         _ ← raise_if (bool_decide (released_at_utc l ≠ None) || (expires_at_utc l <=? now)) ValueError
               "expired or released lease cannot be renewed";
         _ ← raise_if (negb (String.eqb (holder_id l) holder) || negb (fencing_token l =? token))
               ValueError "lease renewal rejected by holder/fencing-token check";
         Ok l) with
  | Raise e => (st, Raise e)
  | Ok l =>
      let renewed := mkLease (lease_id l) (ls_task_id l) (holder_id l) (claim l) (fencing_token l)
        (acquired_at_utc l) (now + ttl * 1000000) (Some now) (released_at_utc l) in
      (with_leases st (<[lid := renewed]> (resource_leases st)), Ok renewed)
  end.
Definition release_lease (lid holder : string) (token now : Z) (st : lease_store)
  : lease_store * result ResourceLease :=
  match (l ← read_lease st lid;
         _ ← raise_if (negb (String.eqb (holder_id l) holder) || negb (fencing_token l =? token))
               ValueError "lease release rejected by holder/fencing-token check";
         Ok l) with
  | Raise e => (st, Raise e)
  | Ok l =>
      if bool_decide (released_at_utc l ≠ None) then (st, Ok l)
      else
        let released := mkLease (lease_id l) (ls_task_id l) (holder_id l) (claim l) (fencing_token l)
          (acquired_at_utc l) (expires_at_utc l) (renewed_at_utc l) (Some now) in
        (with_leases st (<[lid := released]> (resource_leases st)), Ok released)
  end.

(** ** Plans *)
Definition save_plan (p : SchedulerPlan) (st : lease_store) : lease_store :=
  mkLeaseStore (resource_pools st) (fencing_tokens st) (resource_leases st)
    (<[plan_id p := p]> (scheduler_plans st)) (scheduler_simulations st).
(** [ORDER BY created_at_utc DESC, plan_id DESC LIMIT 1]. *)
Definition latest_plan (st : lease_store) (project : string) : result (option SchedulerPlan) :=
  match max_by (λ p, (pn_generated_at_utc p, plan_id p))
          (List.filter (λ p, String.eqb (pn_project_id p) project)
             (snd <$> map_to_list (scheduler_plans st))) with
  | None => Ok None
  | Some row => p ← new row; Ok (Some p)
  end.

(** ** Simulations and status *)
Definition save_simulation (x : SchedulerSimulationResult) (st : lease_store) : lease_store :=
  mkLeaseStore (resource_pools st) (fencing_tokens st) (resource_leases st) (scheduler_plans st)
    (<[simulation_id x := x]> (scheduler_simulations st)).
Record scheduler_status := mkSchedulerStatus {
  plan_count : Z;
  latest_plan_id : option string;
  latest_lane_count : Z;
  backpressure_mode : option string;
  resource_pool_count : Z;
  active_lease_count : Z;
}.
Definition status (st : lease_store) (project : string) (now : Z) : result scheduler_status :=
  active ← list_active_leases st now;
  latest ← latest_plan st project;
  ps ← list_pools st;
  Ok (mkSchedulerStatus
        (count_if (λ p, String.eqb (pn_project_id p) project) (snd <$> map_to_list (scheduler_plans st)))
        (plan_id <$> latest)
        (match (latest : option SchedulerPlan) with Some p => Z.of_nat (length (lanes p)) | None => 0 end)
        ((λ p, BackpressureMode_value (bp_mode (backpressure p))) <$> latest)
        (Z.of_nat (length ps)) (Z.of_nat (length active))).
