(* ===== verification/ResourceKeys.v ===== *)
(** * ResourceKeys: keys in normal form

    [ResourceClaim.normalize_resource_key] squeezes runs of slashes, drops
    trailing ones and rejects absolute and escaping keys.  A claim whose key
    comes out without blanks at its ends is in normal form: the store reads
    back exactly what was written. *)
From S2P Require Import Prelude PyStd PyRe PyJson Identifiers TaskState ControlDomain SchedulerDomain LeaseStore.
From Stdlib Require Import Ascii.
Local Open Scope Z_scope.

(** ** Resource keys *)
Lemma str_split_cons c x s : ∃ w ws, str_split c s = w :: ws
  ∧ str_split c (String x s) = if Ascii.eqb x c then EmptyString :: w :: ws else String x w :: ws.
Proof.
  simpl. destruct (str_split c s) as [|w ws] eqn:E; [|eauto].
  destruct s as [|y s]; simpl in E; [done|]. destruct (str_split c s); [done|]. by destruct (Ascii.eqb y c).
Qed.
(** The components of [a] are among those of [b], the first ones equal. *)
Definition components_of (a b : string) : Prop :=
  ∃ w ws ws', str_split "/" a = w :: ws ∧ str_split "/" b = w :: ws' ∧ ws ⊆ ws'.
Lemma components_cons c a b : components_of a b → components_of (String c a) (String c b).
Proof.
  intros (w & ws & ws' & Ha & Hb & Hs). unfold components_of. simpl. rewrite Ha, Hb.
  destruct (Ascii.eqb c "/"); do 3 eexists; (split; [done|]); (split; [done|]); set_solver.
Qed.
Lemma squeeze_components s :
  components_of (squeeze_slashes false s) s ∧ str_split "/" (squeeze_slashes true s) ⊆ str_split "/" s.
Proof.
  induction s as [|c s [IHf IHt]]; [split; [by exists "", [], []|done]|].
  simpl squeeze_slashes. unfold is_slash.
  destruct (str_split_cons "/" c s) as (w & ws & Hs & Hcs).
  pose proof (components_cons c _ _ IHf) as Hc.
  destruct (Ascii.eqb c "/") eqn:E.
  - split.
    + destruct (str_split_cons "/" c (squeeze_slashes true s)) as (w' & ws' & Ht & Hct).
      rewrite E in Hct. exists "", (w' :: ws'), (w :: ws).
      split; [done|]. split; [done|]. by rewrite <-Ht, <-Hs.
    + rewrite Hcs, <-Hs. set_solver.
  - split; [done|]. destruct Hc as (v & vs & vs' & -> & -> & Hsub). set_solver.
Qed.
Lemma rstrip_components s : components_of (str_rstrip is_slash s) s.
Proof.
  induction s as [|c s IH]; [by exists "", [], []|]. simpl.
  pose proof (components_cons c _ _ IH) as Hc.
  destruct (str_rstrip is_slash s) as [|x r] eqn:E; [|done].
  destruct (is_slash c) eqn:Ec; [|done]. unfold is_slash in Ec.
  destruct (str_split_cons "/" c s) as (w & ws & Hs & Hcs). rewrite Ec in Hcs.
  exists "", [], (w :: ws). split; [done|]. split; [done|]. set_solver.
Qed.
Lemma components_incl a b : components_of a b → str_split "/" a ⊆ str_split "/" b.
Proof. intros (w & ws & ws' & -> & -> & ?). set_solver. Qed.

Lemma squeeze_forall p b s : str_forall p s = true → str_forall p (squeeze_slashes b s) = true.
Proof.
  revert b. induction s as [|c s IH]; intros b; [done|]. simpl. intros [Hc Hs]%andb_true_iff.
  destruct (is_slash c), b; simpl; rewrite ?Hc, ?IH by done; done.
Qed.
Lemma rstrip_forall p q s : str_forall p s = true → str_forall p (str_rstrip q s) = true.
Proof.
  induction s as [|c s IH]; [done|]. simpl. intros [Hc Hs]%andb_true_iff. specialize (IH Hs).
  destruct (str_rstrip q s); [destruct (q c); simpl; by rewrite ?Hc|]. simpl in *. by rewrite Hc.
Qed.
Lemma squeeze_length b s : (String.length (squeeze_slashes b s) ≤ String.length s)%nat.
Proof.
  revert b. induction s as [|c s IH]; intros b; [done|]. simpl. specialize (IH true) as Ht. specialize (IH false).
  destruct (is_slash c), b; simpl; lia.
Qed.
Lemma rstrip_length q s : (String.length (str_rstrip q s) ≤ String.length s)%nat.
Proof.
  induction s as [|c s IH]; [done|]. simpl. destruct (str_rstrip q s); [destruct (q c)|]; simpl in *; lia.
Qed.
Lemma lstrip_length q s : (String.length (str_lstrip q s) ≤ String.length s)%nat.
Proof. induction s as [|c s IH]; [done|]. simpl. destruct (q c); simpl; lia. Qed.

(** No two slashes in a row, none at the end. *)
Lemma squeeze_rstrip b s : squeeze_slashes b (str_rstrip is_slash (squeeze_slashes b s)) = str_rstrip is_slash (squeeze_slashes b s).
Proof.
  revert b. induction s as [|c s IH]; intros b; [done|]. simpl.
  destruct (is_slash c) eqn:E.
  - destruct b; [apply IH|]. simpl. specialize (IH true).
    destruct (str_rstrip is_slash (squeeze_slashes true s)) as [|x r] eqn:Er; rewrite ?E; [done|].
    cbn [squeeze_slashes]. rewrite E. f_equal. exact IH.
  - simpl. specialize (IH false).
    destruct (str_rstrip is_slash (squeeze_slashes false s)) as [|x r] eqn:Er; rewrite ?E.
    + simpl. by rewrite E.
    + cbn [squeeze_slashes]. rewrite E. f_equal. exact IH.
Qed.
Lemma rstrip_idem q s : str_rstrip q (str_rstrip q s) = str_rstrip q s.
Proof.
  induction s as [|c s IH]; [done|]. simpl.
  destruct (str_rstrip q s) as [|x r] eqn:E; [destruct (q c) eqn:Eq; [done|]; simpl; by rewrite Eq|].
  cbn [str_rstrip] in *. by rewrite IH.
Qed.

(** The first characters of a relative key stay. *)
Lemma normal_head v : str_startswith "/" v = false → drive_prefixed v = false →
  let k := str_rstrip is_slash (squeeze_slashes false v) in
  str_startswith "/" k = false ∧ drive_prefixed k = false.
Proof.
  intros Hs Hd. cbv zeta. destruct v as [|c v]; [done|].
  assert (is_slash c = false) as Ec.
  { destruct (is_slash c) eqn:E; [|done]. apply Ascii.eqb_eq in E as ->. by destruct v. }
  assert (∀ r, str_startswith "/" (String c r) = false) as Hst.
  { intros r. destruct c as [[] [] [] [] [] [] [] []]; try reflexivity. by destruct v. }
  simpl. rewrite Ec. simpl. rewrite Ec.
  split; [destruct (str_rstrip _ _); apply Hst|].
  destruct (str_rstrip is_slash (squeeze_slashes false v)) as [|x r] eqn:Er; [done|].
  unfold drive_prefixed in *. destruct v as [|y v]; [done|].
  simpl in Er. destruct (is_slash y) eqn:Ey.
  - apply Ascii.eqb_eq in Ey as ->. simpl in Er. destruct (str_rstrip _ _); [done|]. by injection Er as <- <-.
  - simpl in Er. rewrite Ey in Er. destruct (str_rstrip is_slash (squeeze_slashes false v)) as [|z r'] eqn:Er'.
    + injection Er as <- <-. by destruct y as [[] [] [] [] [] [] [] []].
    + injection Er as <- <-. destruct v as [|z' v]; [done|].
      destruct (Ascii.eqb z "/") eqn:Ez; [|destruct y as [[] [] [] [] [] [] [] []]; try done; by destruct z as [[] [] [] [] [] [] [] []]].
      apply Ascii.eqb_eq in Ez as ->. simpl in Er'. destruct (is_slash z') eqn:Ez'.
      * apply Ascii.eqb_eq in Ez' as ->. exact Hd.
      * exfalso. simpl in Er'. rewrite Ez' in Er'. destruct (str_rstrip _ _); injection Er' as -> _; done.
Qed.
Lemma str_forall_all p s : (∀ c, p c = true) → str_forall p s = true.
Proof. intros Hp. induction s; simpl; [done|]. by rewrite Hp. Qed.
Lemma normalized_key_fixed raw k :
  normalize_resource_key raw = Ok k → str_strip k = k → normalize_resource_key k = Ok k.
Proof.
  unfold normalize_resource_key. intros Hr Hk.
  set (v := str_replace_char (ascii_of_nat 92) "/" (str_strip raw)) in *. ok_inv.
  match goal with H : negb (str_truthy v) || _ = false |- _ =>
    apply orb_false_iff in H as [Hne Hnul%negb_false_iff] end.
  match goal with H : str_startswith _ v || _ = false |- _ => apply orb_false_iff in H as [Hst Hdr] end.
  match goal with H : str_in ".." _ = false |- _ => apply str_in_false in H as Hdd end.
  set (k0 := str_rstrip is_slash (squeeze_slashes false v)) in *.
  assert (str_forall (λ c, negb (Ascii.eqb c (ascii_of_nat 92))) k0 = true) as Hbs.
  { apply rstrip_forall, squeeze_forall. unfold v, str_replace_char. rewrite str_forall_map.
    apply str_forall_all. intros c. destruct (Ascii.eqb c (ascii_of_nat 92)) eqn:E; [done|]. by rewrite E. }
  destruct (str_truthy k0) eqn:Ek; [|done]. rewrite Hk.
  assert (str_replace_char (ascii_of_nat 92) "/" k0 = k0) as ->.
  { clear -Hbs. induction k0 as [|c s IH]; [done|]. simpl in Hbs. apply andb_true_iff in Hbs as [Hc%negb_true_iff Hs].
    unfold str_replace_char in *. cbn [str_map]. by rewrite Hc, IH. }
  assert (str_forall (λ c, negb (is_nul c)) k0 = true) as -> by (by apply rstrip_forall, squeeze_forall).
  rewrite Ek. simpl.
  destruct (normal_head v Hst Hdr) as [E1 E2]. fold k0 in E1, E2. rewrite E1, E2. simpl.
  rewrite (proj2 (str_in_false _ _)).
  2:{ intros Hin. apply Hdd. apply (components_incl _ _ (proj1 (squeeze_components v))).
      by apply (components_incl _ _ (rstrip_components _)). }
  simpl. unfold k0 at 1 2. rewrite squeeze_rstrip, rstrip_idem. fold k0. by rewrite Ek.
Qed.

Lemma str_length_replace a b s : String.length (str_replace_char a b s) = String.length s.
Proof. apply str_length_map. Qed.
Lemma normalized_length raw k : normalize_resource_key raw = Ok k →
  min_length 1 k = true ∧ (max_length 512 raw = true → max_length 512 k = true).
Proof.
  unfold normalize_resource_key. intros Hr. ok_inv.
  set (v := str_replace_char (ascii_of_nat 92) "/" (str_strip raw)) in *.
  pose proof (rstrip_length is_slash (squeeze_slashes false v)) as Hl1.
  pose proof (squeeze_length false v) as Hl2.
  assert (String.length v ≤ String.length raw)%nat as Hl3.
  { unfold v, str_strip. rewrite str_length_replace. pose proof (rstrip_length is_space (str_lstrip is_space raw)).
    pose proof (lstrip_length is_space raw). lia. }
  destruct (str_rstrip is_slash (squeeze_slashes false v)) as [|c k] eqn:E; simpl.
  - split; [done|]. intros _. done.
  - split; [done|]. unfold max_length. rewrite !bool_decide_eq_true. simpl in *. lia.
Qed.

(** Reading a claim back gives the claim. *)
Definition stable (c : ResourceClaim) : Prop := reload_claim c = Ok c.
Lemma new_claim_stable raw t m q machine purpose_ c :
  new_claim raw t m q machine purpose_ = Ok c → str_strip (resource_key c) = resource_key c → stable c.
Proof.
  unfold new_claim. intros Hc Hk. ok_inv. simpl in Hk.
  match goal with H : negb (min_length 1 raw && _) = false |- _ =>
    apply negb_false_iff, andb_true_iff in H as [_ Hmax] end.
  match goal with H : normalize_resource_key raw = Ok _ |- _ =>
    destruct (normalized_length _ _ H) as [Hlo Hhi]; pose proof (normalized_key_fixed _ _ H Hk) as Hf end.
  unfold stable, reload_claim, new_claim. simpl. rewrite Hlo, (Hhi Hmax), Hf. simpl.
  by repeat match goal with H : negb _ = false |- _ => rewrite H; clear H; simpl end.
Qed.

(** ** Path overlap *)
Lemma str_split_app a b : str_split "/" (a +:+ "/" +:+ b) = str_split "/" a ++ str_split "/" b.
Proof.
  induction a as [|c a IH].
  - destruct (str_split_cons "/" "/" b) as (w & ws & -> & Hb). exact Hb.
  - destruct (str_split_cons "/" c a) as (w & ws & Ha & ->).
    change (String c a +:+ "/" +:+ b) with (String c (a +:+ "/" +:+ b)).
    destruct (str_split_cons "/" c (a +:+ "/" +:+ b)) as (w' & ws' & Hab & ->).
    rewrite IH, Ha in Hab. injection Hab as <- <-. by destruct (Ascii.eqb c "/").
Qed.
Lemma str_split_nonempty s : str_split "/" s ≠ [].
Proof. destruct s as [|c s]; [done|]. destruct (str_split_cons "/" c s) as (w & ws & _ & ->). by destruct (Ascii.eqb c "/"). Qed.
Lemma str_join_cons w ws : ws ≠ [] → str_join "/" (w :: ws) = w +:+ "/" +:+ str_join "/" ws.
Proof. by destruct ws. Qed.
Lemma str_join_split s : str_join "/" (str_split "/" s) = s.
Proof.
  induction s as [|c s IH]; [done|]. destruct (str_split_cons "/" c s) as (w & ws & Hs & ->).
  rewrite Hs in IH. destruct (Ascii.eqb c "/") eqn:E.
  - apply Ascii.eqb_eq in E as ->. rewrite str_join_cons by done. by rewrite IH.
  - destruct ws as [|w' ws]; [simpl in *; by rewrite IH|].
    rewrite str_join_cons in IH |- * by done. by rewrite <-IH.
Qed.
Lemma str_join_app l k : l ≠ [] → k ≠ [] → str_join "/" (l ++ k) = str_join "/" l +:+ "/" +:+ str_join "/" k.
Proof.
  intros Hl Hk. induction l as [|w l IH]; [done|]. simpl app. destruct l as [|w' l].
  - simpl app. by rewrite str_join_cons.
  - rewrite !str_join_cons by done. rewrite IH by done. by rewrite !str_app_assoc.
Qed.
Lemma startswith_spec p s : str_startswith p s = true ↔ ∃ r, s = p +:+ r.
Proof.
  unfold str_startswith. revert s. induction p as [|c p IH]; intros s.
  - destruct s; simpl; split; intros; eauto.
  - destruct s as [|d s]; simpl; [split; [done|by intros [r ?]]|].
    destruct (Ascii.ascii_dec c d) as [->|Hne].
    + rewrite IH. split; intros [r Hr]; exists r; [by rewrite Hr|by injection Hr].
    + split; [done|]. intros [r [=]]. congruence.
Qed.
Lemma inside_spec a b :
  String.eqb a b || str_startswith (b +:+ "/") a = true ↔ str_split "/" b `prefix_of` str_split "/" a.
Proof.
  rewrite orb_true_iff, String.eqb_eq, startswith_spec. split.
  - intros [->|[r ->]]; [done|]. rewrite str_app_assoc, str_split_app. by apply prefix_app_r.
  - intros [l Hl]. destruct l as [|w l].
    + left. rewrite app_nil_r in Hl. by rewrite <-(str_join_split a), Hl, str_join_split.
    + right. exists (str_join "/" (w :: l)). rewrite str_app_assoc.
      rewrite <-(str_join_split a), Hl, str_join_app, str_join_split by (done || apply str_split_nonempty). done.
Qed.

(** C39. Construction leaves only safe keys, and the store reads them back:
    a claim's key is non-empty and relative, has no parent component, and,
    when it has no blanks at its ends, survives serialisation unchanged. *)
Theorem claim_keys_normalised raw t m q machine purpose_ c :
  new_claim raw t m q machine purpose_ = Ok c →
  resource_key c ≠ "" ∧ str_startswith "/" (resource_key c) = false ∧ drive_prefixed (resource_key c) = false
  ∧ ¬ (".." ∈ str_split "/" (resource_key c))
  ∧ (str_strip (resource_key c) = resource_key c → reload_claim c = Ok c).
Proof.
  intros Hc. pose proof (new_claim_stable _ _ _ _ _ _ _ Hc) as Hst.
  unfold new_claim in Hc. ok_inv. simpl in *.
  match goal with H : normalize_resource_key raw = Ok ?k |- _ => rename k into key, H into Hk end.
  split; [by intros ->; apply normalized_length in Hk as [? _]|].
  unfold normalize_resource_key in Hk. ok_inv.
  set (v := str_replace_char (ascii_of_nat 92) "/" (str_strip raw)) in *.
  match goal with H : str_startswith _ v || _ = false |- _ => apply orb_false_iff in H as [Hs Hd] end.
  match goal with H : str_in ".." _ = false |- _ => apply str_in_false in H as Hdd end.
  destruct (normal_head v Hs Hd) as [E1 E2]. destruct (str_truthy (str_rstrip _ _)) eqn:Et.
  - split_and!; [done|done| |done]. intros Hin. apply Hdd. apply (components_incl _ _ (proj1 (squeeze_components v))).
    by apply (components_incl _ _ (rstrip_components _)).
  - split_and!; [done|done|set_solver|done].
Qed.
Lemma claim_keys_normalised_witness :
  new_claim " src\pkg//mod/ " RT_PATH EXCLUSIVE 1 None None = Ok (mkClaim "src/pkg/mod" RT_PATH EXCLUSIVE 1 None None)
  ∧ reload_claim (mkClaim "src/pkg/mod" RT_PATH EXCLUSIVE 1 None None) = Ok (mkClaim "src/pkg/mod" RT_PATH EXCLUSIVE 1 None None).
Proof.
  split; [reflexivity|].
  destruct (claim_keys_normalised " src\pkg//mod/ " RT_PATH EXCLUSIVE 1 None None
    (mkClaim "src/pkg/mod" RT_PATH EXCLUSIVE 1 None None) eq_refl) as (_ & _ & _ & _ & H). by apply H.
Defined.

(** Two path claims overlap exactly when the components of one path
    begin with those of the other; claims of other types overlap exactly
    when their keys are equal. *)
Theorem overlaps_iff_same_subtree a b :
  overlaps a b = true ↔
  if bool_decide (resource_type a = RT_PATH ∧ resource_type b = RT_PATH)
  then str_split "/" (resource_key a) `prefix_of` str_split "/" (resource_key b)
       ∨ str_split "/" (resource_key b) `prefix_of` str_split "/" (resource_key a)
  else resource_key a = resource_key b.
Proof.
  unfold overlaps. rewrite <-bool_decide_and. case_bool_decide; [|apply String.eqb_eq].
  rewrite <-!inside_spec, !orb_true_iff, !String.eqb_eq. naive_solver.
Qed.

(** A claim on the repository root, which normalisation writes as a
    dot, overlaps no other path, and a leading dot component is kept: the
    same directory written with and without it does not overlap. *)
Theorem root_claim_overlaps_nothing :
  let path raw := new_claim raw RT_PATH EXCLUSIVE 1 None None in
  let both a b := (a ← path a; b ← path b; Ok (conflicts_with a b)) in
  both "." "src" = Ok false ∧ both "./src" "src" = Ok false ∧ both "src" "src/pkg" = Ok true.
Proof. by vm_compute. Qed.
