(* ===== verification/LeaseSafety.v ===== *)
(** * LeaseSafety: what the lease store guarantees

    Along every run with a clock that does not go back: pools are never
    over-committed, unpooled resources are never held in conflict, fencing
    tokens grow, acquisition is all or nothing and repeatable. *)
From S2P Require Import Prelude PyStd PyRe PyJson Identifiers TaskState ControlDomain SchedulerDomain LeaseStore ResourceKeys.
Local Open Scope Z_scope.

Lemma stable_quantity c : stable c → 1 ≤ quantity c.
Proof.
  unfold stable, reload_claim, new_claim. intros Hs. ok_inv.
  match goal with H : negb (_ && (quantity c <=? _)) = false |- _ =>
    apply negb_false_iff, andb_true_iff in H as [H%Z.leb_le _] end. done.
Qed.
Lemma reload_lease_stable l l' : stable (claim l) → reload_lease l = Ok l' → l' = l.
Proof.
  unfold stable, reload_lease. intros -> Hl. simpl in Hl. apply new_ok in Hl as [-> _]. by destruct l.
Qed.

(** ** Active leases *)
Definition active (st : lease_store) (when : Z) : list ResourceLease :=
  List.filter (λ l, active_at l when) (snd <$> map_to_list (resource_leases st)).

Lemma elem_of_active st t l :
  l ∈ active st t ↔ (∃ i, resource_leases st !! i = Some l) ∧ active_at l t = true.
Proof.
  unfold active. rewrite elem_of_List_filter, list_elem_of_fmap. split; intros [Hl Ha]; split; try done.
  - destruct Hl as ([i l'] & -> & Hin%elem_of_map_to_list). eauto.
  - destruct Hl as [i Hi]. exists (i, l). by rewrite elem_of_map_to_list.
Qed.
Lemma filter_perm {A} (p : A → bool) l k : l ≡ₚ k → List.filter p l ≡ₚ List.filter p k.
Proof.
  induction 1 as [|x l k _ IH|x y l|l k m _ IH1 _ IH2]; simpl; [done|..].
  - destruct (p x); [by f_equiv|done].
  - destruct (p x), (p y); try done. apply Permutation_swap.
  - by rewrite IH1.
Qed.
Lemma active_insert st t i l : resource_leases st !! i = None →
  active (with_leases st (<[i := l]> (resource_leases st))) t
  ≡ₚ (if active_at l t then [l] else []) ++ active st t.
Proof.
  intros Hi. unfold active. simpl.
  rewrite (filter_perm _ _ (l :: (snd <$> map_to_list (resource_leases st)))).
  - simpl. by destruct (active_at l t).
  - by rewrite map_to_list_insert.
Qed.
Lemma active_split st t i l : resource_leases st !! i = Some l →
  active st t ≡ₚ (if active_at l t then [l] else [])
    ++ active (with_leases st (delete i (resource_leases st))) t.
Proof.
  intros Hi. rewrite <-active_insert by (simpl; apply lookup_delete_eq). simpl.
  rewrite insert_delete_id by done. by destruct st.
Qed.

(** ** Usage *)
Definition usage (st : lease_store) (when : Z) (key : string) : Z := lease_usage key (active st when).

Lemma lease_usage_app key l k : lease_usage key (l ++ k) = lease_usage key l + lease_usage key k.
Proof. unfold lease_usage. by rewrite fmap_app, Z_sum_app. Qed.
Lemma lease_usage_perm key l k : l ≡ₚ k → lease_usage key l = lease_usage key k.
Proof. intros Hp. unfold lease_usage. apply Z_sum_perm. by f_equiv. Qed.
Definition all_stable (ls : list ResourceLease) : Prop := Forall (λ l, stable (claim l)) ls.
Lemma lease_usage_nonneg key ls : all_stable ls → 0 ≤ lease_usage key ls.
Proof.
  induction 1 as [|l ls Hl _ IH]; [done|]. unfold lease_usage in *. rewrite fmap_cons. simpl.
  apply stable_quantity in Hl. destruct (String.eqb _ _); lia.
Qed.
Lemma lease_usage_sublist key l k : l `sublist_of` k → all_stable k → lease_usage key l ≤ lease_usage key k.
Proof.
  unfold lease_usage. induction 1 as [|x l k _ IH|x l k _ IH]; intros Hk; [done|..];
    apply Forall_cons in Hk as [Hx Hk]; rewrite ?fmap_cons; simpl.
  - specialize (IH Hk). lia.
  - specialize (IH Hk). apply stable_quantity in Hx. destruct (String.eqb _ _); lia.
Qed.
Lemma filter_mono_sublist {A} (p q : A → bool) l :
  (∀ x, p x = true → q x = true) → List.filter p l `sublist_of` List.filter q l.
Proof.
  intros Hpq. induction l as [|x l IH]; simpl; [done|].
  destruct (p x) eqn:E; [rewrite (Hpq _ E); by constructor|]. destruct (q x); [by constructor|done].
Qed.
Lemma active_at_mono l t t' : t ≤ t' → active_at l t' = true → active_at l t = true.
Proof.
  unfold active_at. intros Ht [-> H2%Z.ltb_lt]%andb_true_iff. simpl. apply Z.ltb_lt. lia.
Qed.
Lemma active_mono st t t' : t ≤ t' → active st t' `sublist_of` active st t.
Proof. intros Ht. apply filter_mono_sublist. intros l. by apply active_at_mono. Qed.

(** ** The invariant *)
(** What a row satisfies whatever happened to its expiry. *)
Record sound (now : Z) (l : ResourceLease) : Prop := {
  sd_id : valid_prefixed_id SCHEDULER_ID "LEASE-" (lease_id l) = true;
  sd_task : validate_identifier (ls_task_id l) ISSUE = Ok (ls_task_id l);
  sd_holder : min_length 1 (holder_id l) && max_length 191 (holder_id l) = true;
  sd_token : 1 ≤ fencing_token l;
  sd_acquired : acquired_at_utc l ≤ now;
  sd_renewed : opt_all (λ t, acquired_at_utc l <=? t) (renewed_at_utc l) = true;
}.
(** Under a clock that does not go back an active row is always readable. *)
Lemma active_valid now l : sound now l → active_at l now = true → validate l = Ok ().
Proof.
  intros [H1 H2 H3 H4 H5 H6] [Hr%bool_decide_eq_true He%Z.ltb_lt]%andb_true_iff.
  unfold validate, ResourceLease_model. rewrite H1, H2, H3, H6, Hr. simpl.
  rewrite (proj2 (Z.ltb_ge _ _)) by done. simpl. by rewrite (proj2 (Z.leb_gt _ _)) by lia.
Qed.
Lemma valid_sound now l : validate l = Ok () → acquired_at_utc l ≤ now → sound now l.
Proof.
  unfold validate, ResourceLease_model. intros Hv Ha. ok_inv.
  split; try done; try (by apply negb_false_iff); [|by apply Z.ltb_ge].
  apply validate_identifier_ok. by match goal with H : validate_identifier _ _ = Ok _ |- _ => rewrite H end.
Qed.

Record lease_inv (st : lease_store) (now : Z) : Prop := {
  li_pools k p : resource_pools st !! k = Some p → pl_resource_key p = k ∧ validate p = Ok ();
  li_row i l : resource_leases st !! i = Some l → lease_id l = i ∧ stable (claim l);
  li_sound i l : resource_leases st !! i = Some l → sound now l;
  li_token i l : resource_leases st !! i = Some l →
    ∃ t, fencing_tokens st !! resource_key (claim l) = Some t ∧ fencing_token l ≤ t;
  li_unique i j l k : resource_leases st !! i = Some l → resource_leases st !! j = Some k →
    resource_key (claim l) = resource_key (claim k) → fencing_token l = fencing_token k → i = j;
  li_capacity k p : resource_pools st !! k = Some p → usage st now k ≤ allocatable_units p;
  li_exclusive i j l k : resource_leases st !! i = Some l → resource_leases st !! j = Some k → i ≠ j →
    active_at l now = true → active_at k now = true →
    resource_pools st !! resource_key (claim l) = None → resource_pools st !! resource_key (claim k) = None →
    conflicts_with (claim l) (claim k) = false;
}.

Lemma active_stable st now t : lease_inv st now → all_stable (active st t).
Proof.
  intros Hinv. apply Forall_forall. intros l [[i Hi] _]%elem_of_active. by apply (li_row _ _ Hinv) in Hi as [_ ?].
Qed.
Lemma lease_inv_later st now now' : now ≤ now' → lease_inv st now → lease_inv st now'.
Proof.
  intros Hle Hinv. split; [apply (li_pools _ _ Hinv)|apply (li_row _ _ Hinv)| |apply (li_token _ _ Hinv)
         |apply (li_unique _ _ Hinv)|..].
  - intros i l Hi. destruct (li_sound _ _ Hinv _ _ Hi). split; try done. lia.
  - intros k p Hp. apply (Z.le_trans _ (usage st now k)); [|by apply (li_capacity _ _ Hinv)].
    apply lease_usage_sublist; [by apply active_mono|by eapply active_stable].
  - intros i j l k Hi Hj Hne Ha Hb. apply (li_exclusive _ _ Hinv i j); try done; by eapply active_at_mono.
Qed.

(** ** What the store reads back *)
Lemma list_active_ok st now ls : lease_inv st now → list_active_leases st now = Ok ls → ls ≡ₚ active st now.
Proof.
  intros Hinv Hl. unfold list_active_leases, active_lease_rows in Hl. fold (active st now) in Hl.
  rewrite <-(sorted_by_perm lease_order (active st now)).
  pose proof (active_stable st now now Hinv) as Hs. unfold all_stable in Hs.
  rewrite <-(sorted_by_perm lease_order (active st now)) in Hs.
  apply traverse_ok in Hl. induction Hl as [|l l' rows ls Hll _ IH]; [done|].
  apply Forall_cons in Hs as [Hs1 Hs]. apply reload_lease_stable in Hll as ->; [|done]. by f_equiv; apply IH.
Qed.
Lemma list_pools_ok st now ps k : lease_inv st now → list_pools st = Ok ps →
  dict_of pl_resource_key ps !! k = resource_pools st !! k.
Proof.
  intros Hinv Hl. unfold list_pools in Hl.
  assert (ps = snd <$> sorted_by fst (map_to_list (resource_pools st))) as ->.
  { apply traverse_ok in Hl. clear -Hl. induction Hl as [|p p' l k [-> _]%new_ok _ IH]; [done|]. by rewrite IH. }
  assert (∀ p, p ∈ (snd <$> sorted_by fst (map_to_list (resource_pools st))) ↔
               resource_pools st !! pl_resource_key p = Some p) as Hin.
  { intros p. rewrite list_elem_of_fmap. setoid_rewrite elem_of_sorted_by. split.
    - intros ([i p'] & -> & Hi%elem_of_map_to_list). simpl. by destruct (li_pools _ _ Hinv _ _ Hi) as [-> _].
    - intros Hp. exists (pl_resource_key p, p). by rewrite elem_of_map_to_list. }
  destruct (dict_of pl_resource_key _ !! k) as [p|] eqn:E.
  - apply dict_of_lookup_Some in E as [Hp <-]. symmetry. by apply Hin.
  - destruct (resource_pools st !! k) as [p|] eqn:Ep; [|done]. exfalso.
    assert (is_Some (dict_of pl_resource_key (snd <$> sorted_by fst (map_to_list (resource_pools st))) !! k)) as [? ?];
      [|congruence].
    destruct (li_pools _ _ Hinv _ _ Ep) as [<- _]. apply dict_of_dom, list_elem_of_fmap_2, Hin. done.
Qed.

(** ** One grant *)
Lemma grant_ok task holder ttl now c st st' l :
  grant task holder ttl now c st = Ok (st', l) →
  let token := match fencing_tokens st !! resource_key c with Some t => t + 1 | None => 1 end in
  l = mkLease (lease_id l) task holder c token now (now + ttl * 1000000) None None
  ∧ resource_leases st !! lease_id l = None ∧ 0 < ttl ∧ validate l = Ok ()
  ∧ st' = mkLeaseStore (resource_pools st) (<[resource_key c := token]> (fencing_tokens st))
            (<[lease_id l := l]> (resource_leases st)) (scheduler_plans st) (scheduler_simulations st).
Proof.
  unfold grant, next_fencing_token. intros Hg.
  apply bind_ok in Hg as (lid & _ & Hg). apply bind_ok in Hg as (expiry & He & Hg).
  unfold lease_expiry in He. apply bind_ok in He as ([] & Ht%raise_if_ok & [= <-]). apply Z.leb_gt in Ht.
  apply bind_ok in Hg as (l' & [-> Hv]%new_ok & Hg). apply bind_ok in Hg as (st2 & Hi & [= <- <-]).
  unfold insert_lease in Hi. apply bind_ok in Hi as ([] & Hf%raise_if_ok & [= <-]).
  apply bool_decide_eq_false, dec_stable in Hf. done.
Qed.

Lemma refusal_none pools_ taken c :
  refusal pools_ taken c = None →
  match pools_ !! resource_key c with
  | Some pool => lease_usage (resource_key c) taken + quantity c ≤ allocatable_units pool
  | None => ∀ l, l ∈ taken → conflicts_with c (claim l) = false
  end.
Proof.
  unfold refusal. destruct (pools_ !! resource_key c) as [pool|].
  - destruct (Z.ltb_spec (allocatable_units pool) (lease_usage (resource_key c) taken + quantity c)); [done|lia].
  - destruct (List.find _ taken) as [l|] eqn:E; [done|]. intros _ l Hl.
    apply (find_none _ _ E). by apply list_elem_of_In.
Qed.
Lemma grant_inv task holder ttl now c st st' l taken :
  lease_inv st now → stable c →
  refusal (resource_pools st) taken c = None →
  (∀ key, usage st now key ≤ lease_usage key taken) → (∀ k, k ∈ active st now → k ∈ taken) →
  grant task holder ttl now c st = Ok (st', l) → lease_inv st' now.
Proof.
  intros Hinv Hc Href Husage Htaken Hg. apply grant_ok in Hg as (Hl & Hfresh & Httl & Htask & ->).
  set (token := match fencing_tokens st !! resource_key c with Some t => t + 1 | None => 1 end) in *.
  assert (claim l = c ∧ fencing_token l = token) as [Hlc Hlt] by (by rewrite Hl).
  apply refusal_none in Href.
  assert (∀ i k, resource_leases st !! i = Some k → resource_key (claim k) = resource_key c →
    fencing_token k < token) as Htok.
  { intros i k Hi Hk. destruct (li_token _ _ Hinv _ _ Hi) as (t & Ht & Hle). unfold token.
    rewrite <-Hk, Ht. lia. }
  split; simpl.
  - apply (li_pools _ _ Hinv).
  - intros i k. rewrite lookup_insert. case_decide as E; [|apply (li_row _ _ Hinv)].
    intros [= <-]. by rewrite Hlc.
  - intros i k. rewrite lookup_insert. case_decide as E; [|apply (li_sound _ _ Hinv)].
    intros [= <-]. apply valid_sound; [done|]. by assert (acquired_at_utc l = now) as -> by (by rewrite Hl).
  - intros i k. rewrite lookup_insert. case_decide as E.
    + intros [= <-]. exists token. rewrite Hlc, Hlt, lookup_insert_eq. done.
    + intros Hi. destruct (li_token _ _ Hinv _ _ Hi) as (t & Ht & Hle). rewrite lookup_insert.
      case_decide as Ek; [|eauto]. exists token. split; [done|]. pose proof (Htok _ _ Hi (eq_sym Ek)). lia.
  - intros i j k m. rewrite !lookup_insert. repeat case_decide; try congruence.
    + intros [= <-] Hj Hkey Ht. rewrite Hlc in Hkey. pose proof (Htok _ _ Hj (eq_sym Hkey)). lia.
    + intros Hi [= <-] Hkey Ht. rewrite Hlc in Hkey. pose proof (Htok _ _ Hi Hkey). lia.
    + apply (li_unique _ _ Hinv).
  - intros k p Hp. assert (usage (mkLeaseStore (resource_pools st) (<[resource_key c := token]> (fencing_tokens st))
        (<[lease_id l := l]> (resource_leases st)) (scheduler_plans st) (scheduler_simulations st)) now k
      = lease_usage k ((if active_at l now then [l] else []) ++ active st now)) as ->.
    { apply lease_usage_perm. by apply active_insert. }
    rewrite lease_usage_app. fold (usage st now k).
    assert (lease_usage k (if active_at l now then [l] else []) ≤ if String.eqb (resource_key c) k then quantity c else 0) as Hone.
    { apply stable_quantity in Hc. destruct (active_at l now); unfold lease_usage; simpl;
        rewrite ?Hlc; destruct (String.eqb _ _); lia. }
    destruct (String.eqb_spec (resource_key c) k) as [<-|Hne].
    + rewrite Hp in Href. pose proof (Husage (resource_key c)). lia.
    + pose proof (li_capacity _ _ Hinv _ _ Hp). lia.
  - intros i j k m. rewrite !lookup_insert. repeat case_decide; try congruence.
    + intros [= <-] Hj _ _ Ha Hp1 Hp2. rewrite Hlc in *. rewrite Hp1 in Href. apply Href, Htaken, elem_of_active. eauto.
    + intros Hi [= <-] _ Ha _ Hp1 Hp2. rewrite Hlc in *. rewrite Hp2 in Href. rewrite conflicts_sym.
      apply Href, Htaken, elem_of_active. eauto.
    + apply (li_exclusive _ _ Hinv).
Qed.

(** ** The acquisition loop *)
Definition covers (task holder : string) (now : Z) (st : lease_store) (c : ResourceClaim)
    (l : ResourceLease) : Prop :=
  claim l = c ∧ ls_task_id l = task ∧ holder_id l = holder ∧ active_at l now = true
  ∧ resource_leases st !! lease_id l = Some l.

Definition token_le (st st' : lease_store) : Prop :=
  ∀ k t, fencing_tokens st !! k = Some t → ∃ t', fencing_tokens st' !! k = Some t' ∧ t ≤ t'.

Record loop_inv (st0 : lease_store) (act : list ResourceLease) (task holder : string) (now : Z)
    (done_ : list ResourceClaim) (st : lease_store) (created : list ResourceLease) : Prop := {
  lo_inv : lease_inv st now;
  lo_pools : resource_pools st = resource_pools st0;
  lo_active : ∃ news, active st now ≡ₚ news ++ act ∧ news `sublist_of` created;
  lo_stable : all_stable created;
  lo_frame i l : resource_leases st0 !! i = Some l → resource_leases st !! i = Some l;
  lo_tokens : token_le st0 st;
  lo_new i l : resource_leases st !! i = Some l → resource_leases st0 !! i = None →
    l ∈ created ∧ ∀ j k, resource_leases st0 !! j = Some k →
      resource_key (claim k) = resource_key (claim l) → fencing_token k < fencing_token l;
  lo_covers : Forall2 (covers task holder now st) done_ created;
}.

Lemma active_at_granted lid task holder c token now ttl :
  0 < ttl → active_at (mkLease lid task holder c token now (now + ttl * 1000000) None None) now = true.
Proof. intros Ht. unfold active_at. simpl. apply Z.ltb_lt. lia. Qed.

Lemma loop_grant st0 act task holder ttl now done_ st created c st' l :
  loop_inv st0 act task holder now done_ st created → stable c →
  (∀ i k, resource_leases st0 !! i = Some k → lease_id k = i ∧ stable (claim k)) →
  (∀ i k, resource_leases st0 !! i = Some k → ∃ t, fencing_tokens st0 !! resource_key (claim k) = Some t
     ∧ fencing_token k ≤ t) → all_stable act →
  refusal (resource_pools st0) (act ++ created) c = None →
  grant task holder ttl now c st = Ok (st', l) →
  loop_inv st0 act task holder now (done_ ++ [c]) st' (created ++ [l]).
Proof.
  intros Hlo Hc Hrow0 Htok0 Hact Href Hg. pose proof (grant_ok _ _ _ _ _ _ _ _ Hg) as (Hl & Hfresh & Httl & _ & ->).
  set (token := match fencing_tokens st !! resource_key c with Some t => t + 1 | None => 1 end) in *.
  assert (claim l = c ∧ fencing_token l = token) as [Hlc Hlt] by (by rewrite Hl).
  assert (active_at l now = true) as Hla by (rewrite Hl; by apply active_at_granted).
  destruct (lo_active _ _ _ _ _ _ _ _ Hlo) as (news & Hnews & Hsub).
  split; simpl.
  - eapply (grant_inv task holder ttl now c st _ l (act ++ created)); [apply Hlo|done| | | |exact Hg].
    + by rewrite (lo_pools _ _ _ _ _ _ _ _ Hlo).
    + intros key. unfold usage. rewrite (lease_usage_perm _ _ _ Hnews), !lease_usage_app.
      pose proof (lease_usage_sublist key _ _ Hsub (lo_stable _ _ _ _ _ _ _ _ Hlo)). lia.
    + intros k. rewrite Hnews, !elem_of_app. intros [Hk|Hk]; [right|by left].
      by apply (sublist_subseteq _ _ Hsub).
  - apply (lo_pools _ _ _ _ _ _ _ _ Hlo).
  - exists (news ++ [l]). split; [|by apply sublist_app].
    rewrite <-(assoc_L (++)). simpl. etransitivity; [by apply (active_insert st now (lease_id l) l)|].
    rewrite Hla, Hnews. simpl. by rewrite Permutation_middle.
  - apply Forall_app. split; [apply Hlo|]. constructor; [by rewrite Hlc|constructor].
  - intros i k Hi. rewrite lookup_insert_ne; [by apply (lo_frame _ _ _ _ _ _ _ _ Hlo)|].
    intros <-. apply (lo_frame _ _ _ _ _ _ _ _ Hlo) in Hi. congruence.
  - intros k t Ht. destruct (lo_tokens _ _ _ _ _ _ _ _ Hlo k t Ht) as (t' & Ht' & Hle).
    simpl. rewrite lookup_insert. case_decide as E; [|eauto]. subst k. exists token. split; [done|].
    unfold token. rewrite Ht'. lia.
  - intros i k. rewrite lookup_insert. case_decide as E.
    + intros [= <-] _. split; [set_solver|]. intros j m Hj Hkey.
      destruct (Htok0 _ _ Hj) as (t & Ht & Hle). rewrite Hkey, Hlc in Ht.
      destruct (lo_tokens _ _ _ _ _ _ _ _ Hlo _ _ Ht) as (t' & Ht' & Hle').
      rewrite Hlt. unfold token. rewrite Ht'. lia.
    + intros Hi H0. destruct (lo_new _ _ _ _ _ _ _ _ Hlo _ _ Hi H0) as [? ?]. split; [set_solver|done].
  - apply Forall2_app.
    + eapply Forall2_impl; [apply Hlo|]. intros c' k (?&?&?&?&Hk). repeat (split; [done|]). simpl.
      rewrite lookup_insert_ne; [done|]. intros E. rewrite E in Hfresh. congruence.
    + constructor; [|constructor]. assert (ls_task_id l = task ∧ holder_id l = holder) as [??] by (by rewrite Hl).
      do 4 (split; [done|]). simpl. by rewrite lookup_insert_eq.
Qed.

Lemma find_same task holder c act l : List.find (same_lease task holder c) act = Some l →
  l ∈ act ∧ ls_task_id l = task ∧ holder_id l = holder ∧ claim l = c.
Proof.
  intros [Hin Hs]%find_some. unfold same_lease in Hs.
  apply andb_true_iff in Hs as [Hs Hc%bool_decide_eq_true].
  apply andb_true_iff in Hs as [Ht%String.eqb_eq Hh%String.eqb_eq]. by rewrite list_elem_of_In.
Qed.

Lemma acquire_loop_ok st0 act task holder ttl now cs done_ st created st' created' :
  act ≡ₚ active st0 now → lease_inv st0 now → Forall stable cs →
  loop_inv st0 act task holder now done_ st created →
  acquire_loop (resource_pools st0) act task holder ttl now cs st created = Ok (inl (st', created')) →
  loop_inv st0 act task holder now (done_ ++ cs) st' created'.
Proof.
  intros Hact Hinv0 Hcs. revert done_ st created. induction Hcs as [|c cs Hc _ IH]; intros done_ st created Hlo Hrun.
  { injection Hrun as <- <-. by rewrite app_nil_r. }
  cbn [acquire_loop] in Hrun. rewrite cons_middle, (assoc_L (++)).
  destruct (List.find _ act) as [l|] eqn:Ef.
  - apply find_same in Ef as (Hin & Htask & Hholder & Hclaim). eapply IH; [|exact Hrun].
    rewrite Hact in Hin. apply elem_of_active in Hin as [[i Hi] Ha].
    destruct (li_row _ _ Hinv0 _ _ Hi) as [Hid Hst].
    destruct Hlo as [? ? (news & ? & ?) ? Hframe ? Hnew ?]. split; try done.
    + exists news. split; [done|by apply sublist_inserts_r].
    + apply Forall_app. split; [done|by constructor].
    + intros j k Hj Hn. destruct (Hnew _ _ Hj Hn). split; [set_solver|done].
    + apply Forall2_app; [done|]. constructor; [|constructor]. split; [done|]. do 3 (split; [done|]).
      apply Hframe. by rewrite Hid.
  - destruct (refusal _ _ _) eqn:Er; [done|]. apply bind_ok in Hrun as ([st1 l] & Hg & Hrun).
    eapply IH; [|exact Hrun]. eapply loop_grant; try done; [apply (li_row _ _ Hinv0)|apply (li_token _ _ Hinv0)|].
    unfold all_stable. rewrite Hact. by eapply active_stable.
Qed.

(** ** One acquisition *)
Lemma loop_start st task holder now act :
  lease_inv st now → act ≡ₚ active st now → loop_inv st act task holder now [] st [].
Proof.
  intros Hinv Hact. split; try done.
  - exists []. by rewrite Hact.
  - constructor.
  - intros k t Ht. eauto with lia.
  - intros i l Hi Hn. congruence.
Qed.

(** Either nothing changed, or the bundle was acquired through the loop. *)
Lemma acquire_cases task holder cs ttl now st st' r :
  lease_inv st now → Forall stable cs → acquire_bundle task holder cs ttl now st = (st', r) →
  (st' = st ∧ ((∃ e, r = Raise e) ∨ ∃ b, r = Ok b ∧ acquired b = false))
  ∨ ∃ act created, act ≡ₚ active st now ∧ loop_inv st act task holder now cs st' created
      ∧ r = new (mkBundle task holder created true []).
Proof.
  intros Hinv Hcs. unfold acquire_bundle. case_bool_decide as E.
  { intros [= <- <-]. left. split; [done|]. destruct (new _) as [b|e] eqn:En; [right|left; eauto].
    apply new_ok in En as [-> _]. eauto. }
  destruct (list_pools st) as [ps|e] eqn:Ep; simpl; [|intros [= <- <-]; left; eauto].
  destruct (list_active_leases st now) as [act|e] eqn:Ea; simpl; [|intros [= <- <-]; left; eauto].
  assert (dict_of pl_resource_key ps = resource_pools st) as ->.
  { apply map_eq. intros k. by apply (list_pools_ok st now). }
  destruct (acquire_loop _ _ _ _ _ _ _ _ _) as [[[st1 created]|reason]|e] eqn:El.
  - intros [= <- <-]. right. exists act, created.
    assert (act ≡ₚ active st now) as Hact by (by apply list_active_ok). split; [done|]. split; [|done].
    by apply (acquire_loop_ok st act task holder ttl now cs [] st [] st1 created Hact Hinv Hcs (loop_start _ _ _ _ _ Hinv Hact)).
  - intros [= <- <-]. left. split; [done|]. destruct (new _) as [b|e] eqn:En; [right|left; eauto].
    apply new_ok in En as [-> _]. eauto.
  - intros [= <- <-]. left. eauto.
Qed.
Lemma acquire_inv task holder cs ttl now st :
  lease_inv st now → Forall stable cs → lease_inv (acquire_bundle task holder cs ttl now st).1 now.
Proof.
  intros Hinv Hcs. destruct (acquire_bundle _ _ _ _ _ _) as [st' r] eqn:E. simpl.
  apply acquire_cases in E as [[-> _]|(act & created & _ & Hlo & _)]; [done|apply Hlo|done|done].
Qed.

(** ** Renewal and release replace one row by one with the same claim and token *)
Lemma replace_inv st now i l l' :
  lease_inv st now → resource_leases st !! i = Some l →
  lease_id l' = lease_id l → sound now l' → claim l' = claim l → fencing_token l' = fencing_token l →
  (active_at l' now = true → active_at l now = true) →
  lease_inv (with_leases st (<[i := l']> (resource_leases st))) now.
Proof.
  intros Hinv Hi Hid Htask Hcl Htok Hact. destruct (li_row _ _ Hinv _ _ Hi) as [Hli Hst].
  destruct (li_token _ _ Hinv _ _ Hi) as (t & Ht & Hle).
  split; simpl.
  - apply (li_pools _ _ Hinv).
  - intros j k. rewrite lookup_insert. case_decide as E; [|apply (li_row _ _ Hinv)].
    intros [= <-]. rewrite Hid, Hcl, <-E. done.
  - intros j k. rewrite lookup_insert. case_decide; [|apply (li_sound _ _ Hinv)]. by intros [= <-].
  - intros j k. rewrite lookup_insert. case_decide; [|apply (li_token _ _ Hinv)].
    intros [= <-]. rewrite Hcl, Htok. eauto.
  - intros a b la lb. rewrite !lookup_insert. repeat case_decide; try congruence.
    + intros [= <-] Hb. rewrite Hcl, Htok. intros. subst. by eapply (li_unique _ _ Hinv _ _ l lb).
    + intros Ha [= <-]. rewrite Hcl, Htok. intros. subst. by eapply (li_unique _ _ Hinv _ _ la l).
    + apply (li_unique _ _ Hinv).
  - intros k p Hp. apply (Z.le_trans _ (usage st now k)); [|by apply (li_capacity _ _ Hinv)].
    unfold usage. rewrite (lease_usage_perm _ (active st now) _ (active_split st now i l Hi)).
    assert (active (with_leases st (<[i:=l']> (resource_leases st))) now
      ≡ₚ (if active_at l' now then [l'] else []) ++ active (with_leases st (delete i (resource_leases st))) now) as Hp'.
    { etransitivity; [apply (active_split _ now i l'); simpl; apply lookup_insert_eq|].
      simpl. by rewrite delete_insert_eq. }
    rewrite (lease_usage_perm _ _ _ Hp'), !lease_usage_app.
    enough (lease_usage k (if active_at l' now then [l'] else []) ≤ lease_usage k (if active_at l now then [l] else [])) by lia.
    apply stable_quantity in Hst. unfold lease_usage. destruct (active_at l' now) eqn:E'.
    + rewrite (Hact eq_refl). simpl. by rewrite Hcl.
    + destruct (active_at l now); simpl; [destruct (String.eqb _ _)|]; lia.
  - intros a b la lb. rewrite !lookup_insert. repeat case_decide; try congruence.
    + intros [= <-] Hb Hne Hal Hab. rewrite Hcl. intros.
      apply (li_exclusive _ _ Hinv i b l lb); [done|done|congruence|auto..].
    + intros Ha [= <-] Hne Hal Hab. rewrite Hcl. intros.
      apply (li_exclusive _ _ Hinv a i la l); [done|done|congruence|auto..].
    + apply (li_exclusive _ _ Hinv).
Qed.

Lemma read_lease_ok st now i l : lease_inv st now → read_lease st i = Ok l → resource_leases st !! i = Some l.
Proof.
  intros Hinv. unfold read_lease. destruct (resource_leases st !! i) as [row|] eqn:E; [|done].
  intros Hl. apply reload_lease_stable in Hl as ->; [done|]. by apply (li_row _ _ Hinv) in E as [_ ?].
Qed.

(** A renewal that changes the row: the lease was active, and the caller
    named its holder and token. *)
Lemma renew_cases lid holder token ttl now st st' r :
  lease_inv st now → renew_lease lid holder token ttl now st = (st', r) →
  (st' = st ∧ ∃ e, r = Raise e)
  ∨ ∃ l l', resource_leases st !! lid = Some l ∧ holder_id l = holder ∧ fencing_token l = token
      ∧ active_at l now = true ∧ r = Ok l'
      ∧ l' = mkLease (lease_id l) (ls_task_id l) (holder_id l) (claim l) (fencing_token l)
               (acquired_at_utc l) (now + ttl * 1000000) (Some now) (released_at_utc l)
      ∧ st' = with_leases st (<[lid := l']> (resource_leases st)).
Proof.
  intros Hinv. unfold renew_lease.
  destruct (read_lease st lid) as [l|e] eqn:El; simpl; [|intros [= <- <-]; left; eauto].
  destruct (raise_if (bool_decide _ || _) _ _) as [[]|e] eqn:E1; simpl; [|intros [= <- <-]; left; eauto].
  destruct (raise_if (negb _ || _) _ _) as [[]|e] eqn:E2; simpl; [|intros [= <- <-]; left; eauto].
  apply raise_if_ok, orb_false_iff in E1 as [H1 H2]. apply raise_if_ok, orb_false_iff in E2 as [H3 H4].
  apply bool_decide_eq_false, dec_stable in H1. apply Z.leb_gt in H2.
  apply negb_false_iff, String.eqb_eq in H3. apply negb_false_iff, Z.eqb_eq in H4.
  intros [= <- <-]. right. exists l. eexists. split; [by eapply read_lease_ok|]. do 2 (split; [done|]).
  split; [|done]. unfold active_at. rewrite H1. simpl. by apply Z.ltb_lt.
Qed.
Lemma release_cases lid holder token now st st' r :
  lease_inv st now → release_lease lid holder token now st = (st', r) →
  (st' = st ∧ ((∃ e, r = Raise e) ∨ ∃ l, r = Ok l ∧ released_at_utc l ≠ None ∧ resource_leases st !! lid = Some l
                 ∧ holder_id l = holder ∧ fencing_token l = token))
  ∨ ∃ l l', resource_leases st !! lid = Some l ∧ holder_id l = holder ∧ fencing_token l = token
      ∧ released_at_utc l = None ∧ r = Ok l'
      ∧ l' = mkLease (lease_id l) (ls_task_id l) (holder_id l) (claim l) (fencing_token l)
               (acquired_at_utc l) (expires_at_utc l) (renewed_at_utc l) (Some now)
      ∧ st' = with_leases st (<[lid := l']> (resource_leases st)).
Proof.
  intros Hinv. unfold release_lease.
  destruct (read_lease st lid) as [l|e] eqn:El; simpl; [|intros [= <- <-]; left; eauto].
  destruct (raise_if (negb _ || _) _ _) as [[]|e] eqn:E2; simpl; [|intros [= <- <-]; left; eauto].
  apply raise_if_ok, orb_false_iff in E2 as [H3 H4].
  apply negb_false_iff, String.eqb_eq in H3. apply negb_false_iff, Z.eqb_eq in H4.
  apply (read_lease_ok _ now) in El; [|done].
  case_bool_decide as E; intros [= <- <-]; [left; split; [done|right; by eauto 10]|right].
  exists l. eexists. done.
Qed.

(** ** Runs with a clock that does not go back *)
Inductive lease_run : lease_store → Z → Prop :=
  | run_start ps now : Forall (λ p, validate p = Ok ()) ps → NoDup (pl_resource_key <$> ps) →
      lease_run (register_pools ps empty_lease_store) now
  | run_tick st now now' : lease_run st now → now ≤ now' → lease_run st now'
  | run_acquire st now task holder cs ttl : lease_run st now → Forall stable cs →
      lease_run (acquire_bundle task holder cs ttl now st).1 now
  | run_renew st now lid holder token ttl : lease_run st now →
      lease_run (renew_lease lid holder token ttl now st).1 now
  | run_release st now lid holder token : lease_run st now →
      lease_run (release_lease lid holder token now st).1 now.

Lemma register_lookup ps (m : gmap string ResourcePool) k p :
  foldl (λ m p, <[pl_resource_key p := p]> m) m ps !! k = Some p →
  (p ∈ ps ∧ pl_resource_key p = k) ∨ m !! k = Some p.
Proof.
  revert m. induction ps as [|q ps IH]; intros m; simpl; [by right|].
  intros [[??]|Hm]%IH; [left; set_solver|]. rewrite lookup_insert in Hm. case_decide; [|by right].
  left. split; [set_solver|congruence].
Qed.
Lemma pool_allocatable p : validate p = Ok () → 1 ≤ allocatable_units p.
Proof.
  unfold validate, ResourcePool_model, allocatable_units. intros Hv. ok_inv.
  match goal with H : (capacity_units p <=? _) = false |- _ => apply Z.leb_gt in H end. lia.
Qed.

Lemma run_inv st now : lease_run st now → lease_inv st now.
Proof.
  induction 1 as [ps now Hv Hnd|st now now' _ IH Hle|st now task holder cs ttl _ IH Hcs
                 |st now lid holder token ttl _ IH|st now lid holder token _ IH].
  - assert (∀ k p, resource_pools (register_pools ps empty_lease_store) !! k = Some p →
      pl_resource_key p = k ∧ validate p = Ok ()) as Hp.
    { intros k p [[Hp <-]|Hp]%register_lookup; [|by simpl in Hp; rewrite lookup_empty in Hp].
      rewrite Forall_forall in Hv. auto. }
    split; simpl; try (intros *; rewrite lookup_empty; done); [done|].
    intros k p Hk. destruct (Hp k p Hk) as [_ Hvp]. unfold usage, active; simpl.
    rewrite map_to_list_empty. simpl. pose proof (pool_allocatable p Hvp). unfold lease_usage. simpl. lia.
  - by eapply lease_inv_later.
  - by apply acquire_inv.
  - destruct (renew_lease _ _ _ _ _ _) as [st' r] eqn:E. simpl.
    apply (renew_cases _ _ _ _ _ _ _ _ IH) in E as [[-> _]|(l & l' & Hl & _ & _ & Ha & _ & -> & ->)]; [done|].
    apply (replace_inv _ _ _ l); try done. destruct (li_sound _ _ IH _ _ Hl). split; try done.
    simpl. by apply Z.leb_le.
  - destruct (release_lease _ _ _ _ _) as [st' r] eqn:E. simpl.
    apply (release_cases _ _ _ _ _ _ _ IH) in E as [[-> _]|(l & l' & Hl & _ & _ & _ & _ & -> & ->)]; [done|].
    apply (replace_inv _ _ _ l); try done. by destruct (li_sound _ _ IH _ _ Hl).
Qed.

(** ** Theorems *)


(** Acquisition is all or nothing: it either leaves the store as it was
    and does not report the bundle as acquired, or reports it with one active
    lease of the caller for every claim and keeps every earlier row. *)
Theorem acquire_all_or_nothing st now task holder cs ttl st' r :
  lease_run st now → Forall stable cs → acquire_bundle task holder cs ttl now st = (st', r) →
  (st' = st ∧ ∀ b, r = Ok b → acquired b = false)
  ∨ ∃ b, r = Ok b ∧ acquired b = true ∧ Forall2 (covers task holder now st') cs (leases b)
      ∧ ∀ i l, resource_leases st !! i = Some l → resource_leases st' !! i = Some l.
Proof.
  intros Hrun Hcs E. pose proof (run_inv _ _ Hrun) as Hinv.
  assert (cs = [] ∨ cs ≠ []) as [->|Hne] by (destruct cs; auto).
  { unfold acquire_bundle in E. simpl in E. injection E as <- <-. left. split; [done|].
    intros b [-> _]%new_ok. done. }
  apply (acquire_cases _ _ _ _ _ _ _ _ Hinv Hcs) in E as [[-> Hr]|(act & created & _ & Hlo & ->)].
  { left. split; [done|]. intros b ->. by destruct Hr as [[? ?]|(? & [= <-] & ?)]. }
  right. destruct Hlo as [Hinv' _ _ _ Hframe _ _ Hcov]. rewrite new_valid; [by eauto 10|].
  destruct Hcov as [|c l cs' ls (_ & <- & _ & _ & Hl) _]; [done|].
  unfold validate, LeaseBundle_model; simpl. by rewrite (sd_task _ _ (li_sound _ _ Hinv' _ _ Hl)).
Qed.


(** Only the current holder can touch a lease: a renewal or release that
    names another holder or another fencing token raises and changes
    nothing. *)
Theorem stale_holder_fenced st now lid l holder token ttl :
  lease_run st now → resource_leases st !! lid = Some l →
  holder ≠ holder_id l ∨ token ≠ fencing_token l →
  (∃ e, renew_lease lid holder token ttl now st = (st, Raise e))
  ∧ ∃ e, release_lease lid holder token now st = (st, Raise e).
Proof.
  intros Hrun Hl Hne. pose proof (run_inv _ _ Hrun) as Hinv. split.
  - destruct (renew_lease _ _ _ _ _ _) as [st' r] eqn:E.
    apply (renew_cases _ _ _ _ _ _ _ _ Hinv) in E as [[-> [e ->]]|(k & l' & Hk & <- & <- & _)]; [eauto|].
    exfalso. assert (k = l) as -> by congruence. naive_solver.
  - destruct (release_lease _ _ _ _ _) as [st' r] eqn:E.
    apply (release_cases _ _ _ _ _ _ _ Hinv) in E
      as [[-> [[e ->]|(k & -> & _ & Hk & <- & <-)]]|(k & l' & Hk & <- & <- & _)]; [eauto|..];
      exfalso; assert (k = l) as -> by congruence; naive_solver.
Qed.

(** ** Repeating an acquisition *)
Lemma lists_return st now : lease_inv st now →
  (∃ ps, list_pools st = Ok ps) ∧ ∃ ls, list_active_leases st now = Ok ls.
Proof.
  intros Hinv. split.
  - eexists. apply (traverse_map_ok _ id). intros p ([k p'] & -> & Hin)%list_elem_of_fmap. apply new_valid.
    apply elem_of_sorted_by, elem_of_map_to_list in Hin. by destruct (li_pools _ _ Hinv _ _ Hin).
  - eexists. apply (traverse_map_ok _ id). intros l Hl. unfold active_lease_rows in Hl.
    apply elem_of_sorted_by in Hl. fold (active st now) in Hl. apply elem_of_active in Hl as [[i Hi] Ha].
    destruct (li_row _ _ Hinv _ _ Hi) as [_ Hs]. unfold reload_lease. rewrite Hs. simpl.
    rewrite new_valid; [by destruct l|].
    pose proof (active_valid now l (li_sound _ _ Hinv _ _ Hi) Ha) as Hv. by destruct l.
Qed.
Lemma held_loop pools_ act task holder ttl now cs st created :
  Forall (λ c, ∃ l, l ∈ act ∧ same_lease task holder c l = true) cs →
  ∃ ls, acquire_loop pools_ act task holder ttl now cs st created = Ok (inl (st, created ++ ls))
    ∧ Forall2 (λ c l, l ∈ act ∧ same_lease task holder c l = true) cs ls.
Proof.
  intros Hcs. revert created. induction Hcs as [|c cs (l0 & Hl0 & Hs0) _ IH]; intros created; simpl.
  { exists []. by rewrite app_nil_r. }
  destruct (List.find (same_lease task holder c) act) as [l|] eqn:E.
  - destruct (IH (created ++ [l])) as (ls & -> & Hls). exists (l :: ls). rewrite <-(assoc_L (++)).
    split; [done|]. apply find_some in E as [Hin Hs]. constructor; [by rewrite list_elem_of_In|done].
  - exfalso. apply find_none with (x := l0) in E; [congruence|by apply list_elem_of_In].
Qed.

(** Acquisition is idempotent: once a bundle is acquired, asking for the
    same claims again while its leases are active succeeds, returns active
    leases of the caller for every claim, and changes nothing. *)
Theorem reacquire_changes_nothing st now task holder cs ttl st' b t ttl' :
  lease_run st now → Forall stable cs → acquire_bundle task holder cs ttl now st = (st', Ok b) →
  acquired b = true → now ≤ t → Forall (λ l, active_at l t = true) (leases b) →
  ∃ b', acquire_bundle task holder cs ttl' t st' = (st', Ok b') ∧ acquired b' = true
    ∧ Forall2 (covers task holder t st') cs (leases b').
Proof.
  intros Hrun Hcs E Hacq Ht Hact. pose proof (run_inv _ _ Hrun) as Hinv0.
  pose proof (acquire_cases _ _ _ _ _ _ _ _ Hinv0 Hcs E)
    as [[_ [[e ?]|(? & [= <-] & ?)]]|(act & created & _ & Hlo & Hb)]; [done|congruence|].
  assert (cs ≠ []) as Hne.
  { intros ->. unfold acquire_bundle in E. simpl in E. injection E as <- Hn. apply new_ok in Hn as [-> _]. done. }
  symmetry in Hb. apply new_ok in Hb as [-> Hbv]. simpl in *.
  pose proof (lease_inv_later _ _ _ Ht (lo_inv _ _ _ _ _ _ _ _ Hlo)) as Hinv.
  destruct (lists_return st' t Hinv) as [[ps Hps] [ls Hls]].
  assert (Forall (λ c, ∃ l, l ∈ ls ∧ same_lease task holder c l = true) cs) as Hheld.
  { pose proof (lo_covers _ _ _ _ _ _ _ _ Hlo) as Hcov. clear -Hcov Hact Hinv Hls.
    induction Hcov as [|c l cs created (Hc & Htask & Hh & _ & Hl) _ IH]; [constructor|].
    apply Forall_cons in Hact as [Ha Hact]. constructor; [|by apply IH].
    exists l. rewrite (list_active_ok _ _ _ Hinv Hls), elem_of_active. split; [eauto|].
    unfold same_lease. by rewrite Hc, Htask, Hh, !String.eqb_refl, bool_decide_true. }
  destruct (held_loop (dict_of pl_resource_key ps) ls task holder ttl' t cs st' [] Hheld) as (ls' & Hrun' & Hls').
  unfold acquire_bundle. rewrite bool_decide_false by (by intros Hlen%nil_length_inv). rewrite Hps. simpl. rewrite Hls. simpl. rewrite Hrun'. simpl.
  assert (Forall2 (covers task holder t st') cs ls') as Hcov'.
  { eapply Forall2_impl; [exact Hls'|]. intros c l [Hin Hs].
    rewrite (list_active_ok _ _ _ Hinv Hls), elem_of_active in Hin. destruct Hin as [[i Hi] Ha].
    destruct (li_row _ _ Hinv _ _ Hi) as [Hid _]. unfold same_lease in Hs.
    apply andb_true_iff in Hs as [Hs Hc%bool_decide_eq_true].
    apply andb_true_iff in Hs as [Htk%String.eqb_eq Hh%String.eqb_eq]. by rewrite <-Hid in Hi. }
  eexists. split; [f_equal; apply new_valid|by split].
  unfold validate, LeaseBundle_model in *; simpl in *. apply bind_ok in Hbv as (x & -> & _). simpl.
  by destruct Hcov'.
Qed.

(** ** Witnesses *)
Definition demo_pool : ResourcePool := mkPool "machine:local/cpu_slots" RT_CPU_SLOT 4 1 None true.
Definition demo_cpu (q : Z) : ResourceClaim := mkClaim "machine:local/cpu_slots" RT_CPU_SLOT SHARED q None None.
Definition demo_path (k : string) : ResourceClaim := mkClaim k RT_PATH EXCLUSIVE 1 None None.
Definition demo_start : lease_store := register_pools [demo_pool] empty_lease_store.
Definition demo_claims : list ResourceClaim := [demo_cpu 2; demo_path "src/pkg"].
Definition demo_held : lease_store := (acquire_bundle "PP-TASK-000001" "agent-a" demo_claims 900 0 demo_start).1.
Lemma demo_start_run : lease_run demo_start 0.
Proof. apply run_start; [repeat constructor|apply NoDup_singleton]. Qed.
Lemma demo_claims_stable : Forall stable demo_claims.
Proof. repeat constructor. Qed.
Lemma demo_held_run : lease_run demo_held 0.
Proof. apply run_acquire; [apply demo_start_run|apply demo_claims_stable]. Qed.
Definition demo_lease (task : string) (c : ResourceClaim) (token : Z) : ResourceLease :=
  mkLease (match scheduler_identifier "LEASE" [task; "agent-a"; resource_key c; str_of_Z token] with Ok i => i | Raise _ => "" end)
    task "agent-a" c token 0 900000000 None None.


Lemma acquire_all_or_nothing_witness :
  acquire_bundle "PP-TASK-000001" "agent-a" demo_claims 900 0 demo_start
  = (demo_held, Ok (mkBundle "PP-TASK-000001" "agent-a"
       [demo_lease "PP-TASK-000001" (demo_cpu 2) 1; demo_lease "PP-TASK-000001" (demo_path "src/pkg") 1] true []))
  ∧ ((demo_held = demo_start ∧ ∀ b, (acquire_bundle "PP-TASK-000001" "agent-a" demo_claims 900 0 demo_start).2 = Ok b → acquired b = false)
     ∨ ∃ b, (acquire_bundle "PP-TASK-000001" "agent-a" demo_claims 900 0 demo_start).2 = Ok b ∧ acquired b = true
         ∧ Forall2 (covers "PP-TASK-000001" "agent-a" 0 demo_held) demo_claims (leases b)
         ∧ ∀ i l, resource_leases demo_start !! i = Some l → resource_leases demo_held !! i = Some l).
Proof.
  split; [vm_compute; reflexivity|].
  apply (acquire_all_or_nothing demo_start 0 "PP-TASK-000001" "agent-a" demo_claims 900 demo_held _
    demo_start_run demo_claims_stable).
  unfold demo_held. by destruct (acquire_bundle _ _ _ _ _ _).
Defined.

(** The second acquisition of a resource, after the first one was released. *)
Definition demo_key_lease := demo_lease "PP-TASK-000001" (demo_path "src/pkg") 1.
Definition demo_released : lease_store := (release_lease (lease_id demo_key_lease) "agent-a" 1 5 demo_held).1.
Lemma demo_released_run : lease_run demo_released 5.
Proof. apply run_release. apply (run_tick _ 0); [apply demo_held_run|done]. Qed.
Definition demo_again : lease_store := (acquire_bundle "PP-TASK-000002" "agent-b" [demo_path "src/pkg"] 900 5 demo_released).1.
Definition demo_again_id : string :=
  match scheduler_identifier "LEASE" ["PP-TASK-000002"; "agent-b"; "src/pkg"; "2"] with Ok i => i | Raise _ => "" end.
Definition demo_again_lease : ResourceLease :=
  mkLease demo_again_id "PP-TASK-000002" "agent-b" (demo_path "src/pkg") 2 5 900000005 None None.


Lemma stale_holder_fenced_witness :
  ∃ e, release_lease (lease_id demo_key_lease) "agent-b" 1 0 demo_held = (demo_held, Raise e).
Proof.
  refine (proj2 (stale_holder_fenced demo_held 0 (lease_id demo_key_lease) demo_key_lease "agent-b" 1 900
    demo_held_run _ _)); [vm_compute; reflexivity|left; done].
Defined.

Lemma reacquire_changes_nothing_witness :
  ∃ b', acquire_bundle "PP-TASK-000001" "agent-a" demo_claims 60 7 demo_held = (demo_held, Ok b') ∧ acquired b' = true
    ∧ Forall2 (covers "PP-TASK-000001" "agent-a" 7 demo_held) demo_claims (leases b').
Proof.
  refine (reacquire_changes_nothing demo_start 0 "PP-TASK-000001" "agent-a" demo_claims 900 demo_held
    (mkBundle "PP-TASK-000001" "agent-a" [demo_lease "PP-TASK-000001" (demo_cpu 2) 1; demo_key_lease] true []) 7 60
    demo_start_run demo_claims_stable _ _ _ _).
  - vm_compute; reflexivity.
  - reflexivity.
  - done.
  - repeat constructor.
Defined.

(** ** Corner cases *)

(** A renewal takes any time to live: one that puts the expiry at or
    before the acquisition is accepted, and the row it writes can no longer
    be read, so that every later renewal or release of the lease raises. *)
Theorem renewal_ttl_unchecked st now lid l ttl :
  lease_run st now → resource_leases st !! lid = Some l → active_at l now = true →
  now + ttl * 1000000 ≤ acquired_at_utc l →
  ∃ st' l', renew_lease lid (holder_id l) (fencing_token l) ttl now st = (st', Ok l')
    ∧ ∀ holder token ttl' now', 
        (∃ e, renew_lease lid holder token ttl' now' st' = (st', Raise e))
        ∧ ∃ e, release_lease lid holder token now' st' = (st', Raise e).
Proof.
  intros Hrun Hl Ha Hexp. pose proof (run_inv _ _ Hrun) as Hinv.
  destruct (li_row _ _ Hinv _ _ Hl) as [_ Hs]. pose proof (li_sound _ _ Hinv _ _ Hl) as Hsd.
  assert (read_lease st lid = Ok l) as Hr.
  { unfold read_lease, reload_lease. rewrite Hl, Hs. simpl. rewrite new_valid; [by destruct l|].
    pose proof (active_valid now l Hsd Ha) as Hv. by destruct l. }
  apply andb_true_iff in Ha as [Hrel%bool_decide_eq_true He%Z.ltb_lt].
  unfold renew_lease at 1. rewrite Hr. simpl.
  rewrite Hrel, bool_decide_false by (by intros []). rewrite (proj2 (Z.leb_gt _ _)) by done.
  rewrite String.eqb_refl, Z.eqb_refl. simpl. do 2 eexists. split; [done|].
  intros holder token ttl' now'. unfold renew_lease, release_lease.
  assert (∀ row, resource_leases (with_leases st (<[lid := row]> (resource_leases st))) !! lid = Some row) as Hrow
    by (intros row; simpl; apply lookup_insert_eq).
  unfold read_lease. rewrite Hrow. unfold reload_lease. simpl. rewrite Hs. simpl.
  unfold new. destruct (validate _) as [[]|e] eqn:Hv; [exfalso|simpl; by eauto].
  unfold validate, ResourceLease_model in Hv. simpl in Hv. ok_inv.
  match goal with H : (_ <=? _) = false |- _ => apply Z.leb_gt in H; lia end.
Qed.
Lemma renewal_ttl_unchecked_witness :
  ∃ st' l', renew_lease (lease_id demo_key_lease) "agent-a" 1 0 0 demo_held = (st', Ok l')
    ∧ ∀ holder token ttl' now', 
        (∃ e, renew_lease (lease_id demo_key_lease) holder token ttl' now' st' = (st', Raise e))
        ∧ ∃ e, release_lease (lease_id demo_key_lease) holder token now' st' = (st', Raise e).
Proof.
  refine (renewal_ttl_unchecked demo_held 0 (lease_id demo_key_lease) demo_key_lease 0 demo_held_run _ _ _);
    [vm_compute; reflexivity|reflexivity|vm_compute; discriminate].
Defined.

(** A store where one task holds two of the three allocatable CPU slots. *)
Definition demo_cpu_held : lease_store := (acquire_bundle "PP-TASK-000001" "agent-a" [demo_cpu 2] 900 0 demo_start).1.
(** A lease the caller already holds is counted twice while the rest of
    its request is decided: with two of three units held, asking for the
    held claim and one more unit is refused, although asking for the unit
    alone is granted. *)
Theorem held_claim_counted_twice :
  (acquire_bundle "PP-TASK-000001" "agent-a" [demo_cpu 2; demo_cpu 1] 900 1 demo_cpu_held).2
  = Ok (mkBundle "PP-TASK-000001" "agent-a" [] false ["capacity:machine:local/cpu_slots:1>0"])
  ∧ option_map acquired (match (acquire_bundle "PP-TASK-000001" "agent-a" [demo_cpu 1] 900 1 demo_cpu_held).2 with
                         | Ok b => Some b | Raise _ => None end) = Some true.
Proof. by vm_compute. Qed.

(** A request for the exclusive use of the key written [raw]. *)
Definition exclusive_request (task holder raw : string) (now : Z) (st : lease_store) : lease_store * result LeaseBundle :=
  match new_claim raw RT_SERVICE EXCLUSIVE 1 None None with
  | Ok c => acquire_bundle task holder [c] 900 now st
  | Raise e => (st, Raise e)
  end.
Definition granted (r : result LeaseBundle) : bool := match r with Ok b => acquired b | Raise _ => false end.
(** Key normalisation is not idempotent, and the store normalises again
    when it reads: two holders that ask for the exclusive use of the same
    key, written with a blank before a trailing slash, are both granted it,
    where the key without them is refused to the second holder. *)
Theorem exclusive_granted_twice :
  let '(st1, r1) := exclusive_request "PP-TASK-000001" "agent-a" "cache /" 0 demo_start in
  let '(st2, r2) := exclusive_request "PP-TASK-000002" "agent-b" "cache /" 1 st1 in
  let '(st3, r3) := exclusive_request "PP-TASK-000001" "agent-a" "cache/" 0 demo_start in
  let '(st4, r4) := exclusive_request "PP-TASK-000002" "agent-b" "cache/" 1 st3 in
  (granted r1, granted r2, granted r3, granted r4) = (true, true, true, false).
Proof. by vm_compute. Qed.
