(* ===== verification/LanePolicy.v ===== *)
(** * LanePolicy: what the lane scheduler decides per candidate

    Conflict graph ([scheduler/conflicts.py]), resource usage and admission
    ([scheduler/resources.py]), backpressure ([scheduler/backpressure.py])
    and the reserved paths of [lifecycle/takeover.py]. *)
From S2P Require Import Prelude PyStd PyRe PyJson Identifiers TaskState ControlDomain SchedulerDomain.
From Stdlib Require Import Ascii.
Local Open Scope Z_scope.

(** [tuple(sorted(set(l)))] of strings. *)
Definition sorted_set (l : list string) : list string := sorted_by id (remove_dups l).
Lemma elem_of_sorted_set x l : x ∈ sorted_set l ↔ x ∈ l.
Proof. unfold sorted_set. by rewrite elem_of_sorted_by, elem_of_remove_dups. Qed.
Lemma sorted_set_nil l : sorted_set l = [] ↔ l = [].
Proof.
  split; [|by intros ->]. intros Hl. destruct l as [|x l]; [done|].
  assert (x ∈ sorted_set (x :: l)) as Hx by (apply elem_of_sorted_set; left).
  rewrite Hl in Hx. by apply not_elem_of_nil in Hx.
Qed.

(** ** Conflicts *)

(** The contents of an [nx.Graph]: nodes, and edges as they were added. *)
Record ugraph := mkUgraph { ug_nodes : list string; ug_edges : list (string * string) }.
Definition has_edge (g : ugraph) (u v : string) : bool :=
  bool_decide ((u, v) ∈ ug_edges g) || bool_decide ((v, u) ∈ ug_edges g).
(** The scheduler only uses the neighbours sorted. *)
Definition neighbors (g : ugraph) (u : string) : list string :=
  List.filter (has_edge g u) (ug_nodes g).

Definition claims_conflict (left right : ResourceClaim) : bool := conflicts_with left right.

(** Every clash between the claims of two tasks, as the source names it. *)
Definition clash_reasons (left right : SchedulerTaskProfile) : list string :=
  l ← claims left;
  r ← claims right;
  if claims_conflict l r then
    [ResourceType_value (resource_type l) +:+ ":" +:+ resource_key l +:+ ":"
     +:+ AccessMode_value (access_mode l) +:+ "/" +:+ AccessMode_value (access_mode r)]
  else [].

(** The pairs [(ordered[i], ordered[j])] with [i < j], row by row. *)
Fixpoint ordered_pairs {A} (l : list A) : list (A * A) :=
  match l with [] => [] | x :: l => (pair x <$> l) ++ ordered_pairs l end.
Definition str_min (a b : string) : string := if pyleb a b then a else b.
Definition str_max (a b : string) : string := if pyleb a b then b else a.
Definition conflict_edge (lr : SchedulerTaskProfile * SchedulerTaskProfile) : list (result ConflictEdge) :=
  let '(l, r) := lr in
  let reasons := clash_reasons l r in
  if bool_decide (reasons = []) then []
  else [new (mkConflict (str_min (pr_task_id l) (pr_task_id r))
               (str_max (pr_task_id l) (pr_task_id r)) (sorted_set reasons))].

Definition build_conflict_graph (profiles : list SchedulerTaskProfile)
  : result (ugraph * list ConflictEdge) :=
  let ordered := sorted_by pr_task_id profiles in
  _ ← raise_if (has_duplicates (pr_task_id <$> ordered)) SchedulerConflictError
        "scheduler profiles contain duplicate task identifiers";
  edges ← traverse id (mjoin (conflict_edge <$> ordered_pairs ordered));
  Ok (mkUgraph (pr_task_id <$> ordered) ((λ e, (left_task_id e, right_task_id e)) <$> edges),
      sorted_by (λ e, (left_task_id e, right_task_id e)) edges).

(** ** Resources *)
Definition PHYSICAL_RESOURCE_TYPES : list ResourceType :=
  [RT_CPU_SLOT; RT_MEMORY_MB; RT_DISK_MB; RT_PROCESS_SLOT; RT_GPU; RT_GPU_MEMORY_MB].
Definition active_leases (r : ResourceRegistrySnapshot) (when : Z) : list ResourceLease :=
  List.filter (λ l, active_at l when) (registry_leases r).
(** [usage[key] = usage.get(key, 0) + quantity]. *)
Definition usage_of (u : gmap string Z) (key : string) : Z := match u !! key with Some n => n | None => 0 end.
Definition bump (u : gmap string Z) (c : ResourceClaim) : gmap string Z :=
  <[resource_key c := usage_of u (resource_key c) + quantity c]> u.
Definition capacity_usage (r : ResourceRegistrySnapshot) (when : Z) : gmap string Z :=
  foldl (λ u l, bump u (claim l)) ∅ (active_leases r when).

Definition claim_reasons (pools_ : gmap string ResourcePool) (leases_ : list ResourceLease)
    (u : gmap string Z) (c : ResourceClaim) : list string :=
  match pools_ !! resource_key c with
  | None =>
      if bool_decide (resource_type c ∈ PHYSICAL_RESOURCE_TYPES) then
        ["unregistered_pool:" +:+ resource_key c]
      else
        (λ l, "lease:" +:+ resource_key c +:+ ":held_by:" +:+ holder_id l)
          <$> List.filter (λ l, conflicts_with c (claim l)) leases_
  | Some pool =>
      if opt_truthy (cl_machine_id c) && opt_truthy (pl_machine_id pool)
         && negb (bool_decide (cl_machine_id c = pl_machine_id pool)) then
        ["wrong_machine:" +:+ default "" (cl_machine_id c) +:+ "!=" +:+ default "" (pl_machine_id pool)]
      else
        let available := allocatable_units pool - usage_of u (resource_key c) in
        if available <? quantity c then
          ["capacity:" +:+ resource_key c +:+ ":" +:+ str_of_Z (quantity c) +:+ ">" +:+ str_of_Z (Z.max 0 available)]
        else []
  end.
(** [extra] is [additional_usage]. *)
Definition admission_reasons (cs : list ResourceClaim) (r : ResourceRegistrySnapshot) (when : Z)
    (extra : list (string * Z)) : list string :=
  let pools_ := dict_of pl_resource_key (pools r) in
  let u := foldl (λ u kv, <[kv.1 := usage_of u kv.1 + kv.2]> u) (capacity_usage r when) extra in
  sorted_set (mjoin (claim_reasons pools_ (active_leases r when) u <$> cs)).
Definition add_claim_usage (pools_ : gmap string ResourcePool) (u : gmap string Z) (cs : list ResourceClaim)
  : gmap string Z :=
  foldl (λ u c, if bool_decide (is_Some (pools_ !! resource_key c)) then bump u c else u) u cs.

(** ** Backpressure *)
(** The reasons whose condition holds, in order. *)
Definition fired (l : list (bool * string)) : list string := snd <$> List.filter fst l.
Definition opt_ge (o : option PyFloat.float) (x : PyFloat.float) : bool :=
  match o with Some v => PyFloat.leb x v | None => false end.
Definition opt_le (o : option PyFloat.float) (x : PyFloat.float) : bool :=
  match o with Some v => PyFloat.leb v x | None => false end.

Definition halt_reasons (s : BackpressureSignals) (p : BackpressurePolicy) : list string :=
  fired [(halt_queue_depth p <=? queue_depth s, "queue_depth_halt");
         (opt_ge (memory_used_percent s) (memory_halt_percent p), "memory_pressure_halt");
         (opt_le (disk_free_percent s) (disk_halt_free_percent p), "disk_pressure_halt")].
Definition brownout_reasons (s : BackpressureSignals) (p : BackpressurePolicy) : list string :=
  fired [(brownout_queue_depth p <=? queue_depth s, "queue_depth_brownout");
         (PyFloat.leb (brownout_lag_seconds p) (scheduler_queue_lag_seconds s), "scheduler_lag_brownout");
         (opt_ge (memory_used_percent s) (memory_brownout_percent p), "memory_pressure_brownout");
         (opt_le (disk_free_percent s) (disk_brownout_free_percent p), "disk_pressure_brownout");
         (retry_storm_brownout_count p <=? retry_storm_count s, "retry_storm_brownout")].
Definition congested_reasons (s : BackpressureSignals) (p : BackpressurePolicy) : list string :=
  fired [(congested_queue_depth p <=? queue_depth s, "queue_depth_congested");
         (PyFloat.leb (congested_lag_seconds p) (scheduler_queue_lag_seconds s), "scheduler_lag_congested")].
Definition evaluate_backpressure (s : BackpressureSignals) (policy : option BackpressurePolicy)
  : result BackpressureDecision :=
  let p := default default_policy policy in
  let halt := halt_reasons s p in
  let brownout := brownout_reasons s p in
  let congested := congested_reasons s p in
  if bool_decide (halt ≠ []) then new (mkBackpressure BP_HALT_NEW_WORK (PyFloat.of_Z 0) false halt)
  else if bool_decide (brownout ≠ []) then new (mkBackpressure BP_BROWNOUT (PyFloat.of_Z 0) false brownout)
  else if bool_decide (congested ≠ []) then
    new (mkBackpressure BP_CONGESTED (congested_lane_fraction p) true congested)
  else new (mkBackpressure BP_NORMAL (PyFloat.of_Z 1) true []).

(** ** Reserved paths *)
Definition PP327_BLOCKED_PATHS : list string :=
  ["jira/tasks/PP-TASK-000327.json"; "src/project_pipeline/domain/state.py";
   "src/project_pipeline/jira_steward/reconciliation.py"; "tests/test_domain_models.py";
   "tests/test_jira_steward_domain.py"].
(** [item.replace("\\", "/").strip("/")]. *)
Definition collision_key (item : string) : string :=
  str_rstrip is_slash (str_lstrip is_slash (str_replace_char (ascii_of_nat 92) "/" item)).
Definition has_path_collision (left_paths right_paths : list string) : bool :=
  existsb (λ p, str_in p (collision_key <$> right_paths)) (collision_key <$> left_paths).
Definition pp327_collision (paths : list string) : bool :=
  existsb (λ p, str_in p PP327_BLOCKED_PATHS) (collision_key <$> paths).
Definition claim_is_admissible (paths : list string) : bool := negb (pp327_collision paths).
