(* ===== verification/LaneScheduler.v ===== *)
(** * LaneScheduler: [scheduler/engine.py], [scheduler/ortools_optimizer.py]
      and [scheduler/simulation.py]

    [DynamicLaneScheduler.plan] screens the ready tasks one by one, then
    selects a set of them: by enumeration when there are few, with CP-SAT
    when OR-Tools is installed, greedily otherwise.  CP-SAT is a third-party
    solver and so a parameter: a function from a model (Boolean variables,
    linear constraints, a linear objective) to a status and an assignment. *)
From S2P Require Import Prelude PyStd PyRe PyJson Identifiers TaskState ControlDomain DepGraph ControlGraph SchedulerDomain LanePolicy.
Local Open Scope Z_scope.

(** ** CP-SAT *)
Record cp_model := mkCp {
  cp_vars : list string;
  cp_constraints : list (list (Z * string) * Z);
  cp_objective : list (Z * string);
}.
Inductive cp_status := CP_UNKNOWN | CP_MODEL_INVALID | CP_FEASIBLE | CP_INFEASIBLE | CP_OPTIMAL.
#[export] Instance cp_status_eq_dec : EqDecision cp_status.
Proof. solve_decision. Defined.
Definition cp_solver := cp_model → cp_status * (string → bool).

Definition linear (terms : list (Z * string)) (v : string → bool) : Z :=
  Z_sum ((λ t, if v t.2 then t.1 else 0) <$> terms).
Definition satisfies (m : cp_model) (v : string → bool) : Prop :=
  Forall (λ c, linear c.1 v ≤ c.2) (cp_constraints m).
(** What the solver documents: an accepted status comes with a feasible
    assignment, [OPTIMAL] with one that no feasible one beats. *)
Record CpSatLaws (solve : cp_solver) : Prop := {
  cp_feasible m s v : solve m = (s, v) → s = CP_FEASIBLE ∨ s = CP_OPTIMAL → satisfies m v;
  cp_optimal m v w : solve m = (CP_OPTIMAL, v) → satisfies m w →
    linear (cp_objective m) w ≤ linear (cp_objective m) v;
}.

Record DynamicLaneScheduler := mkScheduler {
  exact_candidate_limit : Z;
  ortools_optimizer : option cp_solver;  (** [None]: OR-Tools is not installed *)
}.
Definition new_scheduler (limit : Z) (ortools : option cp_solver) : result DynamicLaneScheduler :=
  _ ← raise_if (limit <? 1) ValueError "exact candidate limit must be positive";
  Ok (mkScheduler limit ortools).

Definition rank_key (p : SchedulerTaskProfile) : Z * string := (sequence_rank p, pr_task_id p).

(** [OrToolsSafeSetOptimizer.select]: the model it builds. *)
Definition claimed (key : string) (p : SchedulerTaskProfile) : Z :=
  Z_sum (quantity <$> List.filter (λ c, String.eqb (resource_key c) key) (claims p)).
Definition lane_constraint (ordered : list SchedulerTaskProfile) (limit : Z) : list (Z * string) * Z :=
  ((λ p, (1, pr_task_id p)) <$> ordered, limit).
Definition edge_constraints (ordered : list SchedulerTaskProfile) (g : ugraph) : list (list (Z * string) * Z) :=
  (λ e, ([(1, e.1); (1, e.2)], 1))
    <$> List.filter (λ e, str_in e.1 (pr_task_id <$> ordered) && str_in e.2 (pr_task_id <$> ordered))
          (sorted_by id (ug_edges g)).
Definition pool_constraint (ordered : list SchedulerTaskProfile) (u : gmap string Z) (kp : string * ResourcePool)
  : list (list (Z * string) * Z) :=
  let '(key, pool) := kp in
  let available := Z.max 0 (allocatable_units pool - usage_of u key) in
  let terms := (λ p, (claimed key p, pr_task_id p)) <$> List.filter (λ p, negb (claimed key p =? 0)) ordered in
  if bool_decide (terms = []) then [] else [(terms, available)].
(** The weight of the [index]-th of [n] candidates. *)
Definition objective_weight (n : Z) (p : SchedulerTaskProfile) (index : Z) : Z :=
  utility_score p * 1000 * 1000000 + 1000 + (n - index).
Definition cp_of (ordered : list SchedulerTaskProfile) (g : ugraph) (pools_ : gmap string ResourcePool)
    (u : gmap string Z) (limit : Z) : cp_model :=
  let n := Z.of_nat (length ordered) in
  mkCp (pr_task_id <$> ordered)
    (lane_constraint ordered limit :: edge_constraints ordered g
     ++ mjoin (pool_constraint ordered u <$> sorted_by fst (map_to_list pools_)))
    ((λ ip, (objective_weight n ip.2 ip.1, pr_task_id ip.2)) <$> zip (seqZ 0 n) ordered).
Definition ortools_select (solve : cp_solver) (candidates : list SchedulerTaskProfile) (g : ugraph)
    (pools_ : gmap string ResourcePool) (u : gmap string Z) (limit : Z) : result (list string) :=
  let ordered := sorted_by rank_key candidates in
  if bool_decide (length ordered = O) || (limit <=? 0) then Ok []
  else
    let '(status, v) := solve (cp_of ordered g pools_ u limit) in
    (_ ← raise_if (negb (bool_decide (status = CP_OPTIMAL) || bool_decide (status = CP_FEASIBLE)))
           OrToolsOptimizerError "CP-SAT returned unsupported status";
     Ok (List.filter v (pr_task_id <$> ordered))).

(** ** Validity of a selection *)
Definition _compatible (candidate : SchedulerTaskProfile) (selected : list SchedulerTaskProfile) (g : ugraph) : bool :=
  forallb (λ item, negb (has_edge g (pr_task_id candidate) (pr_task_id item))) selected.
Definition _fits_capacity (candidate : SchedulerTaskProfile) (selected : list SchedulerTaskProfile)
    (pools_ : gmap string ResourcePool) (base : gmap string Z) : bool :=
  let u := foldl (λ u item, add_claim_usage pools_ u (claims item)) base selected in
  forallb (λ c, match pools_ !! resource_key c with
                | Some pool => negb (allocatable_units pool <? usage_of u (resource_key c) + quantity c)
                | None => true
                end) (claims candidate).

(** The running usage of a selection, [None] once a pool would overflow. *)
Fixpoint take_claims (pools_ : gmap string ResourcePool) (u : gmap string Z) (cs : list ResourceClaim)
  : option (gmap string Z) :=
  match cs with
  | [] => Some u
  | c :: cs =>
      match pools_ !! resource_key c with
      | Some pool =>
          if allocatable_units pool <? usage_of u (resource_key c) + quantity c then None
          else take_claims pools_ (bump u c) cs
      | None => take_claims pools_ u cs
      end
  end.
Fixpoint take_items (pools_ : gmap string ResourcePool) (u : gmap string Z) (items : list SchedulerTaskProfile)
  : option (gmap string Z) :=
  match items with
  | [] => Some u
  | item :: items => match take_claims pools_ u (claims item) with
                     | Some u' => take_items pools_ u' items
                     | None => None
                     end
  end.
Definition conflicting (g : ugraph) (sel : list SchedulerTaskProfile) : bool :=
  existsb (λ ab, has_edge g (pr_task_id ab.1) (pr_task_id ab.2)) (ordered_pairs sel).
Definition _selection_is_valid (selected : list SchedulerTaskProfile) (g : ugraph)
    (pools_ : gmap string ResourcePool) (base : gmap string Z) (limit : Z) : bool :=
  if limit <? Z.of_nat (length selected) then false
  else if conflicting g selected then false
  else bool_decide (is_Some (take_items pools_ base selected)).

(** ** Exact selection *)
(** [itertools.combinations(l, n)], in its order. *)
Fixpoint combinations {A} (n : nat) (l : list A) : list (list A) :=
  match n, l with
  | O, _ => [[]]
  | S _, [] => []
  | S m, x :: l => (cons x <$> combinations m l) ++ combinations n l
  end.
Definition utility (sel : list SchedulerTaskProfile) : Z := Z_sum (utility_score <$> sel).
Definition selection_key (combo : list SchedulerTaskProfile) : Z * (Z * list string) :=
  (utility combo, (Z.of_nat (length combo), reverse (pr_task_id <$> combo))).
Definition exact_step (g : ugraph) (pools_ : gmap string ResourcePool) (base : gmap string Z)
    (best : (Z * (Z * list string)) * list SchedulerTaskProfile) (combo : list SchedulerTaskProfile) :=
  if conflicting g combo then best
  else match take_items pools_ base combo with
       | None => best
       | Some _ => if pyltb best.1 (selection_key combo) then (selection_key combo, combo) else best
       end.
Definition _exact_select (candidates : list SchedulerTaskProfile) (g : ugraph)
    (pools_ : gmap string ResourcePool) (base : gmap string Z) (limit : Z) : list SchedulerTaskProfile :=
  let ordered := sorted_by rank_key candidates in
  let sizes := seqZ 1 (Z.min limit (Z.of_nat (length ordered))) in
  (foldl (exact_step g pools_ base) ((-1, (-1, [])), [])
     (mjoin ((λ size, combinations (Z.to_nat size) ordered) <$> sizes))).2.

(** ** Greedy selection *)
Definition greedy_key (p : SchedulerTaskProfile) : Z * (Z * string) := (- utility_score p, rank_key p).
Fixpoint greedy_loop (g : ugraph) (pools_ : gmap string ResourcePool) (base : gmap string Z) (limit : Z)
    (ordered selected : list SchedulerTaskProfile) : list SchedulerTaskProfile :=
  match ordered with
  | [] => selected
  | candidate :: ordered =>
      if limit <=? Z.of_nat (length selected) then selected
      else if _compatible candidate selected g && _fits_capacity candidate selected pools_ base
      then greedy_loop g pools_ base limit ordered (selected ++ [candidate])
      else greedy_loop g pools_ base limit ordered selected
  end.
Definition _greedy_select (candidates : list SchedulerTaskProfile) (g : ugraph)
    (pools_ : gmap string ResourcePool) (base : gmap string Z) (limit : Z) : list SchedulerTaskProfile :=
  greedy_loop g pools_ base limit (sorted_by greedy_key candidates) [].

(** ** The plan *)
Definition lane_limit_of (candidates : Z) (max_lanes : option Z) (d : BackpressureDecision) : result Z :=
  let natural := match max_lanes with None => candidates | Some m => Z.max 0 (Z.min m candidates) end in
  scaled ← PyFloat.floor (PyFloat.mul (PyFloat.of_Z natural) (lane_fraction d));
  let limit := Z.min natural scaled in
  Ok (if (0 <? natural) && admit_new_work d && PyFloat.ltb (PyFloat.of_Z 0) (lane_fraction d) && (limit =? 0)
      then 1 else limit).

(** The checks on one candidate: a denial, or [None] for the shortlist. *)
Definition screen (d : BackpressureDecision) (r : ResourceRegistrySnapshot) (now : Z) (c : SchedulerTaskProfile)
  : result (option AdmissionDecision) :=
  let deny st reasons := (a ← new (mkAdmission (pr_task_id c) st false reasons); Ok (Some a)) in
  let path_claims := resource_key <$> List.filter (λ cl, bool_decide (resource_type cl = RT_PATH)) (claims c) in
  let reasons := admission_reasons (claims c) r now [] in
  if negb (admit_new_work d) then deny AD_BACKPRESSURE ["backpressure:" +:+ BackpressureMode_value (bp_mode d)]
  else if negb (pr_policy_eligible c) then deny AD_POLICY_DENIED ["policy_denied"]
  else if negb (workspace_isolated c) then deny AD_WORKSPACE_UNSAFE ["workspace_not_isolated"]
  else if bool_decide (path_claims ≠ []) && negb (claim_is_admissible path_claims) then
    deny AD_POLICY_DENIED ["pp327_owned_path_collision"]
  else if bool_decide (reasons ≠ []) then
    deny (if existsb (str_startswith "capacity:") reasons then AD_CAPACITY_EXHAUSTED else AD_LEASE_UNAVAILABLE)
      reasons
  else Ok None.
Fixpoint screen_all (d : BackpressureDecision) (r : ResourceRegistrySnapshot) (now : Z)
    (cs : list SchedulerTaskProfile) (adm : gmap string AdmissionDecision) (prelim : list SchedulerTaskProfile)
  : result (gmap string AdmissionDecision * list SchedulerTaskProfile) :=
  match cs with
  | [] => Ok (adm, prelim)
  | c :: cs =>
      denial ← screen d r now c;
      match (denial : option AdmissionDecision) with
      | Some a => screen_all d r now cs (<[pr_task_id c := a]> adm) prelim
      | None => screen_all d r now cs adm (prelim ++ [c])
      end
  end.

Definition choose (self : DynamicLaneScheduler) (prelim : list SchedulerTaskProfile) (g : ugraph)
    (pools_ : gmap string ResourcePool) (base : gmap string Z) (limit : Z)
  : list SchedulerTaskProfile * SelectionMethod :=
  let few := Z.of_nat (length prelim) <=? exact_candidate_limit self in
  let greedy := (_greedy_select prelim g pools_ base limit, DETERMINISTIC_GREEDY) in
  if (limit <=? 0) || bool_decide (prelim = []) then ([], if few then EXACT_BOUNDED else DETERMINISTIC_GREEDY)
  else if few then (_exact_select prelim g pools_ base limit, EXACT_BOUNDED)
  else match ortools_optimizer self with
       | None => greedy
       | Some solve =>
           match ortools_select solve prelim g pools_ base limit with
           | Raise _ => greedy
           | Ok ids =>
               let sel := List.filter (λ p, str_in (pr_task_id p) ids) prelim in
               if _selection_is_valid sel g pools_ base limit then (sel, ORTOOLS_CP_SAT) else greedy
           end
       end.

(** The decision on a shortlisted candidate once the selection is known. *)
Definition final_admission (g : ugraph) (selected_ids : list string) (c : SchedulerTaskProfile)
  : result AdmissionDecision :=
  if str_in (pr_task_id c) selected_ids then new (mkAdmission (pr_task_id c) AD_ADMITTED true [])
  else
    let clash := sorted_by id (List.filter (λ n, str_in n selected_ids) (neighbors g (pr_task_id c))) in
    if bool_decide (clash ≠ []) then
      new (mkAdmission (pr_task_id c) AD_CONFLICT false ((λ n, "conflicts_with:" +:+ n) <$> clash))
    else new (mkAdmission (pr_task_id c) AD_CAPACITY_EXHAUSTED false ["lane_or_capacity_limit"]).
Fixpoint admit_all (g : ugraph) (selected_ids : list string) (cs : list SchedulerTaskProfile)
    (adm : gmap string AdmissionDecision) : result (gmap string AdmissionDecision) :=
  match cs with
  | [] => Ok adm
  | c :: cs => a ← final_admission g selected_ids c; admit_all g selected_ids cs (<[pr_task_id c := a]> adm)
  end.
Definition lane_of (snapshot : string) (ip : Z * SchedulerTaskProfile) : result LaneAssignment :=
  let '(index, item) := ip in
  lid ← scheduler_identifier "LANE" [snapshot; pr_task_id item; str_of_Z index];
  new (mkLane lid (pr_task_id item) index (utility_score item) (claims item)).
Definition assign_lanes (snapshot : string) (selected : list SchedulerTaskProfile) : result (list LaneAssignment) :=
  let ordered := sorted_by rank_key selected in
  traverse (lane_of snapshot) (zip (seqZ 1 (Z.of_nat (length ordered))) ordered).

(** The profiles of the ready tasks, in the control plane's order. *)
Definition ready_candidates (control : ControlSnapshot) (profiles : list SchedulerTaskProfile)
  : list SchedulerTaskProfile :=
  let by_id_ := dict_of pr_task_id profiles in
  omap (λ i, by_id_ !! si_task_id i) (ordered_ready_work (sequence control)).

Definition plan (self : DynamicLaneScheduler) (control : ControlSnapshot) (profiles : list SchedulerTaskProfile)
    (registry : ResourceRegistrySnapshot) (signals : option BackpressureSignals)
    (policy : option BackpressurePolicy) (max_lanes : option Z) (now : Z) : result SchedulerPlan :=
  let candidates := ready_candidates control profiles in
  let n := Z.of_nat (length candidates) in
  decision ← evaluate_backpressure
               (default (mkSignals n (PyFloat.of_Z 0) None None 0 0 0) signals) policy;
  limit ← lane_limit_of n max_lanes decision;
  '(g, conflicts_) ← build_conflict_graph candidates;
  let pools_ := dict_of pl_resource_key (pools registry) in
  let base := capacity_usage registry now in
  '(adm, prelim) ← screen_all decision registry now candidates ∅ [];
  let '(selected, method) := choose self prelim g pools_ base limit in
  adm' ← admit_all g (pr_task_id <$> selected) prelim adm;
  lanes_ ← assign_lanes (snapshot_id control) selected;
  let ids := str_join "," (ln_task_id <$> lanes_) in
  pid ← scheduler_identifier "SCHED"
          [snapshot_id control; registry_id registry; BackpressureMode_value (bp_mode decision);
           str_of_Z limit; if str_truthy ids then ids else "none"];
  admissions_ ← traverse (λ c, dict_get adm' (pr_task_id c)) (sorted_by pr_task_id candidates);
  new (mkPlan pid (cs_project_id control) (snapshot_id control) (registry_id registry) decision method
         n limit lanes_ conflicts_ admissions_ now).

(** ** Simulation *)
Definition simulate_scenario (ortools : option cp_solver) (name : string) (control : ControlSnapshot)
    (profiles : list SchedulerTaskProfile) (registry : ResourceRegistrySnapshot)
    (signals : option BackpressureSignals) (expected : option Z) (now : Z) : result SchedulerSimulationResult :=
  self ← new_scheduler 18 ortools;
  p ← plan self control profiles registry signals None None now;
  let seen := Z.of_nat (length (lanes p)) in
  let findings_ := match expected with
    | Some e => if negb (seen =? e) then
                  ["expected " +:+ str_of_Z e +:+ " lanes but observed " +:+ str_of_Z seen] else []
    | None => [] end in
  sid ← scheduler_identifier "SIM" [name; plan_id p];
  new (mkSimulation sid name p expected (bool_decide (findings_ = [])) findings_).
