(* ===== verification/LaneSelection.v ===== *)
(** * LaneSelection: what the three selection methods compute

    [safe] says what a selection promises: it fits the lane limit, no two
    of its tasks conflict, and no pool is over-committed.  The validity
    check of the code decides it; the exact method returns a safe set of
    the largest utility; CP-SAT solves the same problem. *)
From S2P Require Import Prelude PyStd PyRe PyJson Identifiers TaskState ControlDomain DepGraph ControlGraph SchedulerDomain LanePolicy LaneScheduler.
Local Open Scope Z_scope.

(** ** Demand on a pool *)
Definition demand (k : string) (cs : list ResourceClaim) : Z :=
  Z_sum (quantity <$> List.filter (λ c, String.eqb (resource_key c) k) cs).
Definition all_claims (sel : list SchedulerTaskProfile) : list ResourceClaim := mjoin (claims <$> sel).
Lemma all_claims_cons p s : all_claims (p :: s) = claims p ++ all_claims s.
Proof. done. Qed.
Definition positive (cs : list ResourceClaim) : Prop := Forall (λ c, 1 ≤ quantity c) cs.
(** A profile as the code can build it. *)
Record wf_profile (p : SchedulerTaskProfile) : Prop := {
  wp_valid : validate p = Ok ();
  wp_positive : positive (claims p);
}.

Lemma demand_cons k c cs :
  demand k (c :: cs) = (if String.eqb (resource_key c) k then quantity c else 0) + demand k cs.
Proof. unfold demand. simpl. by destruct (String.eqb _ _). Qed.
Lemma demand_app k cs ds : demand k (cs ++ ds) = demand k cs + demand k ds.
Proof. induction cs as [|c cs IH]; [done|]. simpl. rewrite !demand_cons, IH. lia. Qed.
Lemma demand_nonneg k cs : positive cs → 0 ≤ demand k cs.
Proof.
  induction 1 as [|c cs Hc _ IH]; [done|]. rewrite demand_cons. destruct (String.eqb _ _); lia.
Qed.
Lemma demand_unclaimed k cs : (∀ c, c ∈ cs → resource_key c ≠ k) → demand k cs = 0.
Proof.
  induction cs as [|c cs IH]; intros Hc; [done|]. rewrite demand_cons, IH by set_solver.
  destruct (String.eqb_spec (resource_key c) k); [|done]. exfalso. apply (Hc c); [set_solver|done].
Qed.
Lemma demand_perm k cs ds : cs ≡ₚ ds → demand k cs = demand k ds.
Proof.
  induction 1 as [|c cs ds _ IH|c d cs|cs ds es _ IH1 _ IH2]; rewrite ?demand_cons; try lia; done.
Qed.
Lemma all_claims_perm s t : s ≡ₚ t → all_claims s ≡ₚ all_claims t.
Proof.
  induction 1 as [|p s t _ IH|p q s|s t u _ IH1 _ IH2]; rewrite ?all_claims_cons; [done|..].
  - by rewrite IH.
  - rewrite !app_assoc. apply Permutation_app_tail, Permutation_app_comm.
  - by rewrite IH1.
Qed.
Lemma all_claims_positive s : Forall wf_profile s → positive (all_claims s).
Proof.
  induction 1 as [|p s Hp _ IH]; [constructor|]. rewrite all_claims_cons.
  apply Forall_app. split; [by apply wp_positive|done].
Qed.
Lemma demand_all_claims k s : demand k (all_claims s) = Z_sum (claimed k <$> s).
Proof.
  induction s as [|p s IH]; [done|]. rewrite all_claims_cons, demand_app, IH. done.
Qed.

(** ** The running usage *)
Lemma usage_bump u c k :
  usage_of (bump u c) k = usage_of u k + (if String.eqb (resource_key c) k then quantity c else 0).
Proof.
  unfold usage_of, bump. rewrite lookup_insert.
  destruct (String.eqb_spec (resource_key c) k) as [->|Hne].
  - rewrite decide_True by done. done.
  - rewrite decide_False by done. lia.
Qed.
Lemma take_claims_app pools_ u cs ds :
  take_claims pools_ u (cs ++ ds) = match take_claims pools_ u cs with
                                    | Some u' => take_claims pools_ u' ds | None => None end.
Proof.
  revert u. induction cs as [|c cs IH]; intros u; [done|]. simpl.
  destruct (pools_ !! resource_key c) as [pool|]; [|done]. by destruct (_ <? _).
Qed.
Lemma take_items_flat pools_ u s : take_items pools_ u s = take_claims pools_ u (all_claims s).
Proof.
  revert u. induction s as [|p s IH]; intros u; [done|].
  rewrite all_claims_cons, take_claims_app. simpl. destruct (take_claims pools_ u (claims p)); [apply IH|done].
Qed.

(** Every pool that is claimed at all has room for the whole demand. *)
Definition fits (pools_ : gmap string ResourcePool) (base : gmap string Z) (cs : list ResourceClaim) : Prop :=
  ∀ k pool, pools_ !! k = Some pool → (∃ c, c ∈ cs ∧ resource_key c = k) →
    usage_of base k + demand k cs ≤ allocatable_units pool.

Lemma take_claims_fits pools_ u cs : positive cs → is_Some (take_claims pools_ u cs) ↔ fits pools_ u cs.
Proof.
  intros Hp. revert u. induction Hp as [|c cs Hc Hp IH]; intros u; simpl.
  { split; [|by eexists]. intros _ k pool _ (c & Hc & _). by apply not_elem_of_nil in Hc. }
  destruct (pools_ !! resource_key c) as [pool|] eqn:E.
  - destruct (Z.ltb_spec (allocatable_units pool) (usage_of u (resource_key c) + quantity c)) as [Hlt|Hge].
    + split; [by intros []|]. intros Hf. exfalso.
      specialize (Hf _ _ E (ex_intro _ c (conj (list_elem_of_here c cs) eq_refl))).
      rewrite demand_cons, String.eqb_refl in Hf. pose proof (demand_nonneg (resource_key c) cs Hp). lia.
    + rewrite IH. split; intros Hf k pool' Hk Hex.
      * rewrite demand_cons. destruct (String.eqb_spec (resource_key c) k) as [<-|Hne].
        -- assert (pool' = pool) as -> by congruence.
           destruct (decide (Exists (λ d, resource_key d = resource_key c) cs)) as [Hd|Hd].
           ++ apply Exists_exists in Hd. specialize (Hf _ _ Hk Hd).
              rewrite usage_bump, String.eqb_refl in Hf. lia.
           ++ rewrite demand_unclaimed; [lia|]. intros d Hd' Hk'. apply Hd, Exists_exists. eauto.
        -- destruct Hex as (d & Hd & Hk'). apply elem_of_cons in Hd as [->|Hd]; [done|].
           specialize (Hf _ _ Hk (ex_intro _ d (conj Hd Hk'))).
           rewrite usage_bump in Hf. destruct (String.eqb_spec (resource_key c) k); [done|lia].
      * destruct Hex as (d & Hd & Hk'). specialize (Hf _ _ Hk (ex_intro _ d (conj (list_elem_of_further _ _ _ Hd) Hk'))).
        rewrite demand_cons in Hf. rewrite usage_bump. destruct (String.eqb _ _); lia.
  - rewrite IH. split; intros Hf k pool Hk (d & Hd & Hk').
    + apply elem_of_cons in Hd as [->|Hd]; [congruence|]. rewrite demand_cons.
      destruct (String.eqb_spec (resource_key c) k); [congruence|]. apply Hf; eauto.
    + specialize (Hf _ _ Hk (ex_intro _ d (conj (list_elem_of_further _ _ _ Hd) Hk'))). rewrite demand_cons in Hf.
      destruct (String.eqb_spec (resource_key c) k); [congruence|done].
Qed.
Lemma fits_perm pools_ u cs ds : cs ≡ₚ ds → fits pools_ u cs → fits pools_ u ds.
Proof.
  intros Hp Hf k pool Hk (c & Hc & Hkc). rewrite <-(demand_perm k _ _ Hp). apply Hf; [done|].
  exists c. by rewrite Hp.
Qed.

(** ** Conflicts within a selection *)
Lemma has_edge_sym g a b : has_edge g a b = has_edge g b a.
Proof. unfold has_edge. apply orb_comm. Qed.
Lemma elem_of_ordered_pairs {A} (l : list A) a b : (a, b) ∈ ordered_pairs l → a ∈ l ∧ b ∈ l.
Proof.
  induction l as [|x l IH]; simpl; [by intros ?%not_elem_of_nil|].
  rewrite elem_of_app, list_elem_of_fmap. intros [(y & [= -> ->] & Hy)|Hab]; [set_solver|].
  apply IH in Hab. set_solver.
Qed.
Lemma ordered_pairs_complete {A} (l : list A) a b : a ∈ l → b ∈ l → a ≠ b →
  (a, b) ∈ ordered_pairs l ∨ (b, a) ∈ ordered_pairs l.
Proof.
  induction l as [|x l IH]; simpl; [by intros ?%not_elem_of_nil|].
  rewrite !elem_of_app, !list_elem_of_fmap, !elem_of_cons.
  intros [->|Ha] [->|Hb] Hne; [done|left; left; eauto|right; left; eauto|].
  destruct (IH Ha Hb Hne); auto.
Qed.
Lemma ordered_pairs_distinct {A} (l : list A) a b : NoDup l → (a, b) ∈ ordered_pairs l → a ≠ b.
Proof.
  induction 1 as [|x l Hx _ IH]; simpl; [by intros ?%not_elem_of_nil|].
  rewrite elem_of_app, list_elem_of_fmap. intros [(y & [= -> ->] & Hy)|Hab]; [set_solver|auto].
Qed.

Definition compatible_set (g : ugraph) (s : list SchedulerTaskProfile) : Prop :=
  ∀ a b, a ∈ s → b ∈ s → a ≠ b → has_edge g (pr_task_id a) (pr_task_id b) = false.
Lemma conflicting_spec g s : NoDup s → conflicting g s = false ↔ compatible_set g s.
Proof.
  intros Hnd. unfold conflicting, compatible_set. rewrite <-not_true_iff_false, existsb_exists. split.
  - intros Hn a b Ha Hb Hne. apply not_true_iff_false. intros He. apply Hn.
    destruct (ordered_pairs_complete s a b Ha Hb Hne) as [Hp|Hp]; eexists; (split; [apply list_elem_of_In; exact Hp|]);
      simpl; [done|by rewrite has_edge_sym].
  - intros Hc ([a b] & Hp%list_elem_of_In & He). simpl in He. destruct (elem_of_ordered_pairs _ _ _ Hp).
    rewrite Hc in He; [done..|]. by eapply ordered_pairs_distinct.
Qed.

(** ** Safe selections *)
Record safe (g : ugraph) (pools_ : gmap string ResourcePool) (base : gmap string Z) (limit : Z)
    (s : list SchedulerTaskProfile) : Prop := {
  safe_limit : Z.of_nat (length s) ≤ limit;
  safe_conflicts : compatible_set g s;
  safe_capacity : fits pools_ base (all_claims s);
}.
Lemma valid_iff_safe g pools_ base limit s : NoDup s → Forall wf_profile s →
  _selection_is_valid s g pools_ base limit = true ↔ safe g pools_ base limit s.
Proof.
  intros Hnd Hwf. unfold _selection_is_valid.
  rewrite take_items_flat. pose proof (take_claims_fits pools_ base _ (all_claims_positive _ Hwf)) as Hf.
  pose proof (conflicting_spec g s Hnd) as Hc.
  destruct (Z.ltb_spec limit (Z.of_nat (length s))).
  { split; [done|]. intros [? _ _]. lia. }
  destruct (conflicting g s) eqn:E.
  { split; [done|]. intros [_ Hs _]. by apply Hc in Hs. }
  rewrite bool_decide_eq_true, Hf. split; [|by intros [_ _ ?]]. intros ?. split; [done|by apply Hc|done].
Qed.
Lemma safe_perm g pools_ base limit s t : s ≡ₚ t → safe g pools_ base limit s → safe g pools_ base limit t.
Proof.
  intros Hp [H1 H2 H3]. split.
  - by rewrite <-(Permutation_length Hp).
  - intros a b Ha Hb. apply H2; by rewrite Hp.
  - by eapply fits_perm; [apply all_claims_perm|].
Qed.

(** ** Combinations *)
Lemma elem_of_combinations {A} n (l c : list A) : c ∈ combinations n l ↔ c `sublist_of` l ∧ length c = n.
Proof.
  revert n c. induction l as [|x l IH]; intros [|n] c; simpl.
  - rewrite list_elem_of_singleton. split; [by intros ->|]. by intros [->%sublist_nil_r _].
  - split; [by intros ?%not_elem_of_nil|]. by intros [->%sublist_nil_r ?].
  - rewrite list_elem_of_singleton. split; [intros ->; split; [apply sublist_nil_l|done]|].
    intros [_ H%nil_length_inv]. done.
  - rewrite elem_of_app, list_elem_of_fmap. setoid_rewrite IH. rewrite sublist_cons_r. split.
    + intros [(d & -> & ? & <-)|[??]]; split; eauto.
    + intros [[?|(d & -> & ?)] Hlen]; [by right|]. left. exists d. simpl in Hlen. split; [done|]. split; [done|lia].
Qed.

(** ** The enumeration keeps the best valid combination *)
Section exact.
Context (g : ugraph) (pools_ : gmap string ResourcePool) (base : gmap string Z).
Definition admissible (c : list SchedulerTaskProfile) : Prop :=
  conflicting g c = false ∧ is_Some (take_items pools_ base c).
Definition beats (k : Z * (Z * list string)) (c : list SchedulerTaskProfile) : Prop :=
  pyleb (selection_key c) k = true.

Lemma exact_fold best cs :
  let r := foldl (exact_step g pools_ base) best cs in
  (r = best ∨ (r.2 ∈ cs ∧ admissible r.2 ∧ r.1 = selection_key r.2))
  ∧ pyleb best.1 r.1 = true ∧ ∀ c, c ∈ cs → admissible c → beats r.1 c.
Proof.
  revert best. induction cs as [|c cs IH]; intros best; simpl.
  { split_and!; [by left|apply pyleb_refl|by intros c ?%not_elem_of_nil]. }
  destruct (IH (exact_step g pools_ base best c)) as (Hr & Hle & Hall).
  set (r := foldl _ _ cs) in *.
  assert (exact_step g pools_ base best c = best ∨ (admissible c ∧ exact_step g pools_ base best c = (selection_key c, c))) as Hs.
  { unfold exact_step. destruct (conflicting g c) eqn:E1; [by left|].
    destruct (take_items pools_ base c) eqn:E2; [|by left]. destruct (pyltb _ _); [right|by left].
    split; [split; [done|by rewrite E2]|done]. }
  assert (pyleb best.1 (exact_step g pools_ base best c).1 = true
          ∧ (admissible c → pyleb (selection_key c) (exact_step g pools_ base best c).1 = true)) as [Hb Hc].
  { unfold exact_step, admissible. destruct (conflicting g c); [split; [apply pyleb_refl|by intros [? _]]|].
    destruct (take_items pools_ base c); [|split; [apply pyleb_refl|by intros [_ []]]].
    unfold pyltb. destruct (pyleb (selection_key c) best.1) eqn:E; simpl; [split; [apply pyleb_refl|done]|].
    split; [|intros _; apply pyleb_refl]. destruct (pyleb_total best.1 (selection_key c)); [done|congruence]. }
  split_and!.
  - destruct Hr as [Hr|(Hin & Ha & Hk)]; [|right; set_solver].
    destruct Hs as [Hs|[Ha Hs]]; [left; congruence|right]. rewrite Hr, Hs. simpl. set_solver.
  - by eapply pyleb_trans.
  - intros d Hd Ha. apply elem_of_cons in Hd as [->|Hd]; [|by apply Hall].
    unfold beats. eapply pyleb_trans; [by apply Hc|done].
Qed.
End exact.

(** A set of candidates in the order of the enumeration. *)
Lemma fmap_nodup_inj {A B} (f : A → B) l x y : NoDup (f <$> l) → x ∈ l → y ∈ l → f x = f y → x = y.
Proof.
  induction l as [|z l IH]; [by intros _ ?%not_elem_of_nil|]. rewrite fmap_cons, NoDup_cons.
  intros [Hz Hl] [->|Hx]%elem_of_cons [->|Hy]%elem_of_cons E; [done| | |by apply IH];
    exfalso; apply Hz, list_elem_of_fmap; eauto.
Qed.
Lemma arrange (ordered s : list SchedulerTaskProfile) :
  NoDup (pr_task_id <$> ordered) → NoDup s → (∀ p, p ∈ s → p ∈ ordered) →
  ∃ s', s' `sublist_of` ordered ∧ s' ≡ₚ s.
Proof.
  intros Hnd Hs Hsub. exists (List.filter (λ p, str_in (pr_task_id p) (pr_task_id <$> s)) ordered).
  split; [apply filter_sublist|]. apply NoDup_Permutation; [|done|].
  - eapply sublist_NoDup; [|apply filter_sublist]. by apply NoDup_fmap_1 in Hnd.
  - intros p. rewrite elem_of_List_filter, str_in_spec, list_elem_of_fmap. split.
    + intros [Hp (q & Hid & Hq)]. assert (p = q) as ->; [|done].
      by apply (fmap_nodup_inj pr_task_id ordered); auto.
    + intros Hp. eauto.
Qed.
Lemma utility_perm s t : s ≡ₚ t → utility s = utility t.
Proof. intros Hp. unfold utility. apply Z_sum_perm. by f_equiv. Qed.
Lemma utility_nonneg s : Forall wf_profile s → 0 ≤ utility s.
Proof.
  intros Hs. unfold utility. apply Z_sum_nonneg. apply Forall_fmap. eapply Forall_impl; [exact Hs|].
  intros p [Hv _]. unfold validate, SchedulerTaskProfile_model in Hv. ok_inv.
  match goal with H : (utility_score p <? 0) = false |- _ => by apply Z.ltb_ge in H end.
Qed.
Lemma selection_key_le c r :
  pyleb (selection_key c) (selection_key r) = true →
  utility c < utility r ∨ utility c = utility r ∧ Z.of_nat (length c) ≤ Z.of_nat (length r).
Proof.
  unfold pyleb, selection_key, prod_pyord, prod_pyleb, pyleb, Z_pyord. simpl.
  destruct (Z.leb_spec (utility c) (utility r)); [|done]. destruct (Z.leb_spec (utility r) (utility c)); [|by left; lia].
  destruct (Z.leb_spec (Z.of_nat (length c)) (Z.of_nat (length r))); [|done]. right. lia.
Qed.

Lemma exact_select_spec g pools_ base limit cands :
  NoDup (pr_task_id <$> cands) → Forall wf_profile cands → 0 ≤ limit →
  let sel := _exact_select cands g pools_ base limit in
  sel `sublist_of` sorted_by rank_key cands ∧ safe g pools_ base limit sel
  ∧ ∀ s, NoDup s → (∀ p, p ∈ s → p ∈ cands) → safe g pools_ base limit s →
      utility s < utility sel ∨ utility s = utility sel ∧ Z.of_nat (length s) ≤ Z.of_nat (length sel).
Proof.
  intros Hnd Hwf Hlim. cbv zeta. unfold _exact_select. set (ordered := sorted_by rank_key cands).
  set (combos := mjoin _).
  assert (NoDup (pr_task_id <$> ordered)) as Hnd' by (unfold ordered; by rewrite sorted_by_perm).
  assert (Forall wf_profile ordered) as Hwf' by (unfold ordered; by rewrite sorted_by_perm).
  assert (∀ c, c ∈ combos ↔ c `sublist_of` ordered ∧ 1 ≤ Z.of_nat (length c) ≤ limit) as Hcombos.
  { intros c. unfold combos. rewrite list_elem_of_join. setoid_rewrite list_elem_of_fmap. split.
    - intros (l & Hc & size & -> & [Hlo Hhi]%elem_of_seqZ). apply elem_of_combinations in Hc as [Hs Hl]. split; [done|lia].
    - intros [Hs Hl]. eexists. split; [by apply (elem_of_combinations (length c))|].
      exists (Z.of_nat (length c)). rewrite Nat2Z.id. split; [done|]. apply elem_of_seqZ.
      pose proof (sublist_length _ _ Hs). lia. }
  assert (∀ c, c `sublist_of` ordered → NoDup c ∧ Forall wf_profile c) as Hsub.
  { intros c Hc. split; [eapply sublist_NoDup; [|exact Hc]; by apply NoDup_fmap_1 in Hnd'|].
    apply Forall_forall. intros p Hp. apply (proj1 (Forall_forall _ _) Hwf'). by eapply elem_of_submseteq, sublist_submseteq. }
  assert (∀ c, c `sublist_of` ordered → admissible g pools_ base c ↔ compatible_set g c ∧ fits pools_ base (all_claims c)) as Hadm.
  { intros c [Hc1 Hc2]%Hsub. unfold admissible.
    by rewrite conflicting_spec, take_items_flat, take_claims_fits by (done || by apply all_claims_positive). }
  pose proof (exact_fold g pools_ base ((-1, (-1, [])), []) combos) as (Hr & _ & Hbest).
  set (r := foldl _ _ combos) in *. destruct r as [rk rs]; simpl in *.
  assert (rs `sublist_of` ordered ∧ safe g pools_ base limit rs) as [Hrs Hsafe].
  { destruct Hr as [[= -> ->]|(Hin & Ha & _)].
    - split; [apply sublist_nil_l|]. split; [simpl; lia|by intros a b ?%not_elem_of_nil|].
      intros k pool _ (c & ?%not_elem_of_nil & _). done.
    - apply Hcombos in Hin as [Hin Hl]. apply Hadm in Ha as [??]; [|done]. split; [done|]. split; [lia|done..]. }
  split_and!; [done|done|]. intros s Hs Hins Hsf.
  assert (∃ s', s' `sublist_of` ordered ∧ s' ≡ₚ s) as (s' & Hs' & Hp).
  { apply arrange; [done..|]. intros p Hp. unfold ordered. rewrite elem_of_sorted_by. auto. }
  rewrite <-(utility_perm _ _ Hp), <-(Permutation_length Hp).
  pose proof (safe_perm _ _ _ _ _ _ (Permutation_sym Hp) Hsf) as [Hl Hc Hf].
  pose proof (utility_nonneg s' (proj2 (Hsub _ Hs'))) as Hu.
  assert (s' = [] ∨ s' ≠ []) as [->|Hne] by (destruct s'; auto).
  { pose proof (utility_nonneg rs (proj2 (Hsub _ Hrs))) as Hur. unfold utility at 1 3; simpl. lia. }
  assert (1 ≤ Z.of_nat (length s')) by (destruct s'; [done|simpl; lia]).
  assert (beats rk s') as Hb by (apply Hbest; [by apply Hcombos|by apply Hadm]).
  destruct Hr as [[= -> ->]|(_ & _ & ->)]; [exfalso|by apply selection_key_le].
  unfold beats, pyleb, selection_key, prod_pyord, prod_pyleb, pyleb, Z_pyord in Hb; simpl in Hb.
  destruct (Z.leb_spec (utility s') (-1)); [lia|done].
Qed.

(** ** Greedy selection *)
(** A profile that claims each pool at most once. *)
Definition one_claim_per_pool (pools_ : gmap string ResourcePool) (p : SchedulerTaskProfile) : Prop :=
  ∀ c, c ∈ claims p → is_Some (pools_ !! resource_key c) → demand (resource_key c) (claims p) = quantity c.

Lemma usage_add_claims pools_ u cs k pool : pools_ !! k = Some pool →
  usage_of (add_claim_usage pools_ u cs) k = usage_of u k + demand k cs.
Proof.
  intros Hk. unfold add_claim_usage. revert u. induction cs as [|c cs IH]; intros u; simpl; [unfold demand; simpl; lia|].
  rewrite IH, demand_cons. case_bool_decide as E; [rewrite usage_bump; lia|].
  destruct (String.eqb_spec (resource_key c) k); [|lia]. exfalso. apply E. subst. eauto.
Qed.
Lemma usage_selected pools_ base sel k pool : pools_ !! k = Some pool →
  usage_of (foldl (λ u item, add_claim_usage pools_ u (claims item)) base sel) k
  = usage_of base k + demand k (all_claims sel).
Proof.
  intros Hk. revert base. induction sel as [|p sel IH]; intros base; simpl; [unfold demand; simpl; lia|].
  rewrite IH, all_claims_cons, demand_app, (usage_add_claims _ _ _ _ _ Hk). lia.
Qed.
Lemma fits_capacity_spec c sel pools_ base :
  _fits_capacity c sel pools_ base = true ↔
  ∀ cl pool, cl ∈ claims c → pools_ !! resource_key cl = Some pool →
    usage_of base (resource_key cl) + demand (resource_key cl) (all_claims sel) + quantity cl ≤ allocatable_units pool.
Proof.
  unfold _fits_capacity. rewrite forallb_forall. setoid_rewrite <-list_elem_of_In. split.
  - intros Hall cl pool Hcl Hp. specialize (Hall cl Hcl). rewrite Hp in Hall.
    apply negb_true_iff, Z.ltb_ge in Hall. by rewrite (usage_selected _ _ _ _ _ Hp) in Hall.
  - intros Hall cl Hcl. destruct (pools_ !! resource_key cl) as [pool|] eqn:E; [|done].
    apply negb_true_iff, Z.ltb_ge. rewrite (usage_selected _ _ _ _ _ E). by apply Hall.
Qed.
Lemma all_claims_app s t : all_claims (s ++ t) = all_claims s ++ all_claims t.
Proof. unfold all_claims. by rewrite fmap_app, join_app. Qed.
Lemma elem_of_all_claims c s : c ∈ all_claims s ↔ ∃ p, p ∈ s ∧ c ∈ claims p.
Proof. unfold all_claims. rewrite list_elem_of_join. setoid_rewrite list_elem_of_fmap. naive_solver. Qed.
Lemma fits_snoc c sel pools_ base : one_claim_per_pool pools_ c →
  fits pools_ base (all_claims sel) → _fits_capacity c sel pools_ base = true →
  fits pools_ base (all_claims (sel ++ [c])).
Proof.
  intros Hone Hf Hfit k pool Hk (cl & Hcl & Hkc). rewrite all_claims_app, all_claims_cons, app_nil_r in *.
  rewrite demand_app. destruct (decide (Exists (λ d, resource_key d = k) (claims c))) as [Hd|Hd].
  - apply Exists_exists in Hd as (d & Hd & <-). rewrite (Hone d Hd (ltac:(eauto))).
    pose proof (proj1 (fits_capacity_spec _ _ _ _) Hfit d pool Hd Hk). lia.
  - rewrite (demand_unclaimed k (claims c)).
    + apply elem_of_app in Hcl as [Hcl|Hcl]; [|exfalso; apply Hd, Exists_exists; eauto].
      specialize (Hf _ _ Hk (ex_intro _ cl (conj Hcl Hkc))). lia.
    + intros d Hd' Hkd. apply Hd, Exists_exists. eauto.
Qed.
Lemma compatible_spec c sel g :
  _compatible c sel g = true ↔ ∀ p, p ∈ sel → has_edge g (pr_task_id c) (pr_task_id p) = false.
Proof.
  unfold _compatible. rewrite forallb_forall. setoid_rewrite <-list_elem_of_In. by setoid_rewrite negb_true_iff.
Qed.
Lemma compatible_snoc c sel g :
  compatible_set g sel → _compatible c sel g = true → compatible_set g (sel ++ [c]).
Proof.
  intros Hs Hc a b Ha Hb Hne. rewrite compatible_spec in Hc. rewrite elem_of_app, list_elem_of_singleton in Ha, Hb.
  destruct Ha as [Ha| ->], Hb as [Hb| ->]; [by apply Hs|rewrite has_edge_sym; by apply Hc|by apply Hc|done].
Qed.
(** What does not fit a selection does not fit a larger one. *)
Lemma fits_capacity_mono c sel ext pools_ base : Forall wf_profile ext →
  _fits_capacity c (sel ++ ext) pools_ base = true → _fits_capacity c sel pools_ base = true.
Proof.
  intros Hext. rewrite !fits_capacity_spec. intros Hf cl pool Hcl Hp. specialize (Hf cl pool Hcl Hp).
  rewrite all_claims_app, demand_app in Hf.
  pose proof (demand_nonneg (resource_key cl) _ (all_claims_positive _ Hext)). lia.
Qed.
Lemma compatible_mono c sel ext g : _compatible c (sel ++ ext) g = true → _compatible c sel g = true.
Proof. rewrite !compatible_spec. intros Hc p Hp. apply Hc. apply elem_of_app. by left. Qed.

Record greedy_result (g : ugraph) (pools_ : gmap string ResourcePool) (base : gmap string Z) (limit : Z)
    (ordered selected r : list SchedulerTaskProfile) : Prop := {
  gr_extends : ∃ ext, r = selected ++ ext ∧ ext `sublist_of` ordered;
  gr_limit : Z.of_nat (length selected) ≤ limit → Z.of_nat (length r) ≤ limit;
  gr_compatible : compatible_set g selected → compatible_set g r;
  gr_capacity : Forall (one_claim_per_pool pools_) ordered →
    fits pools_ base (all_claims selected) → fits pools_ base (all_claims r);
  gr_maximal c : Forall wf_profile ordered → Z.of_nat (length r) < limit → c ∈ ordered → c ∉ r →
    _compatible c r g && _fits_capacity c r pools_ base = false;
}.
Lemma greedy_loop_spec g pools_ base limit ordered selected :
  greedy_result g pools_ base limit ordered selected (greedy_loop g pools_ base limit ordered selected).
Proof.
  revert selected. induction ordered as [|c ordered IH]; intros selected; simpl.
  { split; [exists []; by rewrite app_nil_r|done..|]. by intros c _ _ ?%not_elem_of_nil. }
  destruct (Z.leb_spec limit (Z.of_nat (length selected))).
  { split; [exists []; rewrite app_nil_r; split; [done|apply sublist_nil_l]|done..|lia]. }
  destruct (_compatible c selected g && _ c selected pools_ base) eqn:E.
  - destruct (IH (selected ++ [c])) as [(ext & Hr & Hsub) Hl Hc Hf Hm]. apply andb_true_iff in E as [E1 E2].
    split.
    + exists (c :: ext). rewrite Hr, <-app_assoc. split; [done|by constructor].
    + intros _. apply Hl. rewrite length_app. simpl. lia.
    + intros Hs. by apply Hc, compatible_snoc.
    + intros [Ho Hos]%Forall_cons Hs. by apply Hf, fits_snoc.
    + intros d [_ Hw]%Forall_cons Hlt [->|Hd]%elem_of_cons Hn; [|by apply Hm]. exfalso. apply Hn. rewrite Hr. set_solver.
  - destruct (IH selected) as [(ext & Hr & Hsub) Hl Hc Hf Hm]. split.
    + exists ext. split; [done|by constructor].
    + done.
    + done.
    + intros [_ Ho]%Forall_cons. by apply Hf.
    + intros d [_ Hw]%Forall_cons Hlt [->|Hd]%elem_of_cons Hn; [|by apply Hm]. rewrite Hr.
      apply not_true_iff_false. intros [H1 H2]%andb_true_iff. apply compatible_mono in H1.
      apply fits_capacity_mono in H2; [by rewrite H1, H2 in E|].
      apply Forall_forall. intros p Hp. apply (proj1 (Forall_forall _ _) Hw).
      by eapply elem_of_submseteq, sublist_submseteq.
Qed.

(** ** the CP-SAT model is the selection problem

    The assignments that satisfy the model the optimizer builds are exactly
    the safe selections, and its objective puts utility first. *)
(** The candidates an assignment picks. *)
Definition picked (v : string → bool) (l : list SchedulerTaskProfile) : list SchedulerTaskProfile :=
  List.filter (λ p, v (pr_task_id p)) l.

Lemma linear_cons w x ts v : linear ((w, x) :: ts) v = (if v x then w else 0) + linear ts v.
Proof. done. Qed.
Lemma linear_nil v : linear [] v = 0.
Proof. done. Qed.
Lemma linear_lane l v : linear ((λ p, (1, pr_task_id p)) <$> l) v = Z.of_nat (length (picked v l)).
Proof.
  induction l as [|p l IH]; [done|]. rewrite fmap_cons, linear_cons, IH. unfold picked. simpl.
  destruct (v (pr_task_id p)); simpl; lia.
Qed.
Lemma linear_pool k l v :
  linear ((λ p, (claimed k p, pr_task_id p)) <$> List.filter (λ p, negb (claimed k p =? 0)) l) v
  = demand k (all_claims (picked v l)).
Proof.
  rewrite demand_all_claims. induction l as [|p l IH]; [done|]. unfold picked in *. cbn [List.filter].
  destruct (Z.eqb_spec (claimed k p) 0) as [E|E]; cbn [negb]; rewrite ?fmap_cons, ?linear_cons, IH;
    destruct (v (pr_task_id p)); rewrite ?fmap_cons; simpl; rewrite ?E; lia.
Qed.

Section model.
Context (ordered : list SchedulerTaskProfile) (g : ugraph) (pools_ : gmap string ResourcePool)
  (base : gmap string Z) (limit : Z) (v : string → bool).
Hypothesis Hids : NoDup (pr_task_id <$> ordered).
Hypothesis Hwf : Forall wf_profile ordered.
Hypothesis Hloops : ∀ e, e ∈ ug_edges g → e.1 ≠ e.2.

Lemma edge_constraints_spec :
  Forall (λ c, linear c.1 v ≤ c.2) (edge_constraints ordered g) ↔ compatible_set g (picked v ordered).
Proof using Hids Hloops.
  unfold edge_constraints. rewrite Forall_fmap, Forall_forall. unfold compatible_set, picked. split.
  - intros Hall a b [Ha Hva]%elem_of_List_filter [Hb Hvb]%elem_of_List_filter Hne.
    assert (∀ x y, x ∈ ordered → y ∈ ordered → v (pr_task_id x) = true → v (pr_task_id y) = true →
      (pr_task_id x, pr_task_id y) ∉ ug_edges g) as Hno.
    { intros x y Hx Hy Hvx Hvy He. specialize (Hall (pr_task_id x, pr_task_id y)).
      rewrite elem_of_List_filter, elem_of_sorted_by in Hall. simpl in Hall.
      rewrite !(proj2 (str_in_spec _ _)) in Hall by (apply list_elem_of_fmap; eauto).
      specialize (Hall (conj He eq_refl)). rewrite !linear_cons, linear_nil, Hvx, Hvy in Hall. lia. }
    unfold has_edge. by rewrite !bool_decide_false by auto.
  - intros Hc [x y] [He Hin]%elem_of_List_filter. rewrite elem_of_sorted_by in He. simpl in *.
    apply andb_true_iff in Hin as [Hx%str_in_spec Hy%str_in_spec].
    apply list_elem_of_fmap in Hx as (a & -> & Ha), Hy as (b & -> & Hb).
    rewrite !linear_cons, linear_nil.
    destruct (v (pr_task_id a)) eqn:Eva, (v (pr_task_id b)) eqn:Evb; try lia. exfalso.
    assert (a ≠ b) as Hne by (intros ->; by apply Hloops in He).
    specialize (Hc a b). rewrite !elem_of_List_filter in Hc. specialize (Hc (conj Ha Eva) (conj Hb Evb) Hne).
    unfold has_edge in Hc. by rewrite bool_decide_true in Hc.
Qed.

Lemma pool_constraints_spec :
  Forall (λ c, linear c.1 v ≤ c.2) (mjoin (pool_constraint ordered base <$> sorted_by fst (map_to_list pools_)))
  ↔ fits pools_ base (all_claims (picked v ordered)).
Proof using Hwf.
  assert (positive (all_claims (picked v ordered))) as Hpos.
  { apply all_claims_positive. apply Forall_forall. intros p [Hp _]%elem_of_List_filter.
    by apply (proj1 (Forall_forall _ _) Hwf). }
  assert (∀ k pool, Forall (λ c, linear c.1 v ≤ c.2) (pool_constraint ordered base (k, pool)) ↔
    demand k (all_claims (picked v ordered)) ≤ Z.max 0 (allocatable_units pool - usage_of base k)) as Hone.
  { intros k pool. unfold pool_constraint. rewrite <-linear_pool. case_bool_decide as E.
    - rewrite E, linear_nil. split; [lia|constructor].
    - by rewrite Forall_singleton. }
  split.
  - intros Hall k pool Hk (c & Hc & <-). rewrite Forall_forall in Hall.
    assert (demand (resource_key c) (all_claims (picked v ordered))
            ≤ Z.max 0 (allocatable_units pool - usage_of base (resource_key c))) as Hd.
    { apply Hone. apply Forall_forall. intros t Ht. apply Hall. apply list_elem_of_join.
      eexists. split; [exact Ht|]. apply list_elem_of_fmap. eexists. split; [done|].
      by rewrite elem_of_sorted_by, elem_of_map_to_list. }
    assert (1 ≤ demand (resource_key c) (all_claims (picked v ordered))); [|lia].
    apply elem_of_Permutation in Hc as [cs Hcs]. rewrite (demand_perm _ _ _ Hcs), demand_cons, String.eqb_refl.
    unfold positive in Hpos. rewrite Hcs, Forall_cons in Hpos. destruct Hpos as [H1 H2%(demand_nonneg (resource_key c))]. lia.
  - intros Hf. apply Forall_forall. intros t (l & Ht & Hl)%list_elem_of_join.
    apply list_elem_of_fmap in Hl as ([k pool] & -> & Hk). rewrite elem_of_sorted_by, elem_of_map_to_list in Hk.
    revert t Ht. apply Forall_forall, Hone.
    destruct (decide (Exists (λ d, resource_key d = k) (all_claims (picked v ordered)))) as [He|He].
    + apply Exists_exists in He. specialize (Hf _ _ Hk He). lia.
    + rewrite demand_unclaimed; [lia|]. intros d Hd Hkd. apply He, Exists_exists. eauto.
Qed.

Lemma model_iff_safe : satisfies (cp_of ordered g pools_ base limit) v ↔ safe g pools_ base limit (picked v ordered).
Proof using Hids Hwf Hloops.
  unfold satisfies, cp_of. simpl cp_constraints.
  rewrite Forall_cons, Forall_app, edge_constraints_spec, pool_constraints_spec. simpl. rewrite linear_lane. split.
  - intros (? & ? & ?). by split.
  - by intros [? ? ?].
Qed.
End model.

Lemma utility_cons p l : utility (p :: l) = utility_score p + utility l.
Proof. done. Qed.
(** The objective lies between the scaled utility and the same plus the
    bonuses, which stay below one unit of utility. *)
Lemma objective_bounds v n k l : 0 ≤ k → k + Z.of_nat (length l) ≤ n →
  1000000000 * utility (picked v l)
  ≤ linear ((λ ip, (objective_weight n ip.2 ip.1, pr_task_id ip.2)) <$> zip (seqZ k (Z.of_nat (length l))) l) v
  ≤ 1000000000 * utility (picked v l) + Z.of_nat (length l) * (1000 + n).
Proof.
  revert k. induction l as [|p l IH]; intros k Hk Hn; [rewrite zip_with_nil_r; unfold linear, utility; simpl; lia|].
  cbn [length] in *. rewrite Nat2Z.inj_succ in *. rewrite seqZ_cons by lia. rewrite Z.pred_succ. cbn [zip_with].
  rewrite fmap_cons, linear_cons. specialize (IH (Z.succ k)). unfold objective_weight in *. unfold picked in *. simpl.
  destruct (v (pr_task_id p)); [rewrite utility_cons|]; nia.
Qed.
