(* ===== verification/LaneSafety.v ===== *)
(** * LaneSafety: what a scheduler plan guarantees

    The conflict graph is exact; every lane of a plan is a ready task that
    passed the screening; the lanes do not conflict and fit the limits; a
    plan made by enumeration has the largest utility of all safe ones. *)
From S2P Require Import Prelude PyStd PyRe PyJson Identifiers TaskState ControlDomain DepGraph ControlGraph SchedulerDomain LanePolicy LaneScheduler LaneSelection.
Local Open Scope Z_scope.

(** ** The conflict graph *)
Definition clash (a b : SchedulerTaskProfile) : Prop :=
  ∃ c d, c ∈ claims a ∧ d ∈ claims b ∧ conflicts_with c d = true.
Lemma clash_sym a b : clash a b → clash b a.
Proof. intros (c & d & ? & ? & H). exists d, c. by rewrite conflicts_sym. Qed.
Lemma clash_reasons_spec a b : clash_reasons a b ≠ [] ↔ clash a b.
Proof.
  assert (∀ x, x ∈ clash_reasons a b → clash a b) as H1.
  { unfold clash_reasons. intros x (c & Hx & Hc)%list_elem_of_bind.
    apply list_elem_of_bind in Hx as (d & Hx & Hd). exists c, d. unfold claims_conflict in Hx.
    destruct (conflicts_with c d); [done|by apply not_elem_of_nil in Hx]. }
  split.
  - destruct (clash_reasons a b) as [|x l] eqn:E; [done|]. intros _. apply (H1 x). left.
  - intros (c & d & Hc & Hd & Hcf) E. unfold clash_reasons in E.
    eapply not_elem_of_nil. rewrite <-E. apply list_elem_of_bind. exists c. split; [|exact Hc].
    apply list_elem_of_bind. exists d. split; [|exact Hd]. unfold claims_conflict. rewrite Hcf. left.
Qed.
Lemma str_min_max a b : a ≠ b → pyleb (str_max a b) (str_min a b) = false
  ∧ ((str_min a b, str_max a b) = (a, b) ∨ (str_min a b, str_max a b) = (b, a)).
Proof.
  intros Hne. unfold str_min, str_max. destruct (pyleb a b) eqn:E.
  - split; [|by left]. apply not_true_iff_false. intros E'. by apply Hne, pyleb_antisym.
  - split; [done|by right].
Qed.
Lemma conflict_edge_spec a b e : Ok e ∈ conflict_edge (a, b) ↔
  clash a b ∧ new (mkConflict (str_min (pr_task_id a) (pr_task_id b))
                     (str_max (pr_task_id a) (pr_task_id b)) (sorted_set (clash_reasons a b))) = Ok e.
Proof.
  unfold conflict_edge. rewrite <-clash_reasons_spec. case_bool_decide as E.
  - split; [by intros ?%not_elem_of_nil|by intros [? _]].
  - rewrite list_elem_of_singleton. split; [by intros ->|by intros [_ ->]].
Qed.

Section graph.
Context (cands : list SchedulerTaskProfile) (g : ugraph) (es : list ConflictEdge).
Hypothesis Hg : build_conflict_graph cands = Ok (g, es).

Lemma graph_ids : NoDup (pr_task_id <$> cands).
Proof using Hg.
  unfold build_conflict_graph in Hg. ok_inv.
  match goal with H : has_duplicates _ = false |- _ => apply has_duplicates_false in H; by rewrite sorted_by_perm in H end.
Qed.
Lemma graph_edges u v : (u, v) ∈ ug_edges g ↔
  ∃ a b, (a, b) ∈ ordered_pairs (sorted_by pr_task_id cands) ∧ clash a b
    ∧ (u, v) = (str_min (pr_task_id a) (pr_task_id b), str_max (pr_task_id a) (pr_task_id b)).
Proof using Hg.
  unfold build_conflict_graph in Hg. ok_inv. simpl.
  match goal with H : traverse _ _ = Ok _ |- _ => apply traverse_ok in H; rename H into Ht end.
  rewrite list_elem_of_fmap. split.
  - intros (e & He & Hin). apply list_elem_of_lookup in Hin as [i Hi].
    destruct (Forall2_lookup_r _ _ _ _ _ Ht Hi) as (r & Hr & E). simpl in E. subst r.
    apply list_elem_of_lookup_2, list_elem_of_join in Hr as (l & Hl & Hj).
    apply list_elem_of_fmap in Hj as ([a b] & -> & Hab). apply conflict_edge_spec in Hl as [Hc Hn].
    apply new_ok in Hn as [-> _]. eauto 10.
  - intros (a & b & Hab & Hc & ->).
    assert (∃ e, conflict_edge (a, b) = [new e] ∧ left_task_id e = str_min (pr_task_id a) (pr_task_id b)
                 ∧ right_task_id e = str_max (pr_task_id a) (pr_task_id b)) as (e & He & E1 & E2).
    { unfold conflict_edge. rewrite bool_decide_false by (by apply clash_reasons_spec). eauto. }
    assert (new e ∈ mjoin (conflict_edge <$> ordered_pairs (sorted_by pr_task_id cands))) as Hin.
    { apply list_elem_of_join. exists [new e]. split; [left|]. apply list_elem_of_fmap. exists (a, b). by rewrite He. }
    apply list_elem_of_lookup in Hin as [i Hi]. destruct (Forall2_lookup_l _ _ _ _ _ Ht Hi) as (e' & He' & En).
    simpl in En. apply new_ok in En as [-> _]. exists e. rewrite E1, E2. split; [done|]. by eapply list_elem_of_lookup_2.
Qed.
Lemma graph_pair a b : (a, b) ∈ ordered_pairs (sorted_by pr_task_id cands) →
  a ∈ cands ∧ b ∈ cands ∧ pr_task_id a ≠ pr_task_id b.
Proof using Hg.
  intros Hab. destruct (elem_of_ordered_pairs _ _ _ Hab) as [Ha Hb]. rewrite elem_of_sorted_by in Ha, Hb.
  split_and!; [done|done|]. intros E.
  assert (a ≠ b) as Hne.
  { eapply ordered_pairs_distinct; [|exact Hab]. rewrite sorted_by_perm. eapply NoDup_fmap_1, graph_ids. }
  apply Hne. by eapply fmap_nodup_inj; [apply graph_ids|..].
Qed.
Lemma graph_loops e : e ∈ ug_edges g → e.1 ≠ e.2.
Proof using Hg.
  destruct e as [u v]. intros (a & b & Hab & _ & E)%graph_edges. apply graph_pair in Hab as (_ & _ & Hne).
  destruct (str_min_max _ _ Hne) as [_ [E'|E']]; rewrite E' in E; injection E as -> ->; simpl; congruence.
Qed.
Lemma graph_spec a b : a ∈ cands → b ∈ cands → a ≠ b →
  has_edge g (pr_task_id a) (pr_task_id b) = true ↔ clash a b.
Proof using Hg.
  intros Ha Hb Hne. pose proof graph_ids as Hids.
  assert (∀ x y, x ∈ cands → y ∈ cands → (pr_task_id x, pr_task_id y) ∈ ug_edges g → clash x y) as Hone.
  { intros x y Hx Hy (x' & y' & Hp & Hc & E)%graph_edges. apply graph_pair in Hp as (Hx' & Hy' & Hn).
    destruct (str_min_max _ _ Hn) as [_ [E'|E']]; rewrite E' in E; injection E as E1 E2.
    - by rewrite (fmap_nodup_inj _ _ _ _ Hids Hx Hx' E1), (fmap_nodup_inj _ _ _ _ Hids Hy Hy' E2).
    - apply clash_sym. by rewrite (fmap_nodup_inj _ _ _ _ Hids Hx Hy' E1), (fmap_nodup_inj _ _ _ _ Hids Hy Hx' E2). }
  unfold has_edge. rewrite orb_true_iff, !bool_decide_eq_true. split.
  - intros [He|He]; [by apply Hone|by apply clash_sym, Hone].
  - intros Hc. pose proof (ordered_pairs_complete (sorted_by pr_task_id cands) a b) as Hp.
    rewrite !elem_of_sorted_by in Hp. specialize (Hp Ha Hb Hne).
    assert (∀ x y, (x, y) ∈ ordered_pairs (sorted_by pr_task_id cands) → clash x y →
      (pr_task_id x, pr_task_id y) ∈ ug_edges g ∨ (pr_task_id y, pr_task_id x) ∈ ug_edges g) as Htwo.
    { intros x y Hxy Hcl. destruct (graph_pair _ _ Hxy) as (_ & _ & Hn).
      destruct (str_min_max _ _ Hn) as [_ [E'|E']]; [left|right]; apply graph_edges; by exists x, y; rewrite E'. }
    destruct Hp as [Hp|Hp]; [by apply Htwo|]. apply Htwo in Hp; [tauto|by apply clash_sym].
Qed.
End graph.

Lemma conflict_graph_returns cands :
  NoDup (pr_task_id <$> cands) → Forall wf_profile cands → ∃ g es, build_conflict_graph cands = Ok (g, es).
Proof.
  intros Hnd Hwf. unfold build_conflict_graph.
  rewrite (proj2 (has_duplicates_false _)) by (by rewrite sorted_by_perm). cbn [raise_if mbind result_bind].
  destruct (traverse_total id (λ _ _, True) (mjoin (conflict_edge <$> ordered_pairs (sorted_by pr_task_id cands)))) as (es & Hes & _).
  { intros r (l & Hr & Hl)%list_elem_of_join. apply list_elem_of_fmap in Hl as ([a b] & -> & Hab).
    destruct (elem_of_ordered_pairs _ _ _ Hab) as [Ha Hb]. rewrite elem_of_sorted_by in Ha, Hb.
    assert (pr_task_id a ≠ pr_task_id b) as Hne.
    { intros E. eapply ordered_pairs_distinct; [|exact Hab|by eapply fmap_nodup_inj].
      rewrite sorted_by_perm. by eapply NoDup_fmap_1. }
    destruct (str_min_max _ _ Hne) as [Hlt Hmm].
    assert (∀ c, c ∈ cands → validate_identifier (pr_task_id c) ISSUE = Ok (pr_task_id c)) as Hid.
    { intros c Hc. pose proof (wp_valid _ (proj1 (Forall_forall _ _) Hwf c Hc)) as Hv.
      unfold validate, SchedulerTaskProfile_model in Hv. ok_inv. apply validate_identifier_ok.
      match goal with H : validate_identifier (pr_task_id c) _ = Ok _ |- _ => by rewrite H end. }
    unfold conflict_edge in Hr. case_bool_decide as Er; [by apply not_elem_of_nil in Hr|].
    apply list_elem_of_singleton in Hr as ->. eexists. split; [|done]. apply new_valid.
    unfold validate, ConflictEdge_model; cbn [left_task_id right_task_id cf_reasons]. rewrite Hlt.
    rewrite (bool_decide_false (sorted_set _ = [])) by (by rewrite sorted_set_nil).
    destruct Hmm as [E|E]; injection E as -> ->; by rewrite !Hid. }
  rewrite Hes. simpl. eauto.
Qed.

(** ** The specification of a set of lanes *)
(** What the active leases take of a pool. *)
Definition held (r : ResourceRegistrySnapshot) (now : Z) (k : string) : Z := demand k (claim <$> active_leases r now).
Record safe_lanes (r : ResourceRegistrySnapshot) (now limit : Z) (s : list SchedulerTaskProfile) : Prop := {
  sl_limit : Z.of_nat (length s) ≤ limit;
  sl_conflicts a b : a ∈ s → b ∈ s → a ≠ b → ¬ clash a b;
  sl_capacity pool : pool ∈ pools r → (∃ c, c ∈ all_claims s ∧ resource_key c = pl_resource_key pool) →
    held r now (pl_resource_key pool) + demand (pl_resource_key pool) (all_claims s) ≤ allocatable_units pool;
}.
Lemma capacity_usage_held r now k : usage_of (capacity_usage r now) k = held r now k.
Proof.
  unfold capacity_usage, held.
  assert (∀ ls u, usage_of (foldl (λ u l, bump u (claim l)) u ls) k = usage_of u k + demand k (claim <$> ls)) as H.
  { induction ls as [|l ls IH]; intros u; [unfold demand; simpl; lia|].
    rewrite fmap_cons, demand_cons. cbn [foldl]. rewrite IH, usage_bump. lia. }
  rewrite H. done.
Qed.
Lemma registry_pool r k pool : validate r = Ok () →
  dict_of pl_resource_key (pools r) !! k = Some pool ↔ pool ∈ pools r ∧ pl_resource_key pool = k.
Proof.
  unfold validate, ResourceRegistrySnapshot_model. intros Hv. ok_inv.
  match goal with H : has_duplicates _ = false |- _ => apply has_duplicates_false in H as Hnd end. split.
  - by intros Hd%dict_of_lookup_Some.
  - intros [Hp <-]. by apply dict_of_lookup.
Qed.
Lemma safe_iff cands g es r now limit s :
  build_conflict_graph cands = Ok (g, es) → validate r = Ok () → (∀ p, p ∈ s → p ∈ cands) →
  safe g (dict_of pl_resource_key (pools r)) (capacity_usage r now) limit s ↔ safe_lanes r now limit s.
Proof.
  intros Hg Hr Hs.
  assert (compatible_set g s ↔ ∀ a b, a ∈ s → b ∈ s → a ≠ b → ¬ clash a b) as Hc.
  { unfold compatible_set. split; intros Hall a b Ha Hb Hne.
    - rewrite <-(graph_spec _ _ _ Hg) by auto. by rewrite Hall.
    - apply not_true_iff_false. rewrite (graph_spec _ _ _ Hg) by auto. by apply Hall. }
  split.
  - intros [H1 H2 H3]. split; [done|by apply Hc|]. intros pool Hp Hex. rewrite <-capacity_usage_held.
    apply H3; [by apply registry_pool|done].
  - intros [H1 H2 H3]. split; [done|by apply Hc|]. intros k pool [Hp <-]%registry_pool Hex; [|done].
    rewrite capacity_usage_held. by apply H3.
Qed.

(** ** Screening *)
Definition unreserved (c : SchedulerTaskProfile) : Prop :=
  ∀ cl, cl ∈ claims c → resource_type cl = RT_PATH → ¬ (collision_key (resource_key cl) ∈ PP327_BLOCKED_PATHS).
Record screened (d : BackpressureDecision) (r : ResourceRegistrySnapshot) (now : Z) (c : SchedulerTaskProfile) : Prop := {
  sc_admit : admit_new_work d = true;
  sc_policy : pr_policy_eligible c = true;
  sc_isolated : workspace_isolated c = true;
  sc_paths : unreserved c;
  sc_reasons : admission_reasons (claims c) r now [] = [];
}.
Lemma pp327_spec paths : pp327_collision paths = true ↔ ∃ p, p ∈ paths ∧ collision_key p ∈ PP327_BLOCKED_PATHS.
Proof.
  unfold pp327_collision. rewrite existsb_exists. setoid_rewrite <-list_elem_of_In. setoid_rewrite list_elem_of_fmap.
  setoid_rewrite str_in_spec. naive_solver.
Qed.
Lemma screen_pass d r now c : screen d r now c = Ok None ↔ screened d r now c.
Proof.
  unfold screen. set (paths := resource_key <$> _).
  assert (unreserved c ↔ bool_decide (paths ≠ []) && negb (claim_is_admissible paths) = false) as Hu.
  { unfold claim_is_admissible. rewrite negb_involutive.
    assert (bool_decide (paths ≠ []) && pp327_collision paths = pp327_collision paths) as ->.
    { destruct paths; [done|]. by rewrite bool_decide_true. }
    rewrite <-not_true_iff_false, pp327_spec. unfold unreserved, paths. setoid_rewrite list_elem_of_fmap.
    setoid_rewrite elem_of_List_filter. setoid_rewrite bool_decide_eq_true. naive_solver. }
  split.
  - destruct (admit_new_work d) eqn:E1; simpl; [|by intros H; ok_inv].
    destruct (pr_policy_eligible c) eqn:E2; simpl; [|by intros H; ok_inv].
    destruct (workspace_isolated c) eqn:E3; simpl; [|by intros H; ok_inv].
    destruct (bool_decide (paths ≠ []) && _) eqn:E4; [by intros H; ok_inv|].
    destruct (bool_decide (admission_reasons _ _ _ _ ≠ [])) eqn:E5; [by intros H; ok_inv|]. intros _. split; [done..|by apply Hu|].
    by apply bool_decide_eq_false, dec_stable in E5.
  - intros [-> -> -> Hp%Hu ->]. simpl. by rewrite Hp.
Qed.
Definition passes (d : BackpressureDecision) (r : ResourceRegistrySnapshot) (now : Z) (c : SchedulerTaskProfile) : bool :=
  match screen d r now c with Ok None => true | _ => false end.
Lemma screen_all_ok d r now cs adm prelim adm' prelim' :
  screen_all d r now cs adm prelim = Ok (adm', prelim') →
  prelim' = prelim ++ List.filter (passes d r now) cs
  ∧ (∀ k, k ∉ pr_task_id <$> cs → adm' !! k = adm !! k)
  ∧ (NoDup (pr_task_id <$> cs) → ∀ c, c ∈ cs → ∃ o, screen d r now c = Ok o
       ∧ match o with Some a => adm' !! pr_task_id c = Some a | None => adm' !! pr_task_id c = adm !! pr_task_id c end).
Proof.
  revert adm prelim. induction cs as [|c cs IH]; intros adm prelim; simpl.
  { intros [= <- <-]. rewrite app_nil_r. split_and!; [done|done|]. by intros _ c ?%not_elem_of_nil. }
  intros H. apply bind_ok in H as (o & Ho & H).
  assert (passes d r now c = match o with None => true | Some _ => false end) as -> by (unfold passes; by rewrite Ho).
  destruct o as [a|]; apply IH in H as (-> & Hf & Hd); split_and!; rewrite ?Ho.
  - done.
  - intros k [Hk1 Hk2]%not_elem_of_cons. by rewrite Hf, lookup_insert_ne.
  - intros [Hn Hnd]%NoDup_cons e [->|He]%elem_of_cons.
    + exists (Some a). by rewrite Hf, lookup_insert_eq.
    + destruct (Hd Hnd e He) as (o & Heo & Hm). exists o. split; [done|]. destruct o; [done|]. rewrite Hm.
      rewrite lookup_insert_ne; [done|]. intros E. apply Hn. rewrite E. by apply list_elem_of_fmap_2.
  - by rewrite <-app_assoc.
  - intros k [Hk1 Hk2]%not_elem_of_cons. by apply Hf.
  - intros [Hn Hnd]%NoDup_cons e [->|He]%elem_of_cons; [|by apply Hd]. exists None. by rewrite Hf.
Qed.

(** ** Selection and lanes *)
Record chosen (pools_ : gmap string ResourcePool) (base : gmap string Z) (g : ugraph) (limit : Z)
    (prelim sel : list SchedulerTaskProfile) (m : SelectionMethod) : Prop := {
  ch_subset p : p ∈ sel → p ∈ prelim;
  ch_nodup : NoDup sel;
  ch_limit : Z.of_nat (length sel) ≤ limit;
  ch_compatible : compatible_set g sel;
  ch_capacity : m ≠ DETERMINISTIC_GREEDY ∨ Forall (one_claim_per_pool pools_) prelim →
    fits pools_ base (all_claims sel);
  ch_optimal s : m = EXACT_BOUNDED → NoDup s → (∀ p, p ∈ s → p ∈ prelim) →
    safe g pools_ base limit s → utility s ≤ utility sel;
}.
Lemma sublist_in {A} (l k : list A) x : l `sublist_of` k → x ∈ l → x ∈ k.
Proof. intros Hs Hx. by eapply elem_of_submseteq, sublist_submseteq. Qed.
Lemma empty_compatible g : compatible_set g [].
Proof. by intros a b ?%not_elem_of_nil. Qed.
Lemma empty_fits pools_ base : fits pools_ base (all_claims []).
Proof. by intros k pool _ (c & ?%not_elem_of_nil & _). Qed.

Section choose.
Context (self : DynamicLaneScheduler) (prelim : list SchedulerTaskProfile) (g : ugraph)
  (pools_ : gmap string ResourcePool) (base : gmap string Z) (limit : Z).
Hypothesis Hids : NoDup (pr_task_id <$> prelim).
Hypothesis Hwf : Forall wf_profile prelim.
Hypothesis Hlim : 0 ≤ limit.

Lemma chosen_greedy : chosen pools_ base g limit prelim (_greedy_select prelim g pools_ base limit) DETERMINISTIC_GREEDY.
Proof using Hids Hlim.
  unfold _greedy_select.
  destruct (greedy_loop_spec g pools_ base limit (sorted_by greedy_key prelim) []) as [(ext & Hr & Hsub) Hl Hc Hf _].
  simpl in Hr. split.
  - intros p Hp. rewrite Hr in Hp. apply (sublist_in _ _ _ Hsub) in Hp. by rewrite elem_of_sorted_by in Hp.
  - rewrite Hr. eapply sublist_NoDup; [|exact Hsub]. rewrite sorted_by_perm. by eapply NoDup_fmap_1.
  - by apply Hl.
  - apply Hc, empty_compatible.
  - intros [?|Ho]; [done|]. apply Hf; [by rewrite sorted_by_perm|apply empty_fits].
  - done.
Qed.
Lemma chosen_exact : chosen pools_ base g limit prelim (_exact_select prelim g pools_ base limit) EXACT_BOUNDED.
Proof using Hids Hwf Hlim.
  destruct (exact_select_spec g pools_ base limit prelim Hids Hwf Hlim) as (Hsub & [H1 H2 H3] & Hbest).
  split; [|eapply sublist_NoDup; [|exact Hsub]; rewrite sorted_by_perm; by eapply NoDup_fmap_1|done..|].
  - intros p Hp. apply (sublist_in _ _ _ Hsub) in Hp. by rewrite elem_of_sorted_by in Hp.
  - intros s _ Hs Hin Hsf. destruct (Hbest s Hs Hin Hsf); lia.
Qed.
Lemma choose_spec sel m : choose self prelim g pools_ base limit = (sel, m) → chosen pools_ base g limit prelim sel m.
Proof using Hids Hwf Hlim.
  unfold choose. destruct ((limit <=? 0) || bool_decide (prelim = [])) eqn:E0.
  { intros [= <- <-]. split; [by intros p ?%not_elem_of_nil|constructor|simpl; lia|apply empty_compatible|
      intros _; apply empty_fits|].
    intros s _ _ Hin [Hl _ _]. apply orb_true_iff in E0 as [E0%Z.leb_le|E0%bool_decide_eq_true].
    - by destruct s; [|simpl in Hl; lia].
    - destruct s as [|p s]; [done|]. exfalso. eapply not_elem_of_nil. rewrite <-E0. apply Hin. left. }
  destruct (_ <=? exact_candidate_limit self); [intros [= <- <-]; apply chosen_exact|].
  destruct (ortools_optimizer self) as [solve|]; [|intros [= <- <-]; apply chosen_greedy].
  destruct (ortools_select _ _ _ _ _ _) as [ids|]; [|intros [= <- <-]; apply chosen_greedy].
  set (pick := List.filter _ prelim).
  destruct (_selection_is_valid _ _ _ _ _) eqn:Ev; [|intros [= <- <-]; apply chosen_greedy].
  intros [= <- <-].
  assert (pick `sublist_of` prelim) as Hsub by apply filter_sublist.
  assert (NoDup pick) as Hnd by (eapply sublist_NoDup; [by eapply NoDup_fmap_1|exact Hsub]).
  apply valid_iff_safe in Ev as [H1 H2 H3]; [|done|].
  - split; [by intros p; apply sublist_in|done..].
  - apply Forall_forall. intros p Hp. by apply (proj1 (Forall_forall _ _) Hwf), (sublist_in _ _ _ Hsub).
Qed.
End choose.

Record lane_matches (c : SchedulerTaskProfile) (l : LaneAssignment) : Prop := {
  lm_task : ln_task_id l = pr_task_id c;
  lm_claims : ln_claims l = claims c;
  lm_utility : ln_utility_score l = utility_score c;
}.
Lemma assign_lanes_ok snap sel ls : assign_lanes snap sel = Ok ls →
  Forall2 lane_matches (sorted_by rank_key sel) ls ∧ ln_rank <$> ls = seqZ 1 (Z.of_nat (length sel)).
Proof.
  unfold assign_lanes. rewrite <-(sorted_by_length rank_key sel). set (ordered := sorted_by rank_key sel).
  intros Ht%traverse_ok.
  assert (Forall2 (λ ip l, lane_matches ip.2 l ∧ ln_rank l = ip.1) (zip (seqZ 1 (Z.of_nat (length ordered))) ordered) ls) as Hm.
  { eapply Forall2_impl; [exact Ht|]. intros [i c] l Hl. unfold lane_of in Hl. ok_inv. done. }
  assert (length (seqZ 1 (Z.of_nat (length ordered))) = length ordered) as Hlen by (rewrite length_seqZ; lia).
  split.
  - rewrite <-(snd_zip (seqZ 1 (Z.of_nat (length ordered))) ordered) by lia.
    apply Forall2_fmap_l. eapply Forall2_impl; [exact Hm|]. by intros ?? [??].
  - rewrite <-(fst_zip (seqZ 1 (Z.of_nat (length ordered))) ordered) at 1 by lia. symmetry.
    apply Forall2_fmap_eq. eapply Forall2_impl; [exact Hm|]. by intros ?? [??].
Qed.

(** ** Taking a plan apart *)
Lemma ready_candidates_in control profiles c :
  c ∈ ready_candidates control profiles → c ∈ profiles ∧ pr_task_id c ∈ si_task_id <$> ordered_ready_work (sequence control).
Proof.
  unfold ready_candidates. rewrite list_elem_of_omap. intros (i & Hi & [Hc E]%dict_of_lookup_Some).
  split; [done|]. rewrite E. by apply list_elem_of_fmap_2.
Qed.

Definition natural_limit (n : Z) (max_lanes : option Z) : Z :=
  match max_lanes with None => n | Some m => Z.max 0 (Z.min m n) end.
Lemma lane_limit_le n max_lanes d limit : lane_limit_of n max_lanes d = Ok limit → limit ≤ natural_limit n max_lanes.
Proof.
  unfold lane_limit_of. fold (natural_limit n max_lanes). intros H. apply bind_ok in H as (f & _ & [= <-]).
  destruct (0 <? natural_limit n max_lanes) eqn:E; simpl; [apply Z.ltb_lt in E|lia].
  destruct (admit_new_work d && _ && _); lia.
Qed.

Record plan_parts (self : DynamicLaneScheduler) (control : ControlSnapshot) (cands : list SchedulerTaskProfile)
    (r : ResourceRegistrySnapshot) (max_lanes : option Z) (now : Z) (p : SchedulerPlan)
    (g : ugraph) (adm adm' : gmap string AdmissionDecision) (sel : list SchedulerTaskProfile) : Prop := {
  pp_graph : build_conflict_graph cands = Ok (g, conflicts p);
  pp_limit : lane_limit_of (Z.of_nat (length cands)) max_lanes (backpressure p) = Ok (lane_limit p);
  pp_screen : screen_all (backpressure p) r now cands ∅ [] = Ok (adm, List.filter (passes (backpressure p) r now) cands);
  pp_choose : choose self (List.filter (passes (backpressure p) r now) cands) g
    (dict_of pl_resource_key (pools r)) (capacity_usage r now) (lane_limit p) = (sel, selection_method p);
  pp_admit : admit_all g (pr_task_id <$> sel) (List.filter (passes (backpressure p) r now) cands) adm = Ok adm';
  pp_lanes : assign_lanes (snapshot_id control) sel = Ok (lanes p);
  pp_admissions : traverse (λ c, dict_get adm' (pr_task_id c)) (sorted_by pr_task_id cands) = Ok (admissions p);
  pp_valid : validate p = Ok ();
}.
Lemma plan_taken_apart self control profiles r signals policy max_lanes now p :
  plan self control profiles r signals policy max_lanes now = Ok p →
  ∃ g adm adm' sel, plan_parts self control (ready_candidates control profiles) r max_lanes now p g adm adm' sel
    ∧ candidate_count p = Z.of_nat (length (ready_candidates control profiles)).
Proof.
  unfold plan. intros H.
  apply bind_ok in H as (d & _ & H). apply bind_ok in H as (limit & Hlim & H).
  apply bind_ok in H as ([g es] & Hg & H). apply bind_ok in H as ([adm prelim] & Hs & H).
  destruct (choose _ _ _ _ _ _) as [sel m] eqn:Ech.
  apply bind_ok in H as (adm' & Hadm & H). apply bind_ok in H as (ls & Hls & H).
  apply bind_ok in H as (pid & _ & H). apply bind_ok in H as (as_ & Has & H).
  apply new_ok in H as [-> Hv].
  pose proof (screen_all_ok _ _ _ _ _ _ _ _ Hs) as [Hp _]. simpl in Hp. subst prelim.
  by exists g, adm, adm', sel.
Qed.

(** ** Decisions *)
Lemma admit_all_ok g ids cs adm adm' : admit_all g ids cs adm = Ok adm' →
  (∀ k, k ∉ pr_task_id <$> cs → adm' !! k = adm !! k)
  ∧ (NoDup (pr_task_id <$> cs) → ∀ c, c ∈ cs → ∃ a, final_admission g ids c = Ok a ∧ adm' !! pr_task_id c = Some a).
Proof.
  revert adm. induction cs as [|c cs IH]; intros adm; simpl.
  { intros [= <-]. split; [done|]. by intros _ c ?%not_elem_of_nil. }
  intros H. apply bind_ok in H as (a & Ha & H). apply IH in H as [Hf Hd]. split.
  - intros k [Hk1 Hk2]%not_elem_of_cons. by rewrite Hf, lookup_insert_ne.
  - intros [Hn Hnd]%NoDup_cons d [->|Hd']%elem_of_cons; [|by apply Hd].
    exists a. by rewrite Hf, lookup_insert_eq.
Qed.
Lemma screen_denies d r now c a : screen d r now c = Ok (Some a) →
  ad_task_id a = pr_task_id c ∧ ad_admitted a = false ∧ ad_state a ≠ AD_CONFLICT.
Proof.
  unfold screen. intros H.
  repeat match type of H with (if ?b then _ else _) = _ => destruct b end; ok_inv; try done;
    split_and!; try done; simpl; by destruct (existsb _ _).
Qed.

Lemma Forall2_in {A B} (P Q : A → B → Prop) l k :
  Forall2 P l k → (∀ x y, x ∈ l → P x y → Q x y) → Forall2 Q l k.
Proof. induction 1 as [|x y l k Hxy _ IH]; intros Hpq; constructor; [apply Hpq; [left|done]|apply IH; set_solver]. Qed.

(** What the decision on a candidate says. *)
Definition decision_spec (cands : list SchedulerTaskProfile) (lane_ids : list string) (c : SchedulerTaskProfile)
    (a : AdmissionDecision) : Prop :=
  ad_task_id a = pr_task_id c
  ∧ (ad_admitted a = true ↔ pr_task_id c ∈ lane_ids)
  ∧ (ad_state a = AD_CONFLICT → ∃ c', c' ∈ cands ∧ pr_task_id c' ∈ lane_ids ∧ clash c c').

Section parts.
Context (self : DynamicLaneScheduler) (control : ControlSnapshot) (cands : list SchedulerTaskProfile)
  (r : ResourceRegistrySnapshot) (max_lanes : option Z) (now : Z) (p : SchedulerPlan)
  (g : ugraph) (adm adm' : gmap string AdmissionDecision) (sel : list SchedulerTaskProfile).
Hypothesis Hp : plan_parts self control cands r max_lanes now p g adm adm' sel.
Hypothesis Hwf : Forall wf_profile cands.

Lemma plan_ids : NoDup (pr_task_id <$> cands).
Proof using Hp. eapply graph_ids, Hp. Qed.
Lemma plan_limit_nonneg : 0 ≤ lane_limit p.
Proof using Hp.
  pose proof (pp_valid _ _ _ _ _ _ _ _ _ _ _ Hp) as Hv. unfold validate, SchedulerPlan_model in Hv. ok_inv.
  match goal with H : (_ <? 0) || (lane_limit p <? 0) = false |- _ => apply orb_false_iff in H as [_ H%Z.ltb_ge] end. done.
Qed.
Lemma plan_chosen : chosen (dict_of pl_resource_key (pools r)) (capacity_usage r now) g (lane_limit p)
  (List.filter (passes (backpressure p) r now) cands) sel (selection_method p).
Proof using Hp Hwf.
  apply (choose_spec self); [| | |by apply Hp].
  - pose proof plan_ids as Hn. clear Hp. induction cands as [|c l IH]; simpl; [done|].
    apply Forall_cons in Hwf as [_ Hw]. rewrite fmap_cons, NoDup_cons in Hn. destruct Hn as [Hc Hn].
    destruct (passes _ _ _ c); [|by apply IH]. rewrite fmap_cons, NoDup_cons. split; [|by apply IH].
    intros (d & E & [Hd _]%elem_of_List_filter)%list_elem_of_fmap. apply Hc. rewrite E. by apply list_elem_of_fmap_2.
  - apply Forall_forall. intros c [Hc _]%elem_of_List_filter. by apply (proj1 (Forall_forall _ _) Hwf).
  - apply plan_limit_nonneg.
Qed.
Lemma plan_selected c : c ∈ sel → c ∈ cands ∧ screened (backpressure p) r now c.
Proof using Hp Hwf.
  intros Hc. apply (ch_subset _ _ _ _ _ _ _ plan_chosen), elem_of_List_filter in Hc as [Hc Hpass].
  split; [done|]. apply screen_pass. unfold passes in Hpass. by destruct (screen _ _ _ c) as [[|]|].
Qed.
Lemma plan_lane_ids : ln_task_id <$> lanes p ≡ₚ pr_task_id <$> sel.
Proof using Hp.
  destruct (assign_lanes_ok _ _ _ (pp_lanes _ _ _ _ _ _ _ _ _ _ _ Hp)) as [Hm _].
  rewrite <-(sorted_by_perm rank_key sel). enough (pr_task_id <$> sorted_by rank_key sel = ln_task_id <$> lanes p) as -> by done. apply Forall2_fmap_eq.
  eapply Forall2_impl; [exact Hm|]. intros c l Hcl. by rewrite (lm_task _ _ Hcl).
Qed.
Lemma plan_conflict_free a b : a ∈ sel → b ∈ sel → a ≠ b → ¬ clash a b.
Proof using Hp Hwf.
  intros Ha Hb Hne. rewrite <-(graph_spec _ _ _ (pp_graph _ _ _ _ _ _ _ _ _ _ _ Hp)); [|by apply plan_selected..|done].
  by rewrite (ch_compatible _ _ _ _ _ _ _ plan_chosen).
Qed.
Lemma plan_denied c a : c ∈ cands → screen (backpressure p) r now c = Ok (Some a) →
  decision_spec cands (pr_task_id <$> sel) c a.
Proof using Hp Hwf.
  intros Hc Ho. destruct (screen_denies _ _ _ _ _ Ho) as (E1 & E2 & E3). split_and!; [done| |done].
  rewrite E2. split; [done|]. intros (c' & E & Hc')%list_elem_of_fmap. exfalso.
  apply (ch_subset _ _ _ _ _ _ _ plan_chosen), elem_of_List_filter in Hc' as [Hc' Hps].
  rewrite <-(fmap_nodup_inj _ _ _ _ plan_ids Hc Hc' E) in Hps. unfold passes in Hps. by rewrite Ho in Hps.
Qed.
Lemma plan_shortlisted c a : c ∈ cands → final_admission g (pr_task_id <$> sel) c = Ok a →
  decision_spec cands (pr_task_id <$> sel) c a.
Proof using Hp Hwf.
  intros Hc Hf. unfold final_admission in Hf. destruct (str_in (pr_task_id c) (pr_task_id <$> sel)) eqn:Es.
  { apply new_ok in Hf as [-> _]. apply str_in_spec in Es. by split_and!. }
  apply str_in_false in Es. case_bool_decide as Ecl; apply new_ok in Hf as [-> _]; unfold decision_spec; simpl; split_and!; try done.
  intros _. set (clash_ := sorted_by id _) in Ecl. destruct clash_ as [|n ns] eqn:En; [done|].
  assert (n ∈ clash_) as Hn by (rewrite En; left). unfold clash_ in Hn.
  rewrite elem_of_sorted_by, elem_of_List_filter in Hn. destruct Hn as [Hn Hns%str_in_spec].
  unfold neighbors in Hn. apply elem_of_List_filter in Hn as [_ He].
  apply list_elem_of_fmap in Hns as (c' & -> & Hc'). exists c'.
  destruct (plan_selected c' Hc') as [Hcc _]. split; [done|]. split; [by apply list_elem_of_fmap_2|].
  apply (graph_spec _ _ _ (pp_graph _ _ _ _ _ _ _ _ _ _ _ Hp)); [done..| |done].
  intros ->. by apply Es, list_elem_of_fmap_2.
Qed.
Lemma plan_decided c a : c ∈ cands → dict_get adm' (pr_task_id c) = Ok a →
  decision_spec cands (pr_task_id <$> sel) c a.
Proof using Hp Hwf.
  intros Hc Ha. unfold dict_get in Ha. destruct (adm' !! pr_task_id c) as [a'|] eqn:Ea; [injection Ha as ->|done].
  destruct (screen_all_ok _ _ _ _ _ _ _ _ (pp_screen _ _ _ _ _ _ _ _ _ _ _ Hp)) as (_ & _ & Hscr).
  destruct (admit_all_ok _ _ _ _ _ (pp_admit _ _ _ _ _ _ _ _ _ _ _ Hp)) as [Hframe Hadm].
  destruct (Hscr plan_ids c Hc) as (o & Ho & Hm). destruct o as [a'|].
  - rewrite Hframe, Hm in Ea; [injection Ea as ->; by apply plan_denied|].
    intros (c' & E & [Hc' Hps]%elem_of_List_filter)%list_elem_of_fmap.
    rewrite <-(fmap_nodup_inj _ _ _ _ plan_ids Hc Hc' E) in Hps. unfold passes in Hps. by rewrite Ho in Hps.
  - assert (c ∈ List.filter (passes (backpressure p) r now) cands) as Hcp.
    { apply elem_of_List_filter. split; [done|]. unfold passes. by rewrite Ho. }
    destruct (Hadm ltac:(eapply sublist_NoDup; [apply plan_ids|apply fmap_sublist, filter_sublist]) c Hcp) as (a' & Hf & Ea').
    rewrite Ea in Ea'. injection Ea' as <-. by apply plan_shortlisted.
Qed.
Lemma plan_decisions :
  Forall2 (decision_spec cands (ln_task_id <$> lanes p)) (sorted_by pr_task_id cands) (admissions p).
Proof using Hp Hwf.
  eapply Forall2_in; [apply traverse_ok, (pp_admissions _ _ _ _ _ _ _ _ _ _ _ Hp)|].
  intros c a Hc%elem_of_sorted_by Ha. destruct (plan_decided c a Hc Ha) as (E1 & E2 & E3).
  unfold decision_spec. setoid_rewrite plan_lane_ids. done.
Qed.
Lemma plan_safe_lanes : validate r = Ok () →
  selection_method p ≠ DETERMINISTIC_GREEDY ∨ Forall (one_claim_per_pool (dict_of pl_resource_key (pools r))) cands →
  safe_lanes r now (lane_limit p) sel.
Proof using Hp Hwf.
  intros Hr Hone. apply (safe_iff cands g (conflicts p)); [by apply Hp|done|by intros c [? _]%plan_selected|].
  destruct plan_chosen as [_ _ H3 H4 H5 _]. split; [done|done|]. apply H5. destruct Hone as [?|Ho]; [by left|right].
  apply Forall_forall. intros c [Hc _]%elem_of_List_filter. by apply (proj1 (Forall_forall _ _) Ho).
Qed.
End parts.

(** ** Theorems *)
Lemma candidates_wf control profiles : Forall wf_profile profiles → Forall wf_profile (ready_candidates control profiles).
Proof.
  intros Hwf. apply Forall_forall. intros c [Hc _]%ready_candidates_in. by apply (proj1 (Forall_forall _ _) Hwf).
Qed.


(** C23. A plan made by enumeration is optimal: no safe set of tasks that
    passed the checks has a larger total utility than the plan's lanes. *)
Theorem exact_plan_is_optimal self control profiles r signals policy max_lanes now p s :
  plan self control profiles r signals policy max_lanes now = Ok p →
  Forall wf_profile profiles → validate r = Ok () → selection_method p = EXACT_BOUNDED →
  NoDup s → (∀ c, c ∈ s → c ∈ ready_candidates control profiles ∧ screened (backpressure p) r now c) →
  safe_lanes r now (lane_limit p) s →
  utility s ≤ Z_sum (ln_utility_score <$> lanes p).
Proof.
  intros H Hwf Hr Hm Hs Hin Hsafe. pose proof (candidates_wf control _ Hwf) as Hwc.
  destruct (plan_taken_apart _ _ _ _ _ _ _ _ _ H) as (g & adm & adm' & sel & Hp & _).
  destruct (assign_lanes_ok _ _ _ (pp_lanes _ _ _ _ _ _ _ _ _ _ _ Hp)) as [Hlm _].
  assert (Z_sum (ln_utility_score <$> lanes p) = utility sel) as ->.
  { rewrite <-(utility_perm _ _ (sorted_by_perm rank_key sel)). unfold utility. f_equal. symmetry.
    apply Forall2_fmap_eq. eapply Forall2_impl; [exact Hlm|]. intros c l Hcl. by rewrite (lm_utility _ _ Hcl). }
  apply (ch_optimal _ _ _ _ _ _ _ (plan_chosen _ _ _ _ _ _ _ _ _ _ _ Hp Hwc)); [done|done| |].
  - intros c Hc. destruct (Hin c Hc) as [Hcc Hsc%screen_pass]. apply elem_of_List_filter. split; [done|].
    unfold passes. by rewrite Hsc.
  - apply (safe_iff _ _ _ _ _ _ _ (pp_graph _ _ _ _ _ _ _ _ _ _ _ Hp) Hr); [|done]. intros c Hc. by apply Hin.
Qed.

(** Every candidate gets exactly one decision, in the order of the task
    identifiers; it is admitted exactly when it has a lane, and one that is
    rejected for a conflict clashes with a task that has a lane. *)
Theorem plan_decides_every_candidate self control profiles r signals policy max_lanes now p :
  plan self control profiles r signals policy max_lanes now = Ok p → Forall wf_profile profiles →
  let cands := ready_candidates control profiles in
  Forall2 (decision_spec cands (ln_task_id <$> lanes p)) (sorted_by pr_task_id cands) (admissions p).
Proof.
  intros H Hwf. destruct (plan_taken_apart _ _ _ _ _ _ _ _ _ H) as (g & adm & adm' & sel & Hp & _).
  exact (plan_decisions _ _ _ _ _ _ _ _ _ _ _ Hp (candidates_wf _ _ Hwf)).
Qed.
