(* ===== verification/LaneReturns.v ===== *)
(** * LaneReturns: the scheduler always produces a plan

    For records that passed their own validation the scheduler raises no
    exception, whatever the solver answers. *)
From S2P Require Import Prelude PyStd PyRe PyJson Identifiers TaskState ControlDomain DepGraph ControlGraph SchedulerDomain LanePolicy LaneScheduler LaneSelection LaneSafety.
From Stdlib Require Import SpecFloat.
Local Open Scope Z_scope.

(** ** Backpressure *)
(** A policy as the code can build it. *)
Definition wf_policy (policy : option BackpressurePolicy) : Prop :=
  match policy with
  | None => True
  | Some p => validate p = Ok () ∧ valid_binary 53 1024 (congested_lane_fraction p) = true
  end.
Lemma default_policy_valid : validate default_policy = Ok ().
Proof. by vm_compute. Qed.
Lemma wf_policy_default policy : wf_policy policy →
  validate (default default_policy policy) = Ok () ∧ valid_binary 53 1024 (congested_lane_fraction (default default_policy policy)) = true.
Proof. destruct policy; [done|]. intros _. split; [apply default_policy_valid|by vm_compute]. Qed.
Lemma ltb_leb x y : PyFloat.ltb x y = true → PyFloat.leb x y = true.
Proof. unfold PyFloat.ltb, PyFloat.leb, SFltb, SFleb. by destruct (SFcompare x y) as [[]|]. Qed.
Lemma policy_fraction policy : wf_policy policy →
  PyFloat.fraction (congested_lane_fraction (default default_policy policy)).
Proof.
  intros [Hv Hb]%wf_policy_default. unfold validate, BackpressurePolicy_model in Hv. ok_inv.
  match goal with H : negb (PyFloat.ltb (PyFloat.of_Z 0) _ && _) = false |- _ =>
    apply negb_false_iff, andb_true_iff in H as [Hlo Hhi] end.
  split; [done|]. split; [by apply ltb_leb|done].
Qed.
Lemma unit_fractions : PyFloat.fraction (PyFloat.of_Z 0) ∧ PyFloat.fraction (PyFloat.of_Z 1).
Proof. by vm_compute. Qed.
Lemma backpressure_returns s policy : wf_policy policy →
  ∃ d, evaluate_backpressure s policy = Ok d ∧ PyFloat.fraction (lane_fraction d).
Proof.
  intros Hf%policy_fraction. destruct unit_fractions as [H0 H1]. unfold evaluate_backpressure.
  assert (∀ d, PyFloat.fraction (lane_fraction d) → new d = Ok d) as Hn.
  { intros d (_ & Hd0 & Hd1). apply new_valid. unfold validate, BackpressureDecision_model. by rewrite Hd0, Hd1. }
  repeat case_bool_decide; (eexists; split; [by apply Hn|done]).
Qed.

(** ** The lane limit *)
Lemma lane_limit_returns n max_lanes d : 0 ≤ n < 2 ^ 62 → PyFloat.fraction (lane_fraction d) →
  ∃ limit, lane_limit_of n max_lanes d = Ok limit ∧ 0 ≤ limit.
Proof.
  intros Hn Hf. unfold lane_limit_of. fold (natural_limit n max_lanes).
  assert (0 ≤ natural_limit n max_lanes < 2 ^ 62) as Hnat by (unfold natural_limit; destruct max_lanes; lia).
  destruct (PyFloat.scaled_floor _ _ Hnat Hf) as (z & -> & Hz). cbn [mbind result_bind].
  eexists. split; [done|]. destruct (_ && _ && _ && _); lia.
Qed.

(** ** Identifiers *)
Lemma profile_task p : wf_profile p → validate_identifier (pr_task_id p) ISSUE = Ok (pr_task_id p).
Proof.
  intros [Hv _]. unfold validate, SchedulerTaskProfile_model in Hv. ok_inv. apply validate_identifier_ok.
  match goal with H : validate_identifier (pr_task_id p) _ = Ok _ |- _ => by rewrite H end.
Qed.
Lemma scheduler_id_new prefix parts :
  prefix ∈ ["SCHED"; "LANE"; "LEASE"; "SIM"] → parts ≠ [] →
  Forall (λ p, str_truthy (str_strip p) = true) parts →
  ∃ i, scheduler_identifier prefix parts = Ok i ∧ valid_prefixed_id SCHEDULER_ID (prefix +:+ "-") i = true.
Proof.
  intros Hp Hne Hall. eexists. split; [by apply prefixed_identifier_returns|]. by apply scheduler_id_valid.
Qed.

(** ** Screening, admission and lanes *)
Lemma admission_valid p st b reasons : wf_profile p → b = bool_decide (st = AD_ADMITTED) → b = true ∨ reasons ≠ [] →
  new (mkAdmission (pr_task_id p) st b reasons) = Ok (mkAdmission (pr_task_id p) st b reasons).
Proof.
  intros Hp Hb Hr. apply new_valid. unfold validate, AdmissionDecision_model. simpl. rewrite (profile_task p Hp). simpl.
  rewrite <-Hb, Bool.eqb_reflx. simpl. destruct b; [done|]. destruct Hr as [?|Hr]; [done|]. by rewrite bool_decide_false.
Qed.
Lemma screen_returns d r now c : wf_profile c → ∃ o, screen d r now c = Ok o.
Proof.
  intros Hc. unfold screen.
  destruct (negb (admit_new_work d)); [rewrite admission_valid by auto; by eexists|].
  destruct (negb (pr_policy_eligible c)); [rewrite admission_valid by auto; by eexists|].
  destruct (negb (workspace_isolated c)); [rewrite admission_valid by auto; by eexists|].
  destruct (bool_decide (_ <$> _ ≠ []) && _); [rewrite admission_valid by auto; by eexists|].
  destruct (bool_decide (admission_reasons _ _ _ _ ≠ [])) eqn:E; [|by eexists].
  apply bool_decide_eq_true in E. destruct (existsb _ _); rewrite admission_valid by auto; by eexists.
Qed.
Lemma screen_all_returns d r now cs adm prelim : Forall wf_profile cs →
  ∃ adm' prelim', screen_all d r now cs adm prelim = Ok (adm', prelim').
Proof.
  intros Hcs. revert adm prelim. induction Hcs as [|c cs Hc _ IH]; intros adm prelim; simpl; [eauto|].
  destruct (screen_returns d r now c Hc) as [o ->]. simpl. destruct o; apply IH.
Qed.
Lemma final_admission_returns g ids c : wf_profile c → ∃ a, final_admission g ids c = Ok a.
Proof.
  intros Hc. unfold final_admission. destruct (str_in _ _); [rewrite admission_valid by auto; by eexists|].
  case_bool_decide as E; rewrite admission_valid by (try done; right; try done; by intros ?%fmap_nil_inv); by eexists.
Qed.
Lemma admit_all_returns g ids cs adm : Forall wf_profile cs → ∃ adm', admit_all g ids cs adm = Ok adm'.
Proof.
  intros Hcs. revert adm. induction Hcs as [|c cs Hc _ IH]; intros adm; simpl; [eauto|].
  destruct (final_admission_returns g ids c Hc) as [a ->]. apply IH.
Qed.
Lemma assign_lanes_returns snap sel : str_truthy (str_strip snap) = true → Forall wf_profile sel →
  ∃ ls, assign_lanes snap sel = Ok ls.
Proof.
  intros Hsnap Hsel. unfold assign_lanes. set (ordered := sorted_by rank_key sel).
  destruct (traverse_total (lane_of snap) (λ _ _, True) (zip (seqZ 1 (Z.of_nat (length ordered))) ordered)) as (ls & Hls & _); [|eauto].
  intros [i c] Hin. apply elem_of_zip_l in Hin as Hi. apply elem_of_zip_r in Hin as Hc. apply elem_of_seqZ in Hi as [Hi _].
  apply elem_of_sorted_by in Hc. pose proof (proj1 (Forall_forall _ _) Hsel c Hc) as Hw. unfold lane_of.
  pose proof (profile_task c Hw) as Hid.
  destruct (scheduler_id_new "LANE" [snap; pr_task_id c; str_of_Z i]) as (lid & -> & Hlid); [set_solver|done| |].
  { repeat constructor; [done| |apply str_of_Z_nonblank]. eapply identifier_nonblank. by rewrite Hid. }
  cbn [mbind result_bind]. eexists. split; [|done]. apply new_valid. unfold validate, LaneAssignment_model. simpl.
  change ("LANE" +:+ "-") with "LANE-" in Hlid. rewrite Hlid, Hid. simpl.
  destruct Hw as [Hv _]. unfold validate, SchedulerTaskProfile_model in Hv. ok_inv.
  match goal with H : (utility_score c <? 0) = false |- _ => rewrite H end. by rewrite (proj2 (Z.ltb_ge _ _)) by lia.
Qed.

(** ** The plan *)
Lemma candidates_nodup control profiles : NoDup (si_task_id <$> ordered_ready_work (sequence control)) →
  NoDup (pr_task_id <$> ready_candidates control profiles).
Proof.
  unfold ready_candidates. induction (ordered_ready_work (sequence control)) as [|i l IH]; simpl; [done|].
  intros [Hi Hl]%NoDup_cons. destruct (dict_of pr_task_id profiles !! si_task_id i) as [c|] eqn:E; [|by apply IH].
  apply dict_of_lookup_Some in E as [_ E]. rewrite fmap_cons, NoDup_cons. split; [|by apply IH]. rewrite E.
  intros (d & Ed & (j & Hj & Hd)%list_elem_of_omap)%list_elem_of_fmap. apply dict_of_lookup_Some in Hd as [_ Hd].
  apply Hi. rewrite Ed, Hd. by apply list_elem_of_fmap_2.
Qed.
Lemma joined_ids_nonblank ids :
  Forall (λ i, str_truthy (str_strip i) = true) ids →
  str_truthy (str_strip (if str_truthy (str_join "," ids) then str_join "," ids else "none")) = true.
Proof.
  intros Hall. destruct (str_truthy (str_join "," ids)) eqn:E; [|done]. destruct Hall as [|i ids Hi _]; [done|].
  destruct ids as [|j ids]; [done|]. change (str_join "," (i :: j :: ids)) with (i +:+ "," +:+ str_join "," (j :: ids)).
  by apply nonblank_app.
Qed.
Lemma decisions_found d r now g ids cands adm adm' :
  NoDup (pr_task_id <$> cands) → screen_all d r now cands ∅ [] = Ok (adm, List.filter (passes d r now) cands) →
  admit_all g ids (List.filter (passes d r now) cands) adm = Ok adm' →
  ∃ as_, traverse (λ c, dict_get adm' (pr_task_id c)) (sorted_by pr_task_id cands) = Ok as_.
Proof.
  intros Hids Hs Ha. destruct (screen_all_ok _ _ _ _ _ _ _ _ Hs) as (_ & _ & Hscr).
  destruct (admit_all_ok _ _ _ _ _ Ha) as [Hframe Hadm].
  destruct (traverse_total (λ c, dict_get adm' (pr_task_id c)) (λ _ _, True) (sorted_by pr_task_id cands)) as (as_ & H & _); [|eauto].
  intros c Hc%elem_of_sorted_by. unfold dict_get. destruct (passes d r now c) eqn:Ep.
  - destruct (Hadm ltac:(eapply sublist_NoDup; [exact Hids|apply fmap_sublist, filter_sublist]) c) as (a & _ & ->);
      [by apply elem_of_List_filter|eauto].
  - rewrite Hframe.
    + destruct (Hscr Hids c Hc) as ([a|] & Ho & Hm); [rewrite Hm; eauto|]. unfold passes in Ep. by rewrite Ho in Ep.
    + intros (c' & E & [Hc' Hps]%elem_of_List_filter)%list_elem_of_fmap.
      rewrite <-(fmap_nodup_inj _ _ _ _ Hids Hc Hc' E) in Hps. congruence.
Qed.

Lemma lane_ids_of cands sel ls : NoDup (pr_task_id <$> cands) → NoDup sel → (∀ c, c ∈ sel → c ∈ cands) →
  Forall2 lane_matches (sorted_by rank_key sel) ls →
  ln_task_id <$> ls = pr_task_id <$> sorted_by rank_key sel ∧ has_duplicates (ln_task_id <$> ls) = false
  ∧ length ls = length sel.
Proof.
  intros Hids Hnd Hsub Hm.
  assert (ln_task_id <$> ls = pr_task_id <$> sorted_by rank_key sel) as Hlid.
  { symmetry. apply Forall2_fmap_eq. eapply Forall2_impl; [exact Hm|]. intros c l Hcl. by rewrite (lm_task _ _ Hcl). }
  split_and!; [done| |by apply Forall2_length in Hm; rewrite sorted_by_length in Hm].
  apply has_duplicates_false. rewrite Hlid, sorted_by_perm. apply NoDup_fmap_2_strong; [|done].
  intros a b Ha%Hsub Hb%Hsub E. by eapply fmap_nodup_inj.
Qed.

(** The records the scheduler works on, as the code can build them. *)
Record wf_inputs (control : ControlSnapshot) (profiles : list SchedulerTaskProfile) (r : ResourceRegistrySnapshot)
    (policy : option BackpressurePolicy) : Prop := {
  wi_control : validate control = Ok ();
  wi_ready : NoDup (si_task_id <$> ordered_ready_work (sequence control));
  wi_size : Z.of_nat (length (ready_candidates control profiles)) < 2 ^ 62;
  wi_profiles : Forall wf_profile profiles;
  wi_registry : validate r = Ok ();
  wi_policy : wf_policy policy;
}.

Section returns.
Context (self : DynamicLaneScheduler) (control : ControlSnapshot) (profiles : list SchedulerTaskProfile)
  (r : ResourceRegistrySnapshot) (policy : option BackpressurePolicy).
Hypothesis Hin : wf_inputs control profiles r policy.
Lemma snapshot_nonblank : str_truthy (str_strip (snapshot_id control)) = true.
Proof using Hin.
  pose proof (wi_control _ _ _ _ Hin) as Hv. unfold validate, ControlSnapshot_model in Hv. ok_inv.
  match goal with H : negb (valid_prefixed_id _ _ _) = false |- _ => apply negb_false_iff in H as Hp end.
  by eapply prefixed_nonblank in Hp.
Qed.
Lemma project_valid : validate_identifier (cs_project_id control) PROJECT = Ok (cs_project_id control).
Proof using Hin.
  pose proof (wi_control _ _ _ _ Hin) as Hv. unfold validate, ControlSnapshot_model in Hv. ok_inv.
  apply validate_identifier_ok. match goal with H : validate_identifier _ _ = Ok _ |- _ => by rewrite H end.
Qed.
Lemma registry_hex : is_hex64 (registry_id r) = true.
Proof using Hin.
  pose proof (wi_registry _ _ _ _ Hin) as Hv. unfold validate, ResourceRegistrySnapshot_model in Hv. ok_inv.
  match goal with H : negb (is_hex64 _) = false |- _ => by apply negb_false_iff in H end.
Qed.
Lemma plan_id_returns mode limit ids : Forall (λ i, str_truthy (str_strip i) = true) ids →
  ∃ pid, scheduler_identifier "SCHED"
      [snapshot_id control; registry_id r; BackpressureMode_value mode; str_of_Z limit;
       if str_truthy (str_join "," ids) then str_join "," ids else "none"] = Ok pid
    ∧ valid_prefixed_id SCHEDULER_ID "SCHED-" pid = true.
Proof using Hin.
  intros Hids. destruct (scheduler_id_new "SCHED" [snapshot_id control; registry_id r; BackpressureMode_value mode; str_of_Z limit;
       if str_truthy (str_join "," ids) then str_join "," ids else "none"]) as (pid & H1 & H2); [set_solver|done| |by exists pid].
  pose proof registry_hex as Hh. unfold is_hex64 in Hh. apply andb_true_iff in Hh as [Hh Hl%bool_decide_eq_true].
  repeat constructor; [apply snapshot_nonblank| | |apply str_of_Z_nonblank|by apply joined_ids_nonblank].
  - apply hex_nonblank; [done|]. by intros E; rewrite E in Hl.
  - by destruct mode.
Qed.

(** C28. The scheduler produces a plan for every valid input: whatever the
    signals, the policy, the lane maximum and the solver's answers, no
    exception escapes. *)
Theorem plan_returns signals max_lanes now :
  ∃ p, plan self control profiles r signals policy max_lanes now = Ok p.
Proof using Hin.
  set (cands := ready_candidates control profiles).
  pose proof (candidates_wf control _ (wi_profiles _ _ _ _ Hin)) as Hwc. fold cands in Hwc.
  pose proof (candidates_nodup control profiles (wi_ready _ _ _ _ Hin)) as Hids. fold cands in Hids.
  unfold plan. fold cands.
  destruct (backpressure_returns (default (mkSignals (Z.of_nat (length cands)) (PyFloat.of_Z 0) None None 0 0 0) signals)
    policy (wi_policy _ _ _ _ Hin)) as (d & -> & Hf). cbn [mbind result_bind].
  destruct (lane_limit_returns (Z.of_nat (length cands)) max_lanes d) as (limit & -> & Hlim);
    [split; [lia|apply Hin]|done|]. cbn [mbind result_bind].
  destruct (conflict_graph_returns cands Hids Hwc) as (g & es & ->). cbn [mbind result_bind].
  destruct (screen_all_returns d r now cands ∅ [] Hwc) as (adm & prelim & Hs). rewrite Hs. cbn [mbind result_bind].
  pose proof (screen_all_ok _ _ _ _ _ _ _ _ Hs) as [Hp _]. simpl in Hp. subst prelim.
  assert (Forall wf_profile (List.filter (passes d r now) cands)) as Hwp.
  { apply Forall_forall. intros c [Hc _]%elem_of_List_filter. by apply (proj1 (Forall_forall _ _) Hwc). }
  destruct (choose self _ g _ _ limit) as [sel m] eqn:Ech.
  pose proof (choose_spec self (List.filter (passes d r now) cands) g _ _ limit
    ltac:(eapply sublist_NoDup; [exact Hids|apply fmap_sublist, filter_sublist]) Hwp Hlim _ _ Ech) as Hch.
  destruct (admit_all_returns g (pr_task_id <$> sel) _ adm Hwp) as [adm' Hadm]. rewrite Hadm. cbn [mbind result_bind].
  assert (Forall wf_profile sel) as Hws.
  { apply Forall_forall. intros c Hc%(ch_subset _ _ _ _ _ _ _ Hch). by apply (proj1 (Forall_forall _ _) Hwp). }
  destruct (assign_lanes_returns (snapshot_id control) sel snapshot_nonblank Hws) as [ls Hls]. rewrite Hls. cbn [mbind result_bind].
  destruct (lane_ids_of cands sel ls Hids (ch_nodup _ _ _ _ _ _ _ Hch)) as (Hlid & Hdup & Hlen); [|by eapply assign_lanes_ok|].
  { by intros c [? _]%(ch_subset _ _ _ _ _ _ _ Hch)%elem_of_List_filter. }
  destruct (plan_id_returns (bp_mode d) limit (ln_task_id <$> ls)) as (pid & -> & Hpid).
  { rewrite Hlid. apply Forall_fmap, Forall_forall. intros c Hc%elem_of_sorted_by. simpl.
    eapply identifier_nonblank. by rewrite profile_task by (by apply (proj1 (Forall_forall _ _) Hws)). }
  cbn [mbind result_bind].
  destruct (decisions_found d r now g _ cands adm adm' Hids Hs Hadm) as [as_ ->]. cbn [mbind result_bind].
  eexists. apply new_valid. unfold validate, SchedulerPlan_model. simpl. rewrite Hpid, project_valid, registry_hex. simpl.
  rewrite (proj2 (Z.ltb_ge limit 0)) by done. rewrite (proj2 (Z.ltb_ge (Z.of_nat (length cands)) 0)) by lia. simpl.
  rewrite Hdup. simpl. rewrite (proj2 (Z.ltb_ge _ _)); [done|]. rewrite Hlen. apply Hch.
Qed.
End returns.
