(* ===== verification/LaneResults.v ===== *)
(** * LaneResults: solver, greedy and backpressure results, concrete plans

    What the two fallback selections guarantee, how pressure bounds the
    lanes, and plans for small inputs, one of which shows the limit of the
    greedy capacity check. *)
From S2P Require Import Prelude PyStd PyRe PyJson Identifiers TaskState ControlDomain DepGraph ControlGraph SchedulerDomain LanePolicy LaneScheduler LaneSelection LaneSafety LaneReturns.
From Stdlib Require Import SpecFloat.
Local Open Scope Z_scope.

(** ** The solver *)
Lemma filter_ext_in {A} (p q : A → bool) l : (∀ x, x ∈ l → p x = q x) → List.filter p l = List.filter q l.
Proof.
  induction l as [|x l IH]; intros H; simpl; [done|]. rewrite (H x) by left. rewrite IH; [done|]. intros y Hy. apply H. by right.
Qed.
Lemma filter_none {A} (p : A → bool) l : (∀ x, p x = false) → List.filter p l = [].
Proof. intros Hp. induction l as [|x l IH]; simpl; [done|]. by rewrite Hp. Qed.
Lemma picked_by_ids v (l k : list SchedulerTaskProfile) : (∀ p, p ∈ l → p ∈ k) →
  List.filter (λ p, str_in (pr_task_id p) (List.filter v (pr_task_id <$> k))) l = picked v l.
Proof.
  intros Hsub. apply filter_ext_in. intros p Hp. destruct (v (pr_task_id p)) eqn:E.
  - apply str_in_spec, elem_of_List_filter. split; [|done]. by apply list_elem_of_fmap_2, Hsub.
  - apply str_in_false. intros [_ Hv]%elem_of_List_filter. congruence.
Qed.
Lemma picked_perm v l k : l ≡ₚ k → picked v l ≡ₚ picked v k.
Proof.
  unfold picked. induction 1 as [|x l k _ IH|x y l|l k m _ IH1 _ IH2]; simpl; [done|..].
  - destruct (v (pr_task_id x)); [by f_equiv|done].
  - destruct (v (pr_task_id x)), (v (pr_task_id y)); try done. apply Permutation_swap.
  - by rewrite IH1.
Qed.
Lemma picked_set l s : NoDup (pr_task_id <$> l) → NoDup s → (∀ p, p ∈ s → p ∈ l) →
  picked (λ t, str_in t (pr_task_id <$> s)) l ≡ₚ s.
Proof.
  intros Hnd Hs Hsub. apply NoDup_Permutation; [|done|].
  - eapply sublist_NoDup; [|apply filter_sublist]. by apply NoDup_fmap_1 in Hnd.
  - intros p. unfold picked. rewrite elem_of_List_filter, str_in_spec, list_elem_of_fmap. split.
    + intros [Hp (q & Hid & Hq)]. assert (p = q) as ->; [|done]. by apply (fmap_nodup_inj pr_task_id l); auto.
    + intros Hp. eauto.
Qed.

Section solver.
Context (solve : cp_solver) (prelim : list SchedulerTaskProfile) (g : ugraph)
  (pools_ : gmap string ResourcePool) (base : gmap string Z) (limit : Z).
Hypothesis Hlaws : CpSatLaws solve.
Hypothesis Hids : NoDup (pr_task_id <$> prelim).
Hypothesis Hwf : Forall wf_profile prelim.
Hypothesis Hloops : ∀ e, e ∈ ug_edges g → e.1 ≠ e.2.
Hypothesis Hlim : 0 ≤ limit.
Let ordered := sorted_by rank_key prelim.

Lemma ordered_ids : NoDup (pr_task_id <$> ordered).
Proof using Hids. unfold ordered. by rewrite sorted_by_perm. Qed.
Lemma ordered_wf : Forall wf_profile ordered.
Proof using Hwf. unfold ordered. by rewrite sorted_by_perm. Qed.

Lemma solver_cases ids : ortools_select solve prelim g pools_ base limit = Ok ids →
  (ids = [] ∧ (prelim = [] ∨ limit = 0))
  ∨ ∃ st v, solve (cp_of ordered g pools_ base limit) = (st, v) ∧ (st = CP_FEASIBLE ∨ st = CP_OPTIMAL)
      ∧ ids = List.filter v (pr_task_id <$> ordered).
Proof using Hlim.
  unfold ortools_select. fold ordered. destruct (bool_decide (length ordered = O) || (limit <=? 0)) eqn:E.
  - intros [= <-]. left. split; [done|]. apply orb_true_iff in E as [E%bool_decide_eq_true|E%Z.leb_le]; [left|right; lia].
    unfold ordered in E. rewrite sorted_by_length in E. by apply nil_length_inv.
  - destruct (solve _) as [st v] eqn:Es. intros H. apply bind_ok in H as ([] & H & [= <-]).
    apply raise_if_ok, negb_false_iff, orb_true_iff in H. rewrite !bool_decide_eq_true in H. right. exists st, v. naive_solver.
Qed.
Lemma picked_safe v : satisfies (cp_of ordered g pools_ base limit) v ↔ safe g pools_ base limit (picked v prelim).
Proof using Hids Hwf Hloops.
  rewrite model_iff_safe by (apply ordered_ids || apply ordered_wf || done).
  split; apply safe_perm; [|symmetry]; apply picked_perm, sorted_by_perm.
Qed.
Lemma picked_utility v w : Z.of_nat (length prelim) ≤ 30000 →
  linear (cp_objective (cp_of ordered g pools_ base limit)) w ≤ linear (cp_objective (cp_of ordered g pools_ base limit)) v →
  utility (picked w prelim) ≤ utility (picked v prelim).
Proof using.
  intros Hn Hle. unfold cp_of in Hle. simpl cp_objective in Hle.
  pose proof (objective_bounds v (Z.of_nat (length ordered)) 0 ordered) as Hv.
  pose proof (objective_bounds w (Z.of_nat (length ordered)) 0 ordered) as Hw.
  assert (length ordered = length prelim) as Hlen by apply sorted_by_length.
  rewrite <-(utility_perm _ _ (picked_perm v _ _ (sorted_by_perm rank_key prelim))).
  rewrite <-(utility_perm _ _ (picked_perm w _ _ (sorted_by_perm rank_key prelim))). fold ordered. nia.
Qed.

(** The solver's answer is trusted but checked, and the check never
    rejects a solver that keeps its promises: what it returns for the model
    the code builds is a valid selection, and when it reports an optimum (for
    at most thirty thousand candidates) no safe selection has more utility. *)
Theorem solver_selection_accepted ids :
  ortools_select solve prelim g pools_ base limit = Ok ids →
  let sel := List.filter (λ p, str_in (pr_task_id p) ids) prelim in
  _selection_is_valid sel g pools_ base limit = true
  ∧ ((solve (cp_of ordered g pools_ base limit)).1 = CP_OPTIMAL → Z.of_nat (length prelim) ≤ 30000 →
     ∀ s, NoDup s → (∀ p, p ∈ s → p ∈ prelim) → safe g pools_ base limit s → utility s ≤ utility sel).
Proof using Hlaws Hids Hwf Hloops Hlim.
  intros [(-> & Hempty)|(st & v & Hsolve & Hst & ->)]%solver_cases; cbv zeta.
  - assert (List.filter (λ p, str_in (pr_task_id p) []) prelim = []) as -> by (by apply filter_none).
    split.
    + unfold _selection_is_valid. simpl. by rewrite (proj2 (Z.ltb_ge _ _)).
    + intros _ _ s Hs Hsub [Hl _ _]. destruct s as [|p s]; [done|]. destruct Hempty as [->| ->]; [|simpl in Hl; lia].
      exfalso. by apply (not_elem_of_nil p), Hsub; left.
  - rewrite picked_by_ids by (intros p; unfold ordered; by rewrite elem_of_sorted_by). split.
    + apply valid_iff_safe.
      * eapply sublist_NoDup; [by eapply NoDup_fmap_1|apply filter_sublist].
      * apply Forall_forall. intros p [Hp _]%elem_of_List_filter. by apply (proj1 (Forall_forall _ _) Hwf).
      * apply picked_safe. by eapply (cp_feasible _ Hlaws).
    + rewrite Hsolve. simpl. intros -> Hn s Hs Hsub Hsafe.
      pose proof (picked_set prelim s Hids Hs Hsub) as Hp. rewrite <-(utility_perm _ _ Hp).
      apply picked_utility; [done|]. eapply (cp_optimal _ Hlaws); [exact Hsolve|].
      apply picked_safe. by eapply safe_perm.
Qed.
End solver.

(** ** Greedy selection *)
(** The greedy selection takes candidates without conflicts up to the
    limit, keeps every pool within capacity when each task claims a pool at
    most once, and is maximal: with lanes left, no other candidate passes its
    two checks. *)
Theorem greedy_selection_maximal prelim g pools_ base limit :
  NoDup (pr_task_id <$> prelim) → Forall wf_profile prelim → 0 ≤ limit →
  let sel := _greedy_select prelim g pools_ base limit in
  (∀ p, p ∈ sel → p ∈ prelim) ∧ Z.of_nat (length sel) ≤ limit ∧ compatible_set g sel
  ∧ (Forall (one_claim_per_pool pools_) prelim → safe g pools_ base limit sel)
  ∧ (Z.of_nat (length sel) < limit → ∀ c, c ∈ prelim → c ∉ sel →
     _compatible c sel g = false ∨ _fits_capacity c sel pools_ base = false).
Proof.
  intros Hids Hwf Hlim. cbv zeta. destruct (chosen_greedy prelim g pools_ base limit Hids Hlim) as [H1 H2 H3 H4 H5 _].
  split_and!; [done|done|done|intros Ho; split; auto|].
  intros Hlt c Hc Hn. apply andb_false_iff.
  apply (gr_maximal _ _ _ _ _ _ _ (greedy_loop_spec g pools_ base limit (sorted_by greedy_key prelim) [])); [|done| |done].
  - by rewrite sorted_by_perm.
  - by rewrite elem_of_sorted_by.
Qed.

(** ** Conflicts *)
(** The conflict graph is exact: it is built for every list of valid
    profiles with distinct tasks, and it joins two different tasks exactly
    when they have conflicting claims. *)
Theorem conflict_graph_exact cands :
  NoDup (pr_task_id <$> cands) → Forall wf_profile cands →
  ∃ g es, build_conflict_graph cands = Ok (g, es)
    ∧ ∀ a b, a ∈ cands → b ∈ cands → a ≠ b → has_edge g (pr_task_id a) (pr_task_id b) = true ↔ clash a b.
Proof.
  intros Hids Hwf. destruct (conflict_graph_returns cands Hids Hwf) as (g & es & Hg). exists g, es.
  split; [done|]. by apply graph_spec with es.
Qed.

(** ** Pressure *)
Lemma leb_trans x y z : PyFloat.leb x y = true → PyFloat.leb y z = true → PyFloat.leb x z = true.
Proof.
  unfold PyFloat.leb, SFleb.
  destruct x as [|[]| |[] m e], y as [|[]| |[] m' e'], z as [|[]| |[] m'' e'']; simpl; try done.
  all: repeat match goal with
       | |- context [Z.compare ?a ?b] => destruct (Z.compare_spec a b); subst; simpl; try done
       | |- context [Pos.compare_cont Eq ?a ?b] => change (Pos.compare_cont Eq a b) with (Pos.compare a b)
       | |- context [Pos.compare ?a ?b] => destruct (Pos.compare_spec a b); subst; simpl; try done
       end; try lia; try done.
Qed.
Lemma leb_refl x : PyFloat.leb (PyFloat.of_Z 0) x = true → PyFloat.leb x x = true.
Proof.
  destruct x as [|[]| |[] m e]; try done. intros _. unfold PyFloat.leb, SFleb. simpl.
  rewrite Z.compare_refl. change (Pos.compare_cont Eq m m) with (Pos.compare m m). by rewrite Pos.compare_refl.
Qed.
Definition opt_float_le (a b : option PyFloat.float) : Prop :=
  match a, b with Some x, Some y => PyFloat.leb x y = true | None, _ => True | Some _, None => False end.
(** [s'] reports at least the pressure of [s]. *)
Record pressure_le (s s' : BackpressureSignals) : Prop := {
  ple_queue : queue_depth s ≤ queue_depth s';
  ple_lag : PyFloat.leb (scheduler_queue_lag_seconds s) (scheduler_queue_lag_seconds s') = true;
  ple_memory : opt_float_le (memory_used_percent s) (memory_used_percent s');
  ple_disk : match disk_free_percent s, disk_free_percent s' with
             | Some x, Some y => PyFloat.leb y x = true | None, _ => True | Some _, None => False end;
  ple_retry : retry_storm_count s ≤ retry_storm_count s';
}.
Lemma fired_mono l k : Forall2 (λ a b, a.2 = b.2 ∧ (a.1 = true → b.1 = true)) l k → fired k = [] → fired l = [].
Proof.
  unfold fired. induction 1 as [|[a r] [b r'] l k [_ Hab] _ IH]; [done|]. simpl in *.
  destruct b; [done|]. destruct a; [by specialize (Hab eq_refl)|done].
Qed.
Lemma opt_ge_mono a b x : opt_float_le a b → opt_ge a x = true → opt_ge b x = true.
Proof. destruct a, b; simpl; try done. intros H1 H2. by eapply leb_trans. Qed.
Definition severity (m : BackpressureMode) : Z :=
  match m with BP_NORMAL => 0 | BP_CONGESTED => 1 | BP_BROWNOUT => 2 | BP_HALT_NEW_WORK => 3 end.

Section pressure.
Context (s s' : BackpressureSignals) (p : BackpressurePolicy).
Hypothesis Hle : pressure_le s s'.
Lemma disk_mono x : opt_le (disk_free_percent s) x = true → opt_le (disk_free_percent s') x = true.
Proof using Hle.
  pose proof (ple_disk _ _ Hle) as Hd. destruct (disk_free_percent s), (disk_free_percent s'); simpl; try done.
  intros H. by eapply leb_trans.
Qed.
Lemma reasons_mono :
  (halt_reasons s' p = [] → halt_reasons s p = []) ∧ (brownout_reasons s' p = [] → brownout_reasons s p = [])
  ∧ (congested_reasons s' p = [] → congested_reasons s p = []).
Proof using Hle.
  pose proof disk_mono as Hd. destruct Hle as [H1 H2 H3 _ H5].
  split_and!; apply fired_mono; repeat constructor; simpl; rewrite ?Z.leb_le; intros;
    try lia; try (by eapply leb_trans); try (by eapply opt_ge_mono); by apply Hd.
Qed.
End pressure.

(** More pressure never loosens the brake: with the same policy, signals
    that report at least as much pressure give a mode at least as severe and a
    lane fraction at most as large, and admit new work only if the milder
    signals do. *)
Theorem backpressure_monotone s s' policy d d' :
  pressure_le s s' → wf_policy policy →
  evaluate_backpressure s policy = Ok d → evaluate_backpressure s' policy = Ok d' →
  severity (bp_mode d) ≤ severity (bp_mode d')
  ∧ PyFloat.leb (lane_fraction d') (lane_fraction d) = true
  ∧ (admit_new_work d' = true → admit_new_work d = true).
Proof.
  intros Hle Hpol. unfold evaluate_backpressure. set (p := default default_policy policy).
  destruct (reasons_mono s s' p Hle) as (Hh & Hb & Hc).
  destruct (policy_fraction policy Hpol) as (_ & Hlo & Hhi). fold p in Hlo, Hhi.
  destruct (bool_decide (halt_reasons s p ≠ [])) eqn:E1; [|apply bool_decide_eq_false, dec_stable in E1].
  all: destruct (bool_decide (halt_reasons s' p ≠ [])) eqn:E1'; [|apply bool_decide_eq_false, dec_stable in E1'].
  all: try (apply bool_decide_eq_true in E1; by apply Hh in E1').
  all: destruct (bool_decide (brownout_reasons s p ≠ [])) eqn:E2; [|apply bool_decide_eq_false, dec_stable in E2].
  all: destruct (bool_decide (brownout_reasons s' p ≠ [])) eqn:E2'; [|apply bool_decide_eq_false, dec_stable in E2'].
  all: try (apply bool_decide_eq_true in E2; by apply Hb in E2').
  all: destruct (bool_decide (congested_reasons s p ≠ [])) eqn:E3; [|apply bool_decide_eq_false, dec_stable in E3].
  all: destruct (bool_decide (congested_reasons s' p ≠ [])) eqn:E3'; [|apply bool_decide_eq_false, dec_stable in E3'].
  all: try (apply bool_decide_eq_true in E3; by apply Hc in E3').
  all: intros [-> _]%new_ok [-> _]%new_ok; simpl; split_and!; done || lia || by apply leb_refl.
Qed.

(** The signals a plan assumes when the caller gives none. *)
Definition queue_only (n : Z) : BackpressureSignals := mkSignals n (PyFloat.of_Z 0) None None 0 0 0.
Definition default_lanes (n : Z) : result Z := d ← evaluate_backpressure (queue_only n) None; lane_limit_of n None d.
Definition expected_lanes (n : Z) : Z := if n <? 50 then n else if n <? 200 then n / 2 else 0.
Lemma default_lanes_small : forallb (λ n, bool_decide (default_lanes n = Ok (expected_lanes n))) (seqZ 0 200) = true.
Proof. by vm_compute. Qed.
Lemma mul_zero n : 0 ≤ n < 2 ^ 62 → PyFloat.floor (PyFloat.mul (PyFloat.of_Z n) (PyFloat.of_Z 0)) = Ok 0.
Proof. intros Hn. by destruct (PyFloat.of_Z_within n Hn) as [->|(p & e & -> & _)]. Qed.
Lemma queue_brownout n : 200 ≤ n → ∃ d, evaluate_backpressure (queue_only n) None = Ok d
  ∧ admit_new_work d = false ∧ lane_fraction d = PyFloat.of_Z 0.
Proof.
  intros Hn. unfold evaluate_backpressure, halt_reasons, brownout_reasons, fired. simpl.
  destruct (Z.leb_spec 1000 n); simpl; [by eexists|]. rewrite (proj2 (Z.leb_le 200 n)) by lia. simpl. by eexists.
Qed.
(** With the default policy and no other signals the queue alone decides:
    below fifty candidates all may run, below two hundred half of them, and
    from two hundred on none. *)
Theorem default_lane_limit n : 0 ≤ n < 2 ^ 62 →
  (d ← evaluate_backpressure (mkSignals n (PyFloat.of_Z 0) None None 0 0 0) None; lane_limit_of n None d)
  = Ok (if n <? 50 then n else if n <? 200 then n / 2 else 0).
Proof.
  intros Hn. change (default_lanes n = Ok (expected_lanes n)). destruct (Z.ltb_spec n 200) as [Hlt|Hge].
  - pose proof (proj1 (forallb_forall _ _) default_lanes_small n) as H. rewrite bool_decide_eq_true in H.
    apply H, list_elem_of_In, elem_of_seqZ. lia.
  - unfold default_lanes, expected_lanes. destruct (queue_brownout n Hge) as (d & -> & Ha & Hf). cbn [mbind result_bind].
    unfold lane_limit_of. rewrite Hf, mul_zero by done. cbn [mbind result_bind]. rewrite Ha, andb_false_r. simpl.
    rewrite (proj2 (Z.ltb_ge n 50)), (proj2 (Z.ltb_ge n 200)) by lia. f_equal. lia.
Qed.
Lemma default_lane_limit_witness :
  (d ← evaluate_backpressure (mkSignals 75 (PyFloat.of_Z 0) None None 0 0 0) None; lane_limit_of 75 None d) = Ok 37.
Proof. by apply (default_lane_limit 75). Defined.

(** ** Concrete plans *)
Definition demo_item (rank : Z) (t : string) : SequenceItem :=
  mkItem rank t RD_READY (mkScore t 0 0 0 0 0 0 0) 0 0 false.
Definition demo_control (ready : list string) : ControlSnapshot :=
  mkSnapshot "CTRL-0123456789ABCDEF0123" "PROJECT-DEMO"
    (mkSequence "" "PROJECT-DEMO" "" 0 0 0 0 0 (mkCriticalPath [] 0 DS_EMPTY ∅ ∅)
       (imap (λ i t, demo_item (Z.of_nat i + 1) t) ready) 0)
    (mkScopeReport "" "" 0 0 [] "")
    (mkProjection "" "" CP_FAILED 0 0 0 0 0 0 0 0 false false [] (mkCohorts 0 0 0 0 0 0 0 0 0 0 0 0 0))
    [] [] (Sha256.hexdigest "demo").
Definition demo_cpu_pool : ResourcePool := mkPool "machine:local/cpu_slots" RT_CPU_SLOT 4 1 None true.
Definition demo_registry : ResourceRegistrySnapshot :=
  mkRegistry (Sha256.hexdigest "registry") [demo_cpu_pool] [] 0.
Definition cpu (m : AccessMode) (q : Z) : ResourceClaim := mkClaim "machine:local/cpu_slots" RT_CPU_SLOT m q None None.
Definition path (k : string) : ResourceClaim := mkClaim k RT_PATH EXCLUSIVE 1 None None.
Definition demo_profile (t : string) (rank score : Z) (cs : list ResourceClaim) : SchedulerTaskProfile :=
  mkProfile t "PROJECT-DEMO" rank score "P1" false cs None true true false false.
Definition demo_ids : list string := ["PP-TASK-000001"; "PP-TASK-000002"; "PP-TASK-000003"].
Definition demo_profiles : list SchedulerTaskProfile :=
  [demo_profile "PP-TASK-000001" 1 10 [cpu SHARED 2; path "src/a"];
   demo_profile "PP-TASK-000002" 2 7 [cpu SHARED 1; path "src/b"];
   demo_profile "PP-TASK-000003" 3 9 [cpu SHARED 1; path "src/a/x"]].
Definition demo_scheduler : DynamicLaneScheduler := mkScheduler 18 None.
Definition demo_plan : result SchedulerPlan :=
  plan demo_scheduler (demo_control demo_ids) demo_profiles demo_registry None None None 0.
Example demo_plan_lanes :
  (λ p, (ln_task_id <$> lanes p, ad_state <$> admissions p, selection_method p)) <$> demo_plan
  = Ok (["PP-TASK-000001"; "PP-TASK-000002"], [AD_ADMITTED; AD_ADMITTED; AD_CONFLICT], EXACT_BOUNDED).
Proof. by vm_compute. Qed.

(** ** A solver that keeps its promises *)
Module BruteForce.
Fixpoint subsets {A} (l : list A) : list (list A) :=
  match l with [] => [[]] | x :: l => (cons x <$> subsets l) ++ subsets l end.
Definition mentioned (m : cp_model) : list string :=
  remove_dups ((snd <$> cp_objective m) ++ mjoin ((λ c, snd <$> c.1) <$> cp_constraints m)).
Definition assign (sub : list string) (x : string) : bool := str_in x sub.
Definition feasible (m : cp_model) (sub : list string) : bool :=
  forallb (λ c, linear c.1 (assign sub) <=? c.2) (cp_constraints m).
Definition solve (m : cp_model) : cp_status * (string → bool) :=
  match max_by (λ sub, linear (cp_objective m) (assign sub)) (List.filter (feasible m) (subsets (mentioned m))) with
  | Some sub => (CP_OPTIMAL, assign sub)
  | None => (CP_INFEASIBLE, λ _, false)
  end.

Lemma filter_in_subsets (w : string → bool) l : List.filter w l ∈ subsets l.
Proof.
  induction l as [|x l IH]; simpl; [left|]. apply elem_of_app. destruct (w x); [left|by right].
  by apply list_elem_of_fmap_2.
Qed.
Lemma linear_ext ts v w : (∀ t, t ∈ ts → v t.2 = w t.2) → linear ts v = linear ts w.
Proof.
  induction ts as [|[c x] ts IH]; intros Hvw; [done|]. rewrite !linear_cons, IH by (intros; apply Hvw; by right).
  pose proof (Hvw (c, x)) as Hx. simpl in Hx. rewrite Hx; [done|left].
Qed.
Lemma assign_filter w m t : t ∈ mentioned m → assign (List.filter w (mentioned m)) t = w t.
Proof.
  intros Ht. unfold assign. destruct (w t) eqn:E.
  - apply str_in_spec, elem_of_List_filter. done.
  - apply str_in_false. intros [_ Hw]%elem_of_List_filter. congruence.
Qed.
Lemma feasible_spec m sub : feasible m sub = true ↔ satisfies m (assign sub).
Proof.
  unfold feasible, satisfies. rewrite forallb_forall, Forall_forall. setoid_rewrite <-list_elem_of_In.
  by setoid_rewrite Z.leb_le.
Qed.
Lemma laws : CpSatLaws solve.
Proof.
  split.
  - intros m s v. unfold solve. destruct (max_by _ _) as [sub|] eqn:E; intros [= <- <-]; [|naive_solver]. intros _.
    apply max_by_elem, elem_of_List_filter in E as [_ E]. by apply feasible_spec.
  - intros m v w. unfold solve. destruct (max_by _ _) as [sub|] eqn:E; [|done]. intros [= <-] Hw.
    assert (linear (cp_objective m) w = linear (cp_objective m) (assign (List.filter w (mentioned m)))) as ->.
    { apply linear_ext. intros t Ht. rewrite assign_filter; [done|]. apply elem_of_remove_dups, elem_of_app. left. by apply list_elem_of_fmap_2. }
    apply Z.leb_le. refine (max_by_le _ _ _ _ E _). apply elem_of_List_filter.
    split; [apply filter_in_subsets|]. apply feasible_spec. unfold satisfies in *.
    apply Forall_forall. intros c Hc. rewrite <-(linear_ext c.1 w); [by apply (proj1 (Forall_forall _ _) Hw)|].
    intros t Ht. rewrite assign_filter; [done|]. apply elem_of_remove_dups, elem_of_app. right. apply list_elem_of_join.
    eexists. split; [by apply list_elem_of_fmap_2|]. by apply (list_elem_of_fmap_2 (λ c, snd <$> c.1)).
Qed.
End BruteForce.

(** ** Witnesses *)
Lemma demo_profiles_wf : Forall wf_profile demo_profiles.
Proof. repeat constructor; simpl; done || lia. Qed.
Lemma demo_registry_valid : validate demo_registry = Ok ().
Proof. by vm_compute. Qed.
Lemma demo_profiles_ids : NoDup (pr_task_id <$> demo_profiles).
Proof. apply (bool_decide_unpack _). by vm_compute. Qed.
Definition demo_the_plan : SchedulerPlan := Eval vm_compute in
  match demo_plan with Ok p => p | Raise _ => mkPlan "" "" "" "" (mkBackpressure BP_NORMAL (PyFloat.of_Z 0) false []) EXACT_BOUNDED 0 0 [] [] [] 0 end.
Lemma demo_plan_ok : demo_plan = Ok demo_the_plan.
Proof. by vm_compute. Qed.


(** The safe alternative of the second and third task has less utility. *)
Definition demo_other : list SchedulerTaskProfile := drop 1 demo_profiles.
Lemma exact_plan_is_optimal_witness :
  utility demo_other = 16 ∧ utility demo_other ≤ Z_sum (ln_utility_score <$> lanes demo_the_plan).
Proof.
  split; [reflexivity|].
  refine (exact_plan_is_optimal demo_scheduler (demo_control demo_ids) demo_profiles demo_registry None None None 0
    demo_the_plan demo_other demo_plan_ok demo_profiles_wf demo_registry_valid eq_refl _ _ _).
  - apply (NoDup_fmap_1 pr_task_id), (bool_decide_unpack _). by vm_compute.
  - intros c Hc. assert (c ∈ demo_profiles) as Hin by (by right). split; [exact Hin|]. apply screen_pass.
    apply list_elem_of_In in Hc. destruct Hc as [<-|[<-|[]]]; by vm_compute.
  - split.
    + vm_compute. discriminate.
    + intros a b Ha Hb Hne (c & d & Hc & Hd & Hcd).
      apply list_elem_of_In in Ha, Hb, Hc, Hd. destruct Ha as [<-|[<-|[]]], Hb as [<-|[<-|[]]]; try done;
        destruct Hc as [<-|[<-|[]]], Hd as [<-|[<-|[]]]; by vm_compute in Hcd.
    + intros pool Hp _. apply list_elem_of_singleton in Hp as ->. vm_compute. discriminate.
Defined.

Lemma plan_decides_every_candidate_witness :
  Forall2 (decision_spec demo_profiles (ln_task_id <$> lanes demo_the_plan))
    (sorted_by pr_task_id demo_profiles) (admissions demo_the_plan).
Proof.
  exact (plan_decides_every_candidate demo_scheduler (demo_control demo_ids) demo_profiles demo_registry None None None 0
    demo_the_plan demo_plan_ok demo_profiles_wf).
Defined.

Lemma demo_inputs : wf_inputs (demo_control demo_ids) demo_profiles demo_registry None.
Proof.
  split; [by vm_compute|apply (bool_decide_unpack _); by vm_compute|by vm_compute|apply demo_profiles_wf|apply demo_registry_valid|done].
Qed.
Lemma plan_returns_witness :
  ∃ p, plan (mkScheduler 1 (Some BruteForce.solve)) (demo_control demo_ids) demo_profiles demo_registry None None (Some 2) 0 = Ok p.
Proof.
  exact (plan_returns (mkScheduler 1 (Some BruteForce.solve)) (demo_control demo_ids) demo_profiles demo_registry None
    demo_inputs None (Some 2) 0).
Defined.

Definition demo_graph : ugraph := mkUgraph demo_ids [("PP-TASK-000001", "PP-TASK-000003")].
Definition demo_pools : gmap string ResourcePool := dict_of pl_resource_key [demo_cpu_pool].
Lemma solver_selection_accepted_witness :
  ortools_select BruteForce.solve demo_profiles demo_graph demo_pools ∅ 3 = Ok ["PP-TASK-000001"; "PP-TASK-000002"]
  ∧ _selection_is_valid (take 2 demo_profiles) demo_graph demo_pools ∅ 3 = true.
Proof.
  split; [by vm_compute|].
  refine (proj1 (solver_selection_accepted BruteForce.solve demo_profiles demo_graph demo_pools ∅ 3 BruteForce.laws
    demo_profiles_ids demo_profiles_wf _ _ ["PP-TASK-000001"; "PP-TASK-000002"] _)).
  - intros e He. apply list_elem_of_singleton in He as ->. done.
  - lia.
  - by vm_compute.
Defined.

Lemma greedy_selection_maximal_witness :
  Z.of_nat (length (_greedy_select demo_profiles demo_graph demo_pools ∅ 3)) ≤ 3
  ∧ compatible_set demo_graph (_greedy_select demo_profiles demo_graph demo_pools ∅ 3).
Proof.
  destruct (greedy_selection_maximal demo_profiles demo_graph demo_pools ∅ 3 demo_profiles_ids demo_profiles_wf)
    as (_ & H1 & H2 & _); [lia|]. exact (conj H1 H2).
Defined.

Lemma conflict_graph_exact_witness :
  ∃ g es, build_conflict_graph demo_profiles = Ok (g, es)
    ∧ ∀ a b, a ∈ demo_profiles → b ∈ demo_profiles → a ≠ b → has_edge g (pr_task_id a) (pr_task_id b) = true ↔ clash a b.
Proof. exact (conflict_graph_exact demo_profiles demo_profiles_ids demo_profiles_wf). Defined.

Lemma backpressure_monotone_witness :
  ∃ d d', evaluate_backpressure (queue_only 10) None = Ok d ∧ evaluate_backpressure (queue_only 500) None = Ok d'
    ∧ severity (bp_mode d) ≤ severity (bp_mode d').
Proof.
  exists (mkBackpressure BP_NORMAL (PyFloat.of_Z 1) true []),
    (mkBackpressure BP_BROWNOUT (PyFloat.of_Z 0) false ["queue_depth_brownout"]).
  split; [by vm_compute|]. split; [by vm_compute|].
  refine (proj1 (backpressure_monotone (queue_only 10) (queue_only 500) None _ _ _ I _ _)); [|by vm_compute..].
  by split.
Defined.

(** ** The greedy capacity check *)
(** Two claims of one task on one pool pass the profile's validation when
    they differ in their access mode. *)
Definition greedy_profiles : list SchedulerTaskProfile :=
  [demo_profile "PP-TASK-000001" 1 10 [cpu SHARED 2; cpu EXCLUSIVE 2];
   demo_profile "PP-TASK-000002" 2 7 [path "src/b"]].
Definition plan_with (exact_limit : Z) : result SchedulerPlan :=
  plan (mkScheduler exact_limit None) (demo_control demo_ids) greedy_profiles demo_registry None None None 0.
(** The greedy capacity check looks at the claims of a task one by one:
    with more candidates than the exact limit a task that claims two plus two
    units of a pool with three is admitted; the exact method rejects it. *)
Theorem greedy_overcommits_pool :
  Forall (λ p, validate p = Ok ()) greedy_profiles
  ∧ (λ p, (selection_method p, ln_task_id <$> lanes p)) <$> plan_with 1
    = Ok (DETERMINISTIC_GREEDY, ["PP-TASK-000001"; "PP-TASK-000002"])
  ∧ demand "machine:local/cpu_slots" (all_claims greedy_profiles) = 4 ∧ allocatable_units demo_cpu_pool = 3
  ∧ (λ p, (selection_method p, ln_task_id <$> lanes p)) <$> plan_with 18 = Ok (EXACT_BOUNDED, ["PP-TASK-000002"]).
Proof. split; [repeat constructor|by vm_compute]. Qed.
