(* ===== verification/BudgetDomain.v ===== *)
(** * BudgetDomain: [domain/budget.py], limits, ledger, spend leases

    Amounts are integers of millionths of a dollar.  Scope keys are
    normalised (stripped, without duplicates, sorted) and dictionaries of
    units sorted when a record is built; a dictionary is a [gmap] and is
    walked in the order of its keys. *)
From S2P Require Import Prelude PyStd PyRe PyJson Identifiers TaskState ControlDomain SchedulerDomain LanePolicy.
Local Open Scope Z_scope.

Definition BUDGET_ID : re :=
  Cat (alts [lit "LIMIT"; lit "QUOTA"; lit "ENTRY"; lit "LEASE"; lit "ADMISSION"; lit "FORECAST"; lit "HISTORY";
             lit "SIM"; lit "ANOMALY"; lit "IMPACT"]) (Cat (lit "-") (times 20 hex_upper)).
Definition budget_identifier (prefix : string) (parts : list string) : result string :=
  prefixed_identifier "budget" prefix parts.
Definition budget_fingerprint (j : json) : string := json_fingerprint j.

Inductive BudgetScopeType := ST_GLOBAL | ST_PORTFOLIO | ST_PROJECT | ST_PHASE | ST_TASK | ST_PROVIDER | ST_RESOURCE.
#[export] Instance BudgetScopeType_eq_dec : EqDecision BudgetScopeType.
Proof. solve_decision. Defined.
Definition BudgetScopeType_value (t : BudgetScopeType) : string :=
  match t with
  | ST_GLOBAL => "GLOBAL" | ST_PORTFOLIO => "PORTFOLIO" | ST_PROJECT => "PROJECT" | ST_PHASE => "PHASE"
  | ST_TASK => "TASK" | ST_PROVIDER => "PROVIDER" | ST_RESOURCE => "RESOURCE" end.
Inductive CostClass :=
  | CC_PROVIDER | CC_SUBSCRIPTION | CC_LOCAL_COMPUTE | CC_CLOUD | CC_STORAGE | CC_NETWORK | CC_VERIFICATION
  | CC_CONTEXT | CC_TOOL | CC_OTHER.
#[export] Instance CostClass_eq_dec : EqDecision CostClass.
Proof. solve_decision. Defined.
Inductive CostEvidenceState :=
  | CE_OBSERVED | CE_PROVIDER_REPORTED | CE_ESTIMATED | CE_RECONCILED | CE_INFRACOST | CE_UNKNOWN.
#[export] Instance CostEvidenceState_eq_dec : EqDecision CostEvidenceState.
Proof. solve_decision. Defined.
Inductive LedgerDirection := DEBIT | CREDIT.
#[export] Instance LedgerDirection_eq_dec : EqDecision LedgerDirection.
Proof. solve_decision. Defined.
Inductive SpendLeaseState :=
  | SL_RESERVED | SL_SETTLED | SL_RELEASED | SL_EXPIRED | SL_CANCELLED | SL_UNKNOWN_OUTCOME | SL_OVERSPENT.
#[export] Instance SpendLeaseState_eq_dec : EqDecision SpendLeaseState.
Proof. solve_decision. Defined.
Inductive PressureMode := PM_GREEN | PM_YELLOW | PM_ORANGE | PM_RED | PM_HARD_STOP.
#[export] Instance PressureMode_eq_dec : EqDecision PressureMode.
Proof. solve_decision. Defined.
Inductive ReserveReason :=
  | RR_P0_FAILURE_RECOVERY | RR_CRITICAL_PATH | RR_RELEASE_BLOCKER | RR_SECURITY | RR_PRODUCTION_RECOVERY
  | RR_CRITICAL_ARCHITECTURE | RR_DEADLINE_PROTECTION | RR_REQUIRED_VERIFICATION.
#[export] Instance ReserveReason_eq_dec : EqDecision ReserveReason.
Proof. solve_decision. Defined.
Definition ReserveReason_value (r : ReserveReason) : string :=
  match r with
  | RR_P0_FAILURE_RECOVERY => "P0_FAILURE_RECOVERY" | RR_CRITICAL_PATH => "CRITICAL_PATH"
  | RR_RELEASE_BLOCKER => "RELEASE_BLOCKER" | RR_SECURITY => "SECURITY"
  | RR_PRODUCTION_RECOVERY => "PRODUCTION_RECOVERY" | RR_CRITICAL_ARCHITECTURE => "CRITICAL_ARCHITECTURE"
  | RR_DEADLINE_PROTECTION => "DEADLINE_PROTECTION" | RR_REQUIRED_VERIFICATION => "REQUIRED_VERIFICATION" end.
Definition all_reserve_reasons : list ReserveReason :=
  [RR_P0_FAILURE_RECOVERY; RR_CRITICAL_PATH; RR_RELEASE_BLOCKER; RR_SECURITY; RR_PRODUCTION_RECOVERY;
   RR_CRITICAL_ARCHITECTURE; RR_DEADLINE_PROTECTION; RR_REQUIRED_VERIFICATION].

(** ** Shared validators *)
Definition norm_scopes (scopes : list string) : list string :=
  sorted_set (List.filter str_truthy (str_strip <$> scopes)).
(** [any(not key.strip() or amount < 0 ...)]. *)
Definition bad_units (m : gmap string Z) : bool :=
  existsb (λ kv, negb (str_truthy (str_strip kv.1)) || (kv.2 <? 0)) (map_to_list m).
(** [value.items()] after [dict(sorted(value.items()))]. *)
Definition items {A} (m : gmap string A) : list (string * A) := sorted_by fst (map_to_list m).
Definition units_of (m : gmap string Z) (k : string) : Z := match m !! k with Some n => n | None => 0 end.
(** The identifier a record must carry. *)
Definition carries_id (prefix : string) (parts : list string) (i message : string) : result () :=
  expected ← budget_identifier prefix parts;
  raise_if (negb (String.eqb i expected)) ValueError message.

(** ** Limits *)
Record BudgetLimit := mkLimit {
  limit_id : string;
  scope_type : BudgetScopeType;
  scope_id : string;
  bl_cycle_id : string;
  hard_cap_microunits : Z;
  soft_cap_microunits : option Z;
  protected_reserve_microunits : Z;
  parent_scope_key : option string;
  bl_enabled : bool;
}.
Definition scope_key (l : BudgetLimit) : string := BudgetScopeType_value (scope_type l) +:+ ":" +:+ scope_id l.
Definition normal_cap_microunits (l : BudgetLimit) : Z := hard_cap_microunits l - protected_reserve_microunits l.
#[export] Instance BudgetLimit_model : Model BudgetLimit := λ l,
  _ ← raise_if (negb (min_length 1 (scope_id l) && max_length 191 (scope_id l))) ValidationError "scope_id";
  _ ← raise_if (negb (min_length 1 (bl_cycle_id l) && max_length 100 (bl_cycle_id l))) ValidationError "cycle_id";
  _ ← raise_if ((hard_cap_microunits l <? 0) || negb (opt_all (λ n, 0 <=? n) (soft_cap_microunits l))
                || (protected_reserve_microunits l <? 0)) ValidationError "microunits";
  _ ← raise_if (negb (fullmatch BUDGET_ID (limit_id l))) ValueError "invalid budget limit id";
  _ ← carries_id "LIMIT" [scope_key l; bl_cycle_id l] (limit_id l) "limit_id does not match scope/cycle";
  _ ← raise_if (negb (opt_all (λ n, n <=? hard_cap_microunits l) (soft_cap_microunits l))) ValueError
        "soft cap cannot exceed hard cap";
  raise_if (hard_cap_microunits l <? protected_reserve_microunits l) ValueError
    "protected reserve cannot exceed hard cap".

Record QuotaLimit := mkQuota {
  quota_id : string;
  ql_scope_key : string;
  ql_provider_id : string;
  quota_name : string;
  ql_capacity_units : Z;
  protected_units : Z;
  max_shadow_cost_microunits : Z;
  ql_enabled : bool;
}.
#[export] Instance QuotaLimit_model : Model QuotaLimit := λ q,
  _ ← raise_if (negb (min_length 3 (ql_scope_key q) && max_length 250 (ql_scope_key q))) ValidationError "scope_key";
  _ ← raise_if (negb (min_length 1 (ql_provider_id q) && max_length 191 (ql_provider_id q))) ValidationError "provider_id";
  _ ← raise_if (negb (min_length 1 (quota_name q) && max_length 100 (quota_name q))) ValidationError "quota_name";
  _ ← raise_if ((ql_capacity_units q <=? 0) || (protected_units q <? 0) || (max_shadow_cost_microunits q <? 0))
        ValidationError "units";
  _ ← raise_if (ql_capacity_units q <? protected_units q) ValueError "protected quota cannot exceed capacity";
  carries_id "QUOTA" [ql_scope_key q; ql_provider_id q; quota_name q] (quota_id q)
    "quota_id does not match quota semantics".

(** ** Ledger *)
Record BudgetLedgerEntry := mkEntry {
  entry_id : string;
  le_idempotency_key : string;
  le_project_id : string;
  le_task_id : option string;
  le_provider_id : option string;
  model_id : option string;
  resource_id : option string;
  tool_id : option string;
  outcome_id : option string;
  cost_class : CostClass;
  direction : LedgerDirection;
  cash_microunits : Z;
  shadow_cost_microunits : Z;
  quota_units : gmap string Z;
  usage_dimensions : gmap string Z;
  le_scope_keys : list string;
  evidence_state : CostEvidenceState;
  verified_outcome : bool;
  merged_outcome : bool;
  retry_waste : bool;
  evidence_references : list string;
  le_observed_at_utc : Z;
  recorded_at_utc : Z;
}.
#[export] Instance BudgetLedgerEntry_eq_dec : EqDecision BudgetLedgerEntry.
Proof. solve_decision. Defined.
#[export] Instance BudgetLedgerEntry_model : Model BudgetLedgerEntry := λ e,
  _ ← raise_if (negb (min_length 1 (le_idempotency_key e) && max_length 300 (le_idempotency_key e))) ValidationError
        "idempotency_key";
  _ ← raise_if (negb (min_length 1 (le_project_id e) && max_length 191 (le_project_id e))) ValidationError "project_id";
  _ ← raise_if ((cash_microunits e <? 0) || (shadow_cost_microunits e <? 0)) ValidationError "microunits";
  _ ← raise_if (bad_units (quota_units e) || bad_units (usage_dimensions e)) ValueError
        "usage/quota dimensions require non-empty keys and non-negative integers";
  _ ← raise_if (bool_decide (norm_scopes (le_scope_keys e) = [])) ValueError
        "ledger entry requires at least one scope key";
  _ ← carries_id "ENTRY" [le_idempotency_key e] (entry_id e) "entry_id does not match idempotency key";
  raise_if ((cash_microunits e =? 0) && bool_decide (quota_units e = ∅) && bool_decide (usage_dimensions e = ∅))
    ValueError "ledger entry must record cash, quota, or usage".

(** ** Spend leases *)
Record SpendLease := mkSpendLease {
  sp_lease_id : string;
  sp_idempotency_key : string;
  sp_project_id : string;
  sp_task_id : string;
  sp_provider_id : option string;
  sp_scope_keys : list string;
  maximum_microunits : Z;
  reserved_microunits : Z;
  consumed_microunits : Z;
  quota_reservations : gmap string Z;
  sp_state : SpendLeaseState;
  sp_reserve_reason : option ReserveReason;
  reservation_evidence : list string;
  sp_created_at_utc : Z;
  sp_expires_at_utc : Z;
  sp_updated_at_utc : Z;
  reconciliation_required : bool;
}.
#[export] Instance SpendLease_eq_dec : EqDecision SpendLease.
Proof. solve_decision. Defined.
#[export] Instance SpendLease_model : Model SpendLease := λ l,
  _ ← raise_if (negb (min_length 1 (sp_idempotency_key l) && max_length 300 (sp_idempotency_key l))) ValidationError
        "idempotency_key";
  _ ← raise_if (negb (min_length 1 (sp_project_id l) && max_length 191 (sp_project_id l))) ValidationError "project_id";
  _ ← raise_if (negb (min_length 1 (sp_task_id l) && max_length 191 (sp_task_id l))) ValidationError "task_id";
  _ ← raise_if ((maximum_microunits l <? 0) || (reserved_microunits l <? 0) || (consumed_microunits l <? 0))
        ValidationError "microunits";
  _ ← raise_if (bool_decide (norm_scopes (sp_scope_keys l) = [])) ValueError "spend lease requires at least one scope key";
  _ ← raise_if (bad_units (quota_reservations l)) ValueError "quota reservations require non-negative units";
  _ ← carries_id "LEASE" [sp_idempotency_key l] (sp_lease_id l) "lease_id does not match idempotency key";
  _ ← raise_if (maximum_microunits l <? reserved_microunits l) ValueError "reserved amount cannot exceed lease maximum";
  _ ← raise_if (sp_expires_at_utc l <=? sp_created_at_utc l) ValueError "lease expiry must follow creation";
  raise_if (bool_decide (sp_state l = SL_UNKNOWN_OUTCOME) && negb (reconciliation_required l)) ValueError
    "unknown-outcome leases must require reconciliation".
Definition reservation_held (l : SpendLease) : bool := bool_decide (sp_state l ∈ [SL_RESERVED; SL_UNKNOWN_OUTCOME]).

(** Building a record normalises its scopes; so does reading one back. *)
Definition new_entry (e : BudgetLedgerEntry) : result BudgetLedgerEntry :=
  new (mkEntry (entry_id e) (le_idempotency_key e) (le_project_id e) (le_task_id e) (le_provider_id e) (model_id e)
         (resource_id e) (tool_id e) (outcome_id e) (cost_class e) (direction e) (cash_microunits e)
         (shadow_cost_microunits e) (quota_units e) (usage_dimensions e) (norm_scopes (le_scope_keys e))
         (evidence_state e) (verified_outcome e) (merged_outcome e) (retry_waste e) (evidence_references e)
         (le_observed_at_utc e) (recorded_at_utc e)).
Definition new_spend_lease (l : SpendLease) : result SpendLease :=
  new (mkSpendLease (sp_lease_id l) (sp_idempotency_key l) (sp_project_id l) (sp_task_id l) (sp_provider_id l)
         (norm_scopes (sp_scope_keys l)) (maximum_microunits l) (reserved_microunits l) (consumed_microunits l)
         (quota_reservations l) (sp_state l) (sp_reserve_reason l) (reservation_evidence l) (sp_created_at_utc l)
         (sp_expires_at_utc l) (sp_updated_at_utc l) (reconciliation_required l)).

(** ** Policy, snapshots, requests and decisions *)
Record BudgetPolicy := mkBudgetPolicy {
  yellow_projected_ratio_milli : Z;
  orange_projected_ratio_milli : Z;
  red_projected_ratio_milli : Z;
  yellow_pace_ratio_milli : Z;
  orange_pace_ratio_milli : Z;
  red_pace_ratio_milli : Z;
  lease_ttl_seconds : Z;
  reevaluate_at_consumed_milli : Z;
  default_p90_multiplier_milli : Z;
  minimum_history_samples_medium : Z;
  minimum_history_samples_high : Z;
  anomaly_warn_ratio_milli : Z;
  anomaly_block_ratio_milli : Z;
  reserve_reasons : list ReserveReason;
}.
Definition default_budget_policy : BudgetPolicy :=
  mkBudgetPolicy 800 900 975 1100 1250 1500 3600 800 1500 4 12 1500 2500 all_reserve_reasons.
Definition between (lo hi n : Z) : bool := (lo <=? n) && (n <=? hi).
#[export] Instance BudgetPolicy_model : Model BudgetPolicy := λ p,
  _ ← raise_if (negb (forallb (between 1 999)
                        [yellow_projected_ratio_milli p; orange_projected_ratio_milli p; red_projected_ratio_milli p;
                         reevaluate_at_consumed_milli p])) ValidationError "ratio";
  _ ← raise_if (negb (forallb (λ n, 1000 <=? n)
                        [yellow_pace_ratio_milli p; orange_pace_ratio_milli p; red_pace_ratio_milli p;
                         anomaly_warn_ratio_milli p])) ValidationError "pace";
  _ ← raise_if (negb (between 30 604800 (lease_ttl_seconds p))) ValidationError "lease_ttl_seconds";
  _ ← raise_if (negb (between 1000 5000 (default_p90_multiplier_milli p))) ValidationError "default_p90_multiplier_milli";
  _ ← raise_if ((minimum_history_samples_medium p <? 1) || (minimum_history_samples_high p <? 2)
                || (anomaly_block_ratio_milli p <? 1001)) ValidationError "greater_than_equal";
  _ ← raise_if (negb ((yellow_projected_ratio_milli p <? orange_projected_ratio_milli p)
                      && (orange_projected_ratio_milli p <? red_projected_ratio_milli p)
                      && (red_projected_ratio_milli p <? 1000))) ValueError
        "projected pressure thresholds must increase below 1000";
  _ ← raise_if (negb ((yellow_pace_ratio_milli p <? orange_pace_ratio_milli p)
                      && (orange_pace_ratio_milli p <? red_pace_ratio_milli p))) ValueError
        "pace thresholds must increase";
  raise_if (anomaly_block_ratio_milli p <=? anomaly_warn_ratio_milli p) ValueError
    "anomaly warning threshold must be below block threshold".

Record BudgetSnapshot := mkBudgetSnapshot {
  sn_scope_key : string;
  sn_hard_cap_microunits : Z;
  sn_soft_cap_microunits : Z;
  sn_protected_reserve_microunits : Z;
  spent_microunits : Z;
  credited_microunits : Z;
  committed_microunits : Z;
  remaining_normal_microunits : Z;
  remaining_total_microunits : Z;
  sn_forecast_p90_microunits : Z;
  sn_pace_ratio_milli : Z;
  sn_pressure_mode : PressureMode;
  sn_observed_at_utc : Z;
}.
#[export] Instance BudgetSnapshot_model : Model BudgetSnapshot := λ s,
  raise_if (existsb (λ n, n <? 0)
              [sn_hard_cap_microunits s; sn_soft_cap_microunits s; sn_protected_reserve_microunits s;
               spent_microunits s; credited_microunits s; committed_microunits s; remaining_normal_microunits s;
               remaining_total_microunits s; sn_forecast_p90_microunits s; sn_pace_ratio_milli s])
    ValidationError "greater_than_equal".

Record BudgetAdmissionRequest := mkRequest {
  rq_project_id : string;
  rq_task_id : string;
  task_class : string;
  rq_provider_id : option string;
  rq_scope_keys : list string;
  estimated_p50_microunits : Z;
  estimated_p90_microunits : Z;
  quota_requirements : gmap string Z;
  rq_priority : string;
  rq_risk : string;
  rq_critical_path : bool;
  required_verification : bool;
  paid_incremental : bool;
  local_or_subscription_alternative : bool;
  rq_reserve_reason : option ReserveReason;
  deadline_at_utc : option Z;
}.
#[export] Instance BudgetAdmissionRequest_model : Model BudgetAdmissionRequest := λ r,
  _ ← raise_if (negb (min_length 1 (rq_project_id r) && max_length 191 (rq_project_id r))) ValidationError "project_id";
  _ ← raise_if (negb (min_length 1 (rq_task_id r) && max_length 191 (rq_task_id r))) ValidationError "task_id";
  _ ← raise_if (negb (min_length 1 (task_class r) && max_length 100 (task_class r))) ValidationError "task_class";
  _ ← raise_if ((estimated_p50_microunits r <? 0) || (estimated_p90_microunits r <? 0)) ValidationError "estimate";
  _ ← raise_if (bool_decide (norm_scopes (rq_scope_keys r) = [])) ValueError "admission request requires scope keys";
  _ ← raise_if (bad_units (quota_requirements r)) ValueError "quota requirements require non-negative units";
  raise_if (estimated_p90_microunits r <? estimated_p50_microunits r) ValueError "estimated P90 cannot be below P50".
Definition units_json (m : gmap string Z) : json := JObj (prod_map id JInt <$> items m).
(** [request.model_dump(mode="json")]. *)
Definition request_json (r : BudgetAdmissionRequest) : json :=
  JObj [("schema_version", JStr "1.0.0"); ("project_id", JStr (rq_project_id r)); ("task_id", JStr (rq_task_id r));
        ("task_class", JStr (task_class r)); ("provider_id", JOptStr (rq_provider_id r));
        ("scope_keys", JList (JStr <$> rq_scope_keys r));
        ("estimated_p50_microunits", JInt (estimated_p50_microunits r));
        ("estimated_p90_microunits", JInt (estimated_p90_microunits r));
        ("quota_requirements", units_json (quota_requirements r)); ("priority", JStr (rq_priority r));
        ("risk", JStr (rq_risk r)); ("critical_path", JBool (rq_critical_path r));
        ("required_verification", JBool (required_verification r)); ("paid_incremental", JBool (paid_incremental r));
        ("local_or_subscription_alternative", JBool (local_or_subscription_alternative r));
        ("reserve_reason", JOptStr (ReserveReason_value <$> rq_reserve_reason r));
        ("deadline_at_utc", json_opt_instant (deadline_at_utc r))].

Record BudgetAdmissionDecision := mkDecision {
  decision_id : string;
  bd_task_id : string;
  bd_admitted : bool;
  bd_pressure_mode : PressureMode;
  authorized_microunits : Z;
  reserve_authorized : bool;
  allowed_paid_incremental : bool;
  quota_shadow_cost_microunits : Z;
  bd_reasons : list string;
  preferred_execution_modes : list string;
  bd_generated_at_utc : Z;
}.
#[export] Instance BudgetAdmissionDecision_model : Model BudgetAdmissionDecision := λ d,
  raise_if ((authorized_microunits d <? 0) || (quota_shadow_cost_microunits d <? 0)) ValidationError "microunits".
