(* ===== verification/BudgetRules.v ===== *)
(** * BudgetRules: [budget/policy.py]

    Pressure, snapshots, the admission rules and the distribution of soft
    envelopes over providers. *)
From S2P Require Import Prelude PyStd PyRe PyJson Identifiers TaskState ControlDomain SchedulerDomain LanePolicy BudgetDomain.
Local Open Scope Z_scope.

Definition PRESSURE_ORDER (m : PressureMode) : Z :=
  match m with PM_GREEN => 0 | PM_YELLOW => 1 | PM_ORANGE => 2 | PM_RED => 3 | PM_HARD_STOP => 4 end.
(** [max(modes, key=...)]: the first of the largest. *)
Definition max_pressure (m : PressureMode) (ms : list PressureMode) : PressureMode :=
  foldl (λ best x, if PRESSURE_ORDER best <? PRESSURE_ORDER x then x else best) m ms.

Definition quota_shadow_cost (limit : QuotaLimit) (used_or_reserved_units : Z) : Z :=
  let used := Z.max 0 (Z.min used_or_reserved_units (ql_capacity_units limit)) in
  let remaining := ql_capacity_units limit - used in
  let depletion_milli := 1000 - remaining * 1000 / ql_capacity_units limit in
  max_shadow_cost_microunits limit * depletion_milli * depletion_milli / 1000000.

Definition projected_mode (policy : BudgetPolicy) (ratio : Z) : PressureMode :=
  if 1000 <=? ratio then PM_RED
  else if red_projected_ratio_milli policy <=? ratio then PM_RED
  else if orange_projected_ratio_milli policy <=? ratio then PM_ORANGE
  else if yellow_projected_ratio_milli policy <=? ratio then PM_YELLOW
  else PM_GREEN.
Definition pace_mode (policy : BudgetPolicy) (pace : Z) : PressureMode :=
  if red_pace_ratio_milli policy <=? pace then PM_RED
  else if orange_pace_ratio_milli policy <=? pace then PM_ORANGE
  else if yellow_pace_ratio_milli policy <=? pace then PM_YELLOW
  else PM_GREEN.
Definition determine_pressure (policy : BudgetPolicy) (hard_cap protected_reserve : Z) (soft_cap : option Z)
    (spent credited committed forecast_p90 pace : Z) : PressureMode :=
  let effective_spent := Z.max 0 (spent - credited) in
  let committed_total := effective_spent + committed in
  if hard_cap =? 0 then (if 0 <? committed_total then PM_HARD_STOP else PM_GREEN)
  else if hard_cap <=? committed_total then PM_HARD_STOP
  else
    let normal_cap := Z.max 0 (hard_cap - protected_reserve) in
    let projected := committed_total + forecast_p90 in
    let configured_soft := match soft_cap with None => normal_cap | Some s => Z.min normal_cap (Z.max 0 s) end in
    let denominator := if 0 <? configured_soft then configured_soft
                       else if 0 <? normal_cap then normal_cap else hard_cap in
    let projected_ratio := projected * 1000 / Z.max 1 denominator in
    max_pressure (projected_mode policy projected_ratio) [pace_mode policy pace].

Definition build_snapshot (scope : string) (hard_cap protected_reserve : Z) (soft_cap : option Z)
    (spent credited committed forecast_p90 pace : Z) (policy : BudgetPolicy) (now : Z) : result BudgetSnapshot :=
  let effective := Z.max 0 (spent - credited) in
  let used := effective + committed in
  let normal_cap := Z.max 0 (hard_cap - protected_reserve) in
  new (mkBudgetSnapshot scope hard_cap
         (Z.min (Z.max 0 (hard_cap - protected_reserve))
            (Z.max 0 (match soft_cap with Some s => s | None => hard_cap - protected_reserve end)))
         protected_reserve spent credited committed (Z.max 0 (normal_cap - used)) (Z.max 0 (hard_cap - used))
         forecast_p90 pace
         (determine_pressure policy hard_cap protected_reserve soft_cap spent credited committed forecast_p90 pace)
         now).

(** ** Admission *)
(** The reserve: granted, and the reasons why not. *)
Definition reserve_decision (policy : BudgetPolicy) (r : BudgetAdmissionRequest) : bool * list string :=
  let known := match rq_reserve_reason r with
               | Some x => bool_decide (x ∈ reserve_reasons policy) | None => false end in
  let unauthorised := bool_decide (rq_reserve_reason r ≠ None) && negb known in
  let deadline_protection := bool_decide (rq_reserve_reason r = Some RR_DEADLINE_PROTECTION)
                             && bool_decide (deadline_at_utc r ≠ None) in
  let critical := rq_critical_path r || required_verification r || str_in (rq_priority r) ["P0"; "P1"]
                  || deadline_protection in
  (known && critical,
   (if unauthorised then ["reserve_reason_not_authorized"] else [])
   ++ (if known && negb critical then ["protected_reserve_requires_critical_work"] else [])).

(** The cash side: whether paid work is allowed, how much is authorised. *)
Definition cash_decision (r : BudgetAdmissionRequest) (snapshots : list BudgetSnapshot) (pressure : PressureMode)
    (reserve : bool) : bool * Z * list string :=
  if negb (paid_incremental r) then (false, 0, [])
  else if bool_decide (snapshots = []) then (false, 0, ["budget_limit_missing"])
  else
    let available := (λ s, if reserve then remaining_total_microunits s else remaining_normal_microunits s)
                     <$> snapshots in
    let authorised := foldl Z.min (estimated_p90_microunits r) available in
    (negb (bool_decide (pressure = PM_HARD_STOP)), authorised,
     if authorised <? estimated_p90_microunits r then ["insufficient_budget_for_p90"] else []).
(** Pressure: a hard stop is noted, RED withdraws the permission. *)
Definition pressure_decision (r : BudgetAdmissionRequest) (pressure : PressureMode) (reserve paid_allowed : bool)
  : bool * list string :=
  if bool_decide (pressure = PM_HARD_STOP) && paid_incremental r then
    (paid_allowed, ["hard_stop_blocks_incremental_paid_work"])
  else if bool_decide (pressure = PM_RED) && paid_incremental r && negb (reserve || required_verification r) then
    (false, ["red_pressure_requires_reserve_or_required_verification"])
  else (paid_allowed, []).
Definition quota_step (quotas : gmap string QuotaLimit) (used_ : gmap string Z) (reserve : bool)
    (acc : Z * bool * list string) (kv : string * Z) : Z * bool * list string :=
  let '(shadow, ok, reasons) := acc in
  let '(qid, requested) := kv in
  match quotas !! qid with
  | Some q =>
      if negb (ql_enabled q) then (shadow, false, reasons ++ ["quota_limit_missing:" +:+ qid])
      else
        let used := Z.max 0 (units_of used_ qid) in
        let protected := if reserve then 0 else protected_units q in
        let allocatable := Z.max 0 (ql_capacity_units q - protected - used) in
        let short := allocatable <? requested in
        (shadow + quota_shadow_cost q (used + requested), ok && negb short,
         reasons ++ (if short then ["quota_insufficient:" +:+ qid] else []))
  | None => (shadow, false, reasons ++ ["quota_limit_missing:" +:+ qid])
  end.
Definition preferred_modes (pressure : PressureMode) : list string :=
  match pressure with
  | PM_GREEN => ["BEST_CAPABLE"]
  | PM_YELLOW => ["LOWER_COST_CAPABLE"; "SUBSCRIPTION"; "LOCAL"]
  | PM_ORANGE => ["SUBSCRIPTION"; "LOCAL"; "LOWER_COST_CAPABLE"]
  | PM_RED | PM_HARD_STOP => ["LOCAL"; "SUBSCRIPTION"]
  end.
Definition snapshots_pressure (snapshots : list BudgetSnapshot) : PressureMode :=
  match sn_pressure_mode <$> snapshots with [] => PM_GREEN | m :: ms => max_pressure m ms end.

Definition evaluate_budget (policy : BudgetPolicy) (r : BudgetAdmissionRequest) (snapshots : list BudgetSnapshot)
    (quotas : gmap string QuotaLimit) (used_ : gmap string Z) (now : Z) : result BudgetAdmissionDecision :=
  let pressure := snapshots_pressure snapshots in
  let '(reserve, reasons0) := reserve_decision policy r in
  let '(paid0, authorised, reasons1) := cash_decision r snapshots pressure reserve in
  let '(paid_allowed, reasons2) := pressure_decision r pressure reserve paid0 in
  let '(shadow, quota_ok, reasons3) :=
    foldl (quota_step quotas used_ reserve) (0, true, reasons0 ++ reasons1 ++ reasons2) (items (quota_requirements r)) in
  let monetary_ok := negb (paid_incremental r) || (paid_allowed && (estimated_p90_microunits r <=? authorised)) in
  let admitted := monetary_ok && quota_ok && negb (str_in "reserve_reason_not_authorized" reasons3) in
  let reasons := reasons3 ++ (if negb admitted && local_or_subscription_alternative r
                              then ["retry_with_local_or_subscription_alternative"] else []) in
  did ← budget_identifier "ADMISSION" [rq_task_id r; budget_fingerprint (request_json r)];
  new (mkDecision did (rq_task_id r) admitted pressure (if admitted && paid_incremental r then authorised else 0)
         (reserve && admitted) (paid_allowed && admitted) shadow (sorted_set reasons) (preferred_modes pressure) now).

Definition reserve_reason_for_required_work (priority : string) (critical_path_ required_verification_ : bool)
  : option ReserveReason :=
  if required_verification_ then Some RR_REQUIRED_VERIFICATION
  else if String.eqb priority "P0" then Some RR_P0_FAILURE_RECOVERY
  else if critical_path_ then Some RR_CRITICAL_PATH
  else None.

(** ** Soft envelopes *)
(** What each active provider with room left is offered in one round. *)
Definition offers (caps demand_ : gmap string Z) (remaining : Z) (given : gmap string Z) (active : list string)
  : list (string * Z) :=
  let weight p := Z.max 1 (units_of demand_ p) in
  let total_weight := Z_sum (weight <$> active) in
  omap (λ p,
    let capacity := Z.max 0 (units_of caps p - units_of given p) in
    if capacity <=? 0 then None
    else Some (p, Z.min capacity (Z.max 1 (remaining * weight p / Z.max 1 total_weight)))) active.
Fixpoint pay_out (offers_ : list (string * Z)) (remaining : Z) (given : gmap string Z) : Z * gmap string Z :=
  match offers_ with
  | [] => (remaining, given)
  | (p, share) :: offers_ =>
      if remaining <=? 0 then (remaining, given)
      else let amount := Z.min share remaining in
           pay_out offers_ (remaining - amount) (<[p := units_of given p + amount]> given)
  end.
(** The [while] loop; [None] when the fuel runs out. *)
Fixpoint rebalance_loop (fuel : nat) (caps demand_ : gmap string Z) (remaining : Z) (given : gmap string Z)
    (active : list string) : option (gmap string Z) :=
  if (remaining <=? 0) || bool_decide (active = []) then Some given
  else match fuel with
       | O => None
       | S fuel =>
           let '(remaining', given') := pay_out (offers caps demand_ remaining given active) remaining given in
           let active' := List.filter (λ p, units_of given' p <? Z.max 0 (units_of caps p)) active in
           if remaining - remaining' =? 0 then Some given'
           else rebalance_loop fuel caps demand_ remaining' given' active'
       end.
Definition rebalance_provider_soft_envelopes (global_limit : Z) (caps demand_ : gmap string Z)
  : option (gmap string Z) :=
  let providers := (items caps).*1 in
  let remaining := Z.max 0 global_limit in
  rebalance_loop (Z.to_nat remaining) caps demand_ remaining ((λ _, 0) <$> caps) providers.
