(* ===== verification/BudgetLedger.v ===== *)
(** * BudgetLedger: [budget/persistence.py] and [budget/service.py]

    [BudgetStore] keeps limits, quotas, an append-only ledger, spend leases
    and the decisions.  A reservation is checked again against limits,
    ledger and active leases inside one [BEGIN IMMEDIATE] transaction; a
    settlement writes the ledger entry and the lease in one.  Cost history,
    anomalies and forecasts are not modelled. *)
From S2P Require Import Prelude PyStd PyRe PyJson Identifiers TaskState ControlDomain SchedulerDomain LanePolicy BudgetDomain BudgetRules.
Local Open Scope Z_scope.

Record budget_store := mkBudgetStore {
  budget_limits : gmap (string * string) BudgetLimit;
  budget_quota_limits : gmap (string * string * string) QuotaLimit;
  budget_ledger : gmap string BudgetLedgerEntry;
  budget_spend_leases : gmap string SpendLease;
  budget_admission_decisions : gmap string BudgetAdmissionDecision;
}.
Definition empty_budget_store : budget_store := mkBudgetStore ∅ ∅ ∅ ∅ ∅.
Definition with_ledger (st : budget_store) (l : gmap string BudgetLedgerEntry) : budget_store :=
  mkBudgetStore (budget_limits st) (budget_quota_limits st) l (budget_spend_leases st) (budget_admission_decisions st).
Definition with_spend_leases (st : budget_store) (l : gmap string SpendLease) : budget_store :=
  mkBudgetStore (budget_limits st) (budget_quota_limits st) (budget_ledger st) l (budget_admission_decisions st).

(** ** Limits *)
(** [ON CONFLICT] covers the scope and cycle, not the primary key. *)
Definition put_limit (l : BudgetLimit) (st : budget_store) : budget_store * result () :=
  let key := (scope_key l, bl_cycle_id l) in
  if existsb (λ kv, negb (bool_decide (kv.1 = key)) && String.eqb (limit_id kv.2) (limit_id l))
       (map_to_list (budget_limits st))
  then (st, raise IntegrityError "UNIQUE constraint failed: budget_limits.limit_id")
  else (mkBudgetStore (<[key := l]> (budget_limits st)) (budget_quota_limits st) (budget_ledger st)
          (budget_spend_leases st) (budget_admission_decisions st), Ok ()).
(** The rows of one cycle, in the order of their scope keys. *)
Definition list_limits (st : budget_store) (cycle : string) : result (list BudgetLimit) :=
  traverse new (List.filter (λ l, String.eqb (bl_cycle_id l) cycle)
                  (snd <$> sorted_by (λ kv, (kv.1.1, kv.1.2)) (map_to_list (budget_limits st)))).
Definition put_quota_limit (q : QuotaLimit) (st : budget_store) : budget_store * result () :=
  let key := (ql_scope_key q, ql_provider_id q, quota_name q) in
  if existsb (λ kv, negb (bool_decide (kv.1 = key)) && String.eqb (quota_id kv.2) (quota_id q))
       (map_to_list (budget_quota_limits st))
  then (st, raise IntegrityError "UNIQUE constraint failed: budget_quota_limits.quota_id")
  else (mkBudgetStore (budget_limits st) (<[key := q]> (budget_quota_limits st)) (budget_ledger st)
          (budget_spend_leases st) (budget_admission_decisions st), Ok ()).
Definition list_quota_limits (st : budget_store) : result (list QuotaLimit) :=
  traverse new (sorted_by quota_id (snd <$> map_to_list (budget_quota_limits st))).

(** ** Ledger *)
Definition _insert_ledger (e : BudgetLedgerEntry) (st : budget_store) : result (budget_store * BudgetLedgerEntry) :=
  match budget_ledger st !! entry_id e with
  | Some row =>
      existing ← new_entry row;
      _ ← raise_if (negb (bool_decide (existing = e))) ValueError
            ("budget ledger idempotency collision: " +:+ entry_id e);
      Ok (st, existing)
  | None => Ok (with_ledger st (<[entry_id e := e]> (budget_ledger st)), e)
  end.
Definition record_ledger (e : BudgetLedgerEntry) (st : budget_store) : budget_store * result BudgetLedgerEntry :=
  match _insert_ledger e st with Ok (st', e') => (st', Ok e') | Raise x => (st, Raise x) end.
Definition list_ledger (st : budget_store) (project task : option string) : result (list BudgetLedgerEntry) :=
  traverse new_entry
    (sorted_by (λ e, (le_observed_at_utc e, entry_id e))
       (List.filter (λ e, (negb (opt_truthy project) || bool_decide (Some (le_project_id e) = project))
                          && (negb (opt_truthy task) || bool_decide (le_task_id e = task)))
          (snd <$> map_to_list (budget_ledger st)))).

(** ** Leases *)
Definition _all_leases (st : budget_store) : result (list SpendLease) :=
  traverse new_spend_lease
    (sorted_by (λ l, (sp_created_at_utc l, sp_lease_id l)) (snd <$> map_to_list (budget_spend_leases st))).
Definition spend_active (now : Z) (l : SpendLease) : bool :=
  bool_decide (sp_state l = SL_UNKNOWN_OUTCOME)
  || (bool_decide (sp_state l = SL_RESERVED) && (now <? sp_expires_at_utc l)).
Definition list_active_spend (st : budget_store) (now : Z) (project : option string) : result (list SpendLease) :=
  ls ← _all_leases st;
  Ok (List.filter (λ l, negb (opt_truthy project && negb (bool_decide (Some (sp_project_id l) = project)))
                        && spend_active now l) ls).
Definition get_lease (st : budget_store) (lid : string) : result (option SpendLease) :=
  match budget_spend_leases st !! lid with
  | None => Ok None
  | Some row => l ← new_spend_lease row; Ok (Some l)
  end.

(** ** Totals *)
Definition cash_total (d : LedgerDirection) (scope : string) (es : list BudgetLedgerEntry) : Z :=
  Z_sum ((λ e, if str_in scope (le_scope_keys e) && bool_decide (direction e = d) then cash_microunits e else 0) <$> es).
Definition _cash_totals (st : budget_store) (scope : string) : result (Z * Z) :=
  es ← list_ledger st None None;
  Ok (cash_total DEBIT scope es, cash_total CREDIT scope es).
Definition committed_total (scope : string) (ls : list SpendLease) : Z :=
  Z_sum ((λ l, if str_in scope (sp_scope_keys l) then reserved_microunits l else 0) <$> ls).
Definition _committed (st : budget_store) (scope : string) (now : Z) : result Z :=
  ls ← list_active_spend st now None;
  Ok (committed_total scope ls).
Definition quota_total (qid : string) (es : list BudgetLedgerEntry) (ls : list SpendLease) : Z :=
  Z_sum ((λ e, units_of (quota_units e) qid) <$> es) + Z_sum ((λ l, units_of (quota_reservations l) qid) <$> ls).
Definition quota_used_or_reserved (st : budget_store) (qid : string) (now : Z) : result Z :=
  es ← list_ledger st None None;
  ls ← list_active_spend st now None;
  Ok (quota_total qid es ls).
Definition snapshot (st : budget_store) (policy : BudgetPolicy) (forecast_p90 pace now : Z) (l : BudgetLimit)
  : result BudgetSnapshot :=
  '(debits, credits) ← _cash_totals st (scope_key l);
  committed ← _committed st (scope_key l) now;
  build_snapshot (scope_key l) (hard_cap_microunits l) (protected_reserve_microunits l) (soft_cap_microunits l)
    debits credits committed forecast_p90 pace policy now.
(** The enabled limits of a cycle that apply to some scopes. *)
Definition applicable_limits (st : budget_store) (cycle : string) (scopes : list string) : result (list BudgetLimit) :=
  ls ← list_limits st cycle;
  Ok (List.filter (λ l, bl_enabled l && str_in (scope_key l) scopes) ls).
Definition snapshots_for_request (st : budget_store) (r : BudgetAdmissionRequest) (cycle : string)
    (policy : BudgetPolicy) (forecast_p90 pace now : Z) : result (list BudgetSnapshot) :=
  limits ← applicable_limits st cycle (rq_scope_keys r);
  traverse (snapshot st policy forecast_p90 pace now) limits.
Definition save_decision (d : BudgetAdmissionDecision) (st : budget_store) : budget_store :=
  mkBudgetStore (budget_limits st) (budget_quota_limits st) (budget_ledger st) (budget_spend_leases st)
    (<[decision_id d := d]> (budget_admission_decisions st)).

(** ** Reservation *)
Definition limit_check (es : list BudgetLedgerEntry) (active : list SpendLease) (reserve : bool) (requested : Z)
    (l : BudgetLimit) : result () :=
  let debit := cash_total DEBIT (scope_key l) es in
  let credit := cash_total CREDIT (scope_key l) es in
  let committed := committed_total (scope_key l) active in
  let cap := if reserve then hard_cap_microunits l else normal_cap_microunits l in
  raise_if (cap <? Z.max 0 (debit - credit) + committed + requested) ValueError
    ("atomic budget reservation would exceed " +:+ scope_key l).
Definition quota_check (quotas : gmap string QuotaLimit) (es : list BudgetLedgerEntry) (active : list SpendLease)
    (reserve : bool) (kv : string * Z) : result () :=
  match quotas !! kv.1 with
  | None => raise ValueError ("quota limit unavailable: " +:+ kv.1)
  | Some q =>
      let protected := if reserve then 0 else protected_units q in
      raise_if (ql_capacity_units q - protected <? quota_total kv.1 es active + kv.2) ValueError
        ("atomic quota reservation would exceed " +:+ kv.1)
  end.
(** [SELECT ... WHERE idempotency_key=?], a unique column. *)
Definition lease_with_key (st : budget_store) (key : string) : option SpendLease :=
  List.find (λ l, String.eqb (sp_idempotency_key l) key) (snd <$> map_to_list (budget_spend_leases st)).
Definition insert_spend_lease (st : budget_store) (l : SpendLease) : result budget_store :=
  _ ← raise_if (bool_decide (budget_spend_leases st !! sp_lease_id l ≠ None)) IntegrityError
        "UNIQUE constraint failed: budget_spend_leases.lease_id";
  Ok (with_spend_leases st (<[sp_lease_id l := l]> (budget_spend_leases st))).
(** The body of the transaction once the key is known to be new. *)
Definition reserve_checked (r : BudgetAdmissionRequest) (d : BudgetAdmissionDecision) (cycle : string) (requested now : Z)
    (candidate : SpendLease) (st : budget_store) : result budget_store :=
  limits ← applicable_limits st cycle (rq_scope_keys r);
  _ ← raise_if (paid_incremental r && bool_decide (limits = [])) ValueError "no applicable budget limit is configured";
  active ← list_active_spend st now None;
  es ← list_ledger st None None;
  _ ← for_each (limit_check es active (reserve_authorized d) requested) limits;
  qs ← list_quota_limits st;
  let quotas := dict_of quota_id (List.filter ql_enabled qs) in
  _ ← for_each (quota_check quotas es active (reserve_authorized d)) (items (quota_requirements r));
  insert_spend_lease st candidate.
Definition requested_reservation (r : BudgetAdmissionRequest) : Z :=
  if paid_incremental r then estimated_p90_microunits r else 0.
Definition reserve (r : BudgetAdmissionRequest) (d : BudgetAdmissionDecision) (cycle key : string)
    (policy : BudgetPolicy) (now : Z) (st : budget_store) : budget_store * result SpendLease :=
  let requested := requested_reservation r in
  match (_ ← raise_if (negb (bd_admitted d)) ValueError "cannot reserve spend for a denied budget decision";
         lid ← budget_identifier "LEASE" [key];
         _ ← raise_if (authorized_microunits d <? requested) ValueError
               "decision does not authorize the requested reservation";
         new_spend_lease (mkSpendLease lid key (rq_project_id r) (rq_task_id r) (rq_provider_id r) (rq_scope_keys r)
           (authorized_microunits d) requested 0 (quota_requirements r) SL_RESERVED
           (if reserve_authorized d then rq_reserve_reason r else None) [decision_id d] now
           (now + lease_ttl_seconds policy * 1000000) now false)) with
  | Raise e => (st, Raise e)
  | Ok candidate =>
      match lease_with_key st key with
      | Some row =>
          (st, existing ← new_spend_lease row;
               _ ← raise_if (negb (String.eqb (sp_project_id existing) (rq_project_id r))
                             || negb (String.eqb (sp_task_id existing) (rq_task_id r))) ValueError
                     "budget lease idempotency collision";
               Ok existing)
      | None =>
          match reserve_checked r d cycle requested now candidate st with
          | Ok st' => (st', Ok candidate)
          | Raise e => (st, Raise e)
          end
      end
  end.

(** ** Lease transitions *)
Definition with_state (l : SpendLease) (s : SpendLeaseState) (consumed : Z) (recon : bool) (now : Z) : SpendLease :=
  mkSpendLease (sp_lease_id l) (sp_idempotency_key l) (sp_project_id l) (sp_task_id l) (sp_provider_id l) (sp_scope_keys l)
    (maximum_microunits l) (reserved_microunits l) consumed (quota_reservations l) s (sp_reserve_reason l)
    (reservation_evidence l) (sp_created_at_utc l) (sp_expires_at_utc l) now recon.
Definition _update_lease (l : SpendLease) (st : budget_store) : budget_store :=
  match budget_spend_leases st !! sp_lease_id l with
  | None => st
  | Some _ => with_spend_leases st (<[sp_lease_id l := l]> (budget_spend_leases st))
  end.
Definition known_lease (st : budget_store) (lid : string) : result SpendLease :=
  o ← get_lease st lid;
  match (o : option SpendLease) with Some l => Ok l | None => raise KeyError ("unknown budget lease: " +:+ lid) end.
Definition mark_unknown_outcome (lid : string) (now : Z) (st : budget_store) : budget_store * result SpendLease :=
  match (l ← known_lease st lid;
         _ ← raise_if (negb (bool_decide (sp_state l = SL_RESERVED))) ValueError
               "only a reserved lease can become unknown outcome";
         Ok l) with
  | Raise e => (st, Raise e)
  | Ok l => let l' := with_state l SL_UNKNOWN_OUTCOME (consumed_microunits l) true now in (_update_lease l' st, Ok l')
  end.
Definition resolve_unknown_no_effect (lid : string) (now : Z) (st : budget_store) : budget_store * result SpendLease :=
  match (l ← known_lease st lid;
         _ ← raise_if (negb (bool_decide (sp_state l = SL_UNKNOWN_OUTCOME))) ValueError
               "lease is not awaiting unknown-outcome reconciliation";
         Ok l) with
  | Raise e => (st, Raise e)
  | Ok l => let l' := with_state l SL_RELEASED (consumed_microunits l) false now in (_update_lease l' st, Ok l')
  end.
Definition release_spend (lid : string) (cancelled : bool) (now : Z) (st : budget_store) : budget_store * result SpendLease :=
  match (l ← known_lease st lid;
         _ ← raise_if (bool_decide (sp_state l = SL_UNKNOWN_OUTCOME)) ValueError
               "unknown-outcome reservation cannot be released before reconciliation";
         Ok l) with
  | Raise e => (st, Raise e)
  | Ok l =>
      if negb (bool_decide (sp_state l = SL_RESERVED)) then (st, Ok l)
      else let l' := with_state l (if cancelled then SL_CANCELLED else SL_RELEASED) (consumed_microunits l)
                       (reconciliation_required l) now in (_update_lease l' st, Ok l')
  end.
Definition settle_lease (lid : string) (e : BudgetLedgerEntry) (now : Z) (st : budget_store)
  : budget_store * result SpendLease :=
  match (l ← known_lease st lid;
         _ ← raise_if (negb (bool_decide (sp_state l ∈ [SL_RESERVED; SL_UNKNOWN_OUTCOME]))) ValueError
               "lease is not settleable";
         _ ← raise_if (negb (String.eqb (le_project_id e) (sp_project_id l))
                       || negb (bool_decide (le_task_id e = Some (sp_task_id l)))) ValueError
               "settlement ledger entry does not match lease task/project";
         '(st1, _) ← _insert_ledger e st;
         Ok (l, st1)) with
  | Raise x => (st, Raise x)
  | Ok (l, st1) =>
      let s := if maximum_microunits l <? cash_microunits e then SL_OVERSPENT else SL_SETTLED in
      let l' := with_state l s (cash_microunits e) false now in (_update_lease l' st1, Ok l')
  end.
(** The rows that are due, each updated. *)
Definition expire_stale_leases (now : Z) (st : budget_store) : budget_store * result (list SpendLease) :=
  match _all_leases st with
  | Raise e => (st, Raise e)
  | Ok ls =>
      let due := (λ l, with_state l SL_EXPIRED (consumed_microunits l) (reconciliation_required l) now)
                 <$> List.filter (λ l, bool_decide (sp_state l = SL_RESERVED) && (sp_expires_at_utc l <=? now)) ls in
      (foldl (λ st l, _update_lease l st) st due, Ok due)
  end.

(** ** The governor ([budget/service.py]) *)
Definition admit_budget (policy : BudgetPolicy) (r : BudgetAdmissionRequest) (cycle : string)
    (forecast_p90 pace now : Z) (st : budget_store) : budget_store * result BudgetAdmissionDecision :=
  match (snaps ← snapshots_for_request st r cycle policy forecast_p90 pace now;
         qs ← list_quota_limits st;
         used ← traverse (λ kv, n ← quota_used_or_reserved st kv.1 now; Ok (kv.1, n)) (items (quota_requirements r));
         evaluate_budget policy r snaps (dict_of quota_id qs) (list_to_map used) now) with
  | Raise e => (st, Raise e)
  | Ok d => (save_decision d st, Ok d)
  end.
Definition reconcile_unknown (lid : string) (remote_effect_occurred : bool) (entry : option BudgetLedgerEntry) (now : Z)
    (st : budget_store) : budget_store * result SpendLease :=
  match (l ← known_lease st lid;
         raise_if (negb (bool_decide (sp_state l = SL_UNKNOWN_OUTCOME))) ValueError
           "only unknown-outcome leases require reconciliation") with
  | Raise e => (st, Raise e)
  | Ok _ =>
      if remote_effect_occurred then
        match entry with
        | None => (st, raise ValueError "reconciliation requires observed cost evidence when remote effect occurred")
        | Some e => settle_lease lid e now st
        end
      else match entry with
           | Some _ => (st, raise ValueError "no-cost reconciliation must not include a spend entry")
           | None => resolve_unknown_no_effect lid now st
           end
  end.
Definition lease_requires_reevaluation (policy : BudgetPolicy) (l : SpendLease) (observed_ : Z) : bool :=
  if reserved_microunits l <=? 0 then false
  else reevaluate_at_consumed_milli policy <=? Z.max 0 observed_ * 1000 / reserved_microunits l.
