(* ===== verification/BudgetSafety.v ===== *)
(** * BudgetSafety: what the budget store wrote, and its hard caps

    A stored record is normalised, so that reading it gives it back; the
    totals the store computes over its rows are sums over the stored maps, and
    spend plus reservations stay under every hard cap. *)
From S2P Require Import Prelude PyStd PyRe PyJson Identifiers TaskState ControlDomain SchedulerDomain LanePolicy BudgetDomain BudgetRules BudgetLedger.
Local Open Scope Z_scope.

(** ** Normalised scopes *)
Lemma lstrip_head p s c s' : str_lstrip p s = String c s' → p c = false.
Proof. induction s as [|d s IH]; simpl; [done|]. destruct (p d) eqn:E; [done|]. by intros [= <- _]. Qed.
Lemma lstrip_id p c s : p c = false → str_lstrip p (String c s) = String c s.
Proof. simpl. by intros ->. Qed.
Lemma rstrip_head p c s : p c = false → ∃ s', str_rstrip p (String c s) = String c s'.
Proof. simpl. intros ->. destruct (str_rstrip p s); eauto. Qed.
Lemma rstrip_twice p s : str_rstrip p (str_rstrip p s) = str_rstrip p s.
Proof.
  induction s as [|c s IH]; simpl; [done|].
  destruct (str_rstrip p s) as [|d t] eqn:E.
  - destruct (p c) eqn:Ep; simpl; [done|]. by rewrite Ep.
  - change (str_rstrip p (String c (String d t))) with
      (match str_rstrip p (String d t) with
       | EmptyString => if p c then EmptyString else String c EmptyString
       | s'' => String c s'' end). by rewrite IH.
Qed.
Lemma str_strip_idem s : str_strip (str_strip s) = str_strip s.
Proof.
  unfold str_strip. destruct (str_lstrip is_space s) as [|c t] eqn:E; [done|].
  apply lstrip_head in E. destruct (rstrip_head is_space c t E) as [t' Ht].
  rewrite Ht, lstrip_id by done. by rewrite <-Ht, rstrip_twice.
Qed.
Lemma remove_dups_id {A} `{EqDecision A} (l : list A) : NoDup l → remove_dups l = l.
Proof. induction 1 as [|x l Hx _ IH]; simpl; [done|]. case_decide; [done|]. by rewrite IH. Qed.
Lemma sorted_set_idem l : sorted_set (sorted_set l) = sorted_set l.
Proof.
  unfold sorted_set. rewrite (remove_dups_id (sorted_by id (remove_dups l))); [apply sorted_by_id, sorted_by_sorted; apply _|].
  rewrite sorted_by_perm. apply NoDup_remove_dups.
Qed.
Lemma elem_of_norm_scopes x l : x ∈ norm_scopes l ↔ x ∈ str_strip <$> l ∧ str_truthy x = true.
Proof. unfold norm_scopes. by rewrite elem_of_sorted_set, elem_of_List_filter. Qed.
Lemma map_filter_id (f : string → string) (p : string → bool) l :
  (∀ x, x ∈ l → f x = x ∧ p x = true) → List.filter p (f <$> l) = l.
Proof.
  induction l as [|x l IH]; intros Hl; [done|]. rewrite fmap_cons. cbn [List.filter].
  destruct (Hl x) as [-> ->]; [left|]. rewrite IH; [done|]. intros y Hy. apply Hl. by right.
Qed.
Lemma norm_scopes_idem l : norm_scopes (norm_scopes l) = norm_scopes l.
Proof.
  unfold norm_scopes at 1. rewrite map_filter_id; [apply sorted_set_idem|].
  intros x (Hx & Ht)%elem_of_norm_scopes. split; [|done].
  apply list_elem_of_fmap in Hx as (y & -> & _). apply str_strip_idem.
Qed.

(** A record that was built reads back as itself. *)
Lemma new_spend_lease_ok l l' : new_spend_lease l = Ok l' →
  new_spend_lease l' = Ok l' ∧ sp_scope_keys l' = norm_scopes (sp_scope_keys l).
Proof.
  unfold new_spend_lease. intros (-> & Hv)%new_ok. cbn -[norm_scopes new validate]. rewrite norm_scopes_idem. split; [|done].
  by apply new_valid.
Qed.
Lemma new_entry_ok e e' : new_entry e = Ok e' →
  new_entry e' = Ok e' ∧ le_scope_keys e' = norm_scopes (le_scope_keys e).
Proof.
  unfold new_entry. intros (-> & Hv)%new_ok. cbn -[norm_scopes new validate]. rewrite norm_scopes_idem. split; [|done].
  by apply new_valid.
Qed.

(** ** Sums over a map *)
#[export] Instance Z_sum_proper : Proper ((≡ₚ) ==> (=)) Z_sum.
Proof. intros l k. apply Z_sum_perm. Qed.
Definition msum {K V} `{Countable K} (f : V → Z) (m : gmap K V) : Z := Z_sum ((f ∘ snd) <$> map_to_list m).
Section msum.
Context {K V : Type} `{Countable K}.
Implicit Types (m : gmap K V) (f g : V → Z).
Lemma msum_empty f : msum f (∅ : gmap K V) = 0.
Proof. unfold msum. by rewrite map_to_list_empty. Qed.
Lemma msum_insert f m k v : m !! k = None → msum f (<[k := v]> m) = f v + msum f m.
Proof. intros Hk. unfold msum. by rewrite map_to_list_insert. Qed.
Lemma msum_update f m k old v : m !! k = Some old → msum f (<[k := v]> m) = msum f m - f old + f v.
Proof.
  intros Hk. rewrite <-(insert_delete_id m k old) at 2 by done. rewrite <-insert_delete_eq.
  rewrite !msum_insert by apply lookup_delete_eq. lia.
Qed.
Lemma msum_le f g m : (∀ k v, m !! k = Some v → f v ≤ g v) → msum f m ≤ msum g m.
Proof.
  intros Hle. unfold msum. assert (∀ kv, kv ∈ map_to_list m → f kv.2 ≤ g kv.2) as Hl.
  { intros [k v] Hkv%elem_of_map_to_list. eauto. }
  revert Hl. generalize (map_to_list m). intros l. induction l as [|x l IH]; intros Hl; [done|].
  rewrite !fmap_cons. cbn [Z_sum foldr compose]. fold (Z_sum ((f ∘ snd) <$> l)) (Z_sum ((g ∘ snd) <$> l)).
  assert (f x.2 ≤ g x.2) by (apply Hl; left).
  assert (Z_sum ((f ∘ snd) <$> l) ≤ Z_sum ((g ∘ snd) <$> l)) by (apply IH; intros y Hy; apply Hl; by right). lia.
Qed.
Lemma msum_nonneg f m : (∀ k v, m !! k = Some v → 0 ≤ f v) → 0 ≤ msum f m.
Proof.
  intros Hf. unfold msum. apply Z_sum_nonneg, Forall_fmap, Forall_forall.
  intros [k v] Hkv%elem_of_map_to_list. by apply (Hf k).
Qed.
End msum.
Lemma Z_sum_filter {A} (p : A → bool) (f : A → Z) l :
  Z_sum (f <$> List.filter p l) = Z_sum ((λ x, if p x then f x else 0) <$> l).
Proof.
  induction l as [|x l IH]; [done|]. rewrite fmap_cons. cbn [List.filter Z_sum foldr].
  fold (Z_sum ((λ x, if p x then f x else 0) <$> l)). rewrite <-IH.
  destruct (p x); [rewrite fmap_cons; done|lia].
Qed.

(** ** The rows of a store *)
(** Every row was built, and is filed under its identifier. *)
Record rows_ok (st : budget_store) : Prop := {
  lease_rows : ∀ i l, budget_spend_leases st !! i = Some l → new_spend_lease l = Ok l ∧ sp_lease_id l = i;
  ledger_rows : ∀ i e, budget_ledger st !! i = Some e → new_entry e = Ok e;
}.
Lemma traverse_id {A} (f : A → result A) l : (∀ x, x ∈ l → f x = Ok x) → traverse f l = Ok l.
Proof. intros Hf. rewrite (traverse_map_ok f id) by done. f_equal. apply map_id. Qed.

Definition debit_of (k : string) (d : LedgerDirection) (e : BudgetLedgerEntry) : Z :=
  if str_in k (le_scope_keys e) && bool_decide (direction e = d) then cash_microunits e else 0.
Definition held_of (k : string) (now : Z) (l : SpendLease) : Z :=
  if spend_active now l then (if str_in k (sp_scope_keys l) then reserved_microunits l else 0) else 0.
(** What a scope has spent, been credited and has reserved. *)
Definition spent (st : budget_store) (k : string) (d : LedgerDirection) : Z := msum (debit_of k d) (budget_ledger st).
Definition held (st : budget_store) (k : string) (now : Z) : Z := msum (held_of k now) (budget_spend_leases st).

Section reads.
Context (st : budget_store) (Hrows : rows_ok st).
Lemma all_leases_ok : ∃ ls, _all_leases st = Ok ls ∧ ls ≡ₚ snd <$> map_to_list (budget_spend_leases st).
Proof using Hrows.
  eexists. split; [apply traverse_id|apply sorted_by_perm].
  intros l Hl. rewrite elem_of_sorted_by, list_elem_of_fmap in Hl.
  destruct Hl as ([i l'] & -> & Hl%elem_of_map_to_list). by apply (lease_rows st Hrows i).
Qed.
Lemma List_filter_true {A} (l : list A) p : (∀ x, p x = true) → List.filter p l = l.
Proof. intros Hp. induction l as [|x l IH]; simpl; [done|]. by rewrite Hp, IH. Qed.
Lemma list_ledger_ok : ∃ es, list_ledger st None None = Ok es ∧ es ≡ₚ snd <$> map_to_list (budget_ledger st).
Proof using Hrows.
  eexists. split; [apply traverse_id|].
  - intros e He. rewrite elem_of_sorted_by, elem_of_List_filter, list_elem_of_fmap in He.
    destruct He as (([i e'] & -> & He%elem_of_map_to_list) & _). by apply (ledger_rows st Hrows i).
  - rewrite sorted_by_perm. by rewrite List_filter_true.
Qed.
Lemma cash_totals_ok k : _cash_totals st k = Ok (spent st k DEBIT, spent st k CREDIT).
Proof using Hrows.
  unfold _cash_totals. destruct list_ledger_ok as (es & -> & Hp). cbn [mbind result_bind].
  unfold cash_total, spent, msum. do 2 f_equal; rewrite list_fmap_compose; apply Z_sum_perm, fmap_Permutation, Hp.
Qed.
Lemma active_spend_ok now : ∃ ls, list_active_spend st now None = Ok ls
  ∧ ∀ k, committed_total k ls = held st k now.
Proof using Hrows.
  unfold list_active_spend. destruct all_leases_ok as (ls & -> & Hp). cbn [mbind result_bind].
  eexists. split; [done|]. intros k. unfold committed_total, held, msum.
  rewrite Z_sum_filter, list_fmap_compose. apply Z_sum_perm.
  rewrite <-Hp. by apply fmap_Permutation.
Qed.
Lemma committed_ok k now : _committed st k now = Ok (held st k now).
Proof using Hrows. unfold _committed. destruct (active_spend_ok now) as (ls & -> & <-). done. Qed.
End reads.

(** ** Spending stays under its caps

    Runs of the budget store over a fixed set of limits and one cycle: the
    caps hold, leases move through their states in one direction, and an
    admitted decision can be reserved. *)
(** ** Valid records *)
Lemma new_spend_lease_valid l : new_spend_lease l = Ok l ↔ validate l = Ok () ∧ norm_scopes (sp_scope_keys l) = sp_scope_keys l.
Proof.
  unfold new_spend_lease. rewrite new_ok. destruct l; cbn -[norm_scopes validate]. split.
  - intros [[= E] Hv]. rewrite <-E in Hv. by rewrite <-E.
  - intros [Hv E]. rewrite E. done.
Qed.
Lemma new_entry_valid e : new_entry e = Ok e ↔ validate e = Ok () ∧ norm_scopes (le_scope_keys e) = le_scope_keys e.
Proof.
  unfold new_entry. rewrite new_ok. destruct e; cbn -[norm_scopes validate]. split.
  - intros [[= E] Hv]. rewrite <-E in Hv. by rewrite <-E.
  - intros [Hv E]. rewrite E. done.
Qed.
Lemma lease_reserved_nonneg l : new_spend_lease l = Ok l → 0 ≤ reserved_microunits l.
Proof. intros [Hv _]%new_spend_lease_valid. unfold validate, SpendLease_model in Hv. ok_inv. lia. Qed.
Lemma entry_cash_nonneg e : new_entry e = Ok e → 0 ≤ cash_microunits e.
Proof. intros [Hv _]%new_entry_valid. unfold validate, BudgetLedgerEntry_model in Hv. ok_inv. lia. Qed.
Lemma held_of_nonneg k now l : new_spend_lease l = Ok l → 0 ≤ held_of k now l.
Proof. intros Hl%lease_reserved_nonneg. unfold held_of.
  destruct (spend_active now l); [|done]. by destruct (str_in k (sp_scope_keys l)).  Qed.
Lemma with_state_valid l s consumed recon now :
  new_spend_lease l = Ok l → 0 ≤ consumed → (s = SL_UNKNOWN_OUTCOME → recon = true) →
  new_spend_lease (with_state l s consumed recon now) = Ok (with_state l s consumed recon now).
Proof.
  rewrite !new_spend_lease_valid. intros [Hv Hs] Hc Hr. split; [|done].
  revert Hv. unfold validate, SpendLease_model, with_state. intros Hv.
  apply bind_ok in Hv as ([] & E1 & Hv). apply bind_ok in Hv as ([] & E2 & Hv).
  apply bind_ok in Hv as ([] & E3 & Hv). apply bind_ok in Hv as ([] & E4 & Hv).
  apply bind_ok in Hv as ([] & E5 & Hv). apply bind_ok in Hv as ([] & E6 & Hv).
  apply bind_ok in Hv as ([] & E7 & Hv). apply bind_ok in Hv as ([] & E8 & Hv).
  apply bind_ok in Hv as ([] & E9 & Hv).
  cbn [sp_idempotency_key sp_project_id sp_task_id maximum_microunits reserved_microunits consumed_microunits
       sp_scope_keys quota_reservations sp_lease_id sp_expires_at_utc sp_created_at_utc sp_state
       reconciliation_required].
  apply raise_if_ok in E4.
  assert ((maximum_microunits l <? 0) || (reserved_microunits l <? 0) || (consumed <? 0) = false) as -> by lia.
  rewrite E1, E2, E3, E5, E6, E7, E8, E9. cbn [mbind result_bind raise_if]. apply raise_if_ok.
  destruct (decide (s = SL_UNKNOWN_OUTCOME)) as [->|Hn]; [by rewrite Hr|]. by rewrite bool_decide_eq_false_2.
Qed.

(** ** Usage of a scope *)
Definition usage (st : budget_store) (k : string) (now : Z) : Z :=
  Z.max 0 (spent st k DEBIT - spent st k CREDIT) + held st k now.
(** A change that keeps the limits and frees room, or leaves it. *)
Definition frees (now : Z) (st st' : budget_store) : Prop :=
  budget_limits st' = budget_limits st ∧ rows_ok st' ∧ ∀ k, usage st' k now ≤ usage st k now.
Lemma frees_refl now st : rows_ok st → frees now st st.
Proof. intros Hrows. by split; [|split]. Qed.
Lemma frees_trans now st1 st2 st3 : frees now st1 st2 → frees now st2 st3 → frees now st1 st3.
Proof.
  intros (E1 & _ & L1) (E2 & R2 & L2). split_and!; [congruence|done|]. intros k. specialize (L1 k). specialize (L2 k). lia.
Qed.
Lemma update_frees now l st : rows_ok st → new_spend_lease l = Ok l →
  (∀ k old, budget_spend_leases st !! sp_lease_id l = Some old → held_of k now l ≤ held_of k now old) →
  frees now st (_update_lease l st).
Proof.
  intros Hrows Hl Hle. unfold _update_lease. destruct (budget_spend_leases st !! sp_lease_id l) as [old|] eqn:E;
    [|by apply frees_refl]. split_and!; [done| |].
  - split; [|apply Hrows]. intros i l'. cbn. rewrite lookup_insert. case_decide; [naive_solver|]. apply Hrows.
  - intros k. unfold usage, held. cbn. erewrite msum_update by done. specialize (Hle k old eq_refl).
    unfold spent. cbn. lia.
Qed.
(** A lease that is no longer active holds nothing. *)
Lemma inactive_frees now l st : rows_ok st → new_spend_lease l = Ok l → spend_active now l = false →
  frees now st (_update_lease l st).
Proof.
  intros Hrows Hl Ha. apply update_frees; [done..|]. intros k old Hold.
  apply (lease_rows st Hrows) in Hold as [Hold _]. apply (held_of_nonneg k now) in Hold.
  unfold held_of at 1. by rewrite Ha.
Qed.
Lemma known_lease_ok st i l : rows_ok st → known_lease st i = Ok l →
  budget_spend_leases st !! i = Some l ∧ new_spend_lease l = Ok l ∧ sp_lease_id l = i.
Proof.
  intros Hrows. unfold known_lease, get_lease. destruct (budget_spend_leases st !! i) as [row|] eqn:E; [|done].
  destruct (lease_rows st Hrows i row E) as [Hn Hi]. rewrite Hn. cbn. intros [= <-]. done.
Qed.

(** ** Transitions free room *)
Ltac lease_op H :=
  match type of H with
  | context [match ?x with Ok _ => _ | Raise _ => _ end] =>
      let E := fresh "E" in destruct x as [?|?] eqn:E; [|injection H as <- _]
  end.
Lemma terminal_inactive now l s c rc n : s ∉ [SL_RESERVED; SL_UNKNOWN_OUTCOME] → spend_active now (with_state l s c rc n) = false.
Proof. intros Hs. unfold spend_active, with_state. cbn. rewrite !bool_decide_eq_false_2 by set_solver. done. Qed.
Lemma lease_consumed_nonneg l : new_spend_lease l = Ok l → 0 ≤ consumed_microunits l.
Proof. intros [Hv _]%new_spend_lease_valid. unfold validate, SpendLease_model in Hv. ok_inv. lia. Qed.
(** Closing a known lease. *)
Lemma close_frees now n st l s c rc : rows_ok st → new_spend_lease l = Ok l → 0 ≤ c →
  s ∉ [SL_RESERVED; SL_UNKNOWN_OUTCOME] → frees now st (_update_lease (with_state l s c rc n) st).
Proof.
  intros Hrows Hl Hc Hs. apply inactive_frees; [done| |by apply terminal_inactive].
  apply with_state_valid; [done..|]. intros ->. set_solver.
Qed.
Lemma release_frees lid cancelled now st st' res : rows_ok st → release_spend lid cancelled now st = (st', res) → frees now st st'.
Proof.
  intros Hrows. unfold release_spend. intros H. lease_op H; [|by apply frees_refl]. ok_inv.
  apply known_lease_ok in H0 as (_ & Hl & _); [|done].
  destruct (negb _); injection H as <- _; [by apply frees_refl|].
  apply close_frees; [done..|by apply lease_consumed_nonneg|]. destruct cancelled; set_solver.
Qed.
Lemma resolve_frees lid now st st' res : rows_ok st → resolve_unknown_no_effect lid now st = (st', res) → frees now st st'.
Proof.
  intros Hrows. unfold resolve_unknown_no_effect. intros H. lease_op H; [|by apply frees_refl]. ok_inv.
  apply known_lease_ok in H0 as (_ & Hl & _); [|done]. injection H as <- _.
  apply close_frees; [done..|by apply lease_consumed_nonneg|set_solver].
Qed.
Lemma expire_frees now st st' res : rows_ok st → expire_stale_leases now st = (st', res) → frees now st st'.
Proof.
  intros Hrows. unfold expire_stale_leases. intros H. lease_op H; [|by apply frees_refl]. injection H as <- _.
  destruct (all_leases_ok st Hrows) as (ls & E' & Hp). rewrite E' in E. injection E as ->.
  assert (∀ l, l ∈ a → new_spend_lease l = Ok l) as Hls.
  { intros l Hl. rewrite Hp, list_elem_of_fmap in Hl. destruct Hl as ([i ?] & -> & Hl%elem_of_map_to_list).
    by apply (lease_rows st Hrows i). }
  set (due := List.filter _ a). assert (∀ l, l ∈ due → l ∈ a) as Hdue by (intros l [? _]%elem_of_List_filter; done).
  clearbody due. clear E' Hp. revert st Hrows. induction due as [|l due IH]; intros st Hrows; [by apply frees_refl|].
  rewrite fmap_cons. cbn [foldl]. assert (new_spend_lease l = Ok l) as Hl by (apply Hls, Hdue; left).
  pose proof (close_frees now now st l SL_EXPIRED (consumed_microunits l) (reconciliation_required l) Hrows Hl
    (lease_consumed_nonneg l Hl) ltac:(set_solver)) as Hf.
  eapply frees_trans; [exact Hf|]. apply IH; [intros l' ?; apply Hdue; by right|]. apply Hf.
Qed.
(** A lease whose holder loses track of the outcome stays counted. *)
Lemma mark_frees lid now st st' res l : rows_ok st → budget_spend_leases st !! lid = Some l → spend_active now l = true →
  mark_unknown_outcome lid now st = (st', res) → frees now st st'.
Proof.
  intros Hrows Hlid Ha. unfold mark_unknown_outcome. intros H. lease_op H; [|by apply frees_refl]. ok_inv.
  apply known_lease_ok in H0 as (Hx & Hl & Hid); [|done]. injection H as <- _.
  rewrite Hlid in Hx. injection Hx as <-. apply update_frees; [done| |].
  - apply with_state_valid; [done|by apply lease_consumed_nonneg|done].
  - intros k old. cbn [sp_lease_id with_state]. rewrite Hid, Hlid. intros [= <-].
    unfold held_of. rewrite Ha. by destruct (spend_active _ _), (str_in k _).
Qed.

(** ** The ledger *)
(** An entry a lease covers: a credit, or a debit of at most the reserved
    amount on some of its scopes. *)
Definition covered_by (l : SpendLease) (e : BudgetLedgerEntry) : Prop :=
  new_entry e = Ok e ∧
  (direction e = CREDIT ∨ cash_microunits e ≤ reserved_microunits l ∧ le_scope_keys e ⊆ sp_scope_keys l).
Lemma insert_ledger_cases e st st' e' : _insert_ledger e st = Ok (st', e') →
  st' = st ∨ budget_ledger st !! entry_id e = None ∧ st' = with_ledger st (<[entry_id e := e]> (budget_ledger st)).
Proof.
  unfold _insert_ledger. destruct (budget_ledger st !! entry_id e) eqn:E; intros H; ok_inv; [|by right].
  by left.
Qed.
Lemma ledger_rows_ok e st : rows_ok st → new_entry e = Ok e →
  rows_ok (with_ledger st (<[entry_id e := e]> (budget_ledger st))).
Proof.
  intros Hrows He. split; [apply Hrows|]. intros i e'. cbn. rewrite lookup_insert. case_decide; [naive_solver|]. apply Hrows.
Qed.
Lemma spent_insert e st k d : budget_ledger st !! entry_id e = None →
  spent (with_ledger st (<[entry_id e := e]> (budget_ledger st))) k d = debit_of k d e + spent st k d.
Proof. intros He. unfold spent. cbn. by rewrite msum_insert. Qed.
Lemma debit_of_nonneg k d e : new_entry e = Ok e → 0 ≤ debit_of k d e.
Proof. intros He%entry_cash_nonneg. unfold debit_of. by destruct (_ && _). Qed.
Lemma debit_of_other k d d' e : direction e = d → d ≠ d' → debit_of k d' e = 0.
Proof. intros <- Hd. unfold debit_of. by rewrite (bool_decide_eq_false_2 _ Hd), andb_false_r. Qed.
Lemma credit_frees now e st : rows_ok st → new_entry e = Ok e → direction e = CREDIT →
  budget_ledger st !! entry_id e = None → frees now st (with_ledger st (<[entry_id e := e]> (budget_ledger st))).
Proof.
  intros Hrows He Hd Hfresh. split_and!; [done|by apply ledger_rows_ok|]. intros k. unfold usage.
  rewrite !spent_insert by done. rewrite (debit_of_other k CREDIT DEBIT) by done.
  pose proof (debit_of_nonneg k CREDIT e He). unfold held. cbn. lia.
Qed.
Lemma record_credit_frees now e st st' res : rows_ok st → new_entry e = Ok e → direction e = CREDIT →
  record_ledger e st = (st', res) → frees now st st'.
Proof.
  intros Hrows He Hd. unfold record_ledger. intros H. lease_op H; [|by apply frees_refl]. destruct a as [st1 e1].
  injection H as <- _. apply insert_ledger_cases in E as [->|[Hn ->]]; [by apply frees_refl|]. by apply credit_frees.
Qed.
(** The entry and the closed lease together. *)
Lemma covered_frees now l e st s c rc n : rows_ok st → budget_spend_leases st !! sp_lease_id l = Some l →
  spend_active now l = true → covered_by l e → 0 ≤ c → s ∉ [SL_RESERVED; SL_UNKNOWN_OUTCOME] →
  budget_ledger st !! entry_id e = None →
  frees now st (_update_lease (with_state l s c rc n) (with_ledger st (<[entry_id e := e]> (budget_ledger st)))).
Proof.
  intros Hrows Hl Ha [He Hcov] Hc Hs Hn. destruct (lease_rows st Hrows _ l Hl) as [Hv _].
  pose proof (ledger_rows_ok e st Hrows He) as Hrows1.
  destruct (close_frees now n _ l s c rc Hrows1 Hv Hc Hs) as (E1 & R1 & L1).
  destruct (decide (direction e = CREDIT)) as [Hd|Hd].
  { destruct (credit_frees now e st Hrows He Hd Hn) as (_ & _ & L2).
    split_and!; [done..|]. intros k. specialize (L1 k). specialize (L2 k). lia. }
  assert (direction e = DEBIT) as Hdeb by (by destruct (direction e)). destruct Hcov as [?|[Hcash Hsub]]; [done|].
  split_and!; [done..|]. intros k. unfold usage, held, spent, _update_lease.
  cbn [with_ledger with_spend_leases budget_spend_leases budget_ledger sp_lease_id].
  change (sp_lease_id (with_state l s c rc n)) with (sp_lease_id l). rewrite Hl.
  cbn [with_ledger with_spend_leases budget_spend_leases budget_ledger].
  rewrite !(msum_insert _ _ _ _ Hn), (msum_update _ _ _ _ _ Hl).
  rewrite (debit_of_other k DEBIT CREDIT) by done.
  unfold held_of at 2 3. rewrite Ha, terminal_inactive by done.
  pose proof (lease_reserved_nonneg l Hv). pose proof (entry_cash_nonneg e He).
  assert (debit_of k DEBIT e ≤ if str_in k (sp_scope_keys l) then reserved_microunits l else 0);
    [|destruct (str_in k (sp_scope_keys l)); lia].
  unfold debit_of. destruct (str_in k (le_scope_keys e)) eqn:Ek; [|cbn [andb]; by destruct (str_in k (sp_scope_keys l))].
  apply str_in_spec, Hsub, str_in_spec in Ek. rewrite Ek. by destruct (true && _).
Qed.

Definition settled_state (l : SpendLease) (e : BudgetLedgerEntry) : SpendLeaseState :=
  if maximum_microunits l <? cash_microunits e then SL_OVERSPENT else SL_SETTLED.
Lemma settle_cases lid e now st st' res : settle_lease lid e now st = (st', res) →
  st' = st ∨ ∃ l st1 e', known_lease st lid = Ok l ∧ sp_state l ∈ [SL_RESERVED; SL_UNKNOWN_OUTCOME]
    ∧ le_project_id e = sp_project_id l ∧ le_task_id e = Some (sp_task_id l) ∧ _insert_ledger e st = Ok (st1, e')
    ∧ st' = _update_lease (with_state l (settled_state l e) (cash_microunits e) false now) st1.
Proof.
  unfold settle_lease. intros H. lease_op H; [|by left]. destruct a as [l st1]. injection H as <- _.
  apply bind_ok in E as (l0 & Hl & E). apply bind_ok in E as ([] & Hs & E). apply bind_ok in E as ([] & Hm & E).
  apply bind_ok in E as ([st2 e'] & Hi & [= -> ->]). apply raise_if_ok in Hs.
  rewrite negb_false_iff, bool_decide_eq_true in Hs. apply raise_if_ok, orb_false_iff in Hm as [Hp Ht].
  rewrite negb_false_iff, String.eqb_eq in Hp. rewrite negb_false_iff, bool_decide_eq_true in Ht.
  right. by exists l, st1, e'.
Qed.
Lemma settled_terminal l e : settled_state l e ∉ [SL_RESERVED; SL_UNKNOWN_OUTCOME].
Proof. unfold settled_state. destruct (_ <? _); set_solver. Qed.
Lemma settle_frees now lid e st st' res l : rows_ok st → budget_spend_leases st !! lid = Some l →
  spend_active now l = true → covered_by l e → settle_lease lid e now st = (st', res) → frees now st st'.
Proof.
  intros Hrows Hlid Ha Hcov [->|(l1 & st1 & e' & Hk & _ & _ & _ & Hi & ->)]%settle_cases; [by apply frees_refl|].
  apply known_lease_ok in Hk as (Hx & Hl & Hid); [|done]. rewrite Hlid in Hx. injection Hx as ->.
  assert (0 ≤ cash_microunits e) as Hc by (apply entry_cash_nonneg, Hcov).
  apply insert_ledger_cases in Hi as [->|[Hn ->]].
  - apply close_frees; [done..|apply settled_terminal].
  - apply covered_frees; try done; [by rewrite Hid|apply settled_terminal].
Qed.
Lemma reconcile_frees now lid occurred entry st st' res l : rows_ok st → budget_spend_leases st !! lid = Some l →
  spend_active now l = true → (∀ e, entry = Some e → covered_by l e) →
  reconcile_unknown lid occurred entry now st = (st', res) → frees now st st'.
Proof.
  intros Hrows Hlid Ha Hcov. unfold reconcile_unknown. intros H. lease_op H; [|by apply frees_refl].
  destruct occurred, entry as [e|]; try (injection H as <- _; by apply frees_refl).
  - eapply settle_frees; eauto.
  - by eapply resolve_frees.
Qed.

(** ** Reservation *)
Lemma list_limits_eq st st' cycle : budget_limits st' = budget_limits st → list_limits st' cycle = list_limits st cycle.
Proof. unfold list_limits. by intros ->. Qed.
(** What an effective reservation adds, and what it was checked against. *)
Definition reserves (r : BudgetAdmissionRequest) (d : BudgetAdmissionDecision) (cycle : string) (now : Z)
    (st st' : budget_store) (c : SpendLease) : Prop :=
  new_spend_lease c = Ok c ∧ sp_scope_keys c = norm_scopes (rq_scope_keys r)
  ∧ reserved_microunits c = requested_reservation r ∧ sp_state c = SL_RESERVED
  ∧ budget_spend_leases st !! sp_lease_id c = None
  ∧ st' = with_spend_leases st (<[sp_lease_id c := c]> (budget_spend_leases st))
  ∧ reserve_checked r d cycle (requested_reservation r) now c st = Ok st'.
Lemma reserve_cases r d cycle key policy now st st' res : reserve r d cycle key policy now st = (st', res) →
  st' = st ∨ ∃ c, res = Ok c ∧ reserves r d cycle now st st' c.
Proof.
  unfold reserve. intros H. lease_op H; [|by left]. apply bind_ok in E as ([] & _ & E).
  apply bind_ok in E as (lid & _ & E). apply bind_ok in E as ([] & _ & E).
  assert (reserved_microunits a = requested_reservation r ∧ sp_state a = SL_RESERVED) as [Hr Hs].
  { unfold new_spend_lease in E. apply new_ok in E as [-> _]. done. }
  apply new_spend_lease_ok in E as [Hn Hsc].
  destruct (lease_with_key st key); [injection H as <- _; by left|].
  lease_op H; [|by left]. injection H as <- <-. right. exists a. split; [done|].
  assert (∃ u, insert_spend_lease st a = Ok u ∧ u = a0) as (u & Hi & ->).
  { unfold reserve_checked in E. do 7 (apply bind_ok in E as (? & _ & E)). eauto. }
  unfold insert_spend_lease in Hi. apply bind_ok in Hi as ([] & Hf & [= <-]).
  apply raise_if_ok, bool_decide_eq_false in Hf.
  unfold reserves. split_and!; try done. by destruct (budget_spend_leases st !! sp_lease_id a); [destruct Hf|].
Qed.
Lemma list_limits_valid st cycle ls l : list_limits st cycle = Ok ls → l ∈ ls → validate l = Ok ().
Proof.
  unfold list_limits. rewrite traverse_ok. intros Hf Hl. apply list_elem_of_lookup in Hl as [i Hi].
  destruct (Forall2_lookup_r _ _ _ _ _ Hf Hi) as (l0 & _ & Hn). apply new_ok in Hn as [-> Hv]. done.
Qed.
Lemma limit_protected_nonneg (l : BudgetLimit) : validate l = Ok () → 0 ≤ protected_reserve_microunits l ≤ hard_cap_microunits l.
Proof. intros Hv. unfold validate, BudgetLimit_model in Hv. ok_inv. destruct (soft_cap_microunits l); cbn in *; lia. Qed.
Lemma reserved_rows_ok r d cycle now st st' c : rows_ok st → reserves r d cycle now st st' c → rows_ok st'.
Proof.
  intros Hrows (Hc & _ & _ & _ & _ & -> & _). split; [|apply Hrows]. intros i l. cbn. rewrite lookup_insert.
  case_decide; [naive_solver|]. apply Hrows.
Qed.
Lemma reserved_held r d cycle now st st' c k : reserves r d cycle now st st' c →
  held st' k now = held_of k now c + held st k now.
Proof. intros (_ & _ & _ & _ & Hn & -> & _). unfold held. cbn. by rewrite msum_insert. Qed.
(** The check of an applicable limit, in terms of its usage. *)
Lemma reserve_checked_limit r d cycle requested now c st st' ls l : rows_ok st →
  reserve_checked r d cycle requested now c st = Ok st' → list_limits st cycle = Ok ls → l ∈ ls → bl_enabled l = true →
  scope_key l ∈ rq_scope_keys r →
  usage st (scope_key l) now + requested ≤ if reserve_authorized d then hard_cap_microunits l else normal_cap_microunits l.
Proof.
  intros Hrows Hc Hls Hl Hen Hk. unfold reserve_checked in Hc.
  apply bind_ok in Hc as (limits & Hap & Hc). apply bind_ok in Hc as ([] & _ & Hc).
  apply bind_ok in Hc as (active & Hact & Hc). apply bind_ok in Hc as (es & Hes & Hc).
  apply bind_ok in Hc as ([] & Hchk & _). rewrite for_each_ok in Hchk.
  unfold applicable_limits in Hap. rewrite Hls in Hap. cbn [mbind result_bind] in Hap. injection Hap as <-.
  assert (limit_check es active (reserve_authorized d) requested l = Ok ()) as Hok.
  { apply Hchk, elem_of_List_filter. split; [done|]. rewrite Hen. by apply str_in_spec. }
  apply raise_if_ok in Hok. destruct (active_spend_ok st Hrows now) as (ls' & E & Hheld). rewrite Hact in E.
  injection E as <-. rewrite Hheld in Hok. pose proof (cash_totals_ok st Hrows (scope_key l)) as E.
  unfold _cash_totals in E. rewrite Hes in E. cbn [mbind result_bind] in E. injection E as E1 E2.
  rewrite E1, E2 in Hok. unfold usage. lia.
Qed.
Lemma reserve_usage r d cycle now st st' c ls l : rows_ok st → norm_scopes (rq_scope_keys r) = rq_scope_keys r →
  reserves r d cycle now st st' c → list_limits st cycle = Ok ls → l ∈ ls → bl_enabled l = true →
  usage st' (scope_key l) now ≤ Z.max (usage st (scope_key l) now) (hard_cap_microunits l).
Proof.
  intros Hrows Hnorm Hres Hls Hl Hen. pose proof (reserved_held _ _ _ _ _ _ _ (scope_key l) Hres) as Hheld.
  destruct Hres as (Hc & Hsc & Hreq & _ & _ & -> & Hchk). unfold usage at 1. rewrite Hheld.
  change (spent (with_spend_leases st _)) with (spent st).
  pose proof (lease_reserved_nonneg c Hc). destruct (str_in (scope_key l) (rq_scope_keys r)) eqn:Ek.
  - apply str_in_spec in Ek. pose proof (reserve_checked_limit _ _ _ _ _ _ _ _ ls l Hrows Hchk Hls Hl Hen Ek) as Hcap.
    assert (held_of (scope_key l) now c ≤ requested_reservation r).
    { rewrite <-Hreq. unfold held_of. destruct (spend_active _ _); [|lia]. destruct (str_in (scope_key l) (sp_scope_keys c)); lia. }
    pose proof (limit_protected_nonneg l (list_limits_valid _ _ _ _ Hls Hl)).
    unfold normal_cap_microunits in Hcap. unfold usage in *. destruct (reserve_authorized d); lia.
  - assert (held_of (scope_key l) now c = 0) as ->.
    { unfold held_of. rewrite Hsc, Hnorm, Ek. by destruct (spend_active _ _). }
    unfold usage. lia.
Qed.

(** ** Runs *)
(** One step of a client that keeps its side: a request and a ledger entry
    were built, a settlement is covered by its lease, a lease is used or
    given up as lost before it runs out. *)
Inductive budget_step (cycle : string) : Z * budget_store → Z * budget_store → Prop :=
  | B_admit policy r forecast pace now st st' res :
      admit_budget policy r cycle forecast pace now st = (st', res) → budget_step cycle (now, st) (now, st')
  | B_reserve r d key policy now st st' res :
      norm_scopes (rq_scope_keys r) = rq_scope_keys r → reserve r d cycle key policy now st = (st', res) →
      budget_step cycle (now, st) (now, st')
  | B_release lid cancelled now st st' res :
      release_spend lid cancelled now st = (st', res) → budget_step cycle (now, st) (now, st')
  | B_mark lid l now st st' res : budget_spend_leases st !! lid = Some l → spend_active now l = true →
      mark_unknown_outcome lid now st = (st', res) → budget_step cycle (now, st) (now, st')
  | B_settle lid l e now st st' res : budget_spend_leases st !! lid = Some l → spend_active now l = true →
      covered_by l e → settle_lease lid e now st = (st', res) → budget_step cycle (now, st) (now, st')
  | B_reconcile lid l occurred entry now st st' res : budget_spend_leases st !! lid = Some l →
      spend_active now l = true → (∀ e, entry = Some e → covered_by l e) →
      reconcile_unknown lid occurred entry now st = (st', res) → budget_step cycle (now, st) (now, st')
  | B_credit e now st st' res : new_entry e = Ok e → direction e = CREDIT → record_ledger e st = (st', res) →
      budget_step cycle (now, st) (now, st')
  | B_expire now st st' res : expire_stale_leases now st = (st', res) → budget_step cycle (now, st) (now, st')
  | B_tick now now' st : now ≤ now' → budget_step cycle (now, st) (now', st).

Definition caps_hold (cycle : string) (s : Z * budget_store) : Prop :=
  rows_ok s.2 ∧ ∀ ls l, list_limits s.2 cycle = Ok ls → l ∈ ls → bl_enabled l = true →
    usage s.2 (scope_key l) s.1 ≤ hard_cap_microunits l.
Lemma frees_caps cycle now st st' : frees now st st' → caps_hold cycle (now, st) → caps_hold cycle (now, st').
Proof.
  intros (El & Hr & Hle) [_ Hcap]. split; [done|]. intros ls l. cbn. rewrite (list_limits_eq st) by done.
  intros Hls Hl Hen. specialize (Hle (scope_key l)). specialize (Hcap ls l Hls Hl Hen). cbn in Hcap. lia.
Qed.
Lemma spend_active_later now now' l : now ≤ now' → spend_active now' l = true → spend_active now l = true.
Proof. unfold spend_active. intros Hn. rewrite !orb_true_iff, !andb_true_iff. intros [?|[? ?]]; [by left|right; split; [done|lia]]. Qed.
Lemma held_later st k now now' : rows_ok st → now ≤ now' → held st k now' ≤ held st k now.
Proof.
  intros Hrows Hn. apply msum_le. intros i l Hl. apply (lease_rows st Hrows) in Hl as [Hl _].
  pose proof (held_of_nonneg k now l Hl). unfold held_of at 1. destruct (spend_active now' l) eqn:E; [|done].
  unfold held_of. by rewrite (spend_active_later now now').
Qed.
Lemma admit_frees policy r cycle forecast pace now st st' res : rows_ok st →
  admit_budget policy r cycle forecast pace now st = (st', res) → frees now st st'.
Proof.
  intros Hrows. unfold admit_budget. intros H. lease_op H; [|by apply frees_refl]. injection H as <- _.
  split; [done|]. split; [|intros k; apply Z.le_refl]. split; apply Hrows.
Qed.
Lemma budget_step_caps cycle s s' : budget_step cycle s s' → caps_hold cycle s → caps_hold cycle s'.
Proof.
  intros Hstep Hcaps. pose proof (proj1 Hcaps) as Hrows. destruct Hstep; cbn in Hrows.
  - eapply frees_caps; [by eapply admit_frees|done].
  - apply reserve_cases in H0 as [->|(c & _ & Hres)]; [done|]. split; [by eapply reserved_rows_ok|].
    intros ls l. cbn. assert (budget_limits st' = budget_limits st) as El by (by destruct Hres as (_&_&_&_&_&->&_)).
    rewrite (list_limits_eq st) by done. intros Hls Hl Hen.
    pose proof (reserve_usage _ _ _ _ _ _ _ ls l Hrows H Hres Hls Hl Hen).
    pose proof (proj2 Hcaps ls l Hls Hl Hen). cbn in *. lia.
  - eapply frees_caps; [by eapply release_frees|done].
  - eapply frees_caps; [by eapply mark_frees|done].
  - eapply frees_caps; [by eapply settle_frees|done].
  - eapply frees_caps; [by eapply reconcile_frees|done].
  - eapply frees_caps; [by eapply record_credit_frees|done].
  - eapply frees_caps; [by eapply expire_frees|done].
  - split; [done|]. intros ls l Hls Hl Hen. pose proof (proj2 Hcaps ls l Hls Hl Hen) as Hle. cbn in *.
    pose proof (held_later st (scope_key l) now now' Hrows H). unfold usage in *. lia.
Qed.
Lemma run_caps cycle s s' : rtc (budget_step cycle) s s' → caps_hold cycle s → caps_hold cycle s'.
Proof. induction 1; eauto using budget_step_caps. Qed.
(** A store with limits configured and nothing spent. *)
Definition unspent (st : budget_store) : Prop := budget_ledger st = ∅ ∧ budget_spend_leases st = ∅.
Lemma unspent_caps cycle now st : unspent st → caps_hold cycle (now, st).
Proof.
  intros [El Es]. split; [split; intros i x; cbn; rewrite ?El, ?Es, lookup_empty; done|].
  intros ls l Hls Hl _. unfold usage, spent, held. cbn. rewrite El, Es, !msum_empty.
  pose proof (limit_protected_nonneg l (list_limits_valid _ _ _ _ Hls Hl)). lia.
Qed.

