(* ===== verification/BudgetLifecycle.v ===== *)
(** * BudgetLifecycle: leases end once, and every settlement is booked

    The operations of the store with any arguments: a lease only moves
    along the edges below, a ledger entry never changes, and a settled lease
    has the ledger entry it was settled with. *)
From S2P Require Import Prelude PyStd PyRe PyJson Identifiers TaskState ControlDomain SchedulerDomain LanePolicy BudgetDomain BudgetRules BudgetLedger BudgetSafety.
Local Open Scope Z_scope.

(** The moves of a spend lease. *)
Definition spend_edge (s s' : SpendLeaseState) : bool :=
  match s with
  | SL_RESERVED => negb (bool_decide (s' = SL_RESERVED))
  | SL_UNKNOWN_OUTCOME => bool_decide (s' ∈ [SL_SETTLED; SL_OVERSPENT; SL_RELEASED])
  | _ => false
  end.
Lemma spend_edge_trans s1 s2 s3 : spend_edge s1 s2 = true → spend_edge s2 s3 = true → spend_edge s1 s3 = true.
Proof. by destruct s1, s2, s3. Qed.

(** The ledger entry a lease was settled with. *)
Definition booked (ledger : gmap string BudgetLedgerEntry) (l : SpendLease) : Prop :=
  sp_state l ∈ [SL_SETTLED; SL_OVERSPENT] → ∃ i e, ledger !! i = Some e
    ∧ le_project_id e = sp_project_id l ∧ le_task_id e = Some (sp_task_id l)
    ∧ cash_microunits e = consumed_microunits l
    ∧ (sp_state l = SL_OVERSPENT ↔ maximum_microunits l < consumed_microunits l).
Lemma booked_mono m m' l : m ⊆ m' → booked m l → booked m' l.
Proof. intros Hm Hb Hs. destruct (Hb Hs) as (i & e & Hi & He). exists i, e. split; [by eapply lookup_weaken|done]. Qed.

(** How one row may change. *)
Definition row_change (ledger : gmap string BudgetLedgerEntry) (o o' : option SpendLease) : Prop :=
  match o, o' with
  | Some l, Some l' => l' = l ∨ ∃ s c rc n, l' = with_state l s c rc n ∧ spend_edge (sp_state l) s = true ∧ booked ledger l'
  | None, Some l' => booked ledger l'
  | None, None => True
  | Some _, None => False
  end.
Definition store_change (st st' : budget_store) : Prop :=
  rows_ok st' ∧ budget_ledger st ⊆ budget_ledger st'
  ∧ ∀ i, row_change (budget_ledger st') (budget_spend_leases st !! i) (budget_spend_leases st' !! i).
Lemma row_change_same m o : row_change m o o.
Proof. destruct o; [by left|done]. Qed.
Lemma same_leases_change st st' : rows_ok st' → budget_ledger st ⊆ budget_ledger st' →
  budget_spend_leases st' = budget_spend_leases st → store_change st st'.
Proof. intros Hr Hl E. split_and!; [done..|]. intros i. rewrite E. apply row_change_same. Qed.
Lemma no_change st : rows_ok st → store_change st st.
Proof. intros Hr. by apply same_leases_change. Qed.
Lemma update_change st st1 l s c rc n : rows_ok st → budget_spend_leases st !! sp_lease_id l = Some l →
  rows_ok st1 → budget_spend_leases st1 = budget_spend_leases st → budget_ledger st ⊆ budget_ledger st1 →
  new_spend_lease (with_state l s c rc n) = Ok (with_state l s c rc n) → spend_edge (sp_state l) s = true →
  booked (budget_ledger st1) (with_state l s c rc n) →
  store_change st (_update_lease (with_state l s c rc n) st1).
Proof.
  intros Hrows Hl Hrows1 E1 Hsub Hv Hedge Hb. unfold _update_lease.
  change (sp_lease_id (with_state l s c rc n)) with (sp_lease_id l). rewrite E1, Hl. split_and!; [|done|].
  - split; [|apply Hrows1]. intros i l'. cbn. rewrite lookup_insert. case_decide as Ei.
    + intros [= <-]. by split.
    + rewrite <-E1. apply Hrows1.
  - intros i. cbn. rewrite lookup_insert. case_decide as Ei; [|apply row_change_same].
    subst i. rewrite Hl. right. by exists s, c, rc, n.
Qed.
Lemma unbooked m l s c rc n : s ∉ [SL_SETTLED; SL_OVERSPENT] → booked m (with_state l s c rc n).
Proof. intros Hs Hs'. done. Qed.
Lemma row_change_trans m m' o1 o2 o3 : m ⊆ m' → row_change m o1 o2 → row_change m' o2 o3 → row_change m' o1 o3.
Proof.
  intros Hm. destruct o1 as [l1|], o2 as [l2|], o3 as [l3|]; cbn; try done.
  - intros [->|(s & c & rc & n & -> & He & Hb)]; [done|].
    intros [->|(s' & c' & rc' & n' & -> & He' & Hb')]; right.
    + exists s, c, rc, n. split_and!; [done..|]. by eapply booked_mono.
    + exists s', c', rc', n'. split_and!; [done| |done]. by eapply spend_edge_trans.
  - intros Hb [->|(s & c & rc & n & -> & _ & Hb')]; [by eapply booked_mono|done].
Qed.
Lemma store_change_trans st1 st2 st3 : store_change st1 st2 → store_change st2 st3 → store_change st1 st3.
Proof.
  intros (_ & L1 & C1) (R2 & L2 & C2). split_and!; [done|by etrans|]. intros i. by eapply row_change_trans.
Qed.

(** ** The operations *)
Lemma close_change st l s c rc n : rows_ok st → budget_spend_leases st !! sp_lease_id l = Some l → 0 ≤ c →
  s ∉ [SL_UNKNOWN_OUTCOME; SL_SETTLED; SL_OVERSPENT] → spend_edge (sp_state l) s = true →
  store_change st (_update_lease (with_state l s c rc n) st).
Proof.
  intros Hrows Hl Hc Hs He. apply update_change; try done; [|apply unbooked; set_solver].
  apply with_state_valid; [by apply (lease_rows st Hrows _ _ Hl)|done|]. intros ->. set_solver.
Qed.
Lemma release_change lid cancelled now st st' res : rows_ok st → release_spend lid cancelled now st = (st', res) → store_change st st'.
Proof.
  intros Hrows. unfold release_spend. intros H. lease_op H; [|by apply no_change].
  apply bind_ok in E as (l & Hk & E). apply bind_ok in E as ([] & _ & [= ->]).
  apply known_lease_ok in Hk as (Hl & Hv & Hid); [|done]. subst lid.
  destruct (bool_decide (sp_state a = SL_RESERVED)) eqn:Es; cbn [negb] in H; injection H as <- _; [|by apply no_change].
  apply bool_decide_eq_true in Es. apply close_change; [done..|by apply lease_consumed_nonneg| |].
  - destruct cancelled; set_solver.
  - rewrite Es. by destruct cancelled.
Qed.
Lemma resolve_change lid now st st' res : rows_ok st → resolve_unknown_no_effect lid now st = (st', res) → store_change st st'.
Proof.
  intros Hrows. unfold resolve_unknown_no_effect. intros H. lease_op H; [|by apply no_change].
  apply bind_ok in E as (l & Hk & E). apply bind_ok in E as ([] & Es & [= ->]).
  apply known_lease_ok in Hk as (Hl & Hv & Hid); [|done]. subst lid. injection H as <- _.
  apply raise_if_ok in Es. rewrite negb_false_iff, bool_decide_eq_true in Es.
  apply close_change; [done..|by apply lease_consumed_nonneg|set_solver|by rewrite Es].
Qed.
Lemma mark_change lid now st st' res : rows_ok st → mark_unknown_outcome lid now st = (st', res) → store_change st st'.
Proof.
  intros Hrows. unfold mark_unknown_outcome. intros H. lease_op H; [|by apply no_change].
  apply bind_ok in E as (l & Hk & E). apply bind_ok in E as ([] & Es & [= ->]).
  apply known_lease_ok in Hk as (Hl & Hv & Hid); [|done]. subst lid. injection H as <- _.
  apply raise_if_ok in Es. rewrite negb_false_iff, bool_decide_eq_true in Es.
  apply update_change; try done; [|by rewrite Es|apply unbooked; set_solver].
  apply with_state_valid; [done|by apply lease_consumed_nonneg|done].
Qed.
Lemma expire_change now st st' res : rows_ok st → expire_stale_leases now st = (st', res) → store_change st st'.
Proof.
  intros Hrows. unfold expire_stale_leases. intros H. lease_op H; [|by apply no_change]. injection H as <- _.
  destruct (all_leases_ok st Hrows) as (ls & E' & Hp). rewrite E' in E. injection E as ->.
  set (due := List.filter _ a).
  assert (NoDup (sp_lease_id <$> due) ∧ ∀ l, l ∈ due → budget_spend_leases st !! sp_lease_id l = Some l
          ∧ sp_state l = SL_RESERVED) as [Hnd Hdue].
  { assert (sp_lease_id <$> a ≡ₚ (map_to_list (budget_spend_leases st)).*1) as Hids.
    { rewrite Hp, <-list_fmap_compose. apply Permutation_refl', list_fmap_ext. intros j [i l] Hil%list_elem_of_lookup_2.
      apply elem_of_map_to_list in Hil. by apply (lease_rows st Hrows). }
    split.
    - eapply sublist_NoDup; [|apply fmap_sublist, filter_sublist]. rewrite Hids. apply NoDup_fst_map_to_list.
    - intros l (Hl & Hs)%elem_of_List_filter. rewrite Hp, list_elem_of_fmap in Hl.
      destruct Hl as ([i ?] & -> & Hl%elem_of_map_to_list). cbn in *.
      destruct (lease_rows st Hrows _ _ Hl) as [_ <-]. split; [done|]. apply andb_true_iff in Hs as [Hs _].
      by apply bool_decide_eq_true in Hs. }
  clearbody due. clear E' Hp a res. revert st Hrows Hdue. induction due as [|l due IH]; intros st Hrows Hdue; [by apply no_change|].
  rewrite fmap_cons, NoDup_cons in Hnd. destruct Hnd as [Hx Hnd]. rewrite fmap_cons. cbn [foldl].
  destruct (Hdue l) as [Hl Hs]; [left|].
  assert (store_change st (_update_lease (with_state l SL_EXPIRED (consumed_microunits l) (reconciliation_required l) now) st)) as Hc.
  { apply close_change; [done..| |set_solver|by rewrite Hs]. apply lease_consumed_nonneg. by apply (lease_rows st Hrows _ _ Hl). }
  eapply store_change_trans; [exact Hc|]. apply IH; [done|apply Hc|]. intros l' Hl'.
  destruct (Hdue l') as [Hr Hs']; [by right|]. split; [|done]. unfold _update_lease. cbn. rewrite Hl. cbn.
  rewrite lookup_insert_ne; [done|]. intros Ei. apply Hx. rewrite Ei. by apply list_elem_of_fmap_2.
Qed.
(** What an insertion leaves in the ledger. *)
Lemma insert_ledger_ok e st st' e' : rows_ok st → new_entry e = Ok e → _insert_ledger e st = Ok (st', e') →
  rows_ok st' ∧ budget_ledger st ⊆ budget_ledger st' ∧ budget_spend_leases st' = budget_spend_leases st
  ∧ budget_ledger st' !! entry_id e = Some e.
Proof.
  intros Hrows He. unfold _insert_ledger. destruct (budget_ledger st !! entry_id e) as [row|] eqn:E.
  - rewrite (ledger_rows st Hrows _ _ E). cbn [mbind result_bind]. intros H. apply bind_ok in H as ([] & Hc & [= <- <-]).
    apply raise_if_ok in Hc. rewrite negb_false_iff, bool_decide_eq_true in Hc. subst row. done.
  - intros [= <- <-]. split_and!; [by apply ledger_rows_ok|by apply insert_subseteq|done|]. cbn. apply lookup_insert_eq.
Qed.
Lemma record_change e st st' res : rows_ok st → new_entry e = Ok e → record_ledger e st = (st', res) → store_change st st'.
Proof.
  intros Hrows He. unfold record_ledger. intros H. lease_op H; [|by apply no_change]. destruct a as [st1 e1].
  injection H as <- _. apply insert_ledger_ok in E as (? & ? & ? & _); [|done..]. by apply same_leases_change.
Qed.
Lemma settle_change lid e now st st' res : rows_ok st → new_entry e = Ok e → settle_lease lid e now st = (st', res) →
  store_change st st'.
Proof.
  intros Hrows He [->|(l & st1 & e' & Hk & Hst & Hp & Ht & Hi & ->)]%settle_cases; [by apply no_change|].
  apply known_lease_ok in Hk as (Hl & Hv & Hid); [|done]. subst lid.
  apply insert_ledger_ok in Hi as (R1 & L1 & E1 & Hin); [|done..].
  apply update_change; try done.
  - apply with_state_valid; [done|by apply entry_cash_nonneg|]. intros Hu. by destruct (settled_terminal l e); rewrite Hu; set_solver.
  - unfold settled_state. apply elem_of_cons in Hst as [->| ->%list_elem_of_singleton]; by destruct (_ <? _).
  - intros _. exists (entry_id e), e. split_and!; try done. cbn. unfold settled_state.
    destruct (Z.ltb_spec (maximum_microunits l) (cash_microunits e)); naive_solver lia.
Qed.
Lemma reserve_change r d cycle key policy now st st' res : rows_ok st → reserve r d cycle key policy now st = (st', res) →
  store_change st st'.
Proof.
  intros Hrows [->|(c & _ & Hres)]%reserve_cases; [by apply no_change|].
  pose proof (reserved_rows_ok _ _ _ _ _ _ _ Hrows Hres) as Hr.
  destruct Hres as (_ & _ & _ & Hs & Hn & -> & _). split_and!; [done..|]. intros i. cbn. rewrite lookup_insert.
  case_decide as Ei; [|apply row_change_same]. subst i. rewrite Hn. intros Hs'. rewrite Hs in Hs'. set_solver.
Qed.
Lemma reconcile_change lid occurred entry now st st' res : rows_ok st → (∀ e, entry = Some e → new_entry e = Ok e) →
  reconcile_unknown lid occurred entry now st = (st', res) → store_change st st'.
Proof.
  intros Hrows He. unfold reconcile_unknown. intros H. lease_op H; [|by apply no_change].
  destruct occurred, entry as [e|]; try (injection H as <- _; by apply no_change).
  - eapply settle_change; eauto.
  - by eapply resolve_change.
Qed.

(** ** Runs of any operations *)
Inductive budget_op : budget_store → budget_store → Prop :=
  | O_limit l st st' res : put_limit l st = (st', res) → budget_op st st'
  | O_quota q st st' res : put_quota_limit q st = (st', res) → budget_op st st'
  | O_record e st st' res : new_entry e = Ok e → record_ledger e st = (st', res) → budget_op st st'
  | O_admit policy r cycle forecast pace now st st' res :
      admit_budget policy r cycle forecast pace now st = (st', res) → budget_op st st'
  | O_reserve r d cycle key policy now st st' res : reserve r d cycle key policy now st = (st', res) → budget_op st st'
  | O_release lid cancelled now st st' res : release_spend lid cancelled now st = (st', res) → budget_op st st'
  | O_mark lid now st st' res : mark_unknown_outcome lid now st = (st', res) → budget_op st st'
  | O_resolve lid now st st' res : resolve_unknown_no_effect lid now st = (st', res) → budget_op st st'
  | O_settle lid e now st st' res : new_entry e = Ok e → settle_lease lid e now st = (st', res) → budget_op st st'
  | O_reconcile lid occurred entry now st st' res : (∀ e, entry = Some e → new_entry e = Ok e) →
      reconcile_unknown lid occurred entry now st = (st', res) → budget_op st st'
  | O_expire now st st' res : expire_stale_leases now st = (st', res) → budget_op st st'.
Lemma rows_kept st st' : rows_ok st → budget_ledger st' = budget_ledger st →
  budget_spend_leases st' = budget_spend_leases st → store_change st st'.
Proof.
  intros Hr El Es. apply same_leases_change; [|by rewrite El|done]. split; intros i; rewrite ?El, ?Es; apply Hr.
Qed.
Lemma op_change st st' : budget_op st st' → rows_ok st → store_change st st'.
Proof.
  destruct 1; intros Hrows.
  - unfold put_limit in H. destruct (existsb _ _); injection H as <- _; by apply rows_kept.
  - unfold put_quota_limit in H. destruct (existsb _ _); injection H as <- _; by apply rows_kept.
  - by eapply record_change.
  - unfold admit_budget in H. lease_op H; [injection H as <- _|]; by apply rows_kept.
  - by eapply reserve_change.
  - by eapply release_change.
  - by eapply mark_change.
  - by eapply resolve_change.
  - by eapply settle_change.
  - by eapply reconcile_change.
  - by eapply expire_change.
Qed.
Lemma run_change st st' : rtc budget_op st st' → rows_ok st → store_change st st'.
Proof.
  induction 1 as [|st1 st2 st3 H1 _ IH]; intros Hr; [by apply no_change|].
  pose proof (op_change _ _ H1 Hr) as Hc. eapply store_change_trans; [exact Hc|]. apply IH, Hc.
Qed.
Lemma unspent_rows st : unspent st → rows_ok st.
Proof. intros [El Es]. split; intros i x; rewrite ?El, ?Es, lookup_empty; done. Qed.

(** Whatever operations run, with whatever arguments, a spend lease is
    never lost and keeps its grant: either it is untouched or it has moved
    along the edges of its state machine.  A settled, overspent, released,
    cancelled or expired lease never changes again, and a lost outcome is
    only ever settled or resolved. *)
Theorem spend_lease_lifecycle st0 st st' i l :
  unspent st0 → rtc budget_op st0 st → budget_spend_leases st !! i = Some l → rtc budget_op st st' →
  ∃ l', budget_spend_leases st' !! i = Some l'
    ∧ (l' = l ∨ ∃ s consumed recon now,
         l' = with_state l s consumed recon now ∧ spend_edge (sp_state l) s = true).
Proof.
  intros Hun H0 Hl H1. pose proof (run_change _ _ H0 (unspent_rows _ Hun)) as (Hr & _ & _).
  destruct (run_change _ _ H1 Hr) as (_ & _ & Hc). specialize (Hc i). rewrite Hl in Hc.
  destruct (budget_spend_leases st' !! i) as [l'|]; [|done]. exists l'. split; [done|].
  destruct Hc as [->|(s & c & rc & n & -> & He & _)]; [by left|right]. eauto 10.
Qed.

(** Every settlement is booked: in any reachable store a SETTLED or
    OVERSPENT lease has a ledger entry of its project and task whose cash is
    what the lease consumed, and it is OVERSPENT exactly when that exceeds
    the lease's maximum.  Ledger entries themselves never change. *)
Theorem settled_leases_are_booked st0 st st' i l :
  unspent st0 → rtc budget_op st0 st → rtc budget_op st st' →
  budget_ledger st ⊆ budget_ledger st' ∧ (budget_spend_leases st' !! i = Some l → booked (budget_ledger st') l).
Proof.
  intros Hun H0 H1. pose proof (run_change _ _ H0 (unspent_rows _ Hun)) as C0.
  pose proof (run_change _ _ H1 (proj1 C0)) as C1. split; [apply C1|]. intros Hl.
  pose proof (store_change_trans _ _ _ C0 C1) as (_ & _ & Hc). specialize (Hc i). rewrite Hl, (proj2 Hun), lookup_empty in Hc.
  done.
Qed.
