(* ===== verification/BudgetAdmission.v ===== *)
(** * BudgetAdmission: the decision and the reservation agree

    An admitted request finds the room it was promised when it reserves at
    once; free work is the exception. *)
From S2P Require Import Prelude PyStd PyRe PyJson Identifiers TaskState ControlDomain SchedulerDomain LanePolicy BudgetDomain BudgetRules BudgetLedger BudgetSafety.
Local Open Scope Z_scope.

(** ** The evaluator *)
Definition available (reserve : bool) (s : BudgetSnapshot) : Z :=
  if reserve then remaining_total_microunits s else remaining_normal_microunits s.
Definition allocatable (reserve : bool) (q : QuotaLimit) (used : Z) : Z :=
  Z.max 0 (ql_capacity_units q - (if reserve then 0 else protected_units q) - Z.max 0 used).
(** What one quota requirement needs to be met. *)
Definition quota_met (quotas : gmap string QuotaLimit) (used : gmap string Z) (reserve : bool) (kv : string * Z) : Prop :=
  ∃ q, quotas !! kv.1 = Some q ∧ ql_enabled q = true ∧ kv.2 ≤ allocatable reserve q (units_of used kv.1).
Lemma quota_steps_met quotas used reserve l a shadow ok reasons :
  foldl (quota_step quotas used reserve) a l = (shadow, ok, reasons) → ok = true →
  a.1.2 = true ∧ Forall (quota_met quotas used reserve) l.
Proof.
  revert a. induction l as [|kv l IH]; intros a; cbn [foldl]; [intros -> ->; split; [done|constructor]|].
  intros Hf Hok. destruct (IH _ Hf Hok) as [Ha Hl]. clear IH Hf.
  destruct a as [[sh ok0] rs], kv as [qid n]. unfold quota_step in Ha.
  destruct (quotas !! qid) as [q|] eqn:Eq; [|done]. destruct (ql_enabled q) eqn:Een; cbn [negb] in Ha; [|done].
  cbn in Ha. apply andb_true_iff in Ha as [Ha Hs]. apply negb_true_iff in Hs. split; [done|]. constructor; [|done].
  exists q. split_and!; [done..|]. cbn. unfold allocatable. lia.
Qed.
Lemma foldl_min_le l z : foldl Z.min z l ≤ z ∧ Forall (λ x, foldl Z.min z l ≤ x) l.
Proof.
  revert z. induction l as [|x l IH]; intros z; cbn [foldl]; [by split|].
  destruct (IH (Z.min z x)) as [H1 H2]. split; [lia|]. constructor; [lia|done].
Qed.
Lemma evaluate_admitted policy r snaps quotas used now d :
  evaluate_budget policy r snaps quotas used now = Ok d → bd_admitted d = true → paid_incremental r = true →
  authorized_microunits d = estimated_p90_microunits r ∧ snaps ≠ []
  ∧ Forall (λ s, estimated_p90_microunits r ≤ available (reserve_authorized d) s) snaps
  ∧ Forall (quota_met quotas used (reserve_authorized d)) (items (quota_requirements r)).
Proof.
  unfold evaluate_budget. destruct (reserve_decision policy r) as [res rs0] eqn:Er.
  destruct (cash_decision r snaps (snapshots_pressure snaps) res) as [[paid0 auth] rs1] eqn:Ec.
  destruct (pressure_decision _ _ _ _) as [paid rs2] eqn:Ep.
  destruct (foldl _ _ _) as [[shadow qok] rs3] eqn:Eq. intros Hd Hadm Hpaid.
  apply bind_ok in Hd as (did & _ & Hd). apply new_ok in Hd as [-> _].
  cbn [bd_admitted] in Hadm. apply andb_true_iff in Hadm as [Hadm Hr]. apply andb_true_iff in Hadm as [Hm Hq].
  rewrite Hpaid in Hm. cbn [negb orb] in Hm. apply andb_true_iff in Hm as [Hpa Hauth].
  cbn [authorized_microunits reserve_authorized]. rewrite Hpaid, Hpa, Hauth, Hq, Hr. cbn [negb orb andb].
  rewrite andb_true_r. destruct (quota_steps_met _ _ _ _ _ _ _ _ Eq Hq) as [_ Hmet].
  unfold cash_decision in Ec. rewrite Hpaid in Ec. cbn [negb] in Ec.
  destruct (decide (snaps = [])) as [->|Hne].
  { injection Ec as <- <- _. unfold pressure_decision in Ep. cbn in Ep. repeat case_match; simplify_eq; done. }
  rewrite bool_decide_eq_false_2 in Ec by done. injection Ec as _ <- _.
  destruct (foldl_min_le ((λ s, if res then remaining_total_microunits s else remaining_normal_microunits s) <$> snaps)
    (estimated_p90_microunits r)) as [Hle Hall]. apply Z.leb_le in Hauth.
  split_and!; [lia|done| |done]. rewrite Forall_fmap in Hall.
  eapply Forall_impl; [exact Hall|]. intros s Hs. cbn in Hs. unfold available. lia.
Qed.

(** ** What the admission read *)
Definition used_by (es : list BudgetLedgerEntry) (active : list SpendLease) (k : string) : Z :=
  Z.max 0 (cash_total DEBIT k es - cash_total CREDIT k es) + committed_total k active.
Definition cap_of (reserve : bool) (l : BudgetLimit) : Z :=
  if reserve then hard_cap_microunits l else normal_cap_microunits l.
Lemma snapshot_reads st policy forecast pace now l s : snapshot st policy forecast pace now l = Ok s →
  ∃ es active, list_ledger st None None = Ok es ∧ list_active_spend st now None = Ok active
    ∧ ∀ res, validate l = Ok () → available res s = Z.max 0 (cap_of res l - used_by es active (scope_key l)).
Proof.
  unfold snapshot, _cash_totals, _committed. intros H. apply bind_ok in H as ([db cr] & Hc & H).
  apply bind_ok in Hc as (es & Hes & [= <- <-]). apply bind_ok in H as (co & Hco & H).
  apply bind_ok in Hco as (active & Hact & [= <-]). exists es, active. split_and!; [done..|]. intros res Hv.
  unfold build_snapshot in H. apply new_ok in H as [-> _].
  pose proof (limit_protected_nonneg l Hv). unfold available, cap_of, normal_cap_microunits, used_by.
  destruct res; cbn [remaining_total_microunits remaining_normal_microunits]; lia.
Qed.
Lemma items_keys {A} (m : gmap string A) : NoDup (items m).*1.
Proof. unfold items. rewrite sorted_by_perm. apply NoDup_fst_map_to_list. Qed.
Lemma elem_of_items {A} (m : gmap string A) k a : (k, a) ∈ items m ↔ m !! k = Some a.
Proof. unfold items. by rewrite elem_of_sorted_by, elem_of_map_to_list. Qed.
(** The quota usage the admission saw is the one the reservation computes. *)
Lemma used_quota st now l used es active : list_ledger st None None = Ok es → list_active_spend st now None = Ok active →
  traverse (λ kv : string * Z, n ← quota_used_or_reserved st kv.1 now; Ok (kv.1, n)) l = Ok used →
  NoDup l.*1 → ∀ kv, kv ∈ l → units_of (list_to_map used) kv.1 = quota_total kv.1 es active.
Proof.
  intros Hes Hact Htr Hnd kv Hkv.
  rewrite (traverse_map_ok _ (λ kv, (kv.1, quota_total kv.1 es active))) in Htr.
  2: { intros x _. unfold quota_used_or_reserved. by rewrite Hes; cbn [mbind result_bind]; rewrite Hact. }
  injection Htr as <-. unfold units_of.
  assert (list_to_map (M := gmap string Z) (map (λ kv, (kv.1, quota_total kv.1 es active)) l) !! kv.1
          = Some (quota_total kv.1 es active)) as ->; [|done].
  apply elem_of_list_to_map.
  - change (map ?f l) with (f <$> l). rewrite <-list_fmap_compose. by rewrite (list_fmap_ext _ fst).
  - change (map ?f l) with (f <$> l). apply list_elem_of_fmap. by exists kv.
Qed.
(** The primary key of the quotas, which [put_quota_limit] keeps unique. *)
Definition quota_ids_unique (st : budget_store) : Prop :=
  NoDup (quota_id <$> (map_to_list (budget_quota_limits st)).*2).
Lemma enabled_quota st qs q qid : quota_ids_unique st → list_quota_limits st = Ok qs →
  dict_of quota_id qs !! qid = Some q → ql_enabled q = true → dict_of quota_id (List.filter ql_enabled qs) !! qid = Some q.
Proof.
  intros Hu Hqs (Hq & <-)%dict_of_lookup_Some Hen. apply dict_of_lookup; [|by apply elem_of_List_filter].
  eapply sublist_NoDup; [|apply fmap_sublist, filter_sublist]. unfold list_quota_limits in Hqs.
  rewrite (traverse_new _ _ Hqs), sorted_by_perm. exact Hu.
Qed.

(** ** Reserving at once *)
Section reserving.
Context (r : BudgetAdmissionRequest) (d : BudgetAdmissionDecision) (cycle key lid : string) (policy : BudgetPolicy)
  (now : Z) (st : budget_store).
Definition candidate_lease : SpendLease :=
  mkSpendLease lid key (rq_project_id r) (rq_task_id r) (rq_provider_id r) (norm_scopes (rq_scope_keys r))
    (authorized_microunits d) (requested_reservation r) 0 (quota_requirements r) SL_RESERVED
    (if reserve_authorized d then rq_reserve_reason r else None) [decision_id d] now
    (now + lease_ttl_seconds policy * 1000000) now false.
Context (Hr : validate r = Ok ()) (Hkey : min_length 1 key && max_length 300 key = true)
  (Hlid : budget_identifier "LEASE" [key] = Ok lid) (Hfresh : lease_with_key st key = None)
  (Hnew : budget_spend_leases st !! lid = None) (Httl : 0 < lease_ttl_seconds policy)
  (Hadm : bd_admitted d = true) (Hauth : requested_reservation r ≤ authorized_microunits d)
  (Hpos : 0 ≤ requested_reservation r).
Lemma candidate_built : new_spend_lease (mkSpendLease lid key (rq_project_id r) (rq_task_id r) (rq_provider_id r)
    (rq_scope_keys r) (authorized_microunits d) (requested_reservation r) 0 (quota_requirements r) SL_RESERVED
    (if reserve_authorized d then rq_reserve_reason r else None) [decision_id d] now
    (now + lease_ttl_seconds policy * 1000000) now false) = Ok candidate_lease.
Proof using Hr Hkey Hlid Httl Hauth Hpos.
  unfold new_spend_lease. cbn -[norm_scopes new]. apply new_valid.
  unfold validate, BudgetAdmissionRequest_model in Hr. ok_inv.
  unfold validate, SpendLease_model. cbn -[norm_scopes min_length max_length carries_id bad_units Z.mul].
  rewrite Hkey. cbn [negb raise_if mbind result_bind]. rewrite H, H0. cbn [raise_if mbind result_bind].
  assert ((authorized_microunits d <? 0) || (requested_reservation r <? 0) || false = false) as -> by lia.
  cbn [raise_if mbind result_bind]. rewrite norm_scopes_idem, H3, H4. cbn [raise_if mbind result_bind].
  unfold carries_id. rewrite Hlid. cbn [mbind result_bind]. rewrite String.eqb_refl. cbn [negb raise_if mbind result_bind].
  assert ((authorized_microunits d <? requested_reservation r) = false) as -> by lia. cbn [raise_if mbind result_bind].
  by assert ((now + lease_ttl_seconds policy * 1000000 <=? now) = false) as -> by lia.
Qed.
Lemma reserve_succeeds st' : reserve_checked r d cycle (requested_reservation r) now candidate_lease st = Ok st' →
  reserve r d cycle key policy now st = (st', Ok candidate_lease).
Proof using Hr Hkey Hlid Httl Hauth Hpos Hadm Hfresh.
  intros Hchk. unfold reserve. rewrite Hadm. cbn [negb raise_if mbind result_bind]. rewrite Hlid. cbn [mbind result_bind].
  assert ((authorized_microunits d <? requested_reservation r) = false) as -> by lia. cbn [raise_if mbind result_bind].
  rewrite candidate_built, Hfresh. cbn [mbind result_bind]. by rewrite Hchk.
Qed.
End reserving.

(** The checks of the transaction, from what the admission read. *)
Lemma admission_room policy r cycle forecast pace now st snaps qs used es active d c :
  snapshots_for_request st r cycle policy forecast pace now = Ok snaps → list_quota_limits st = Ok qs →
  traverse (λ kv : string * Z, n ← quota_used_or_reserved st kv.1 now; Ok (kv.1, n)) (items (quota_requirements r)) = Ok used →
  list_ledger st None None = Ok es → list_active_spend st now None = Ok active → quota_ids_unique st →
  0 < estimated_p90_microunits r → (∀ q n, quota_requirements r !! q = Some n → 0 < n) → snaps ≠ [] →
  Forall (λ s, estimated_p90_microunits r ≤ available (reserve_authorized d) s) snaps →
  Forall (quota_met (dict_of quota_id qs) (list_to_map used) (reserve_authorized d)) (items (quota_requirements r)) →
  budget_spend_leases st !! sp_lease_id c = None →
  reserve_checked r d cycle (estimated_p90_microunits r) now c st
  = Ok (with_spend_leases st (<[sp_lease_id c := c]> (budget_spend_leases st))).
Proof.
  intros Hsn Hqs Hused Hes Hact Hu Hp Hq Hne Hav Hmet Hfresh. unfold snapshots_for_request in Hsn.
  apply bind_ok in Hsn as (limits & Hap & Hsn). apply traverse_ok in Hsn as Hf2.
  unfold reserve_checked. rewrite Hap. cbn [mbind result_bind].
  rewrite (proj2 (raise_if_ok _ _ _ ())).
  2: { rewrite bool_decide_eq_false_2; [apply andb_false_r|]. intros ->. apply Hne. by inversion Hf2. }
  cbn [mbind result_bind]. rewrite Hact. cbn [mbind result_bind]. rewrite Hes. cbn [mbind result_bind].
  rewrite (proj2 (for_each_ok _ limits ())).
  2: { intros l Hl. apply list_elem_of_lookup in Hl as [i Hi].
    destruct (Forall2_lookup_l _ _ _ _ _ Hf2 Hi) as (s & Hs & Hsnap).
    destruct (snapshot_reads _ _ _ _ _ _ _ Hsnap) as (es' & active' & E1 & E2 & Hroom).
    rewrite Hes in E1. rewrite Hact in E2. injection E1 as <-. injection E2 as <-.
    unfold applicable_limits in Hap. apply bind_ok in Hap as (ls & Hls & [= <-]).
    apply list_elem_of_lookup_2, elem_of_List_filter in Hi as [Hl _].
    specialize (Hroom (reserve_authorized d) (list_limits_valid _ _ _ _ Hls Hl)).
    apply (proj1 (Forall_lookup _ _) Hav) in Hs. cbn in Hs. rewrite Hroom in Hs.
    unfold limit_check. fold (cap_of (reserve_authorized d) l) (used_by es active (scope_key l)).
    apply raise_if_ok. lia. }
  cbn [mbind result_bind]. rewrite Hqs. cbn [mbind result_bind].
  rewrite (proj2 (for_each_ok _ (items _) ())).
  2: { intros [qid n] Hkv. apply (proj1 (Forall_forall _ _) Hmet) in Hkv as Hm. destruct Hm as (q & Hqd & Hen & Hle).
    rewrite (used_quota _ _ _ _ _ _ Hes Hact Hused (items_keys _) _ Hkv) in Hle. cbn [fst snd] in *.
    unfold quota_check. cbn [fst snd]. rewrite (enabled_quota _ _ _ _ Hu Hqs Hqd Hen). apply raise_if_ok.
    apply elem_of_items, Hq in Hkv. unfold allocatable in Hle. lia. }
  cbn [mbind result_bind]. unfold insert_spend_lease. by rewrite Hfresh.
Qed.

(** C33. An admission promises what it says: paid work the evaluator admits,
    with a positive estimate and positive quota units, is granted its lease
    when it reserves at once under a fresh key; no limit and no quota of the
    transaction refuses what the decision authorised. *)
Theorem admitted_work_can_reserve policy r cycle forecast pace now key lid st st' d :
  validate r = Ok () → 0 < lease_ttl_seconds policy → min_length 1 key && max_length 300 key = true →
  budget_identifier "LEASE" [key] = Ok lid → lease_with_key st key = None → budget_spend_leases st !! lid = None →
  quota_ids_unique st → paid_incremental r = true → 0 < estimated_p90_microunits r →
  (∀ q n, quota_requirements r !! q = Some n → 0 < n) →
  admit_budget policy r cycle forecast pace now st = (st', Ok d) → bd_admitted d = true →
  ∃ st'' c, reserve r d cycle key policy now st' = (st'', Ok c) ∧ sp_state c = SL_RESERVED
    ∧ reserved_microunits c = estimated_p90_microunits r ∧ budget_spend_leases st'' !! lid = Some c.
Proof.
  intros Hr Httl Hkey Hlid Hfresh Hnew Hu Hpaid Hp Hq Hadm Had. unfold admit_budget in Hadm.
  case_match eqn:E; [|done]. injection Hadm as <- ->. apply bind_ok in E as (snaps & Hsn & E). apply bind_ok in E as (qs & Hqs & E).
  apply bind_ok in E as (used & Hused & E).
  destruct (evaluate_admitted _ _ _ _ _ _ _ E Had Hpaid) as (Hauth & Hne & Hav & Hmet).
  assert (requested_reservation r = estimated_p90_microunits r) as Ereq by (unfold requested_reservation; by rewrite Hpaid).
  assert (∃ es active, list_ledger st None None = Ok es ∧ list_active_spend st now None = Ok active) as (es & active & Hes & Hact).
  { apply bind_ok in Hsn as (limits & _ & Hsn). apply traverse_ok in Hsn.
    destruct Hsn as [|l s limits snaps Hs _]; [done|]. destruct (snapshot_reads _ _ _ _ _ _ _ Hs) as (es & active & ? & ? & _). eauto. }
  set (c := candidate_lease r d key lid policy now).
  pose proof (admission_room policy r cycle forecast pace now (save_decision d st) snaps qs used es active d c
    Hsn Hqs Hused Hes Hact Hu Hp Hq Hne Hav Hmet Hnew) as Hroom. rewrite <-Ereq in Hroom.
  exists (with_spend_leases (save_decision d st) (<[lid := c]> (budget_spend_leases st))), c.
  split_and!; [|done..|cbn; apply lookup_insert_eq].
  apply (reserve_succeeds r d cycle key lid policy now (save_decision d st) Hr Hkey Hlid Hfresh Httl Had); [lia..|exact Hroom].
Qed.
