(* ===== verification/BudgetEnvelopes.v ===== *)
(** * BudgetEnvelopes: the distribution of a global limit over providers

    The rounds of [rebalance_provider_soft_envelopes] end, no provider gets
    more than its cap, and as much as fits is handed out. *)
From S2P Require Import Prelude PyStd PyRe PyJson Identifiers TaskState ControlDomain SchedulerDomain LanePolicy BudgetDomain BudgetRules BudgetLedger BudgetSafety BudgetLifecycle BudgetAdmission.
Local Open Scope Z_scope.

Section envelopes.
Context (caps demand_ : gmap string Z).
Definition providers : list string := (items caps).*1.
Definition room (given : gmap string Z) (p : string) : Z := Z.max 0 (units_of caps p) - units_of given p.
Definition handed_out (given : gmap string Z) : Z := Z_sum (units_of given <$> providers).

Lemma units_of_insert m p v q : units_of (<[p := v]> m) q = if decide (p = q) then v else units_of m q.
Proof. unfold units_of. rewrite lookup_insert. by case_decide. Qed.
Lemma Z_sum_one (f g : string → Z) p l : NoDup l → p ∈ l → (∀ q, q ≠ p → g q = f q) →
  Z_sum (g <$> l) = Z_sum (f <$> l) - f p + g p.
Proof.
  intros Hnd Hp Hfg. induction Hnd as [|x l Hx Hnd IH]; [by apply not_elem_of_nil in Hp|].
  rewrite !fmap_cons. cbn [Z_sum foldr]. fold (Z_sum (f <$> l)) (Z_sum (g <$> l)).
  apply elem_of_cons in Hp as [<-|Hp].
  - assert (g <$> l = f <$> l) as ->; [|lia]. apply list_fmap_ext. intros i q Hq%list_elem_of_lookup_2.
    apply Hfg. intros ->. done.
  - rewrite IH, (Hfg x) by (done || (intros ->; done)). lia.
Qed.
Lemma Z_sum_le (f g : string → Z) l : (∀ p, p ∈ l → f p ≤ g p) → Z_sum (f <$> l) ≤ Z_sum (g <$> l).
Proof.
  induction l as [|x l IH]; intros Hl; [done|]. rewrite !fmap_cons. cbn [Z_sum foldr].
  fold (Z_sum (f <$> l)) (Z_sum (g <$> l)). assert (f x ≤ g x) by (apply Hl; left).
  assert (Z_sum (f <$> l) ≤ Z_sum (g <$> l)) by (apply IH; intros; apply Hl; by right). lia.
Qed.
Lemma providers_nodup : NoDup providers.
Proof. apply items_keys. Qed.
Lemma elem_of_providers p : p ∈ providers ↔ is_Some (caps !! p).
Proof.
  unfold providers. rewrite list_elem_of_fmap. split.
  - intros ([q c] & -> & Hq%elem_of_items). eauto.
  - intros [c Hc]. exists (p, c). split; [done|]. by apply elem_of_items.
Qed.

(** ** One round *)
(** No provider is over its cap; the keys stay those of the caps. *)
Definition within (given : gmap string Z) : Prop :=
  dom given = dom caps ∧ ∀ p, p ∈ providers → 0 ≤ units_of given p ∧ 0 ≤ room given p.
Definition fair_offers (given : gmap string Z) (os : list (string * Z)) : Prop :=
  NoDup os.*1 ∧ ∀ p share, (p, share) ∈ os → p ∈ providers ∧ 1 ≤ share ≤ room given p.
Lemma pay_out_ok os : ∀ remaining given remaining' given', within given → fair_offers given os → 0 ≤ remaining →
  pay_out os remaining given = (remaining', given') →
  within given' ∧ 0 ≤ remaining' ≤ remaining ∧ handed_out given' + remaining' = handed_out given + remaining
  ∧ (0 < remaining → os ≠ [] → remaining' < remaining).
Proof.
  induction os as [|[p share] os IH]; intros remaining given remaining' given' Hw Hf Hrem; cbn [pay_out].
  { intros [= <- <-]. split_and!; [done|lia..|done]. }
  destruct (Z.leb_spec remaining 0) as [Hz|Hz]; [intros [= <- <-]; split_and!; [done|lia..]|].
  destruct Hf as [Hnd Hshare]. rewrite fmap_cons, NoDup_cons in Hnd. destruct Hnd as [Hp Hnd].
  destruct (Hshare p share) as [Hpp Hs]; [left|]. set (amount := Z.min share remaining).
  set (given1 := <[p := units_of given p + amount]> given). intros Hpay.
  assert (within given1) as Hw1.
  { split; [unfold given1; rewrite dom_insert_L, (proj1 Hw); apply elem_of_providers, elem_of_dom in Hpp; set_solver|].
    intros q Hq. unfold given1, room. rewrite units_of_insert. destruct (proj2 Hw q Hq). unfold room in *.
    case_decide; [subst q; lia|lia]. }
  assert (fair_offers given1 os) as Hf1.
  { split; [done|]. intros q sh Hq. destruct (Hshare q sh) as [Hqq Hsq]; [by right|]. split; [done|].
    unfold room, given1. rewrite units_of_insert, decide_False; [done|]. intros ->. apply Hp.
    by apply (list_elem_of_fmap_2 fst _ (q, sh)). }
  destruct (IH (remaining - amount) given1 remaining' given' Hw1 Hf1 ltac:(lia) Hpay) as (H1 & H2 & H3 & _).
  assert (handed_out given1 = handed_out given + amount) as E.
  { unfold handed_out. rewrite (Z_sum_one (units_of given) _ p); [|apply providers_nodup|done|].
    - unfold given1. rewrite units_of_insert, decide_True by done. lia.
    - intros q Hq. unfold given1. by rewrite units_of_insert, decide_False. }
  split_and!; [done|lia..].
Qed.
Lemma pay_out_other os : ∀ remaining given remaining' given', pay_out os remaining given = (remaining', given') →
  ∀ p, ¬ (∃ share, (p, share) ∈ os) → units_of given' p = units_of given p.
Proof.
  induction os as [|[q share] os IH]; intros remaining given remaining' given'; cbn [pay_out]; [by intros [= _ <-]|].
  destruct (remaining <=? 0); [by intros [= _ <-]|]. intros Hpay p Hp. rewrite (IH _ _ _ _ Hpay).
  - rewrite units_of_insert, decide_False; [done|]. intros ->. apply Hp. exists share. left.
  - intros (sh & Hin). apply Hp. exists sh. by right.
Qed.
Lemma elem_of_offers remaining given active p share : (p, share) ∈ offers caps demand_ remaining given active →
  p ∈ active ∧ 1 ≤ share ≤ Z.max 0 (units_of caps p - units_of given p).
Proof.
  unfold offers. rewrite list_elem_of_omap. intros (q & Hq & E). case_match; [done|].
  injection E as -> <-. split; [done|]. lia.
Qed.
Lemma offers_fst remaining given active : (offers caps demand_ remaining given active).*1 `sublist_of` active.
Proof.
  unfold offers. set (f := λ p, _). assert (∀ p q s, f p = Some (q, s) → q = p) as Hf.
  { intros p q s. unfold f. case_match; [done|]. by intros [= <- _]. }
  clearbody f. induction active as [|p active IH]; [done|]. cbn [omap list_omap].
  destruct (f p) as [[q s]|] eqn:E; [|by constructor]. rewrite fmap_cons. apply Hf in E as ->. cbn [fst]. by constructor.
Qed.
Lemma offers_fair remaining given active : within given → NoDup active → active ⊆ providers →
  fair_offers given (offers caps demand_ remaining given active).
Proof.
  intros Hw Hnd Hsub. split; [eapply sublist_NoDup; [exact Hnd|apply offers_fst]|].
  intros p share [Hp Hs]%elem_of_offers. split; [by apply Hsub|]. destruct (proj2 Hw p (Hsub p Hp)). unfold room in *. lia.
Qed.
(** A round that offers nothing finds every active provider full. *)
Lemma no_offers_full remaining given active p : within given → active ⊆ providers →
  offers caps demand_ remaining given active = [] → p ∈ active → room given p = 0.
Proof.
  intros Hw Hsub Hn Hp. destruct (proj2 Hw p (Hsub p Hp)) as [H1 H2].
  destruct (Z.leb_spec (Z.max 0 (units_of caps p - units_of given p)) 0) as [Hz|Hz]; [unfold room in *; lia|].
  exfalso. eassert ((p, _) ∈ offers caps demand_ remaining given active) as Hin; [|rewrite Hn in Hin; by apply not_elem_of_nil in Hin].
  unfold offers. apply list_elem_of_omap. exists p. split; [done|].
  destruct (Z.leb_spec (Z.max 0 (units_of caps p - units_of given p)) 0); [lia|reflexivity].
Qed.

(** ** The loop *)
(** A final distribution of [total]: nothing left, or everyone full. *)
Definition distributed (total : Z) (given : gmap string Z) : Prop :=
  within given ∧ (handed_out given = total ∨ handed_out given ≤ total ∧ ∀ p, p ∈ providers → room given p = 0).
Lemma rebalance_loop_ok fuel : ∀ remaining given active total,
  within given → NoDup active → active ⊆ providers → (∀ p, p ∈ providers → p ∉ active → room given p = 0) →
  0 ≤ remaining → handed_out given + remaining = total → (Z.to_nat remaining ≤ fuel)%nat →
  ∃ given', rebalance_loop fuel caps demand_ remaining given active = Some given' ∧ distributed total given'.
Proof.
  induction fuel as [|fuel IH]; intros remaining given active total Hw Hnd Hsub Hfull Hrem Hsum Hfuel.
  { exists given. assert (remaining = 0) as -> by lia. cbn. split; [done|]. split; [done|left; lia]. }
  cbn [rebalance_loop]. destruct (Z.leb_spec remaining 0) as [Hz|Hz]; cbn [orb].
  { exists given. split; [done|]. split; [done|left; lia]. }
  destruct (decide (active = [])) as [->|Hne].
  { exists given. split; [done|]. split; [done|]. right. split; [lia|]. intros p Hp. apply Hfull; set_solver. }
  rewrite bool_decide_eq_false_2 by done.
  pose proof (offers_fair remaining given active Hw Hnd Hsub) as Hf.
  destruct (pay_out _ remaining given) as [remaining' given'] eqn:Epay.
  destruct (pay_out_ok _ _ _ _ _ Hw Hf Hrem Epay) as (Hw' & Hr' & Hsum' & Hprog).
  destruct (decide (offers caps demand_ remaining given active = [])) as [En|En].
  - rewrite En in Epay. injection Epay as <- <-. rewrite Z.sub_diag. cbn [Z.eqb]. exists given. split; [done|].
    split; [done|]. right. split; [lia|]. intros p Hp. destruct (decide (p ∈ active)) as [Ha|Ha]; [|by apply Hfull].
    by eapply no_offers_full.
  - specialize (Hprog Hz En). assert ((remaining - remaining' =? 0) = false) as -> by lia.
    apply IH; [done|..|lia|lia|lia].
    + eapply sublist_NoDup; [exact Hnd|apply filter_sublist].
    + intros p [Hp _]%elem_of_List_filter. by apply Hsub.
    + intros p Hp Hna. destruct (proj2 Hw' p Hp) as [_ Hroom].
      destruct (Z.ltb_spec (units_of given' p) (Z.max 0 (units_of caps p))) as [Hlt|Hge]; [|unfold room in *; lia].
      destruct (decide (p ∈ active)) as [Ha|Ha].
      { exfalso. apply Hna, elem_of_List_filter. split; [done|]. by apply Z.ltb_lt. }
      exfalso. pose proof (Hfull p Hp Ha) as H0. pose proof (pay_out_other _ _ _ _ _ Epay p) as Eu.
      rewrite Eu in Hlt; [unfold room in *; lia|]. intros (share & Hin).
      apply Ha. by apply elem_of_offers in Hin as [Hin _].
Qed.
End envelopes.

(** The distribution of soft envelopes ends within as many rounds as
    there are units to give, gives every configured provider between nothing
    and its cap, and gives out exactly the smaller of the global limit and
    the sum of the caps. *)
Theorem rebalance_hands_out_what_fits global_limit caps demand_ : ∃ given,
  rebalance_provider_soft_envelopes global_limit caps demand_ = Some given ∧ dom given = dom caps
  ∧ (∀ p cap, caps !! p = Some cap → 0 ≤ units_of given p ≤ Z.max 0 cap)
  ∧ Z_sum (units_of given <$> (items caps).*1)
    = Z.min (Z.max 0 global_limit) (Z_sum ((λ p, Z.max 0 (units_of caps p)) <$> (items caps).*1)).
Proof.
  unfold rebalance_provider_soft_envelopes. set (given0 := (λ _, 0) <$> caps). set (total := Z.max 0 global_limit).
  assert (∀ p, units_of given0 p = 0) as H0.
  { intros p. unfold units_of, given0. rewrite lookup_fmap. by destruct (caps !! p). }
  assert (handed_out caps given0 = 0) as Hh.
  { unfold handed_out. generalize (providers caps). intros l. induction l as [|p l IH]; [done|].
    rewrite fmap_cons, H0. cbn [Z_sum foldr]. exact IH. }
  destruct (rebalance_loop_ok caps demand_ (Z.to_nat total) total given0 (providers caps) total) as (given & E & Hw & Hd);
    [|apply providers_nodup|done|done|lia|lia|done|].
  { split; [unfold given0; apply dom_fmap_L|]. intros p _. unfold room. rewrite H0. lia. }
  exists given. split_and!; [exact E|apply Hw| |].
  - intros p cap Hp. destruct (proj2 Hw p) as [H1 H2]; [apply elem_of_providers; eauto|].
    unfold room, units_of at 1 in H2. rewrite Hp in H2. lia.
  - assert (handed_out caps given ≤ Z_sum ((λ p, Z.max 0 (units_of caps p)) <$> providers caps)) as Hle.
    { apply Z_sum_le. intros p Hp. destruct (proj2 Hw p Hp) as [_ H2]. unfold room in H2. lia. }
    fold (providers caps) (handed_out caps given). destruct Hd as [Ht|[Ht Hall]]; [lia|].
    assert (Z_sum ((λ p, Z.max 0 (units_of caps p)) <$> providers caps) ≤ handed_out caps given); [|lia].
    apply Z_sum_le. intros p Hp. specialize (Hall p Hp). unfold room in Hall. lia.
Qed.

(** ** one project's month

    A project with one limit and one quota: a paid request is admitted,
    reserved and settled; free work meets an exhausted limit. *)
Module Scenarios.
Definition ok_or {A} (d : A) (r : result A) : A := match r with Ok a => a | Raise _ => d end.
Definition demo_scope : string := "PROJECT:alpha".
Definition demo_cycle : string := "2026-08".
Definition demo_limit : BudgetLimit :=
  mkLimit (ok_or "" (budget_identifier "LIMIT" [demo_scope; demo_cycle])) ST_PROJECT "alpha" demo_cycle
    1000 (Some 800) 100 None true.
Definition demo_quota_id : string := ok_or "" (budget_identifier "QUOTA" [demo_scope; "acme"; "requests"]).
Definition demo_quota : QuotaLimit := mkQuota demo_quota_id demo_scope "acme" "requests" 10 2 50 true.
Definition demo_store : budget_store := (put_quota_limit demo_quota (put_limit demo_limit empty_budget_store).1).1.
Definition demo_request (paid : bool) (p90 : Z) : BudgetAdmissionRequest :=
  mkRequest "alpha" "T-1" "build" (Some "acme") [demo_scope] p90 p90 {[ demo_quota_id := 3 ]} "P2" "LOW" false false
    paid true None None.
Definition no_decision : BudgetAdmissionDecision := mkDecision "" "" false PM_GREEN 0 false false 0 [] [] 0.
Definition no_spend_lease : SpendLease :=
  mkSpendLease "" "" "" "" None [] 0 0 0 ∅ SL_EXPIRED None [] 0 0 0 false.
Definition demo_key : string := "alpha-T-1".
Definition demo_lid : string := ok_or "" (budget_identifier "LEASE" [demo_key]).
Definition demo_admit := admit_budget default_budget_policy (demo_request true 500) demo_cycle 0 1000 7 demo_store.
Definition demo_admitted : BudgetAdmissionDecision := ok_or no_decision demo_admit.2.
Definition demo_reserve := reserve (demo_request true 500) demo_admitted demo_cycle demo_key default_budget_policy 7 demo_admit.1.
Definition demo_lease : SpendLease := ok_or no_spend_lease demo_reserve.2.
Definition demo_entry (key task : string) (cash : Z) : BudgetLedgerEntry :=
  mkEntry (ok_or "" (budget_identifier "ENTRY" [key])) key "alpha" (Some task) (Some "acme") None None None None
    CC_PROVIDER DEBIT cash 0 {[ demo_quota_id := 3 ]} ∅ [demo_scope] CE_OBSERVED true false false [] 8 8.
Definition demo_settle := settle_lease demo_lid (demo_entry "alpha-T-1-cost" "T-1" 450) 9 demo_reserve.1.

(** The whole of it, admitted, reserved and settled. *)
Example demo_month :
  bd_admitted demo_admitted = true ∧ sp_state demo_lease = SL_RESERVED ∧ reserved_microunits demo_lease = 500
  ∧ (sp_state <$> demo_settle.2) = Ok SL_SETTLED ∧ _cash_totals demo_settle.1 demo_scope = Ok (450, 0)
  ∧ _committed demo_reserve.1 demo_scope 8 = Ok 500 ∧ _committed demo_settle.1 demo_scope 9 = Ok 0.
Proof. vm_compute. by split_and!. Qed.

(** ** The theorems at this month *)
Lemma admitted_work_can_reserve_witness :
  ∃ st c, reserve (demo_request true 500) demo_admitted demo_cycle demo_key default_budget_policy 7 demo_admit.1 = (st, Ok c)
    ∧ sp_state c = SL_RESERVED ∧ reserved_microunits c = 500 ∧ budget_spend_leases st !! demo_lid = Some c.
Proof.
  apply (admitted_work_can_reserve default_budget_policy (demo_request true 500) demo_cycle 0 1000 7 demo_key demo_lid
           demo_store demo_admit.1 demo_admitted).
  1: by vm_compute. 1: done. 1: by vm_compute. 1: by vm_compute. 1: by vm_compute. 1: by vm_compute.
  - apply (bool_decide_eq_true_1 _). by vm_compute.
  - done.
  - done.
  - intros q n Hq. cbn [quota_requirements demo_request] in Hq. apply lookup_singleton_Some in Hq as [_ <-]. done.
  - by vm_compute.
  - by vm_compute.
Defined.
Lemma demo_run : rtc (budget_step demo_cycle) (7, demo_store) (9, demo_settle.1).
Proof.
  apply (rtc_l _ _ (7, demo_admit.1)).
  { eapply B_admit. unfold demo_admit. apply surjective_pairing. }
  apply (rtc_l _ _ (7, demo_reserve.1)).
  { eapply B_reserve; [|unfold demo_reserve; apply surjective_pairing]. by vm_compute. }
  apply (rtc_l _ _ (9, demo_reserve.1)); [by apply B_tick|].
  apply rtc_once. eapply (B_settle _ demo_lid demo_lease).
  4: { unfold demo_settle. apply surjective_pairing. }
  - by vm_compute.
  - by vm_compute.
  - split; [by vm_compute|]. right. split; by vm_compute.
Qed.
Lemma demo_ops : rtc budget_op demo_store demo_reserve.1 ∧ rtc budget_op demo_reserve.1 demo_settle.1.
Proof.
  split.
  - apply (rtc_l _ _ demo_admit.1); [eapply O_admit; unfold demo_admit; apply surjective_pairing|].
    apply rtc_once. eapply O_reserve. unfold demo_reserve. apply surjective_pairing.
  - apply rtc_once. eapply O_settle; [|unfold demo_settle; apply surjective_pairing]. by vm_compute.
Qed.
Lemma spend_lease_lifecycle_witness : ∃ l', budget_spend_leases demo_settle.1 !! demo_lid = Some l'
  ∧ (l' = demo_lease ∨ ∃ s consumed recon now, l' = with_state demo_lease s consumed recon now
       ∧ spend_edge SL_RESERVED s = true).
Proof.
  apply (spend_lease_lifecycle demo_store demo_reserve.1 demo_settle.1 demo_lid demo_lease).
  - split; by vm_compute.
  - apply demo_ops.
  - by vm_compute.
  - apply demo_ops.
Defined.
Lemma settled_leases_are_booked_witness :
  booked (budget_ledger demo_settle.1) (ok_or no_spend_lease demo_settle.2) ∧ sp_state (ok_or no_spend_lease demo_settle.2) = SL_SETTLED.
Proof.
  split; [|by vm_compute].
  apply (settled_leases_are_booked demo_store demo_reserve.1 demo_settle.1 demo_lid).
  - split; by vm_compute.
  - apply demo_ops.
  - apply demo_ops.
  - by vm_compute.
Defined.

(** ** Free work at an exhausted limit *)
(** Unplanned spending takes the limit past its normal cap. *)
Definition exhausted_store : budget_store := (record_ledger (demo_entry "alpha-incident" "T-0" 1200) demo_store).1.
Definition free_admit := admit_budget default_budget_policy (demo_request false 0) demo_cycle 0 1000 7 exhausted_store.
(** Subscription work is admitted under a hard stop, as documented, but its
    reservation is refused by the limit it costs nothing against. *)
Theorem free_work_admitted_then_refused :
  (bd_admitted <$> free_admit.2) = Ok true ∧ (bd_pressure_mode <$> free_admit.2) = Ok PM_HARD_STOP
  ∧ (reserve (demo_request false 0) (ok_or no_decision free_admit.2) demo_cycle demo_key default_budget_policy 7
       free_admit.1).2 = raise ValueError "atomic budget reservation would exceed PROJECT:alpha".
Proof. vm_compute. by split_and!. Qed.

(** ** Settling after the lease ran out *)
(** Once a reservation expires its room is given away; the late settlement
    is still booked and the cap is passed. *)
Definition late : Z := 7 + 3600 * 1000000.
Definition second_admit := admit_budget default_budget_policy (demo_request true 600) demo_cycle 0 1000 late demo_reserve.1.
Definition second_reserve := reserve (demo_request true 600) (ok_or no_decision second_admit.2) demo_cycle "alpha-T-1-retry"
  default_budget_policy late second_admit.1.
Definition late_settle := settle_lease demo_lid (demo_entry "alpha-T-1-cost" "T-1" 500) late second_reserve.1.
Theorem late_settlement_passes_cap :
  is_ok second_reserve.2 = true ∧ is_ok late_settle.2 = true
  ∧ _cash_totals late_settle.1 demo_scope = Ok (500, 0) ∧ _committed late_settle.1 demo_scope late = Ok 600
  ∧ hard_cap_microunits demo_limit = 1000.
Proof. vm_compute. by split_and!. Qed.
End Scenarios.
