(* ===== verification/OrchDomain.v ===== *)
(** * OrchDomain: [domain/orchestration.py], durable workflows

    The records of the durable runtime.  Payloads are JSON values (without
    floats); a record read back from its JSON text runs its validators
    again.  [x ** n] of floats is the C library's [pow], a parameter. *)
From S2P Require Import Prelude PyStd PyRe PyJson Identifiers TaskState ControlDomain SchedulerDomain.
From Stdlib Require Import Ascii SpecFloat.
Local Open Scope Z_scope.

(** ** Identifiers and digests *)
Definition ID_PREFIXES : list (string * string) :=
  [("workflow_definition", "WFDEF"); ("workflow", "WFRUN"); ("event", "WFEVT"); ("wait", "WFWAIT");
   ("checkpoint", "WFCHK"); ("operation", "WFOP"); ("recovery", "WFREC"); ("signal", "WFSIG")].
Definition orchestration_identifier (kind : string) (parts : list string) : result string :=
  match List.find (λ kv, String.eqb kv.1 kind) ID_PREFIXES with
  | None => raise ValueError ("unsupported orchestration identifier kind: " +:+ kind)
  | Some (_, prefix) =>
      _ ← raise_if (negb (existsb (λ p, str_truthy (str_strip p)) parts)) ValueError
            "orchestration identifier requires at least one non-empty part";
      Ok (prefix +:+ "-" +:+ str_upper (str_take 24
            (Sha256.hexdigest (str_join unit_separator (str_strip <$> parts)))))
  end.
Definition canonical_payload_sha256 (j : json) : string := json_fingerprint j.
(** The identifier a record must carry. *)
Definition carries (kind : string) (parts : list string) (i message : string) : result () :=
  expected ← orchestration_identifier kind parts;
  raise_if (negb (String.eqb i expected)) ValueError message.

(** ** States and kinds *)
Inductive DurableBackendKind := DB_LOCAL_REFERENCE | DB_HATCHET | DB_DBOS | DB_TEMPORAL | DB_MOCK.
#[export] Instance DurableBackendKind_eq_dec : EqDecision DurableBackendKind.
Proof. solve_decision. Defined.
Definition DurableBackendKind_value (b : DurableBackendKind) : string :=
  match b with
  | DB_LOCAL_REFERENCE => "LOCAL_REFERENCE" | DB_HATCHET => "HATCHET" | DB_DBOS => "DBOS"
  | DB_TEMPORAL => "TEMPORAL" | DB_MOCK => "MOCK" end.
Inductive WorkflowState :=
  | WS_PENDING | WS_RUNNING | WS_WAITING | WS_RETRY_SCHEDULED | WS_SUSPENDED | WS_RECOVERY_REQUIRED
  | WS_CANCEL_REQUESTED | WS_CANCELLED | WS_SUCCEEDED | WS_FAILED.
#[export] Instance WorkflowState_eq_dec : EqDecision WorkflowState.
Proof. solve_decision. Defined.
Definition WorkflowState_value (s : WorkflowState) : string :=
  match s with
  | WS_PENDING => "PENDING" | WS_RUNNING => "RUNNING" | WS_WAITING => "WAITING"
  | WS_RETRY_SCHEDULED => "RETRY_SCHEDULED" | WS_SUSPENDED => "SUSPENDED"
  | WS_RECOVERY_REQUIRED => "RECOVERY_REQUIRED" | WS_CANCEL_REQUESTED => "CANCEL_REQUESTED"
  | WS_CANCELLED => "CANCELLED" | WS_SUCCEEDED => "SUCCEEDED" | WS_FAILED => "FAILED" end.
Inductive WaitKind := WK_SIGNAL | WK_UNTIL.
#[export] Instance WaitKind_eq_dec : EqDecision WaitKind.
Proof. solve_decision. Defined.
Definition WaitKind_value (k : WaitKind) : string := match k with WK_SIGNAL => "SIGNAL" | WK_UNTIL => "UNTIL" end.
Inductive DurableOperationState :=
  | OS_PENDING | OS_SENT | OS_ACKNOWLEDGED | OS_UNKNOWN_OUTCOME | OS_RECONCILED | OS_FAILED.
#[export] Instance DurableOperationState_eq_dec : EqDecision DurableOperationState.
Proof. solve_decision. Defined.
Inductive RecoveryAction :=
  | RA_NO_ACTION | RA_RETRY_STEP | RA_RESUME_WAIT | RA_MARK_RECOVERY_REQUIRED | RA_RECONCILE_OPERATION
  | RA_RELEASE_STALE_RESOURCES | RA_CANCEL.
#[export] Instance RecoveryAction_eq_dec : EqDecision RecoveryAction.
Proof. solve_decision. Defined.
Definition RecoveryAction_value (a : RecoveryAction) : string :=
  match a with
  | RA_NO_ACTION => "NO_ACTION" | RA_RETRY_STEP => "RETRY_STEP" | RA_RESUME_WAIT => "RESUME_WAIT"
  | RA_MARK_RECOVERY_REQUIRED => "MARK_RECOVERY_REQUIRED" | RA_RECONCILE_OPERATION => "RECONCILE_OPERATION"
  | RA_RELEASE_STALE_RESOURCES => "RELEASE_STALE_RESOURCES" | RA_CANCEL => "CANCEL" end.
#[export] Instance spec_float_eq_dec : EqDecision spec_float.
Proof. solve_decision. Defined.

(** ** Retry policy *)
(** The C library's [pow] with an integral exponent. *)
Class FloatPow := fpow : PyFloat.float → Z → PyFloat.float.

Record RetryPolicy := mkRetryPolicy {
  max_attempts : Z;
  initial_backoff_seconds : PyFloat.float;
  multiplier : PyFloat.float;
  max_backoff_seconds : PyFloat.float;
}.
#[export] Instance RetryPolicy_eq_dec : EqDecision RetryPolicy.
Proof. solve_decision. Defined.
Definition float_between (lo hi : Z) (x : PyFloat.float) : bool :=
  PyFloat.leb (PyFloat.of_Z lo) x && PyFloat.leb x (PyFloat.of_Z hi).
#[export] Instance RetryPolicy_model : Model RetryPolicy := λ p,
  _ ← raise_if (negb ((1 <=? max_attempts p) && (max_attempts p <=? 100))) ValidationError "max_attempts";
  _ ← raise_if (negb (float_between 0 86400 (initial_backoff_seconds p) && float_between 1 100 (multiplier p)
                      && float_between 0 604800 (max_backoff_seconds p))) ValidationError "backoff";
  raise_if (PyFloat.ltb (max_backoff_seconds p) (initial_backoff_seconds p)) ValueError
    "max_backoff_seconds cannot be less than initial_backoff_seconds".
Definition default_retry_policy : RetryPolicy :=
  mkRetryPolicy 3 (PyFloat.of_Z 1) (PyFloat.of_Z 2) (PyFloat.of_Z 60).
Definition backoff_seconds `{FloatPow} (p : RetryPolicy) (failed_attempt : Z) : result PyFloat.float :=
  _ ← raise_if (failed_attempt <? 1) ValueError "failed_attempt must be at least 1";
  let delay := PyFloat.mul (initial_backoff_seconds p) (fpow (multiplier p) (failed_attempt - 1)) in
  Ok (if PyFloat.ltb delay (max_backoff_seconds p) then delay else max_backoff_seconds p).

(** [timedelta(seconds=x)] in microseconds: whole seconds, whole
    microseconds of the rest, and what is left rounded half to even. *)
Definition float_sub : PyFloat.float → PyFloat.float → PyFloat.float := SFsub 53 1024.
Definition timedelta_us (x : PyFloat.float) : result Z :=
  whole ← PyFloat.trunc x;
  let rest := PyFloat.mul (PyFloat.of_Z 1000000) (float_sub x (PyFloat.of_Z whole)) in
  micro ← PyFloat.trunc rest;
  let leftover := float_sub rest (PyFloat.of_Z micro) in
  let us := whole * 1000000 + micro in
  let half := PyFloat.truediv 1 2 in
  let minus_half := PyFloat.truediv (-1) 2 in
  Ok (us + (if PyFloat.ltb half leftover then 1
            else if PyFloat.eqb leftover half then (if Z.odd us then 1 else 0)
            else if PyFloat.ltb leftover minus_half then -1
            else if PyFloat.eqb leftover minus_half then (if Z.odd us then -1 else 0)
            else 0)).

(** ** Definitions *)
Definition is_name_start (c : ascii) : bool := is_alpha c || is_digit c.
Definition is_name_char (c : ascii) : bool :=
  is_name_start c || Ascii.eqb c "." || Ascii.eqb c "_" || Ascii.eqb c ":" || Ascii.eqb c "-".
Definition NAME_PATTERN : re := Cat (Cls is_name_start) (Star (Cls is_name_char)).
Definition TYPE_PATTERN : re := Cat upper (Star (Cls (λ c, is_upper c || is_digit c || Ascii.eqb c "_"))).

Record WorkflowStepDefinition := mkStep {
  step_id : string;
  step_name : string;
  retry_policy : RetryPolicy;
  execution_timeout_seconds : Z;
  schedule_timeout_seconds : Z;
  recoverable : bool;
  requires_checkpoint : bool;
}.
#[export] Instance WorkflowStepDefinition_eq_dec : EqDecision WorkflowStepDefinition.
Proof. solve_decision. Defined.
#[export] Instance WorkflowStepDefinition_model : Model WorkflowStepDefinition := λ s,
  _ ← raise_if (negb (min_length 1 (step_id s) && max_length 160 (step_id s) && fullmatch NAME_PATTERN (step_id s)))
        ValidationError "step_id";
  _ ← raise_if (negb (min_length 1 (step_name s) && max_length 240 (step_name s))) ValidationError "name";
  _ ← validate (retry_policy s);
  raise_if (negb ((1 <=? execution_timeout_seconds s) && (execution_timeout_seconds s <=? 604800)
                  && (1 <=? schedule_timeout_seconds s) && (schedule_timeout_seconds s <=? 2592000)))
    ValidationError "timeout".
Record WorkflowDefinition := mkDefinition {
  definition_id : string;
  workflow_name : string;
  df_version : string;
  steps : list WorkflowStepDefinition;
}.
#[export] Instance WorkflowDefinition_eq_dec : EqDecision WorkflowDefinition.
Proof. solve_decision. Defined.
#[export] Instance WorkflowDefinition_model : Model WorkflowDefinition := λ d,
  _ ← raise_if (negb (min_length 1 (workflow_name d) && max_length 200 (workflow_name d))) ValidationError "workflow_name";
  _ ← raise_if (negb (min_length 1 (df_version d) && max_length 80 (df_version d))) ValidationError "version";
  _ ← for_each validate (steps d);
  _ ← carries "workflow_definition" [workflow_name d; df_version d] (definition_id d)
        "definition_id does not match workflow name/version";
  _ ← raise_if (bool_decide (steps d = [])) ValueError "workflow definition requires at least one step";
  raise_if (has_duplicates (step_id <$> steps d)) ValueError "workflow step identifiers must be unique".

Record WorkflowStartRequest := mkStart {
  sr_definition_id : string;
  sr_idempotency_key : string;
  sr_input_payload : json;
  sr_backend : DurableBackendKind;
}.
#[export] Instance WorkflowStartRequest_model : Model WorkflowStartRequest := λ r,
  raise_if (negb (min_length 1 (sr_idempotency_key r) && max_length 300 (sr_idempotency_key r))) ValidationError
    "idempotency_key".

(** ** Instances *)
Record WorkflowInstance := mkWorkflow {
  wf_workflow_id : string;
  wf_definition_id : string;
  wf_idempotency_key : string;
  wf_state : WorkflowState;
  wf_version : Z;
  wf_backend : DurableBackendKind;
  backend_run_id : option string;
  input_payload : json;
  current_step_index : Z;
  current_attempt : Z;
  assigned_worker_id : option string;
  wf_wait_id : option string;
  last_checkpoint_id : option string;
  retry_available_at_utc : option Z;
  cancel_requested : bool;
  recovery_count : Z;
  failure_code : option string;
  failure_message : option string;
  wf_created_at_utc : Z;
  wf_updated_at_utc : Z;
}.
#[export] Instance WorkflowInstance_eq_dec : EqDecision WorkflowInstance.
Proof. solve_decision. Defined.
#[export] Instance WorkflowInstance_model : Model WorkflowInstance := λ w,
  _ ← raise_if ((wf_version w <? 1) || (current_step_index w <? 0) || (current_attempt w <? 0) || (recovery_count w <? 0))
        ValidationError "greater_than_equal";
  _ ← carries "workflow" [wf_definition_id w; wf_idempotency_key w] (wf_workflow_id w)
        "workflow_id does not match definition/idempotency key";
  _ ← raise_if (wf_updated_at_utc w <? wf_created_at_utc w) ValueError "updated_at_utc cannot precede created_at_utc";
  _ ← raise_if (bool_decide (wf_state w = WS_WAITING) && negb (opt_truthy (wf_wait_id w))) ValueError
        "WAITING workflows require wait_id";
  raise_if (bool_decide (wf_state w = WS_RETRY_SCHEDULED) && bool_decide (retry_available_at_utc w = None)) ValueError
    "RETRY_SCHEDULED workflows require retry_available_at_utc".
(** [==] of two instances. *)
Definition workflow_eqb (a b : WorkflowInstance) : bool :=
  json_eqb (input_payload a) (input_payload b)
  && bool_decide (a = mkWorkflow (wf_workflow_id b) (wf_definition_id b) (wf_idempotency_key b) (wf_state b) (wf_version b)
       (wf_backend b) (backend_run_id b) (input_payload a) (current_step_index b) (current_attempt b)
       (assigned_worker_id b) (wf_wait_id b) (last_checkpoint_id b) (retry_available_at_utc b) (cancel_requested b)
       (recovery_count b) (failure_code b) (failure_message b) (wf_created_at_utc b) (wf_updated_at_utc b)).

Record WorkflowEvent := mkEvent {
  event_id : string;
  ev_workflow_id : string;
  sequence : Z;
  event_type : string;
  ev_occurred_at_utc : Z;
  ev_payload : json;
  correlation_id : option string;
}.
#[export] Instance WorkflowEvent_eq_dec : EqDecision WorkflowEvent.
Proof. solve_decision. Defined.
#[export] Instance WorkflowEvent_model : Model WorkflowEvent := λ e,
  _ ← raise_if (sequence e <? 1) ValidationError "sequence";
  _ ← raise_if (negb (min_length 1 (event_type e) && max_length 100 (event_type e)
                      && fullmatch TYPE_PATTERN (event_type e))) ValidationError "event_type";
  carries "event" [ev_workflow_id e; str_of_Z (sequence e); event_type e] (event_id e)
    "event_id does not match workflow sequence/type".

Record DurableWait := mkWait {
  wt_wait_id : string;
  wt_workflow_id : string;
  wt_kind : WaitKind;
  wt_signal_name : option string;
  release_at_utc : option Z;
  wt_created_at_utc : Z;
  satisfied_at_utc : option Z;
  wt_payload : json;
}.
#[export] Instance DurableWait_eq_dec : EqDecision DurableWait.
Proof. solve_decision. Defined.
Definition or_empty (o : option string) : string := match o with Some s => s | None => "" end.
#[export] Instance DurableWait_model : Model DurableWait := λ w,
  _ ← raise_if (bool_decide (wt_kind w = WK_SIGNAL) && negb (opt_truthy (wt_signal_name w))) ValueError
        "SIGNAL waits require signal_name";
  _ ← raise_if (bool_decide (wt_kind w = WK_UNTIL) && bool_decide (release_at_utc w = None)) ValueError
        "UNTIL waits require release_at_utc";
  carries "wait" [wt_workflow_id w; WaitKind_value (wt_kind w); or_empty (wt_signal_name w);
                  or_empty (isoformat <$> release_at_utc w)] (wt_wait_id w) "wait_id does not match wait semantics".

Record WorkflowCheckpoint := mkCheckpoint {
  checkpoint_id : string;
  ck_workflow_id : string;
  ck_step_id : string;
  ck_attempt : Z;
  ck_payload : json;
  ck_payload_sha256 : string;
  ck_created_at_utc : Z;
}.
#[export] Instance WorkflowCheckpoint_eq_dec : EqDecision WorkflowCheckpoint.
Proof. solve_decision. Defined.
#[export] Instance WorkflowCheckpoint_model : Model WorkflowCheckpoint := λ c,
  _ ← raise_if ((ck_attempt c <? 1) || negb (is_hex64 (ck_payload_sha256 c))) ValidationError "attempt";
  _ ← raise_if (negb (String.eqb (ck_payload_sha256 c) (canonical_payload_sha256 (ck_payload c)))) ValueError
        "checkpoint payload hash mismatch";
  carries "checkpoint" [ck_workflow_id c; ck_step_id c; str_of_Z (ck_attempt c); ck_payload_sha256 c] (checkpoint_id c)
    "checkpoint_id does not match checkpoint content".

Record WorkerHeartbeat := mkHeartbeat {
  hb_worker_id : string;
  fencing_epoch : Z;
  hb_observed_at_utc : Z;
  hb_expires_at_utc : Z;
  hb_capabilities : list string;
  active_workflow_ids : list string;
}.
#[export] Instance WorkerHeartbeat_eq_dec : EqDecision WorkerHeartbeat.
Proof. solve_decision. Defined.
#[export] Instance WorkerHeartbeat_model : Model WorkerHeartbeat := λ h,
  _ ← raise_if (negb (min_length 1 (hb_worker_id h) && max_length 200 (hb_worker_id h))) ValidationError "worker_id";
  _ ← raise_if (fencing_epoch h <? 1) ValidationError "fencing_epoch";
  raise_if (hb_expires_at_utc h <=? hb_observed_at_utc h) ValueError "worker heartbeat expiry must follow observation".

(** ** Operations, recovery, signals *)
Record DurableOperation := mkOperation {
  operation_id : string;
  op_workflow_id : string;
  operation_type : string;
  op_idempotency_key : string;
  op_state : DurableOperationState;
  op_payload : json;
  op_payload_sha256 : string;
  op_backend : DurableBackendKind;
  backend_operation_id : option string;
  attempt_count : Z;
  last_error : option string;
  op_created_at_utc : Z;
  op_updated_at_utc : Z;
}.
#[export] Instance DurableOperation_eq_dec : EqDecision DurableOperation.
Proof. solve_decision. Defined.
#[export] Instance DurableOperation_model : Model DurableOperation := λ o,
  _ ← raise_if (negb (min_length 1 (operation_type o) && max_length 100 (operation_type o)
                      && fullmatch TYPE_PATTERN (operation_type o))) ValidationError "operation_type";
  _ ← raise_if (negb (min_length 1 (op_idempotency_key o) && max_length 300 (op_idempotency_key o))) ValidationError
        "idempotency_key";
  _ ← raise_if (negb (is_hex64 (op_payload_sha256 o)) || (attempt_count o <? 0)) ValidationError "payload_sha256";
  _ ← raise_if (negb (String.eqb (op_payload_sha256 o) (canonical_payload_sha256 (op_payload o)))) ValueError
        "operation payload hash mismatch";
  _ ← carries "operation" [op_workflow_id o; operation_type o; op_idempotency_key o] (operation_id o)
        "operation_id does not match workflow/type/idempotency key";
  raise_if (op_updated_at_utc o <? op_created_at_utc o) ValueError "operation update time cannot precede creation".

Record RecoveryDecision := mkRecovery {
  recovery_id : string;
  rc_workflow_id : string;
  action : RecoveryAction;
  reason_codes : list string;
  rc_created_at_utc : Z;
  rc_worker_id : option string;
  rc_operation_id : option string;
  safe_to_automate : bool;
}.
#[export] Instance RecoveryDecision_model : Model RecoveryDecision := λ r,
  _ ← raise_if (bool_decide (reason_codes r = [])) ValueError "recovery decision requires at least one reason code";
  carries "recovery" [rc_workflow_id r; RecoveryAction_value (action r); str_join "|" (reason_codes r);
                      or_empty (rc_worker_id r); or_empty (rc_operation_id r)] (recovery_id r)
    "recovery_id does not match recovery decision".

Record WorkflowSignal := mkSignal {
  signal_id : string;
  sg_workflow_id : string;
  sg_signal_name : string;
  sg_idempotency_key : string;
  sg_payload : json;
  sg_observed_at_utc : Z;
}.
#[export] Instance WorkflowSignal_model : Model WorkflowSignal := λ s,
  _ ← raise_if (negb (min_length 1 (sg_signal_name s) && max_length 160 (sg_signal_name s)
                      && fullmatch NAME_PATTERN (sg_signal_name s))) ValidationError "signal_name";
  _ ← raise_if (negb (min_length 1 (sg_idempotency_key s) && max_length 300 (sg_idempotency_key s))) ValidationError
        "idempotency_key";
  carries "signal" [sg_workflow_id s; sg_signal_name s; sg_idempotency_key s] (signal_id s)
    "signal_id does not match signal identity".
(** [signal.model_dump(mode="json")]. *)
Definition signal_json (s : WorkflowSignal) : json :=
  JObj [("signal_id", JStr (signal_id s)); ("workflow_id", JStr (sg_workflow_id s));
        ("signal_name", JStr (sg_signal_name s)); ("idempotency_key", JStr (sg_idempotency_key s));
        ("payload", sg_payload s); ("observed_at_utc", json_instant (sg_observed_at_utc s))].

Record BackendMutationReceipt := mkReceipt {
  rp_backend : DurableBackendKind;
  accepted : bool;
  rp_backend_operation_id : option string;
  rp_backend_run_id : option string;
  unknown_outcome : bool;
  rp_detail : string;
}.
Record OrchestrationStatus := mkOrchStatus {
  os_definitions : Z;
  os_workflows : Z;
  os_active_workflows : Z;
  os_waiting_workflows : Z;
  os_recovery_required : Z;
  os_unknown_outcomes : Z;
  os_stale_workers : Z;
}.
