(* ===== verification/OrchStore.v ===== *)
(** * OrchStore: [orchestration/persistence.py]

    [OrchestrationStore] over nine tables.  Every method commits on its own,
    so that a method of the runtime that calls several of them and then
    raises leaves the earlier writes: [orch] is a state monad whose failures
    keep the state.  Rows hold the JSON of their record and are validated
    again when they are read; a written row is not.  Foreign keys are
    enforced.  ISO texts of UTC instants compare as the instants do. *)
From S2P Require Import Prelude PyStd PyRe PyJson Identifiers TaskState ControlDomain SchedulerDomain OrchDomain.
Local Open Scope Z_scope.

(** ** Tables *)
(** A wait: the two columns the queries use, and the record. *)
Record wait_row := mkWaitRow { wr_release : option Z; wr_satisfied : option Z; wr_payload : DurableWait }.
Record inbox_row := mkInbox { in_workflow_id : string; in_type : string; in_sha256 : string; in_payload : json; in_received : Z }.
Record orch_store := mkOrch {
  o_definitions : gmap string WorkflowDefinition;
  o_workflows : gmap string WorkflowInstance;
  o_events : list WorkflowEvent;
  o_checkpoints : gmap string WorkflowCheckpoint;
  o_waits : gmap string wait_row;
  o_workers : gmap string WorkerHeartbeat;
  o_inbox : gmap string inbox_row;
  o_outbox : gmap string DurableOperation;
  o_recoveries : gmap string RecoveryDecision;
}.
Definition empty_orch : orch_store := mkOrch ∅ ∅ [] ∅ ∅ ∅ ∅ ∅ ∅.
Definition set_definitions m (st : orch_store) : orch_store :=
  mkOrch m (o_workflows st) (o_events st) (o_checkpoints st) (o_waits st) (o_workers st) (o_inbox st) (o_outbox st) (o_recoveries st).
Definition set_workflows m (st : orch_store) : orch_store :=
  mkOrch (o_definitions st) m (o_events st) (o_checkpoints st) (o_waits st) (o_workers st) (o_inbox st) (o_outbox st) (o_recoveries st).
Definition set_events l (st : orch_store) : orch_store :=
  mkOrch (o_definitions st) (o_workflows st) l (o_checkpoints st) (o_waits st) (o_workers st) (o_inbox st) (o_outbox st) (o_recoveries st).
Definition set_checkpoints m (st : orch_store) : orch_store :=
  mkOrch (o_definitions st) (o_workflows st) (o_events st) m (o_waits st) (o_workers st) (o_inbox st) (o_outbox st) (o_recoveries st).
Definition set_waits m (st : orch_store) : orch_store :=
  mkOrch (o_definitions st) (o_workflows st) (o_events st) (o_checkpoints st) m (o_workers st) (o_inbox st) (o_outbox st) (o_recoveries st).
Definition set_workers m (st : orch_store) : orch_store :=
  mkOrch (o_definitions st) (o_workflows st) (o_events st) (o_checkpoints st) (o_waits st) m (o_inbox st) (o_outbox st) (o_recoveries st).
Definition set_inbox m (st : orch_store) : orch_store :=
  mkOrch (o_definitions st) (o_workflows st) (o_events st) (o_checkpoints st) (o_waits st) (o_workers st) m (o_outbox st) (o_recoveries st).
Definition set_outbox m (st : orch_store) : orch_store :=
  mkOrch (o_definitions st) (o_workflows st) (o_events st) (o_checkpoints st) (o_waits st) (o_workers st) (o_inbox st) m (o_recoveries st).
Definition set_recoveries m (st : orch_store) : orch_store :=
  mkOrch (o_definitions st) (o_workflows st) (o_events st) (o_checkpoints st) (o_waits st) (o_workers st) (o_inbox st) (o_outbox st) m.

(** ** The monad *)
Definition orch (A : Type) : Type := orch_store → orch_store * result A.
#[export] Instance orch_ret : MRet orch := λ A a st, (st, Ok a).
#[export] Instance orch_bind : MBind orch := λ A B f m st,
  match m st with (st', Ok a) => f a st' | (st', Raise e) => (st', Raise e) end.
Definition from_result {A} (r : result A) : orch A := λ st, (st, r).
Definition reads {A} (f : orch_store → result A) : orch A := λ st, (st, f st).
Definition writes (f : orch_store → orch_store) : orch () := λ st, (f st, Ok ()).
Definition oraise {A} (c : exn_class) (m : string) : orch A := from_result (raise c m).
Definition oraise_if (b : bool) (c : exn_class) (m : string) : orch () := from_result (raise_if b c m).
(** A transaction: the whole effect, or none and the exception. *)
Definition atomic {A} (f : orch_store → result (orch_store * A)) : orch A := λ st,
  match f st with Ok (st', a) => (st', Ok a) | Raise e => (st, Raise e) end.
Fixpoint ofor_each {A B} (f : A → orch B) (l : list A) : orch (list B) :=
  match l with
  | [] => mret []
  | x :: l => y ← f x; ys ← ofor_each f l; mret (y :: ys)
  end.

Definition workflow_exists (st : orch_store) (wid : string) : bool := bool_decide (o_workflows st !! wid ≠ None).
Definition foreign_key (st : orch_store) (wid : string) : result () :=
  raise_if (negb (workflow_exists st wid)) IntegrityError "FOREIGN KEY constraint failed".

(** ** Definitions *)
Definition register_definition_row (d : WorkflowDefinition) : orch WorkflowDefinition := λ st,
  let taken := bool_decide (o_definitions st !! definition_id d ≠ None)
               || existsb (λ d', String.eqb (workflow_name d') (workflow_name d) && String.eqb (df_version d') (df_version d))
                    (snd <$> map_to_list (o_definitions st)) in
  let st' := if taken then st else set_definitions (<[definition_id d := d]> (o_definitions st)) st in
  (st', if bool_decide (o_definitions st' !! definition_id d = Some d) then Ok d
        else raise OrchestrationConflictError "workflow definition identity collision").
Definition read_row {A} `{Model A} (o : option A) : result (option A) :=
  match o with None => Ok None | Some row => r ← new row; Ok (Some r) end.
Definition get_definition (did : string) : orch (option WorkflowDefinition) :=
  reads (λ st, read_row (o_definitions st !! did)).

(** ** Workflows *)
Definition get_workflow (wid : string) : orch (option WorkflowInstance) :=
  reads (λ st, read_row (o_workflows st !! wid)).
Definition same_key (did key : string) (w : WorkflowInstance) : bool :=
  String.eqb (wf_definition_id w) did && String.eqb (wf_idempotency_key w) key.
Definition find_workflow_by_idempotency (did key : string) : orch (option WorkflowInstance) :=
  reads (λ st, read_row (List.find (same_key did key) (snd <$> map_to_list (o_workflows st)))).
Definition create_workflow (w : WorkflowInstance) : orch WorkflowInstance := λ st,
  if workflow_exists st (wf_workflow_id w)
     || existsb (same_key (wf_definition_id w) (wf_idempotency_key w)) (snd <$> map_to_list (o_workflows st))
     || bool_decide (o_definitions st !! wf_definition_id w = None)
  then (st, existing ← read_row (o_workflows st !! wf_workflow_id w);
            match (existing : option WorkflowInstance) with
            | Some x => if workflow_eqb x w then Ok x
                        else raise OrchestrationConflictError "workflow identity or idempotency collision"
            | None => raise OrchestrationConflictError "workflow identity or idempotency collision"
            end)
  else (set_workflows (<[wf_workflow_id w := w]> (o_workflows st)) st, Ok w).
Definition update_workflow (w : WorkflowInstance) (expected_version : Z) : orch WorkflowInstance :=
  _ ← oraise_if (negb (wf_version w =? expected_version + 1)) ValueError
        "updated workflow version must increment by exactly one";
  atomic (λ st, match o_workflows st !! wf_workflow_id w with
    | Some row =>
        _ ← raise_if (negb (wf_version row =? expected_version)) OrchestrationConflictError
              "workflow optimistic concurrency conflict";
        Ok (set_workflows (<[wf_workflow_id w := w]> (o_workflows st)) st, w)
    | None => raise OrchestrationConflictError "workflow optimistic concurrency conflict"
    end).

(** ** Events *)
Definition events_of (st : orch_store) (wid : string) : list WorkflowEvent :=
  List.filter (λ e, String.eqb (ev_workflow_id e) wid) (o_events st).
(** [COALESCE(MAX(sequence), 0) + 1]. *)
Definition next_event_sequence (wid : string) : orch Z :=
  reads (λ st, Ok (match sequence <$> events_of st wid with [] => 0 | n :: l => foldl Z.max n l end + 1)).
Definition append_event (e : WorkflowEvent) : orch WorkflowEvent :=
  atomic (λ st,
    let clash := existsb (λ e', String.eqb (event_id e') (event_id e)
                                || (String.eqb (ev_workflow_id e') (ev_workflow_id e) && (sequence e' =? sequence e)))
                   (o_events st) in
    if clash || negb (workflow_exists st (ev_workflow_id e)) then
      match List.find (λ e', String.eqb (event_id e') (event_id e)) (o_events st) with
      | Some row => if bool_decide (row = e) then Ok (st, e)
                    else raise OrchestrationConflictError "workflow event sequence or identity collision"
      | None => raise OrchestrationConflictError "workflow event sequence or identity collision"
      end
    else Ok (set_events (o_events st ++ [e]) st, e)).
Definition events (wid : string) : orch (list WorkflowEvent) :=
  reads (λ st, traverse new (sorted_by sequence (events_of st wid))).

(** ** Checkpoints *)
Definition save_checkpoint (c : WorkflowCheckpoint) : orch WorkflowCheckpoint :=
  _ ← reads (λ st, match o_checkpoints st !! checkpoint_id c with
                   | Some _ => Ok () | None => foreign_key st (ck_workflow_id c) end);
  _ ← writes (λ st, match o_checkpoints st !! checkpoint_id c with
                    | Some _ => st | None => set_checkpoints (<[checkpoint_id c := c]> (o_checkpoints st)) st end);
  _ ← reads (λ st, raise_if (negb (bool_decide (o_checkpoints st !! checkpoint_id c = Some c)))
                     OrchestrationConflictError "checkpoint identity collision");
  mret c.
(** The last by instant, then by identifier. *)
Definition latest_checkpoint (wid : string) : orch (option WorkflowCheckpoint) :=
  reads (λ st, read_row (max_by (λ c, (ck_created_at_utc c, checkpoint_id c))
                 (List.filter (λ c, String.eqb (ck_workflow_id c) wid) (snd <$> map_to_list (o_checkpoints st))))).

(** ** Waits *)
Definition save_wait (w : DurableWait) : orch DurableWait :=
  atomic (λ st, match o_waits st !! wt_wait_id w with
    | Some row => Ok (set_waits (<[wt_wait_id w := mkWaitRow (wr_release row) (satisfied_at_utc w) w]> (o_waits st)) st, w)
    | None => _ ← foreign_key st (wt_workflow_id w);
              Ok (set_waits (<[wt_wait_id w := mkWaitRow (release_at_utc w) (satisfied_at_utc w) w]> (o_waits st)) st, w)
    end).
Definition get_wait (wid : string) : orch (option DurableWait) :=
  reads (λ st, read_row (wr_payload <$> o_waits st !! wid)).
Definition wait_due (now : Z) (r : wait_row) : bool :=
  bool_decide (wr_satisfied r = None) && match wr_release r with Some t => t <=? now | None => false end.
Definition due_waits (now : Z) : orch (list DurableWait) :=
  reads (λ st, traverse new ((λ kv, wr_payload kv.2) <$>
           sorted_by (λ kv, (default 0 (wr_release kv.2), kv.1))
             (List.filter (λ kv, wait_due now kv.2) (map_to_list (o_waits st))))).

(** ** Workers *)
Definition save_worker_heartbeat (h : WorkerHeartbeat) : orch WorkerHeartbeat :=
  _ ← reads (λ st, raise_if (match o_workers st !! hb_worker_id h with
                             | Some row => fencing_epoch h <? fencing_epoch row | None => false end)
                     OrchestrationConflictError "stale worker fencing epoch");
  _ ← writes (λ st, set_workers (<[hb_worker_id h := h]> (o_workers st)) st);
  mret h.
Definition worker (wid : string) : orch (option WorkerHeartbeat) := reads (λ st, read_row (o_workers st !! wid)).
Definition stale_workers (now : Z) : orch (list WorkerHeartbeat) :=
  reads (λ st, traverse new (sorted_by (λ h, (hb_expires_at_utc h, hb_worker_id h))
                 (List.filter (λ h, hb_expires_at_utc h <=? now) (snd <$> map_to_list (o_workers st))))).
Definition workflows_for_worker (wid : string) : orch (list WorkflowInstance) :=
  reads (λ st, traverse new (sorted_by wf_workflow_id
           (List.filter (λ w, bool_decide (assigned_worker_id w = Some wid)
                              && bool_decide (wf_state w ∈ [WS_RUNNING; WS_WAITING; WS_RETRY_SCHEDULED; WS_CANCEL_REQUESTED]))
              (snd <$> map_to_list (o_workflows st))))).
Definition workflows_in_states (states : list WorkflowState) : orch (list WorkflowInstance) :=
  reads (λ st, traverse new (sorted_by wf_workflow_id
           (List.filter (λ w, bool_decide (wf_state w ∈ states)) (snd <$> map_to_list (o_workflows st))))).

(** ** Inbox, outbox, recovery *)
(** Whether the message is new. *)
Definition record_inbox (mid wid type : string) (payload : json) (received : Z) : orch bool :=
  atomic (λ st, match o_inbox st !! mid with
    | Some row => _ ← raise_if (negb (String.eqb (in_sha256 row) (canonical_payload_sha256 payload)))
                        OrchestrationConflictError "inbox message identity collision";
                  Ok (st, false)
    | None => _ ← foreign_key st wid;
              Ok (set_inbox (<[mid := mkInbox wid type (canonical_payload_sha256 payload) payload received]> (o_inbox st)) st, true)
    end).
Definition save_operation (o : DurableOperation) : orch DurableOperation :=
  atomic (λ st, match o_outbox st !! operation_id o with
    | Some _ => Ok (set_outbox (<[operation_id o := o]> (o_outbox st)) st, o)
    | None =>
        _ ← foreign_key st (op_workflow_id o);
        _ ← raise_if (existsb (λ o', String.eqb (op_workflow_id o') (op_workflow_id o)
                                     && String.eqb (operation_type o') (operation_type o)
                                     && String.eqb (op_idempotency_key o') (op_idempotency_key o))
                        (snd <$> map_to_list (o_outbox st))) IntegrityError "UNIQUE constraint failed: orchestration_outbox";
        Ok (set_outbox (<[operation_id o := o]> (o_outbox st)) st, o)
    end).
Definition get_operation (oid : string) : orch (option DurableOperation) := reads (λ st, read_row (o_outbox st !! oid)).
Definition operations_by_state (s : DurableOperationState) : orch (list DurableOperation) :=
  reads (λ st, traverse new (sorted_by (λ o, (op_created_at_utc o, operation_id o))
                 (List.filter (λ o, bool_decide (op_state o = s)) (snd <$> map_to_list (o_outbox st))))).
(** [INSERT OR IGNORE]: the first decision under an identifier stays. *)
Definition save_recovery_decision (r : RecoveryDecision) : orch RecoveryDecision :=
  atomic (λ st, match o_recoveries st !! recovery_id r with
    | Some _ => Ok (st, r)
    | None => _ ← foreign_key st (rc_workflow_id r);
              Ok (set_recoveries (<[recovery_id r := r]> (o_recoveries st)) st, r)
    end).
Definition recovery_decisions (wid : string) : orch (list RecoveryDecision) :=
  reads (λ st, traverse new (sorted_by (λ r, (rc_created_at_utc r, recovery_id r))
                 (List.filter (λ r, String.eqb (rc_workflow_id r) wid) (snd <$> map_to_list (o_recoveries st))))).
Definition orch_status (now : Z) : orch OrchestrationStatus :=
  reads (λ st,
    let ws := snd <$> map_to_list (o_workflows st) in
    let in_states l := count_if (λ w, bool_decide (wf_state w ∈ l)) ws in
    Ok (mkOrchStatus (Z.of_nat (size (o_definitions st))) (Z.of_nat (size (o_workflows st)))
          (in_states [WS_PENDING; WS_RUNNING; WS_WAITING; WS_RETRY_SCHEDULED; WS_SUSPENDED; WS_RECOVERY_REQUIRED; WS_CANCEL_REQUESTED])
          (in_states [WS_WAITING]) (in_states [WS_RECOVERY_REQUIRED])
          (count_if (λ o, bool_decide (op_state o = OS_UNKNOWN_OUTCOME)) (snd <$> map_to_list (o_outbox st)))
          (count_if (λ h, hb_expires_at_utc h <=? now) (snd <$> map_to_list (o_workers st))))).
