(* ===== verification/OrchRuntime.v ===== *)
(** * OrchRuntime: [orchestration/runtime.py], the local durable runtime

    [LocalDurableRuntime]: each command reads the workflow, checks its state,
    writes the changed row against the version it read and appends an event.
    Instants are an argument, as the callers of the runtime pass them. *)
From S2P Require Import Prelude PyStd PyRe PyJson Identifiers TaskState ControlDomain SchedulerDomain OrchDomain OrchStore.
Local Open Scope Z_scope.

Section runtime.
Context `{FloatPow}.

(** The field updates of [model_copy]. *)
Record wf_update := mkUpdate {
  u_state : WorkflowState; u_index : Z; u_attempt : Z; u_worker : option string; u_wait : option string;
  u_checkpoint : option string; u_retry : option Z; u_cancel : bool; u_recoveries : Z;
  u_code : option string; u_message : option string; u_run : option string }.
Definition keep (w : WorkflowInstance) : wf_update :=
  mkUpdate (wf_state w) (current_step_index w) (current_attempt w) (assigned_worker_id w) (wf_wait_id w)
    (last_checkpoint_id w) (retry_available_at_utc w) (cancel_requested w) (recovery_count w) (failure_code w)
    (failure_message w) (backend_run_id w).
(** The next version of a row. *)
Definition next_row (w : WorkflowInstance) (u : wf_update) (now : Z) : WorkflowInstance :=
  mkWorkflow (wf_workflow_id w) (wf_definition_id w) (wf_idempotency_key w) (u_state u) (wf_version w + 1)
    (wf_backend w) (u_run u) (input_payload w) (u_index u) (u_attempt u) (u_worker u) (u_wait u) (u_checkpoint u)
    (u_retry u) (u_cancel u) (u_recoveries u) (u_code u) (u_message u) (wf_created_at_utc w) now.

Definition register_definition (d : WorkflowDefinition) : orch WorkflowDefinition := register_definition_row d.
Definition _event (wid type : string) (now : Z) (payload : json) (correlation : option string) : orch WorkflowEvent :=
  n ← next_event_sequence wid;
  eid ← from_result (orchestration_identifier "event" [wid; str_of_Z n; type]);
  e ← from_result (new (mkEvent eid wid n type now payload correlation));
  append_event e.

Definition start (r : WorkflowStartRequest) (now : Z) : orch WorkflowInstance :=
  d ← get_definition (sr_definition_id r);
  match (d : option WorkflowDefinition) with
  | None => oraise KeyError ("unknown workflow definition: " +:+ sr_definition_id r)
  | Some d =>
      existing ← find_workflow_by_idempotency (sr_definition_id r) (sr_idempotency_key r);
      match (existing : option WorkflowInstance) with
      | Some w =>
          _ ← oraise_if (negb (json_eqb (input_payload w) (sr_input_payload r)) || negb (bool_decide (wf_backend w = sr_backend r)))
                WorkflowStateError "workflow idempotency key was reused with different input/backend";
          mret w
      | None =>
          wid ← from_result (orchestration_identifier "workflow" [sr_definition_id r; sr_idempotency_key r]);
          w ← from_result (new (mkWorkflow wid (sr_definition_id r) (sr_idempotency_key r) WS_RUNNING 1 (sr_backend r) None
                 (sr_input_payload r) 0 1 None None None None false 0 None None now now));
          _ ← create_workflow w;
          _ ← _event (wf_workflow_id w) "WORKFLOW_STARTED" now
                (JObj [("definition_id", JStr (definition_id d)); ("backend", JStr (DurableBackendKind_value (sr_backend r)))])
                (Some (sr_idempotency_key r));
          mret w
      end
  end.
Definition query (wid : string) : orch WorkflowInstance :=
  o ← get_workflow wid;
  match (o : option WorkflowInstance) with
  | Some w => mret w | None => oraise KeyError ("unknown workflow: " +:+ wid) end.
Definition step_at (d : WorkflowDefinition) (i : Z) : option WorkflowStepDefinition :=
  if Z.of_nat (length (steps d)) <=? i then None else steps d !! Z.to_nat i.
Definition current_step (wid : string) : orch (option WorkflowStepDefinition) :=
  w ← query wid;
  o ← get_definition (wf_definition_id w);
  match (o : option WorkflowDefinition) with
  | None => oraise KeyError ("workflow definition disappeared: " +:+ wf_definition_id w)
  | Some d => mret (step_at d (current_step_index w))
  end.

Definition assign_worker (wid worker_id : string) (epoch now : Z) : orch WorkflowInstance :=
  w ← query wid;
  _ ← oraise_if (negb (bool_decide (wf_state w ∈ [WS_RUNNING; WS_RETRY_SCHEDULED]))) WorkflowStateError
        ("cannot assign worker while workflow is " +:+ WorkflowState_value (wf_state w));
  _ ← oraise_if (bool_decide (wf_state w = WS_RETRY_SCHEDULED)
                 && match retry_available_at_utc w with None => true | Some t => now <? t end)
        WorkflowStateError "retry is not due";
  h ← worker worker_id;
  match (h : option WorkerHeartbeat) with
  | None => oraise WorkflowStateError "worker has no current heartbeat"
  | Some h =>
      _ ← oraise_if (hb_expires_at_utc h <=? now) WorkflowStateError "worker has no current heartbeat";
      _ ← oraise_if (negb (fencing_epoch h =? epoch)) WorkflowStateError "worker fencing epoch mismatch";
      let attempt := if bool_decide (wf_state w = WS_RETRY_SCHEDULED) then current_attempt w + 1 else current_attempt w in
      let k := keep w in
      let w' := next_row w (mkUpdate WS_RUNNING (u_index k) attempt (Some worker_id) (u_wait k) (u_checkpoint k) None
                  (u_cancel k) (u_recoveries k) (u_code k) (u_message k) (u_run k)) now in
      _ ← update_workflow w' (wf_version w);
      _ ← _event wid "STEP_ASSIGNED" now
            (JObj [("worker_id", JStr worker_id); ("fencing_epoch", JInt epoch); ("attempt", JInt attempt)]) None;
      mret w'
  end.

(** The claim a checkpoint may make about further work. *)
Definition checkpoint_claim (payload : list (string * json)) : result () :=
  match obj_get "no_additional_action_needed" payload, obj_get "eligible_unrelated_lanes" payload with
  | Some idle, Some lanes =>
      (** [tuple(lanes or ())] of a true number is a [TypeError]. *)
      _ ← raise_if (json_truthy lanes && match lanes with JBool _ | JInt _ => true | _ => false end) TypeError
            "object is not iterable";
      raise_if (json_truthy idle && json_truthy lanes) WorkflowStateError
        "checkpoint cannot assert no additional action while eligible unrelated lanes exist"
  | _, _ => Ok ()
  end.
Definition checkpoint (wid : string) (payload : list (string * json)) (now : Z) : orch WorkflowCheckpoint :=
  w ← query wid;
  s ← current_step wid;
  match (s : option WorkflowStepDefinition) with
  | None => oraise WorkflowStateError "completed workflow has no step to checkpoint"
  | Some s =>
      _ ← oraise_if (negb (bool_decide (wf_state w = WS_RUNNING))) WorkflowStateError "checkpoints require a RUNNING workflow";
      _ ← from_result (checkpoint_claim payload);
      let digest := canonical_payload_sha256 (JObj payload) in
      cid ← from_result (orchestration_identifier "checkpoint" [wid; step_id s; str_of_Z (current_attempt w); digest]);
      c ← from_result (new (mkCheckpoint cid wid (step_id s) (current_attempt w) (JObj payload) digest now));
      _ ← save_checkpoint c;
      let k := keep w in
      let w' := next_row w (mkUpdate (u_state k) (u_index k) (u_attempt k) (u_worker k) (u_wait k) (Some cid) (u_retry k)
                  (u_cancel k) (u_recoveries k) (u_code k) (u_message k) (u_run k)) now in
      _ ← update_workflow w' (wf_version w);
      _ ← _event wid "CHECKPOINT_SAVED" now (JObj [("checkpoint_id", JStr cid); ("payload_sha256", JStr digest)]) None;
      mret c
  end.

(** The checkpoint a step that requires one must have. *)
Definition checkpointed (w : WorkflowInstance) (s : WorkflowStepDefinition) (c : option WorkflowCheckpoint) : bool :=
  match c with
  | None => false
  | Some c => String.eqb (ck_step_id c) (step_id s) && (ck_attempt c =? current_attempt w)
  end.
Definition complete_step (wid : string) (result_ : json) (now : Z) : orch WorkflowInstance :=
  w ← query wid;
  _ ← oraise_if (negb (bool_decide (wf_state w = WS_RUNNING))) WorkflowStateError "step completion requires a RUNNING workflow";
  o ← get_definition (wf_definition_id w);
  match (d ← (o : option WorkflowDefinition); s ← step_at d (current_step_index w); Some (d, s)) with
  | None => oraise WorkflowStateError "workflow has no current step"
  | Some (d, s) =>
      _ ← (if requires_checkpoint s then
             c ← latest_checkpoint wid;
             oraise_if (negb (checkpointed w s c)) WorkflowStateError "step requires a checkpoint from the current attempt"
           else mret ());
      let is_last := current_step_index w =? Z.of_nat (length (steps d)) - 1 in
      let k := keep w in
      let w' := next_row w (mkUpdate (if is_last then WS_SUCCEEDED else WS_RUNNING) (u_index k + 1) (if is_last then 0 else 1)
                  None None (u_checkpoint k) (u_retry k) (u_cancel k) (u_recoveries k) None None (u_run k)) now in
      _ ← update_workflow w' (wf_version w);
      _ ← _event wid (if is_last then "WORKFLOW_SUCCEEDED" else "STEP_SUCCEEDED") now
            (JObj [("step_id", JStr (step_id s)); ("attempt", JInt (current_attempt w)); ("result", if json_truthy result_ then result_ else JObj [])]) None;
      mret w'
  end.

(** When the next attempt may start, if there is one. *)
Definition retry_time (w : WorkflowInstance) (s : WorkflowStepDefinition) (retryable : bool) (now : Z) : result (option Z) :=
  if retryable && recoverable s && (current_attempt w <? max_attempts (retry_policy s)) then
    backoff ← backoff_seconds (retry_policy s) (current_attempt w);
    us ← timedelta_us backoff;
    Ok (Some (now + us))
  else Ok None.
Definition fail_step (wid code message : string) (retryable : bool) (now : Z) : orch WorkflowInstance :=
  w ← query wid;
  _ ← oraise_if (negb (bool_decide (wf_state w = WS_RUNNING))) WorkflowStateError "step failure requires a RUNNING workflow";
  s ← current_step wid;
  match (s : option WorkflowStepDefinition) with
  | None => oraise WorkflowStateError "workflow has no current step"
  | Some s =>
      retry_at ← from_result (retry_time w s retryable now);
      let k := keep w in
      let w' := next_row w (mkUpdate (if bool_decide (retry_at = None) then WS_FAILED else WS_RETRY_SCHEDULED) (u_index k)
                  (u_attempt k) None (u_wait k) (u_checkpoint k) retry_at (u_cancel k) (u_recoveries k) (Some code)
                  (Some message) (u_run k)) now in
      _ ← update_workflow w' (wf_version w);
      _ ← _event wid (if bool_decide (retry_at = None) then "STEP_FAILED" else "STEP_RETRY_SCHEDULED") now
            (JObj [("step_id", JStr (step_id s)); ("attempt", JInt (current_attempt w)); ("failure_code", JStr code);
                   ("retry_available_at_utc", JOptStr (isoformat <$> retry_at))]) None;
      mret w'
  end.

(** ** Waits *)
Definition begin_wait (w : WorkflowInstance) (wait : DurableWait) (payload : json) (now : Z) : orch DurableWait :=
  _ ← save_wait wait;
  let k := keep w in
  let w' := next_row w (mkUpdate WS_WAITING (u_index k) (u_attempt k) None (Some (wt_wait_id wait)) (u_checkpoint k) (u_retry k)
              (u_cancel k) (u_recoveries k) (u_code k) (u_message k) (u_run k)) now in
  _ ← update_workflow w' (wf_version w);
  _ ← _event (wf_workflow_id w) "WAIT_STARTED" now payload None;
  mret wait.
Definition wait_for_signal (wid signal_name : string) (now : Z) : orch DurableWait :=
  w ← query wid;
  _ ← oraise_if (negb (bool_decide (wf_state w = WS_RUNNING))) WorkflowStateError "signal wait requires a RUNNING workflow";
  i ← from_result (orchestration_identifier "wait" [wid; WaitKind_value WK_SIGNAL; signal_name; ""]);
  wait ← from_result (new (mkWait i wid WK_SIGNAL (Some signal_name) None now None (JObj [])));
  begin_wait w wait (JObj [("wait_id", JStr i); ("signal", JStr signal_name)]) now.
Definition wait_until (wid : string) (release now : Z) : orch DurableWait :=
  _ ← oraise_if (release <=? now) ValueError "release_at_utc must be in the future";
  w ← query wid;
  _ ← oraise_if (negb (bool_decide (wf_state w = WS_RUNNING))) WorkflowStateError "timer wait requires a RUNNING workflow";
  i ← from_result (orchestration_identifier "wait" [wid; WaitKind_value WK_UNTIL; ""; isoformat release]);
  wait ← from_result (new (mkWait i wid WK_UNTIL None (Some release) now None (JObj [])));
  begin_wait w wait (JObj [("wait_id", JStr i); ("release_at_utc", JStr (isoformat release))]) now.
(** The wait is over: its row, the workflow and the event. *)
Definition satisfy (w : WorkflowInstance) (wait : DurableWait) (payload : json) (now : Z) : orch WorkflowInstance :=
  _ ← save_wait (mkWait (wt_wait_id wait) (wt_workflow_id wait) (wt_kind wait) (wt_signal_name wait) (release_at_utc wait)
        (wt_created_at_utc wait) (Some now) payload);
  let k := keep w in
  let w' := next_row w (mkUpdate WS_RUNNING (u_index k) (u_attempt k) (u_worker k) None (u_checkpoint k) (u_retry k)
              (u_cancel k) (u_recoveries k) (u_code k) (u_message k) (u_run k)) now in
  _ ← update_workflow w' (wf_version w);
  _ ← _event (wf_workflow_id w) "WAIT_SATISFIED" now (JObj [("wait_id", JStr (wt_wait_id wait))]) None;
  mret w'.
Definition signal (s : WorkflowSignal) (now : Z) : orch WorkflowInstance :=
  w ← query (sg_workflow_id s);
  first_delivery ← record_inbox (signal_id s) (sg_workflow_id s) "SIGNAL" (signal_json s) now;
  if negb first_delivery then mret w
  else
    _ ← _event (sg_workflow_id s) "SIGNAL_RECEIVED" now
          (JObj [("signal_id", JStr (signal_id s)); ("signal_name", JStr (sg_signal_name s))]) (Some (sg_idempotency_key s));
    match wf_state w, wf_wait_id w with
    | WS_WAITING, Some wait_id_ =>
        if negb (str_truthy wait_id_) then mret w
        else
          o ← get_wait wait_id_;
          match (o : option DurableWait) with
          | Some wait =>
              if bool_decide (wt_kind wait = WK_SIGNAL) && bool_decide (wt_signal_name wait = Some (sg_signal_name s))
              then satisfy w wait (sg_payload s) now
              else mret w
          | None => mret w
          end
    | _, _ => mret w
    end.
(** One due wait: released, or skipped when its workflow waits for something else. *)
Definition release_wait (now : Z) (wait : DurableWait) : orch (option WorkflowInstance) :=
  w ← query (wt_workflow_id wait);
  if negb (bool_decide (wf_state w = WS_WAITING)) || negb (bool_decide (wf_wait_id w = Some (wt_wait_id wait)))
  then mret None
  else (w' ← satisfy w wait (wt_payload wait) now; mret (Some w')).
Definition release_due_waits (now : Z) : orch (list WorkflowInstance) :=
  ws ← due_waits now;
  rs ← ofor_each (release_wait now) ws;
  mret (somes rs).
Definition due_retries (now : Z) : orch (list WorkflowInstance) :=
  ws ← workflows_in_states [WS_RETRY_SCHEDULED];
  mret (List.filter (λ w, match retry_available_at_utc w with Some t => t <=? now | None => false end) ws).

(** ** Cancelling, suspending, resuming *)
Definition terminal (s : WorkflowState) : bool := bool_decide (s ∈ [WS_SUCCEEDED; WS_FAILED; WS_CANCELLED]).
Definition cancel (wid : string) (now : Z) : orch WorkflowInstance :=
  w ← query wid;
  if terminal (wf_state w) then mret w
  else
    let k := keep w in
    let w' := next_row w (mkUpdate WS_CANCELLED (u_index k) (u_attempt k) None (u_wait k) (u_checkpoint k) (u_retry k)
                true (u_recoveries k) (u_code k) (u_message k) (u_run k)) now in
    _ ← update_workflow w' (wf_version w);
    _ ← _event wid "WORKFLOW_CANCELLED" now (JObj []) None;
    mret w'.
Definition suspend (wid : string) (now : Z) : orch WorkflowInstance :=
  w ← query wid;
  _ ← oraise_if (negb (bool_decide (wf_state w ∈ [WS_RUNNING; WS_WAITING; WS_RETRY_SCHEDULED]))) WorkflowStateError
        ("cannot suspend workflow from " +:+ WorkflowState_value (wf_state w));
  let k := keep w in
  let w' := next_row w (mkUpdate WS_SUSPENDED (u_index k) (u_attempt k) None (u_wait k) (u_checkpoint k) (u_retry k)
              (u_cancel k) (u_recoveries k) (u_code k) (u_message k) (u_run k)) now in
  _ ← update_workflow w' (wf_version w);
  _ ← _event wid "WORKFLOW_SUSPENDED" now (JObj []) None;
  mret w'.
Definition resume (wid : string) (now : Z) : orch WorkflowInstance :=
  w ← query wid;
  _ ← oraise_if (negb (bool_decide (wf_state w ∈ [WS_SUSPENDED; WS_RECOVERY_REQUIRED]))) WorkflowStateError
        ("cannot resume workflow from " +:+ WorkflowState_value (wf_state w));
  let k := keep w in
  let w' := next_row w (mkUpdate WS_RUNNING (u_index k) (u_attempt k) None (u_wait k) (u_checkpoint k) (u_retry k)
              (u_cancel k) (u_recoveries k + 1) (u_code k) (u_message k) (u_run k)) now in
  _ ← update_workflow w' (wf_version w);
  _ ← _event wid "WORKFLOW_RESUMED" now (JObj []) None;
  mret w'.

(** ** Workers *)
Definition heartbeat (worker_id : string) (epoch ttl_seconds : Z) (capabilities active : list string) (now : Z)
  : orch WorkerHeartbeat :=
  _ ← oraise_if ((ttl_seconds <? 1) || (3600 <? ttl_seconds)) ValueError
        "worker heartbeat ttl_seconds must be between 1 and 3600";
  h ← from_result (new (mkHeartbeat worker_id epoch now (now + ttl_seconds * 1000000) capabilities active));
  save_worker_heartbeat h.
End runtime.
