(* ===== verification/OrchService.v ===== *)
(** * OrchService: [orchestration/recovery.py] and [orchestration/service.py]

    Recovery from lost workers and uncertain remote operations, and the
    start of workflows on external engines.  An engine is a parameter: the
    [start] of its adapter, which may raise. *)
From S2P Require Import Prelude PyStd PyRe PyJson Identifiers TaskState ControlDomain SchedulerDomain OrchDomain OrchStore OrchRuntime.
Local Open Scope Z_scope.

Section service.
Context `{FloatPow}.

(** ** Lost workers *)
Definition recovery_action (w : WorkflowInstance) : orch (RecoveryAction * bool * list string) :=
  if negb (bool_decide (wf_state w = WS_RUNNING)) then
    mret (RA_MARK_RECOVERY_REQUIRED, false, ["WORKER_HEARTBEAT_EXPIRED"; "STATE_" +:+ WorkflowState_value (wf_state w)])
  else
    s ← current_step (wf_workflow_id w);
    mret (if match (s : option WorkflowStepDefinition) with
             | Some s => recoverable s && (current_attempt w <? max_attempts (retry_policy s)) | None => false end
          then (RA_RETRY_STEP, true, ["WORKER_HEARTBEAT_EXPIRED"; "STEP_RECOVERABLE"])
          else (RA_MARK_RECOVERY_REQUIRED, false, ["WORKER_HEARTBEAT_EXPIRED"; "RETRY_NOT_SAFE"])).
Definition mark_lost (wid worker_id : string) (now : Z) : orch () :=
  o ← get_workflow wid;
  match (o : option WorkflowInstance) with
  | Some w =>
      if bool_decide (wf_state w = WS_RUNNING) then
        let k := keep w in
        let w' := next_row w (mkUpdate WS_RECOVERY_REQUIRED (u_index k) (u_attempt k) None (u_wait k) (u_checkpoint k)
                    (u_retry k) (u_cancel k) (u_recoveries k) (Some "WORKER_LOST")
                    (Some ("worker heartbeat expired: " +:+ worker_id)) (u_run k)) now in
        _ ← update_workflow w' (wf_version w);
        _ ← _event wid "RECOVERY_REQUIRED" now
              (JObj [("worker_id", JStr worker_id); ("reason", JStr "WORKER_LOST")]) None;
        mret ()
      else mret ()
  | None => mret ()
  end.
Definition recover_workflow (worker_id : string) (now : Z) (w : WorkflowInstance) : orch RecoveryDecision :=
  a ← recovery_action w;
  let '(act, safe, reasons) := a in
  rid ← from_result (orchestration_identifier "recovery"
          [wf_workflow_id w; RecoveryAction_value act; str_join "|" reasons; worker_id; ""]);
  decision ← from_result (new (mkRecovery rid (wf_workflow_id w) act reasons now (Some worker_id) None safe));
  _ ← save_recovery_decision decision;
  _ ← (if bool_decide (act = RA_RETRY_STEP)
       then (_ ← fail_step (wf_workflow_id w) "WORKER_LOST" ("worker heartbeat expired: " +:+ worker_id) true now; mret ())
       else mark_lost (wf_workflow_id w) worker_id now);
  mret decision.
Definition recover_worker (now : Z) (h : WorkerHeartbeat) : orch (list RecoveryDecision) :=
  ws ← workflows_for_worker (hb_worker_id h);
  ofor_each (recover_workflow (hb_worker_id h) now) ws.
Definition recover_stale_workers (now : Z) : orch (list RecoveryDecision) :=
  hs ← stale_workers now;
  ds ← ofor_each (recover_worker now) hs;
  mret (mjoin ds).

(** ** Uncertain operations *)
Definition unknown_decision (now : Z) (o : DurableOperation) : orch RecoveryDecision :=
  let reasons := ["REMOTE_MUTATION_OUTCOME_UNKNOWN"; "BLIND_RETRY_FORBIDDEN"] in
  rid ← from_result (orchestration_identifier "recovery"
          [op_workflow_id o; RecoveryAction_value RA_RECONCILE_OPERATION; str_join "|" reasons; ""; operation_id o]);
  decision ← from_result (new (mkRecovery rid (op_workflow_id o) RA_RECONCILE_OPERATION reasons now None (Some (operation_id o)) false));
  _ ← save_recovery_decision decision;
  mret decision.
Definition unknown_outcome_decisions (now : Z) : orch (list RecoveryDecision) :=
  os ← operations_by_state OS_UNKNOWN_OUTCOME;
  ofor_each (unknown_decision now) os.
Inductive ReconciliationObservation := RO_APPLIED | RO_NOT_APPLIED | RO_UNKNOWN.
Definition with_op (o : DurableOperation) (s : DurableOperationState) (run : option string) (attempts : Z) (err : option string) (now : Z)
  : DurableOperation :=
  mkOperation (operation_id o) (op_workflow_id o) (operation_type o) (op_idempotency_key o) s (op_payload o) (op_payload_sha256 o)
    (op_backend o) run attempts err (op_created_at_utc o) now.
Definition reconcile_operation (oid : string) (observer : string → ReconciliationObservation) (now : Z) : orch DurableOperation :=
  o ← get_operation oid;
  match (o : option DurableOperation) with
  | None => oraise KeyError ("unknown orchestration operation: " +:+ oid)
  | Some o =>
      if negb (bool_decide (op_state o = OS_UNKNOWN_OUTCOME)) then mret o
      else match observer oid with
           | RO_UNKNOWN => mret o
           | RO_APPLIED => save_operation (with_op o OS_RECONCILED (backend_operation_id o) (attempt_count o)
                             (Some "remote effect observed after uncertain response") now)
           | RO_NOT_APPLIED => save_operation (with_op o OS_PENDING (backend_operation_id o) (attempt_count o)
                                 (Some "remote effect absent; operation may be safely reconsidered") now)
           end
  end.

(** ** External engines *)
Definition mark_row (wid : string) (s : WorkflowState) (code message type : string) (payload : WorkflowInstance → json) (now : Z)
  : orch WorkflowInstance :=
  w ← query wid;
  let k := keep w in
  let w' := next_row w (mkUpdate s (u_index k) (u_attempt k) None (u_wait k) (u_checkpoint k) (u_retry k) (u_cancel k)
              (u_recoveries k) (Some code) (Some message) (u_run k)) now in
  _ ← update_workflow w' (wf_version w);
  _ ← _event wid type now (payload w) None;
  mret w'.
Definition _mark_recovery_required (wid code message : string) (now : Z) : orch WorkflowInstance :=
  mark_row wid WS_RECOVERY_REQUIRED code message "RECOVERY_REQUIRED" (λ _, JObj [("code", JStr code)]) now.
Definition _mark_backend_unavailable (wid detail : string) (now : Z) : orch WorkflowInstance :=
  mark_row wid WS_SUSPENDED "BACKEND_UNAVAILABLE" detail "BACKEND_UNAVAILABLE"
    (λ w, JObj [("backend", JStr (DurableBackendKind_value (wf_backend w))); ("detail", JStr detail)]) now.

Definition adapter := WorkflowStartRequest → string → result BackendMutationReceipt.
(** The operation that starts a workflow, new or as it was left. *)
Definition start_operation (r : WorkflowStartRequest) (w : WorkflowInstance) (workflow_name_ : string) (now : Z)
  : result DurableOperation :=
  let payload := JObj [("workflow_name", JStr workflow_name_); ("definition_id", JStr (sr_definition_id r));
                       ("input_payload", sr_input_payload r)] in
  oid ← orchestration_identifier "operation" [wf_workflow_id w; "START_WORKFLOW"; sr_idempotency_key r];
  new (mkOperation oid (wf_workflow_id w) "START_WORKFLOW" (sr_idempotency_key r) OS_PENDING payload
         (canonical_payload_sha256 payload) (sr_backend r) None 0 None now now).
(** What follows the answer of the engine. *)
Definition after_send (r : WorkflowStartRequest) (w : WorkflowInstance) (sent : DurableOperation)
    (answer : result BackendMutationReceipt) (now : Z) : orch WorkflowInstance :=
  match answer with
  | Raise (Exn BackendUnknownOutcomeError m) =>
      _ ← save_operation (with_op sent OS_UNKNOWN_OUTCOME (backend_operation_id sent) (attempt_count sent) (Some m) now);
      _mark_recovery_required (wf_workflow_id w) "REMOTE_START_OUTCOME_UNKNOWN" m now
  | Raise (Exn BackendUnavailableError m) =>
      _ ← save_operation (with_op sent OS_FAILED (backend_operation_id sent) (attempt_count sent) (Some m) now);
      _mark_backend_unavailable (wf_workflow_id w) m now
  | Raise e => from_result (Raise e)
  | Ok receipt =>
      _ ← save_operation (with_op sent OS_ACKNOWLEDGED (rp_backend_operation_id receipt) (attempt_count sent) None now);
      x ← query (wf_workflow_id w);
      let k := keep x in
      let x' := next_row x (mkUpdate (u_state k) (u_index k) (u_attempt k) (u_worker k) (u_wait k) (u_checkpoint k) (u_retry k)
                  (u_cancel k) (u_recoveries k) (u_code k) (u_message k) (rp_backend_run_id receipt)) now in
      _ ← update_workflow x' (wf_version x);
      _ ← _event (wf_workflow_id w) "BACKEND_START_ACKNOWLEDGED" now
            (JObj [("backend", JStr (DurableBackendKind_value (sr_backend r)));
                   ("backend_run_id", JOptStr (rp_backend_run_id receipt)); ("operation_id", JStr (operation_id sent))]) None;
      mret x'
  end.
Definition send_operation (backend : adapter) (r : WorkflowStartRequest) (workflow_name_ : string) (w : WorkflowInstance)
    (o : DurableOperation) (now : Z) : orch WorkflowInstance :=
  let sent := with_op o OS_SENT (backend_operation_id o) (attempt_count o + 1) (last_error o) now in
  _ ← save_operation sent;
  after_send r w sent (backend r workflow_name_) now.
Definition service_start (backends : list (DurableBackendKind * adapter)) (r : WorkflowStartRequest) (workflow_name_ : string)
    (now : Z) : orch WorkflowInstance :=
  w ← start r now;
  if bool_decide (sr_backend r = DB_LOCAL_REFERENCE) || opt_truthy (backend_run_id w) then mret w
  else match List.find (λ kv, bool_decide (kv.1 = sr_backend r)) backends with
       | None => _mark_backend_unavailable (wf_workflow_id w) "no configured backend adapter" now
       | Some (_, backend) =>
           o ← from_result (start_operation r w workflow_name_ now);
           existing ← get_operation (operation_id o);
           match (existing : option DurableOperation) with
           | Some x =>
               if bool_decide (op_state x ∈ [OS_ACKNOWLEDGED; OS_RECONCILED; OS_UNKNOWN_OUTCOME]) then query (wf_workflow_id w)
               else send_operation backend r workflow_name_ w x now
           | None => _ ← save_operation o; send_operation backend r workflow_name_ w o now
           end
       end.
Definition can_failover (w : WorkflowInstance) (target : DurableBackendKind) : bool * string :=
  if bool_decide (wf_backend w = target) then (false, "target backend is already selected")
  else if opt_truthy (backend_run_id w) then (false, "active/existing backend history cannot be silently migrated")
  else if negb (bool_decide (wf_state w ∈ [WS_SUSPENDED; WS_PENDING])) then
    (false, "workflow state " +:+ WorkflowState_value (wf_state w) +:+ " is not eligible for backend failover")
  else (true, "workflow has no external run identity; explicit fallback may be planned").
End service.
