(* ===== verification/OrchMachine.v ===== *)
(** * OrchMachine: the abstract machine of a durable workflow

    [row_step] is what one command may do to a workflow row, [move] what one
    command may do to a store.  The commands of the runtime, of the recovery
    and of the service refine it: unless one reports a conflict, its effect
    is a sequence of moves. *)
From S2P Require Import Prelude PyStd PyRe PyJson Identifiers TaskState ControlDomain SchedulerDomain OrchDomain OrchStore OrchRuntime OrchService.
Local Open Scope Z_scope.

(** ** The machine *)
(** A change of a row under its definition [d], and the type of its event.
    Only the service, which follows an external engine, makes the [external]
    ones. *)
Inductive row_step (external : bool) (d : option WorkflowDefinition) (w : WorkflowInstance) : string → wf_update → Prop :=
  | rs_assign attempt u : wf_state w ∈ [WS_RUNNING; WS_RETRY_SCHEDULED] →
      attempt = (if bool_decide (wf_state w = WS_RETRY_SCHEDULED) then current_attempt w + 1 else current_attempt w) →
      u_state u = WS_RUNNING → u_index u = current_step_index w → u_attempt u = attempt → u_worker u ≠ None →
      row_step external d w "STEP_ASSIGNED" u
  | rs_checkpoint u : wf_state w = WS_RUNNING → u_state u = WS_RUNNING → u_index u = current_step_index w →
      u_attempt u = current_attempt w → u_worker u = assigned_worker_id w → row_step external d w "CHECKPOINT_SAVED" u
  | rs_complete d' s u : d = Some d' → validate d' = Ok () → wf_state w = WS_RUNNING → step_at d' (current_step_index w) = Some s →
      current_step_index w ≠ Z.of_nat (length (steps d')) - 1 → u_state u = WS_RUNNING → u_index u = current_step_index w + 1 →
      u_attempt u = 1 → u_worker u = None → row_step external d w "STEP_SUCCEEDED" u
  | rs_succeed d' s u : d = Some d' → wf_state w = WS_RUNNING → step_at d' (current_step_index w) = Some s →
      current_step_index w = Z.of_nat (length (steps d')) - 1 → u_state u = WS_SUCCEEDED → u_index u = current_step_index w + 1 →
      u_attempt u = 0 → u_worker u = None → row_step external d w "WORKFLOW_SUCCEEDED" u
  | rs_retry d' s u : d = Some d' → wf_state w = WS_RUNNING → step_at d' (current_step_index w) = Some s → recoverable s = true →
      current_attempt w < max_attempts (retry_policy s) → u_state u = WS_RETRY_SCHEDULED → u_index u = current_step_index w →
      u_attempt u = current_attempt w → u_worker u = None → row_step external d w "STEP_RETRY_SCHEDULED" u
  | rs_fail u : wf_state w = WS_RUNNING → u_state u = WS_FAILED → u_index u = current_step_index w →
      u_attempt u = current_attempt w → u_worker u = None → row_step external d w "STEP_FAILED" u
  | rs_wait u : wf_state w = WS_RUNNING → u_state u = WS_WAITING → u_index u = current_step_index w →
      u_attempt u = current_attempt w → u_worker u = None → row_step external d w "WAIT_STARTED" u
  | rs_satisfy u : wf_state w = WS_WAITING → u_state u = WS_RUNNING → u_index u = current_step_index w →
      u_attempt u = current_attempt w → u_worker u = assigned_worker_id w → row_step external d w "WAIT_SATISFIED" u
  | rs_cancel u : terminal (wf_state w) = false → u_state u = WS_CANCELLED → u_index u = current_step_index w →
      u_attempt u = current_attempt w → u_worker u = None → row_step external d w "WORKFLOW_CANCELLED" u
  | rs_suspend u : wf_state w ∈ [WS_RUNNING; WS_WAITING; WS_RETRY_SCHEDULED] → u_state u = WS_SUSPENDED →
      u_index u = current_step_index w → u_attempt u = current_attempt w → u_worker u = None →
      row_step external d w "WORKFLOW_SUSPENDED" u
  | rs_resume u : wf_state w ∈ [WS_SUSPENDED; WS_RECOVERY_REQUIRED] → u_state u = WS_RUNNING →
      u_index u = current_step_index w → u_attempt u = current_attempt w → u_worker u = None →
      row_step external d w "WORKFLOW_RESUMED" u
  | rs_lost u : external || bool_decide (wf_state w = WS_RUNNING) = true → u_state u = WS_RECOVERY_REQUIRED →
      u_index u = current_step_index w → u_attempt u = current_attempt w → u_worker u = None →
      row_step external d w "RECOVERY_REQUIRED" u
  | rs_unavailable u : external = true → u_state u = WS_SUSPENDED → u_index u = current_step_index w →
      u_attempt u = current_attempt w → u_worker u = None → row_step external d w "BACKEND_UNAVAILABLE" u
  | rs_acknowledge u : external = true → u_state u = wf_state w → u_index u = current_step_index w →
      u_attempt u = current_attempt w → u_worker u = assigned_worker_id w → row_step external d w "BACKEND_START_ACKNOWLEDGED" u.

(** The next event of a workflow. *)
Definition next_event (st : orch_store) (wid type : string) (e : WorkflowEvent) : Prop :=
  ev_workflow_id e = wid ∧ event_type e = type ∧ sequence e = Z.of_nat (length (events_of st wid)) + 1.
Definition push_event (e : WorkflowEvent) (st : orch_store) : orch_store := set_events (o_events st ++ [e]) st.
Definition put_row (w : WorkflowInstance) (st : orch_store) : orch_store :=
  set_workflows (<[wf_workflow_id w := w]> (o_workflows st)) st.
Definition epochs_grow (m m' : gmap string WorkerHeartbeat) : Prop :=
  ∀ k h, m !! k = Some h → ∃ h', m' !! k = Some h' ∧ fencing_epoch h ≤ fencing_epoch h'.
(** The first row of a workflow. *)
Definition fresh_row (w : WorkflowInstance) : Prop :=
  wf_state w = WS_RUNNING ∧ wf_version w = 1 ∧ current_step_index w = 0 ∧ current_attempt w = 1 ∧ assigned_worker_id w = None.
Inductive move (external : bool) : orch_store → orch_store → Prop :=
  | m_side st st' : o_workflows st' = o_workflows st → o_events st' = o_events st → o_definitions st ⊆ o_definitions st' →
      o_inbox st ⊆ o_inbox st' → epochs_grow (o_workers st) (o_workers st') → move external st st'
  | m_start st w e d : o_definitions st !! wf_definition_id w = Some d → validate d = Ok () → fresh_row w →
      o_workflows st !! wf_workflow_id w = None → next_event st (wf_workflow_id w) "WORKFLOW_STARTED" e →
      move external st (push_event e (put_row w st))
  | m_row st w type u now e : o_workflows st !! wf_workflow_id w = Some w → validate w = Ok () →
      row_step external (o_definitions st !! wf_definition_id w) w type u →
      next_event st (wf_workflow_id w) type e → move external st (push_event e (put_row (next_row w u now) st))
  | m_signal st wid e : is_Some (o_workflows st !! wid) → next_event st wid "SIGNAL_RECEIVED" e →
      move external st (push_event e st).

(** Rows are filed under their identifier, and the events of a workflow are
    numbered from one. *)
Record tidy (st : orch_store) : Prop := {
  tidy_rows : ∀ i w, o_workflows st !! i = Some w → wf_workflow_id w = i;
  tidy_events : ∀ i, sequence <$> events_of st i = seqZ 1 (Z.of_nat (length (events_of st i)));
  tidy_owner : ∀ e, e ∈ o_events st → is_Some (o_workflows st !! ev_workflow_id e);
}.
Lemma events_of_push e st i : events_of (push_event e st) i
  = events_of st i ++ (if String.eqb (ev_workflow_id e) i then [e] else []).
Proof. unfold events_of, push_event. cbn. rewrite List.filter_app. cbn. by destruct (String.eqb _ _). Qed.
Lemma tidy_push st e wid type : tidy st → is_Some (o_workflows st !! wid) → next_event st wid type e →
  tidy (push_event e st).
Proof.
  intros Ht Hw (Hid & _ & Hseq). split; [apply Ht| |].
  - intros i. rewrite events_of_push. destruct (String.eqb_spec (ev_workflow_id e) i) as [E|E]; [|rewrite app_nil_r; apply Ht].
    subst i. rewrite fmap_app, length_app, (tidy_events st Ht), Nat2Z.inj_add. cbn [fmap list_fmap length].
    rewrite seqZ_app by lia. rewrite Hid, Hseq, (Z.add_comm 1). done.
  - intros e'. cbn. rewrite elem_of_app, list_elem_of_singleton. intros [He| ->]; [by apply Ht|]. by rewrite Hid.
Qed.
Lemma tidy_put w st : tidy st → tidy (put_row w st).
Proof.
  intros Ht. split; [|apply Ht|].
  - intros i w'. cbn. rewrite lookup_insert. case_decide; [naive_solver|]. apply Ht.
  - intros e He. cbn. rewrite lookup_insert. case_decide; [eauto|]. by apply Ht.
Qed.
Lemma move_tidy x st st' : move x st st' → tidy st → tidy st'.
Proof.
  destruct 1 as [st st' Ew Ee _ _ _|st w e d _ _ _ _ He|st w type u now e _ _ _ He|st wid e Hw He]; intros Ht.
  - split; unfold events_of; rewrite ?Ew, ?Ee; apply Ht.
  - eapply tidy_push; [by apply tidy_put| |exact He]. cbn. rewrite lookup_insert_eq. eauto.
  - eapply tidy_push; [by apply tidy_put| |exact He]. cbn. rewrite lookup_insert_eq. eauto.
  - by eapply tidy_push.
Qed.
Lemma moves_tidy x st st' : rtc (move x) st st' → tidy st → tidy st'.
Proof. induction 1; eauto using move_tidy. Qed.
Lemma empty_tidy : tidy empty_orch.
Proof. split; [intros i w; cbn; by rewrite lookup_empty|done|]. intros e He. by apply not_elem_of_nil in He. Qed.

(** ** Refinement *)
Create HintDb orch.
Definition quiet {A} (r : result A) : Prop := ∀ m, r ≠ Raise (Exn OrchestrationConflictError m).
(** Run from a tidy store, [m] makes moves or reports a conflict. *)
Definition refines (x : bool) {A} (m : orch A) (st : orch_store) : Prop :=
  tidy st → ∀ st' r, m st = (st', r) → quiet r → rtc (move x) st st'.
Lemma orch_bind_inv {A B} (m : orch A) (f : A → orch B) st st' r : (m ≫= f) st = (st', r) →
  (∃ a st1, m st = (st1, Ok a) ∧ f a st1 = (st', r)) ∨ (∃ e, m st = (st', Raise e) ∧ r = Raise e).
Proof.
  unfold mbind, orch_bind. destruct (m st) as [st1 [a|e]]; [by left; exists a, st1|].
  intros [= -> <-]. right. by exists e.
Qed.
Lemma refines_bind x {A B} (m : orch A) (f : A → orch B) st : refines x m st →
  (∀ a st1, m st = (st1, Ok a) → refines x (f a) st1) → refines x (m ≫= f) st.
Proof.
  intros Hm Hf Ht st' r [(a & st1 & E & E')|(e & E & ->)]%orch_bind_inv Hq.
  - pose proof (Hm Ht st1 (Ok a) E ltac:(done)) as H1. etrans; [exact H1|].
    eapply (Hf a st1 E); [by eapply moves_tidy|exact E'|exact Hq].
  - eapply (Hm Ht); [exact E|]. intros m' [= ->]. by apply (Hq m').
Qed.
(** A computation that does not write. *)
Definition pure {A} (m : orch A) : Prop := ∀ st, (m st).1 = st.
Lemma pure_refines x {A} (m : orch A) st : pure m → refines x m st.
Proof. intros Hm _ st' r E _. specialize (Hm st). rewrite E in Hm. cbn in Hm. by subst. Qed.
Lemma pure_eq {A} (m : orch A) st st' r : pure m → m st = (st', r) → st' = st.
Proof. intros Hm E. specialize (Hm st). by rewrite E in Hm. Qed.
Lemma pure_result {A} (r : result A) : pure (from_result r).
Proof. done. Qed.
Lemma pure_ret {A} (a : A) : pure (mret a).
Proof. done. Qed.
Lemma pure_reads {A} (f : orch_store → result A) : pure (reads f).
Proof. done. Qed.
Lemma pure_bind {A B} (m : orch A) (f : A → orch B) : pure m → (∀ a, pure (f a)) → pure (m ≫= f).
Proof.
  intros Hm Hf st. unfold mbind, orch_bind. specialize (Hm st). destruct (m st) as [st1 [a|e]]; cbn in *; subst; [|done]. apply Hf.
Qed.
#[export] Hint Resolve pure_result pure_ret pure_reads : orch.
Lemma query_pure wid : pure (query wid).
Proof. unfold query, get_workflow. apply pure_bind; [done|]. intros [w|]; done. Qed.
Lemma current_step_pure wid : pure (current_step wid).
Proof.
  unfold current_step. apply pure_bind; [apply query_pure|]. intros w. apply pure_bind; [done|]. intros [d|]; done.
Qed.
#[export] Hint Resolve query_pure current_step_pure : orch.
Lemma read_row_ok {A} `{Model A} (o : option A) r : read_row o = Ok (Some r) ↔ o = Some r ∧ validate r = Ok ().
Proof.
  unfold read_row. destruct o as [row|]; [|naive_solver]. rewrite bind_ok. setoid_rewrite new_ok. naive_solver.
Qed.
Lemma query_ok wid st st' w : query wid st = (st', Ok w) → st' = st ∧ o_workflows st !! wid = Some w ∧ validate w = Ok ().
Proof.
  unfold query, get_workflow. intros [(o & st1 & E & E')|(e & _ & [=])]%orch_bind_inv.
  unfold reads in E. injection E as <- E. destruct o as [w'|]; [|done]. injection E' as <- <-.
  by apply read_row_ok in E as [? ?].
Qed.
Lemma get_definition_ok did st st' d : get_definition did st = (st', Ok (Some d)) →
  st' = st ∧ o_definitions st !! did = Some d ∧ validate d = Ok ().
Proof. unfold get_definition, reads. intros [= <- E]. by apply read_row_ok in E as [? ?]. Qed.
Lemma current_step_ok wid st st' s : current_step wid st = (st', Ok (Some s)) → st' = st ∧
  ∃ w d, o_workflows st !! wid = Some w ∧ validate w = Ok () ∧ o_definitions st !! wf_definition_id w = Some d
    ∧ validate d = Ok () ∧ step_at d (current_step_index w) = Some s.
Proof.
  intros E. pose proof (pure_eq _ _ _ _ (current_step_pure wid) E) as ->. split; [done|].
  unfold current_step in E. apply orch_bind_inv in E as [(w & st1 & E1 & E)|(e & _ & [=])].
  apply query_ok in E1 as (-> & Hw & Hv). apply orch_bind_inv in E as [(o & st2 & E2 & E)|(e & _ & [=])].
  destruct o as [d|]; [|done]. apply get_definition_ok in E2 as (-> & Hd & Hvd). injection E as E. by exists w, d.
Qed.

(** ** Events *)
Definition EVENT_TYPES : list string :=
  ["WORKFLOW_STARTED"; "STEP_ASSIGNED"; "CHECKPOINT_SAVED"; "STEP_SUCCEEDED"; "WORKFLOW_SUCCEEDED"; "STEP_RETRY_SCHEDULED";
   "STEP_FAILED"; "WAIT_STARTED"; "WAIT_SATISFIED"; "WORKFLOW_CANCELLED"; "WORKFLOW_SUSPENDED"; "WORKFLOW_RESUMED";
   "RECOVERY_REQUIRED"; "BACKEND_UNAVAILABLE"; "BACKEND_START_ACKNOWLEDGED"; "SIGNAL_RECEIVED"].
Definition good_type (t : string) : bool :=
  min_length 1 t && max_length 100 t && fullmatch TYPE_PATTERN t && str_truthy (str_strip t).
Lemma event_types_good t : t ∈ EVENT_TYPES → good_type t = true.
Proof.
  intros Ht. assert (forallb good_type EVENT_TYPES = true) as Hall by (by vm_compute).
  rewrite forallb_forall in Hall. by apply Hall, list_elem_of_In.
Qed.
Lemma row_step_type x d w t u : row_step x d w t u → t ∈ EVENT_TYPES.
Proof. destruct 1; vm_compute; set_solver. Qed.
Lemma seqZ_max n : match seqZ 1 (Z.of_nat n) with [] => 0 | m :: l => foldl Z.max m l end = Z.of_nat n.
Proof.
  assert (∀ k m, foldl Z.max m (seqZ (m + 1) (Z.of_nat k)) = m + Z.of_nat k) as Hf.
  { induction k as [|k IH]; intros m; [rewrite seqZ_nil by lia; cbn; lia|]. rewrite seqZ_cons by lia. cbn [foldl].
    replace (Z.max m (m + 1)) with (m + 1) by lia. replace (Z.succ (m + 1)) with (m + 1 + 1) by lia.
    replace (Z.pred (Z.of_nat (S k))) with (Z.of_nat k) by lia. rewrite IH. lia. }
  destruct n as [|n]; [done|]. rewrite seqZ_cons by lia. replace (Z.pred (Z.of_nat (S n))) with (Z.of_nat n) by lia.
  change (Z.succ 1) with (1 + 1). rewrite (Hf n 1). lia.
Qed.
Lemma identifier_ok kind p : ∀ parts, List.find (λ kv, String.eqb kv.1 kind) ID_PREFIXES ≠ None → p ∈ parts →
  str_truthy (str_strip p) = true → ∃ i, orchestration_identifier kind parts = Ok i.
Proof.
  intros parts Hk Hp Ht. unfold orchestration_identifier. destruct (List.find _ _) as [[? prefix]|]; [|done].
  assert (existsb (λ p, str_truthy (str_strip p)) parts = true) as ->; [|eauto].
  apply existsb_exists. exists p. split; [by apply list_elem_of_In|done].
Qed.
Lemma _event_ok wid t now payload corr st st' r : tidy st → is_Some (o_workflows st !! wid) → t ∈ EVENT_TYPES →
  _event wid t now payload corr st = (st', r) →
  (¬ quiet r ∧ st' = st) ∨ ∃ e, r = Ok e ∧ next_event st wid t e ∧ st' = push_event e st.
Proof.
  intros Ht Hw Hty. apply event_types_good in Hty. unfold good_type in Hty.
  apply andb_true_iff in Hty as [Hty Hblank]. unfold _event, next_event_sequence, reads.
  unfold mbind at 1, orch_bind at 1. rewrite (tidy_events st Ht), seqZ_max.
  set (n := Z.of_nat (length (events_of st wid)) + 1).
  destruct (identifier_ok "event" t [wid; str_of_Z n; t]) as [i Hi]; [done|set_solver|done|].
  unfold mbind at 1, orch_bind at 1, from_result. rewrite Hi. unfold mbind at 1, orch_bind at 1.
  assert (new (mkEvent i wid n t now payload corr) = Ok (mkEvent i wid n t now payload corr)) as ->.
  { apply new_valid. unfold validate, WorkflowEvent_model. cbn [sequence event_type ev_workflow_id event_id].
    assert ((n <? 1) = false) as -> by lia. rewrite Hty. cbn [negb raise_if mbind result_bind]. unfold carries. rewrite Hi.
    cbn [mbind result_bind]. by rewrite String.eqb_refl. }
  set (e := mkEvent i wid n t now payload corr). unfold append_event, atomic.
  assert (workflow_exists st (ev_workflow_id e) = true) as ->.
  { unfold workflow_exists. destruct Hw as [w Hw]. cbn. rewrite Hw. by rewrite bool_decide_eq_true_2. }
  rewrite orb_false_r. destruct (existsb _ _) eqn:Ex.
  - destruct (List.find _ _) as [row|] eqn:Ef.
    + case_bool_decide as Erow.
      * exfalso. apply find_some in Ef as [Hin _]. apply list_elem_of_In in Hin.
        assert (n ∈ sequence <$> events_of st wid) as Hn.
        { apply (list_elem_of_fmap_2' sequence _ row); [|by rewrite Erow]. apply elem_of_List_filter. split; [done|].
          rewrite Erow. cbn. by rewrite String.eqb_refl. }
        rewrite (tidy_events st Ht), elem_of_seqZ in Hn. lia.
      * intros [= <- <-]. left. split; [|done]. intros Hq. by eapply Hq.
    + intros [= <- <-]. left. split; [|done]. intros Hq. by eapply Hq.
  - intros [= <- <-]. right. exists e. done.
Qed.

(** ** Writing a row and its event *)
Lemma update_ok w u now st st' r : o_workflows st !! wf_workflow_id w = Some w →
  update_workflow (next_row w u now) (wf_version w) st = (st', r) → r = Ok (next_row w u now) ∧ st' = put_row (next_row w u now) st.
Proof.
  intros Hw. unfold update_workflow, oraise_if, from_result, mbind, orch_bind, atomic. cbn [wf_version wf_workflow_id next_row].
  rewrite Z.eqb_refl. cbn [negb raise_if]. rewrite Hw, Z.eqb_refl. cbn [negb raise_if mbind result_bind].
  by intros [= <- <-].
Qed.
Lemma events_of_put w st i : events_of (put_row w st) i = events_of st i.
Proof. done. Qed.
Lemma refines_row x {A} (k : orch A) w t u wid now payload corr st :
  o_workflows st !! wf_workflow_id w = Some w → validate w = Ok () → wid = wf_workflow_id w →
  row_step x (o_definitions st !! wf_definition_id w) w t u →
  (∀ st1, move x st st1 → refines x k st1) →
  refines x (_ ← update_workflow (next_row w u now) (wf_version w); _ ← _event wid t now payload corr; k) st.
Proof.
  intros Hw Hv -> Hstep Hk Ht st' r [(a & st1 & E & E')|(e & E & ->)]%orch_bind_inv Hq; [|by apply update_ok in E as [[=] _]].
  apply update_ok in E as [_ ->]; [|done].
  apply orch_bind_inv in E' as [(e & st2 & E & E')|(e & E & ->)].
  - apply _event_ok in E as [[Hnq _]|(e' & [= <-] & He & ->)]; [by destruct Hnq| |by apply tidy_put| |by eapply row_step_type].
    + assert (move x st (push_event e (put_row (next_row w u now) st))) as Hm by (by eapply m_row).
      eapply rtc_l; [exact Hm|]. eapply (Hk _ Hm); [by eapply move_tidy|exact E'|exact Hq].
    + cbn. rewrite lookup_insert_eq. eauto.
  - apply _event_ok in E as [[Hnq _]|(e' & [=] & _)]; [| by apply tidy_put| |by eapply row_step_type].
    + exfalso. apply Hnq. intros m [= ->]. by apply (Hq m).
    + cbn. rewrite lookup_insert_eq. eauto.
Qed.
Lemma refines_ret x {A} (a : A) st : refines x (mret a) st.
Proof. apply pure_refines. done. Qed.
Lemma refines_result x {A} (r : result A) st : refines x (from_result r) st.
Proof. apply pure_refines. done. Qed.
#[export] Hint Resolve refines_ret refines_result : orch.
(** The next computation of a chain does not write; what it returned. *)
Ltac pure_step E :=
  apply refines_bind; [apply pure_refines; auto with orch|]; intros ? ? E.

(** ** Writes beside the workflows *)
Definition side {A} (m : orch A) : Prop := ∀ st st' r, m st = (st', r) →
  o_workflows st' = o_workflows st ∧ o_events st' = o_events st ∧ o_definitions st ⊆ o_definitions st'
  ∧ o_inbox st ⊆ o_inbox st' ∧ epochs_grow (o_workers st) (o_workers st').
Lemma epochs_refl m : epochs_grow m m.
Proof. intros k h Hh. exists h. by split. Qed.
Lemma epochs_trans m1 m2 m3 : epochs_grow m1 m2 → epochs_grow m2 m3 → epochs_grow m1 m3.
Proof. intros H1 H2 k h Hh. destruct (H1 k h Hh) as (h' & Hh' & ?). destruct (H2 k h' Hh') as (h'' & ? & ?). exists h''. split; [done|lia]. Qed.
#[export] Hint Resolve epochs_refl : orch.
Lemma side_refines x {A} (m : orch A) st : side m → refines x m st.
Proof. intros Hm _ st' r E _. apply Hm in E as (? & ? & ? & ? & ?). apply rtc_once. by apply m_side. Qed.
Lemma side_bind {A B} (m : orch A) (f : A → orch B) : side m → (∀ a, side (f a)) → side (m ≫= f).
Proof.
  intros Hm Hf st st' r [(a & st1 & E & E')|(e & E & ->)]%orch_bind_inv; [|by eapply Hm].
  apply Hm in E as (E1 & E2 & E3 & E4 & E5). apply Hf in E' as (F1 & F2 & F3 & F4 & F5).
  split_and!; [congruence..|by etrans|by etrans|by eapply epochs_trans].
Qed.
Lemma pure_side {A} (m : orch A) : pure m → side m.
Proof. intros Hm st st' r E. apply pure_eq in E as ->; [|done]. split_and!; auto with orch. Qed.
Lemma writes_side f : (∀ st, o_workflows (f st) = o_workflows st ∧ o_events (f st) = o_events st
  ∧ o_definitions (f st) = o_definitions st ∧ o_inbox (f st) = o_inbox st ∧ o_workers (f st) = o_workers st) → side (writes f).
Proof.
  intros Hf st st' r [= <- <-]. destruct (Hf st) as (-> & -> & -> & -> & ->). split_and!; auto with orch.
Qed.
Lemma atomic_side {A} (f : orch_store → result (orch_store * A)) : (∀ st st' a, f st = Ok (st', a) →
  o_workflows st' = o_workflows st ∧ o_events st' = o_events st ∧ o_definitions st' = o_definitions st
  ∧ o_inbox st ⊆ o_inbox st' ∧ o_workers st' = o_workers st) → side (atomic f).
Proof.
  intros Hf st st' r. unfold atomic. destruct (f st) as [[st1 a]|e] eqn:E; intros [= <- <-].
  - destruct (Hf _ _ _ E) as (-> & -> & -> & ? & ->). split_and!; auto with orch.
  - split_and!; auto with orch.
Qed.
Lemma save_checkpoint_side c : side (save_checkpoint c).
Proof.
  unfold save_checkpoint. apply side_bind; [by apply pure_side|]. intros _. apply side_bind.
  - apply writes_side. intros st. by destruct (o_checkpoints st !! checkpoint_id c).
  - intros _. apply side_bind; [by apply pure_side|]. intros _. by apply pure_side.
Qed.
Lemma save_wait_side w : side (save_wait w).
Proof.
  apply atomic_side. intros st st' a. destruct (o_waits st !! wt_wait_id w); [by intros [= <- _]|].
  intros E. by apply bind_ok in E as ([] & _ & [= <- _]).
Qed.
Lemma save_operation_side o : side (save_operation o).
Proof.
  apply atomic_side. intros st st' a. destruct (o_outbox st !! operation_id o); [by intros [= <- _]|].
  intros E. apply bind_ok in E as ([] & _ & E). by apply bind_ok in E as ([] & _ & [= <- _]).
Qed.
Lemma save_recovery_side r : side (save_recovery_decision r).
Proof.
  apply atomic_side. intros st st' a. destruct (o_recoveries st !! recovery_id r); [by intros [= <- _]|].
  intros E. by apply bind_ok in E as ([] & _ & [= <- _]).
Qed.
Lemma record_inbox_side mid wid t p now : side (record_inbox mid wid t p now).
Proof.
  apply atomic_side. intros st st' a. destruct (o_inbox st !! mid) eqn:Em; intros E; apply bind_ok in E as ([] & _ & [= <- _]); [done|].
  split_and!; try done. cbn. by apply insert_subseteq.
Qed.
Lemma heartbeat_side h : side (save_worker_heartbeat h).
Proof.
  intros st st' r. unfold save_worker_heartbeat, mbind, orch_bind, reads, writes.
  destruct (o_workers st !! hb_worker_id h) as [row|] eqn:E; cbn; [destruct (fencing_epoch h <? fencing_epoch row) eqn:Ef|];
    cbn; intros [= <- <-]; split_and!; auto with orch; intros k h' Hk; cbn; rewrite lookup_insert; case_decide as Ek;
    try (by exists h'); subst k; rewrite Hk in E; simplify_eq. exists h. split; [done|lia].
Qed.
Lemma register_side d : side (register_definition d).
Proof.
  intros st st' r. unfold register_definition, register_definition_row. intros [= <- _].
  destruct (bool_decide _) eqn:E; cbn [orb]; [split_and!; auto with orch|].
  destruct (existsb _ _); [split_and!; auto with orch|]. split_and!; auto with orch. cbn.
  apply insert_subseteq. apply bool_decide_eq_false in E. by destruct (o_definitions st !! definition_id d); [destruct E|].
Qed.
#[export] Hint Resolve save_checkpoint_side save_wait_side save_operation_side save_recovery_side record_inbox_side
  heartbeat_side register_side : orch.
Ltac side_step E := apply refines_bind; [apply side_refines; auto with orch|]; intros ? ? E.

(** ** The commands of the runtime *)
Lemma refines_tidy x {A} (m : orch A) st : (tidy st → refines x m st) → refines x m st.
Proof. intros Hm Ht. by apply Hm. Qed.
Lemma refines_raise x {A} c m st : refines x (oraise c m : orch A) st.
Proof. by apply pure_refines. Qed.
#[export] Hint Resolve refines_raise : orch.
Lemma pure_raise_if b c m : pure (oraise_if b c m).
Proof. done. Qed.
Lemma pure_worker i : pure (worker i).
Proof. done. Qed.
Lemma pure_get_definition i : pure (get_definition i).
Proof. done. Qed.
Lemma pure_get_workflow i : pure (get_workflow i).
Proof. done. Qed.
Lemma pure_get_wait i : pure (get_wait i).
Proof. done. Qed.
Lemma pure_get_operation i : pure (get_operation i).
Proof. done. Qed.
Lemma pure_latest i : pure (latest_checkpoint i).
Proof. done. Qed.
Lemma pure_find a b : pure (find_workflow_by_idempotency a b).
Proof. done. Qed.
#[export] Hint Resolve pure_raise_if pure_worker pure_get_definition pure_get_workflow pure_get_wait pure_get_operation
  pure_latest pure_find : orch.
Lemma raise_if_inv b c m st st' u : oraise_if b c m st = (st', Ok u) → st' = st ∧ b = false.
Proof. unfold oraise_if, from_result. intros [= <- E]. by apply raise_if_ok in E. Qed.
Lemma result_inv {A} (r : result A) st st' a : from_result r st = (st', Ok a) → st' = st ∧ r = Ok a.
Proof. by intros [= <- ->]. Qed.
(** Read the workflow a command is about. *)
Ltac read_workflow w Hw Hv Hid :=
  apply refines_tidy; let Ht := fresh "Ht" in intros Ht; let E := fresh "E" in
  apply refines_bind; [apply pure_refines; auto with orch|]; intros w ? E; apply query_ok in E as (-> & Hw & Hv);
  pose proof (tidy_rows _ Ht _ _ Hw) as Hid.
Ltac check_step H :=
  let E := fresh "E" in apply refines_bind; [apply pure_refines; auto with orch|]; intros ? ? E; apply raise_if_inv in E as [-> H].
Ltac get_step H :=
  let E := fresh "E" in apply refines_bind; [apply pure_refines; auto with orch|]; intros ? ? E; apply result_inv in E as [-> H].

Section commands.
Context `{FloatPow} (x : bool).
Lemma negb_decide_false (P : Prop) `{Decision P} : negb (bool_decide P) = false → P.
Proof. rewrite negb_false_iff. apply bool_decide_eq_true_1. Qed.
Lemma assign_refines wid worker_id epoch now st : refines x (assign_worker wid worker_id epoch now) st.
Proof.
  unfold assign_worker. read_workflow w Hw Hv Hid. check_step Hs. apply negb_decide_false in Hs. check_step Hdue.
  apply refines_bind; [apply pure_refines; auto with orch|]. intros h st1 E. apply pure_eq in E as ->; [|auto with orch].
  destruct h as [h|]; [|auto with orch]. check_step Hexp. check_step Hep.
  apply refines_row; [by rewrite Hid|done|done| |intros; auto with orch]. by eapply rs_assign.
Qed.
Lemma checkpoint_refines wid payload now st : refines x (checkpoint wid payload now) st.
Proof.
  unfold checkpoint. read_workflow w Hw Hv Hid.
  apply refines_bind; [apply pure_refines; auto with orch|]. intros s st1 E. apply pure_eq in E as ->; [|auto with orch].
  destruct s as [s|]; [|auto with orch]. check_step Hs. apply negb_decide_false in Hs. get_step Hc. get_step Hcid. get_step Hck.
  side_step E. apply save_checkpoint_side in E as (E1 & _ & _).
  apply refines_row; [by rewrite E1, Hid|done|done| |intros; auto with orch]. by apply rs_checkpoint.
Qed.
Lemma complete_refines wid result_ now st : refines x (complete_step wid result_ now) st.
Proof.
  unfold complete_step. read_workflow w Hw Hv Hid. check_step Hs. apply negb_decide_false in Hs.
  apply refines_bind; [apply pure_refines; auto with orch|]. intros o st1 E.
  destruct o as [d|]; [|apply pure_refines; done]. apply get_definition_ok in E as (-> & Hd & Hvd).
  cbn [mbind option_bind]. destruct (step_at d (current_step_index w)) as [s|] eqn:Es; [|by apply pure_refines].
  apply refines_bind; [|intros u st1 E].
  { destruct (requires_checkpoint s); [|auto with orch]. apply pure_refines, pure_bind; auto with orch. }
  assert (st1 = st) as ->.
  { destruct (requires_checkpoint s); [|by injection E]. eapply pure_eq; [|exact E]. apply pure_bind; auto with orch. }
  apply refines_row; [by rewrite Hid|done|done| |intros; auto with orch].
  destruct (Z.eqb_spec (current_step_index w) (Z.of_nat (length (steps d)) - 1)).
  - by eapply rs_succeed.
  - by eapply rs_complete.
Qed.
Lemma fail_refines wid code message retryable now st : refines x (fail_step wid code message retryable now) st.
Proof.
  unfold fail_step. read_workflow w Hw Hv Hid. check_step Hs. apply negb_decide_false in Hs.
  apply refines_bind; [apply pure_refines; auto with orch|]. intros s st1 E.
  destruct s as [s|]; [|apply pure_eq in E as ->; auto with orch].
  apply current_step_ok in E as (-> & w' & d & Hw' & _ & Hd & Hvd & Hstep). rewrite Hw in Hw'. injection Hw' as <-.
  get_step Hretry. apply refines_row; [by rewrite Hid|done|done| |intros; auto with orch].
  unfold retry_time in Hretry. destruct (retryable && recoverable s && _) eqn:Ec.
  - apply andb_true_iff in Ec as [Ec Hlt]. apply andb_true_iff in Ec as [_ Hrec].
    apply bind_ok in Hretry as (b & _ & Hretry). apply bind_ok in Hretry as (us & _ & [= <-]).
    rewrite bool_decide_eq_false_2 by done. eapply rs_retry; try done. lia.
  - injection Hretry as <-. rewrite bool_decide_eq_true_2 by done. by apply rs_fail.
Qed.
Lemma begin_wait_refines w wait payload now st : o_workflows st !! wf_workflow_id w = Some w → validate w = Ok () →
  wf_state w = WS_RUNNING → refines x (begin_wait w wait payload now) st.
Proof.
  intros Hw Hv Hs. unfold begin_wait. side_step E. apply save_wait_side in E as (E1 & _ & _).
  apply refines_row; [by rewrite E1|done|done| |intros; auto with orch]. by apply rs_wait.
Qed.
Lemma wait_for_signal_refines wid name now st : refines x (wait_for_signal wid name now) st.
Proof.
  unfold wait_for_signal. read_workflow w Hw Hv Hid. check_step Hs. apply negb_decide_false in Hs. get_step Hi. get_step Hn.
  apply begin_wait_refines; [by rewrite Hid|done..].
Qed.
Lemma wait_until_refines wid release now st : refines x (wait_until wid release now) st.
Proof.
  unfold wait_until. check_step Hrel. read_workflow w Hw Hv Hid. check_step Hs. apply negb_decide_false in Hs.
  get_step Hi. get_step Hn. apply begin_wait_refines; [by rewrite Hid|done..].
Qed.
Lemma satisfy_refines w wait payload now st : o_workflows st !! wf_workflow_id w = Some w → validate w = Ok () →
  wf_state w = WS_WAITING → refines x (satisfy w wait payload now) st.
Proof.
  intros Hw Hv Hs. unfold satisfy. side_step E. apply save_wait_side in E as (E1 & _ & _).
  apply refines_row; [by rewrite E1|done|done| |intros; auto with orch]. by apply rs_satisfy.
Qed.
Lemma event_rows wid t now payload corr st st' e : tidy st → is_Some (o_workflows st !! wid) → t ∈ EVENT_TYPES →
  _event wid t now payload corr st = (st', Ok e) → o_workflows st' = o_workflows st.
Proof. intros Ht Hw Hty E. apply _event_ok in E as [[Hnq _]|(e' & _ & _ & ->)]; [by destruct Hnq|done..]. Qed.
Lemma signal_event_refines wid now payload corr st : is_Some (o_workflows st !! wid) →
  refines x (_event wid "SIGNAL_RECEIVED" now payload corr) st.
Proof.
  intros Hw Ht st' r E Hq. apply _event_ok in E as [[Hnq _]|(e & _ & He & ->)]; [done| |done|done|by vm_compute; set_solver].
  apply rtc_once. by eapply m_signal.
Qed.
Lemma signal_refines s now st : refines x (signal s now) st.
Proof.
  unfold signal. read_workflow w Hw Hv Hid.
  side_step E. apply record_inbox_side in E as (E1 & _ & _). destruct a; cbn [negb]; [|auto with orch].
  apply refines_tidy. intros Ht1.
  assert (is_Some (o_workflows st1 !! sg_workflow_id s)) as Hsome by (rewrite E1; eauto).
  apply refines_bind; [by apply signal_event_refines|]. intros e st2 E2.
  apply event_rows in E2; [|done|done|by vm_compute; set_solver]. destruct (wf_state w) eqn:Es, (wf_wait_id w) as [i|]; auto with orch.
  destruct (negb (str_truthy i)); [auto with orch|].
  apply refines_bind; [apply pure_refines; auto with orch|]. intros o st3 E3. apply pure_eq in E3 as ->; [|auto with orch].
  destruct o as [wait|]; [|auto with orch]. destruct (_ && _); [|auto with orch].
  apply satisfy_refines; [by rewrite E2, E1, Hid|done|done].
Qed.
Lemma release_wait_refines now wait st : refines x (release_wait now wait) st.
Proof.
  unfold release_wait. read_workflow w Hw Hv Hid.
  destruct (bool_decide (wf_state w = WS_WAITING)) eqn:Es; cbn [negb orb]; [|auto with orch].
  apply bool_decide_eq_true in Es. destruct (negb _); [auto with orch|].
  apply refines_bind; [apply satisfy_refines; [by rewrite Hid|done|done]|]. auto with orch.
Qed.
Lemma ofor_each_refines {A B} (f : A → orch B) l st : (∀ a st, refines x (f a) st) → refines x (ofor_each f l) st.
Proof.
  intros Hf. revert st. induction l as [|a l IH]; intros st; [apply refines_ret|]. cbn [ofor_each].
  apply refines_bind; [apply Hf|]. intros y st1 _. apply refines_bind; [apply IH|]. auto with orch.
Qed.
Lemma release_due_refines now st : refines x (release_due_waits now) st.
Proof.
  unfold release_due_waits. apply refines_bind; [by apply pure_refines|]. intros ws st1 _.
  apply refines_bind; [|auto with orch]. apply ofor_each_refines. apply release_wait_refines.
Qed.
Lemma cancel_refines wid now st : refines x (cancel wid now) st.
Proof.
  unfold cancel. read_workflow w Hw Hv Hid. destruct (terminal (wf_state w)) eqn:Et; [auto with orch|].
  apply refines_row; [by rewrite Hid|done|done| |intros; auto with orch]. by apply rs_cancel.
Qed.
Lemma suspend_refines wid now st : refines x (suspend wid now) st.
Proof.
  unfold suspend. read_workflow w Hw Hv Hid. check_step Hs. apply negb_decide_false in Hs.
  apply refines_row; [by rewrite Hid|done|done| |intros; auto with orch]. by apply rs_suspend.
Qed.
Lemma resume_refines wid now st : refines x (resume wid now) st.
Proof.
  unfold resume. read_workflow w Hw Hv Hid. check_step Hs. apply negb_decide_false in Hs.
  apply refines_row; [by rewrite Hid|done|done| |intros; auto with orch]. by apply rs_resume.
Qed.
Lemma heartbeat_refines i epoch ttl caps active now st : refines x (heartbeat i epoch ttl caps active now) st.
Proof. unfold heartbeat. check_step Hc. get_step Hn. apply side_refines. auto with orch. Qed.

(** ** Starting *)
Lemma find_none did key st st' : find_workflow_by_idempotency did key st = (st', Ok None) → st' = st
  ∧ ∀ i w, o_workflows st !! i = Some w → same_key did key w = false.
Proof.
  unfold find_workflow_by_idempotency, reads. intros [= <- E]. split; [done|]. intros i w Hw.
  destruct (List.find _ _) as [r|] eqn:Ef; [by cbn in E; apply bind_ok in E as (? & _ & [=])|].
  apply (List.find_none _ _ Ef). apply list_elem_of_In, list_elem_of_fmap. exists (i, w). split; [done|]. by apply elem_of_map_to_list.
Qed.
Lemma create_ok w st st' r : (∀ i y, o_workflows st !! i = Some y → same_key (wf_definition_id w) (wf_idempotency_key w) y = false) →
  create_workflow w st = (st', Ok r) → r = w ∧ o_workflows st !! wf_workflow_id w = None ∧ st' = put_row w st
    ∧ is_Some (o_definitions st !! wf_definition_id w).
Proof.
  intros Hk. unfold create_workflow. destruct (_ || _ || _) eqn:Ec.
  - intros [= <- E]. exfalso. apply bind_ok in E as (o & E & E'). destruct o as [y|]; [|done].
    apply read_row_ok in E as [Hy _]. destruct (workflow_eqb y w) eqn:Eq; [|done].
    unfold workflow_eqb in Eq. apply andb_true_iff in Eq as [_ Eq]. apply bool_decide_eq_true in Eq.
    specialize (Hk _ _ Hy). rewrite Eq in Hk. unfold same_key in Hk. cbn in Hk. by rewrite !String.eqb_refl in Hk.
  - intros [= <- <-]. apply orb_false_iff in Ec as [Ec Hd]. apply orb_false_iff in Ec as [Hw _].
    unfold workflow_exists in Hw. apply bool_decide_eq_false in Hw, Hd. split_and!; [done| |done|].
    + destruct (o_workflows st !! wf_workflow_id w); [by destruct Hw|done].
    + destruct (o_definitions st !! wf_definition_id w); [eauto|done].
Qed.
Lemma start_refines r now st : refines x (start r now) st.
Proof.
  unfold start. apply refines_bind; [apply pure_refines; auto with orch|]. intros o st1 E.
  destruct o as [d|]; [|apply pure_eq in E as ->; auto with orch]. apply get_definition_ok in E as (-> & Hd & Hvd).
  apply refines_bind; [apply pure_refines; auto with orch|]. intros o st1 E.
  destruct o as [w|].
  { apply pure_eq in E as ->; [|auto with orch]. check_step Hc. auto with orch. }
  apply find_none in E as [-> Hnone]. get_step Hid. get_step Hnew. apply new_ok in Hnew as [-> _].
  set (w := mkWorkflow _ _ _ _ _ _ _ _ _ _ _ _ _ _ _ _ _ _ _ _) in *.
  intros Ht st' res [(w' & st1 & E & E')|(e & E & ->)]%orch_bind_inv Hq.
  - apply create_ok in E as (-> & Hfree & -> & Hdef); [|exact Hnone].
    assert (is_Some (o_workflows (put_row w st) !! wf_workflow_id w)) as Hsome by (cbn; rewrite lookup_insert_eq; eauto).
    apply orch_bind_inv in E' as [(ev & st2 & E & E')|(e & E & ->)].
    + apply _event_ok in E as [[Hnq _]|(e' & _ & He & ->)]; [by destruct Hnq| |by apply tidy_put|done|by vm_compute; set_solver].
      injection E' as <- <-. apply rtc_once. by eapply (m_start _ _ w e' d).
    + apply _event_ok in E as [[Hnq _]|(e' & [=] & _)]; [|by apply tidy_put|done|by vm_compute; set_solver].
      exfalso. apply Hnq. intros m [= ->]. by apply (Hq m).
  - unfold create_workflow in E. destruct (_ || _ || _); [|done]. injection E as <- _. done.
Qed.
End commands.

(** ** Recovery and the service *)
Section services.
Context `{FloatPow} (x : bool).
Lemma get_workflow_ok i st st' w : get_workflow i st = (st', Ok (Some w)) → st' = st ∧ o_workflows st !! i = Some w ∧ validate w = Ok ().
Proof. unfold get_workflow, reads. intros [= <- E]. by apply read_row_ok in E as [? ?]. Qed.
Lemma mark_lost_refines wid worker_id now st : refines x (mark_lost wid worker_id now) st.
Proof.
  unfold mark_lost. apply refines_tidy. intros Ht. apply refines_bind; [apply pure_refines; auto with orch|]. intros o st1 E.
  destruct o as [w|]; [|apply pure_eq in E as ->; auto with orch]. apply get_workflow_ok in E as (-> & Hw & Hv).
  pose proof (tidy_rows _ Ht _ _ Hw) as Hid. destruct (bool_decide (wf_state w = WS_RUNNING)) eqn:Es; [|auto with orch].
  apply refines_row; [by rewrite Hid|done|done| |intros; auto with orch]. apply rs_lost; try done. by rewrite Es, orb_true_r.
Qed.
Lemma recovery_action_pure w : pure (recovery_action w).
Proof. unfold recovery_action. destruct (negb _); [done|]. apply pure_bind; auto with orch. Qed.
Lemma recover_workflow_refines worker_id now w st : refines x (recover_workflow worker_id now w) st.
Proof.
  unfold recover_workflow. apply refines_bind; [apply pure_refines, recovery_action_pure|]. intros [[act safe] reasons] st1 _.
  get_step Hi. get_step Hn. side_step E. apply refines_bind; [|auto with orch].
  destruct (bool_decide _); [|apply mark_lost_refines]. apply refines_bind; [apply fail_refines|auto with orch].
Qed.
Lemma recover_refines now st : refines x (recover_stale_workers now) st.
Proof.
  unfold recover_stale_workers. apply refines_bind; [by apply pure_refines|]. intros hs st1 _.
  apply refines_bind; [|auto with orch]. apply ofor_each_refines. intros h st2. unfold recover_worker.
  apply refines_bind; [by apply pure_refines|]. intros ws st3 _. apply ofor_each_refines. apply recover_workflow_refines.
Qed.
Lemma unknown_outcome_refines now st : refines x (unknown_outcome_decisions now) st.
Proof.
  unfold unknown_outcome_decisions. apply refines_bind; [by apply pure_refines|]. intros os st1 _. apply ofor_each_refines.
  intros o st2. unfold unknown_decision. get_step Hi. get_step Hn. side_step E. auto with orch.
Qed.
Lemma reconcile_refines oid observer now st : refines x (reconcile_operation oid observer now) st.
Proof.
  unfold reconcile_operation. apply refines_bind; [apply pure_refines; auto with orch|]. intros [o|] st1 _; [|auto with orch].
  destruct (negb _); [auto with orch|]. destruct (observer oid); [apply side_refines; auto with orch..|auto with orch].
Qed.
Lemma mark_row_refines wid s code message t payload now st :
  (s = WS_RECOVERY_REQUIRED ∧ t = "RECOVERY_REQUIRED") ∨ (s = WS_SUSPENDED ∧ t = "BACKEND_UNAVAILABLE") →
  refines true (mark_row wid s code message t payload now) st.
Proof.
  intros Hst. unfold mark_row. read_workflow w Hw Hv Hid.
  apply refines_row; [by rewrite Hid|done|done| |intros; auto with orch]. destruct Hst as [[-> ->]|[-> ->]].
  - by apply rs_lost.
  - by apply rs_unavailable.
Qed.
Lemma mark_recovery_refines wid code message now st : refines true (_mark_recovery_required wid code message now) st.
Proof. apply mark_row_refines. by left. Qed.
Lemma mark_unavailable_refines wid detail now st : refines true (_mark_backend_unavailable wid detail now) st.
Proof. apply mark_row_refines. by right. Qed.
Lemma after_send_refines r w sent answer now st : refines true (after_send r w sent answer now) st.
Proof.
  unfold after_send. destruct answer as [receipt|[c m]].
  - side_step E. read_workflow y Hy Hv Hid. apply refines_row; [by rewrite Hid|done|done| |intros; auto with orch].
    by apply rs_acknowledge.
  - destruct c; try apply refines_result.
    + side_step E. apply mark_unavailable_refines.
    + side_step E. apply mark_recovery_refines.
Qed.
Lemma send_refines backend r name w o now st : refines true (send_operation backend r name w o now) st.
Proof. unfold send_operation. side_step E. apply after_send_refines. Qed.
Lemma service_start_refines backends r name now st : refines true (service_start backends r name now) st.
Proof.
  unfold service_start. apply refines_bind; [apply start_refines|]. intros w st1 _. destruct (_ || _); [auto with orch|].
  destruct (List.find _ _) as [[k backend]|]; [|apply mark_unavailable_refines].
  get_step Ho. apply refines_bind; [apply pure_refines; auto with orch|]. intros o st2 _. destruct o as [y|].
  - destruct (bool_decide _); [apply pure_refines; auto with orch|apply send_refines].
  - side_step E. apply send_refines.
Qed.

(** ** Commands of a client *)
(** Everything a client calls, whatever the arguments; [external] allows the
    start on an engine. *)
Inductive command (external : bool) : orch_store → orch_store → Prop :=
  | c_register d st st' r : register_definition d st = (st', r) → quiet r → command external st st'
  | c_start rq now st st' r : start rq now st = (st', r) → quiet r → command external st st'
  | c_assign wid i epoch now st st' r : assign_worker wid i epoch now st = (st', r) → quiet r → command external st st'
  | c_checkpoint wid p now st st' r : checkpoint wid p now st = (st', r) → quiet r → command external st st'
  | c_complete wid p now st st' r : complete_step wid p now st = (st', r) → quiet r → command external st st'
  | c_fail wid code m b now st st' r : fail_step wid code m b now st = (st', r) → quiet r → command external st st'
  | c_wait_signal wid s now st st' r : wait_for_signal wid s now st = (st', r) → quiet r → command external st st'
  | c_wait_until wid t now st st' r : wait_until wid t now st = (st', r) → quiet r → command external st st'
  | c_signal s now st st' r : signal s now st = (st', r) → quiet r → command external st st'
  | c_release now st st' r : release_due_waits now st = (st', r) → quiet r → command external st st'
  | c_cancel wid now st st' r : cancel wid now st = (st', r) → quiet r → command external st st'
  | c_suspend wid now st st' r : suspend wid now st = (st', r) → quiet r → command external st st'
  | c_resume wid now st st' r : resume wid now st = (st', r) → quiet r → command external st st'
  | c_heartbeat i e ttl cs ac now st st' r : heartbeat i e ttl cs ac now st = (st', r) → quiet r → command external st st'
  | c_recover now st st' r : recover_stale_workers now st = (st', r) → quiet r → command external st st'
  | c_unknown now st st' r : unknown_outcome_decisions now st = (st', r) → quiet r → command external st st'
  | c_reconcile oid obs now st st' r : reconcile_operation oid obs now st = (st', r) → quiet r → command external st st'
  | c_service backends rq name now st st' r : external = true → service_start backends rq name now st = (st', r) → quiet r →
      command external st st'.
Lemma command_moves st st' : command x st st' → tidy st → rtc (move x) st st'.
Proof.
  destruct 1 as [? ? ? ? E Hq|? ? ? ? ? E Hq|? ? ? ? ? ? ? E Hq|? ? ? ? ? ? E Hq|? ? ? ? ? ? E Hq|? ? ? ? ? ? ? ? E Hq
    |? ? ? ? ? ? E Hq|? ? ? ? ? ? E Hq|? ? ? ? ? E Hq|? ? ? ? E Hq|? ? ? ? ? E Hq|? ? ? ? ? E Hq|? ? ? ? ? E Hq
    |? ? ? ? ? ? ? ? ? E Hq|? ? ? ? E Hq|? ? ? ? E Hq|? ? ? ? ? ? E Hq|? ? ? ? ? ? ? -> E Hq]; intros Ht.
  - eapply side_refines; eauto with orch.
  - eapply start_refines; eauto.
  - eapply assign_refines; eauto.
  - eapply checkpoint_refines; eauto.
  - eapply complete_refines; eauto.
  - eapply fail_refines; eauto.
  - eapply wait_for_signal_refines; eauto.
  - eapply wait_until_refines; eauto.
  - eapply signal_refines; eauto.
  - eapply release_due_refines; eauto.
  - eapply cancel_refines; eauto.
  - eapply suspend_refines; eauto.
  - eapply resume_refines; eauto.
  - eapply heartbeat_refines; eauto.
  - eapply recover_refines; eauto.
  - eapply unknown_outcome_refines; eauto.
  - eapply reconcile_refines; eauto.
  - eapply service_start_refines; eauto.
Qed.
Lemma commands_moves st st' : rtc (command x) st st' → tidy st → rtc (move x) st st'.
Proof.
  induction 1 as [|st1 st2 st3 H1 _ IH]; intros Ht; [done|]. pose proof (command_moves _ _ H1 Ht) as Hm.
  etrans; [exact Hm|]. apply IH. by eapply moves_tidy.
Qed.
End services.
