(* ===== verification/OrchLog.v ===== *)
(** * OrchLog: the event log of a workflow is its history, and where it can get

    [replay] reads the types of a workflow's events as commands of the
    abstract machine, refusing those that its state does not allow.  In
    every reachable store the log of a workflow replays to the row. *)
From S2P Require Import Prelude PyStd PyRe PyJson Identifiers TaskState ControlDomain SchedulerDomain OrchDomain OrchStore OrchRuntime OrchService OrchMachine.
Local Open Scope Z_scope.

(** What a log determines of a workflow. *)
Record run := mkRun { r_state : WorkflowState; r_index : Z; r_attempt : Z; r_version : Z }.
Definition run_of (w : WorkflowInstance) : run := mkRun (wf_state w) (current_step_index w) (current_attempt w) (wf_version w).
Definition next_run (s : WorkflowState) (index attempt : Z) (r : run) : run := mkRun s index attempt (r_version r + 1).
Definition goto (allowed : bool) (s : WorkflowState) (r : run) : option run :=
  if allowed then Some (next_run s (r_index r) (r_attempt r) r) else None.
Definition in_state (r : run) (l : list WorkflowState) : bool := bool_decide (r_state r ∈ l).
Definition replay_event (r : run) (t : string) : option run :=
  if String.eqb t "SIGNAL_RECEIVED" then Some r
  else if String.eqb t "STEP_ASSIGNED" then
    if in_state r [WS_RUNNING] then Some (next_run WS_RUNNING (r_index r) (r_attempt r) r)
    else if in_state r [WS_RETRY_SCHEDULED] then Some (next_run WS_RUNNING (r_index r) (r_attempt r + 1) r)
    else None
  else if String.eqb t "CHECKPOINT_SAVED" then goto (in_state r [WS_RUNNING]) WS_RUNNING r
  else if String.eqb t "STEP_SUCCEEDED" then
    if in_state r [WS_RUNNING] then Some (next_run WS_RUNNING (r_index r + 1) 1 r) else None
  else if String.eqb t "WORKFLOW_SUCCEEDED" then
    if in_state r [WS_RUNNING] then Some (next_run WS_SUCCEEDED (r_index r + 1) 0 r) else None
  else if String.eqb t "STEP_RETRY_SCHEDULED" then goto (in_state r [WS_RUNNING]) WS_RETRY_SCHEDULED r
  else if String.eqb t "STEP_FAILED" then goto (in_state r [WS_RUNNING]) WS_FAILED r
  else if String.eqb t "WAIT_STARTED" then goto (in_state r [WS_RUNNING]) WS_WAITING r
  else if String.eqb t "WAIT_SATISFIED" then goto (in_state r [WS_WAITING]) WS_RUNNING r
  else if String.eqb t "WORKFLOW_CANCELLED" then goto (negb (terminal (r_state r))) WS_CANCELLED r
  else if String.eqb t "WORKFLOW_SUSPENDED" then goto (in_state r [WS_RUNNING; WS_WAITING; WS_RETRY_SCHEDULED]) WS_SUSPENDED r
  else if String.eqb t "WORKFLOW_RESUMED" then goto (in_state r [WS_SUSPENDED; WS_RECOVERY_REQUIRED]) WS_RUNNING r
  else if String.eqb t "RECOVERY_REQUIRED" then goto true WS_RECOVERY_REQUIRED r
  else if String.eqb t "BACKEND_UNAVAILABLE" then goto true WS_SUSPENDED r
  else if String.eqb t "BACKEND_START_ACKNOWLEDGED" then goto true (r_state r) r
  else None.
(** A log starts with the start of its workflow. *)
Definition replay (l : list string) : option run :=
  match l with
  | t :: l => if String.eqb t "WORKFLOW_STARTED" then foldl (λ o t, r ← o; replay_event r t) (Some (mkRun WS_RUNNING 0 1 1)) l
              else None
  | [] => None
  end.
Lemma replay_snoc l t r : replay l = Some r → replay (l ++ [t]) = replay_event r t.
Proof.
  destruct l as [|t0 l]; [done|]. cbn [replay app]. destruct (String.eqb _ _); [|done]. intros E. by rewrite foldl_app, E.
Qed.
Lemma in_state_true r l : r_state r ∈ l → in_state r l = true.
Proof. apply bool_decide_eq_true_2. Qed.
Lemma row_step_replay x d w t u now : row_step x d w t u → replay_event (run_of w) t = Some (run_of (next_row w u now)).
Proof.
  intros Hstep. unfold run_of, next_row. cbn [wf_state wf_version current_step_index current_attempt].
  destruct Hstep as [att u Hs -> -> -> -> _|u Hs -> -> -> _|d' s u _ _ Hs _ _ -> -> -> _|d' s u _ Hs _ _ -> -> -> _
    |d' s u _ Hs _ _ _ -> -> -> _|u Hs -> -> -> _|u Hs -> -> -> _|u Hs -> -> -> _|u Hs -> -> -> _|u Hs -> -> -> _
    |u Hs -> -> -> _|u _ -> -> -> _|u _ -> -> -> _|u _ -> -> -> _]; try (by unfold replay_event; cbn; rewrite ?Hs).
  - unfold replay_event, in_state. cbn. apply elem_of_cons in Hs as [->| ->%list_elem_of_singleton]; by vm_compute.
  - unfold replay_event, in_state. cbn. by rewrite bool_decide_eq_true_2.
  - unfold replay_event, in_state. cbn. by rewrite bool_decide_eq_true_2.
Qed.
Definition logged (st : orch_store) : Prop :=
  ∀ i w, o_workflows st !! i = Some w → replay (event_type <$> events_of st i) = Some (run_of w).
Lemma no_events st i : tidy st → o_workflows st !! i = None → events_of st i = [].
Proof.
  intros Ht Hi. destruct (events_of st i) as [|e l] eqn:E; [done|]. exfalso.
  assert (e ∈ events_of st i) as He by (rewrite E; left). apply elem_of_List_filter in He as [He Hid].
  apply String.eqb_eq in Hid. apply (tidy_owner st Ht) in He as [w Hw]. congruence.
Qed.
Lemma logged_row st w t e : tidy st → logged st → next_event st (wf_workflow_id w) t e →
  replay ((event_type <$> events_of st (wf_workflow_id w)) ++ [t]) = Some (run_of w) →
  logged (push_event e (put_row w st)).
Proof.
  intros Ht Hlog (Hid & Hty & _) Hr i y. rewrite events_of_push, events_of_put. cbn. rewrite lookup_insert. rewrite Hid.
  case_decide as Ei.
  - intros [= <-]. subst i. by rewrite String.eqb_refl, fmap_app, <-Hty in *.
  - intros Hy. destruct (String.eqb_spec (wf_workflow_id w) i); [done|]. rewrite app_nil_r. by apply Hlog.
Qed.
Lemma move_logged x st st' : move x st st' → tidy st → logged st → logged st'.
Proof.
  destruct 1 as [st st' Ew Ee _ _ _|st w e d _ _ Hfresh Hnone He|st w t u now e Hw _ Hstep He|st wid e Hw He]; intros Ht Hlog.
  - intros i w. unfold events_of. rewrite Ew, Ee. apply Hlog.
  - apply (logged_row st w "WORKFLOW_STARTED" e); [done..|]. rewrite no_events by done.
    destruct Hfresh as (Es & Ev & Ei & Ea & _). unfold run_of. by rewrite Es, Ev, Ei, Ea.
  - apply (logged_row st (next_row w u now) t e); [done..|]. cbn [wf_workflow_id next_row].
    rewrite (replay_snoc _ _ (run_of w)) by (by apply Hlog). by eapply row_step_replay.
  - intros i w Hi. rewrite events_of_push. destruct He as (Hid & Hty & _). rewrite Hid.
    destruct (String.eqb_spec wid i) as [->|]; [|rewrite app_nil_r; by apply Hlog].
    rewrite fmap_app. cbn [fmap list_fmap]. rewrite Hty. rewrite (replay_snoc _ _ (run_of w)) by (by apply Hlog). done.
Qed.
Lemma moves_logged x st st' : rtc (move x) st st' → tidy st → logged st → logged st'.
Proof. induction 1; eauto using move_logged, move_tidy. Qed.

(** C6. The event log is the history of its workflow: whatever commands ran
    on whatever arguments, as long as none reported a conflict, the events of
    a workflow are numbered from one without gaps, form a legal path of the
    machine from its start, and replay to the state, step, attempt and
    version of the row. *)
Theorem event_log_replays_workflow `{FloatPow} st i w : rtc (command true) empty_orch st → o_workflows st !! i = Some w →
  sequence <$> events_of st i = seqZ 1 (Z.of_nat (length (events_of st i)))
  ∧ replay (event_type <$> events_of st i) = Some (run_of w).
Proof.
  intros Hrun Hw. apply commands_moves in Hrun; [|apply empty_tidy]. split.
  - apply tidy_events. eapply moves_tidy; [exact Hrun|apply empty_tidy].
  - eapply moves_logged; [exact Hrun|apply empty_tidy| |done]. intros j y. cbn. by rewrite lookup_empty.
Qed.

(** ** a workflow stays on its definition

    Under the commands of the local runtime and of the recovery a workflow
    is always at a step of its definition with an attempt its retry policy
    allows, and a finished one never changes. *)
(** ** On track *)
Definition unfinished (s : WorkflowState) : bool :=
  bool_decide (s ∈ [WS_RUNNING; WS_WAITING; WS_RETRY_SCHEDULED; WS_SUSPENDED; WS_RECOVERY_REQUIRED; WS_CANCELLED; WS_FAILED]).
Record at_step (d : WorkflowDefinition) (state : WorkflowState) (index attempt : Z) : Prop := {
  at_nonneg : 0 ≤ index;
  at_attempt : ∃ s, step_at d index = Some s ∧ 1 ≤ attempt ≤ max_attempts (retry_policy s)
                 ∧ (state = WS_RETRY_SCHEDULED → attempt < max_attempts (retry_policy s));
}.
Definition on_track (d : WorkflowDefinition) (w : WorkflowInstance) : Prop :=
  (wf_state w = WS_SUCCEEDED ∧ current_step_index w = Z.of_nat (length (steps d))
   ∨ unfinished (wf_state w) = true ∧ at_step d (wf_state w) (current_step_index w) (current_attempt w))
  ∧ (assigned_worker_id w ≠ None → wf_state w = WS_RUNNING).
Lemma step_at_some d i s : step_at d i = Some s → i < Z.of_nat (length (steps d)).
Proof. unfold step_at. destruct (Z.leb_spec (Z.of_nat (length (steps d))) i); [done|lia]. Qed.
Lemma step_at_exists d i : 0 ≤ i < Z.of_nat (length (steps d)) → ∃ s, step_at d i = Some s ∧ s ∈ steps d.
Proof.
  intros Hi. unfold step_at. destruct (Z.leb_spec (Z.of_nat (length (steps d))) i); [lia|].
  destruct (lookup_lt_is_Some_2 (steps d) (Z.to_nat i)) as [s Hs]; [lia|]. exists s. split; [done|by eapply list_elem_of_lookup_2].
Qed.
Lemma definition_step_attempts (d : WorkflowDefinition) s : validate d = Ok () → s ∈ steps d → 1 ≤ max_attempts (retry_policy s).
Proof.
  intros Hv Hs. unfold validate, WorkflowDefinition_model in Hv.
  apply bind_ok in Hv as ([] & _ & Hv). apply bind_ok in Hv as ([] & _ & Hv). apply bind_ok in Hv as ([] & Hall & _).
  rewrite for_each_ok in Hall. specialize (Hall s Hs). unfold validate, WorkflowStepDefinition_model in Hall.
  apply bind_ok in Hall as ([] & _ & Hall). apply bind_ok in Hall as ([] & _ & Hall). apply bind_ok in Hall as ([] & Hp & _).
  unfold validate, RetryPolicy_model in Hp. apply bind_ok in Hp as ([] & Hp & _). apply raise_if_ok in Hp.
  apply negb_false_iff, andb_true_iff in Hp as [Hp _]. lia.
Qed.
Lemma definition_nonempty (d : WorkflowDefinition) : validate d = Ok () → 0 < Z.of_nat (length (steps d)).
Proof.
  intros Hv. unfold validate, WorkflowDefinition_model in Hv. do 4 (apply bind_ok in Hv as ([] & _ & Hv)).
  apply bind_ok in Hv as ([] & Hn & _). apply raise_if_ok, bool_decide_eq_false in Hn. destruct (steps d); [done|cbn; lia].
Qed.
Lemma fresh_on_track d w : validate d = Ok () → fresh_row w → on_track d w.
Proof.
  intros Hd (Es & _ & Ei & Ea & Ew). pose proof (definition_nonempty d Hd).
  destruct (step_at_exists d 0) as (s & Hs & Hin); [lia|]. pose proof (definition_step_attempts d s Hd Hin).
  split; [|by rewrite Ew]. right. rewrite Es, Ei, Ea. split; [done|]. split; [done|]. exists s. split_and!; [done|lia..|done].
Qed.
Lemma row_step_on_track d w t u now : row_step false (Some d) w t u → validate d = Ok () → on_track d w →
  on_track d (next_row w u now).
Proof.
  intros Hstep Hd [Hat Hwk]. unfold on_track, next_row.
  cbn [wf_state current_step_index current_attempt assigned_worker_id].
  assert (∀ s, wf_state w = s → s ≠ WS_SUCCEEDED → at_step d s (current_step_index w) (current_attempt w)) as Hat'.
  { intros s <- Hs. by destruct Hat as [[? _]|[_ ?]]. }
  assert (∀ s s', wf_state w = s → s ≠ WS_SUCCEEDED → s' ≠ WS_RETRY_SCHEDULED →
    at_step d s' (current_step_index w) (current_attempt w)) as Hstay.
  { intros s s' Hs Hn Hr. destruct (Hat' s Hs Hn) as [H0 (st & Hst & Ha & _)]. split; [done|]. by exists st. }
  destruct Hstep as [att u Hs -> -> -> -> _|u Hs -> -> -> ->|d' s u [= <-] _ Hs Hst Hl -> -> -> ->|d' s u [= <-] Hs Hst Hl -> -> -> ->
    |d' s u [= <-] Hs Hst _ Hlt -> -> -> ->|u Hs -> -> -> ->|u Hs -> -> -> ->|u Hs -> -> -> ->|u Hs -> -> -> ->|u Hs -> -> -> ->
    |u Hs -> -> -> ->|u Hs -> -> -> ->|u Hs -> -> -> ->|u Hs -> -> -> ->]; try done.
  - split; [right; split; [done|]|done]. apply elem_of_cons in Hs as [Hs|Hs%list_elem_of_singleton].
    + rewrite Hs. by eapply Hstay.
    + rewrite Hs. destruct (Hat' _ Hs ltac:(done)) as [H0 (st & Hst & Ha & Hr)]. specialize (Hr eq_refl).
      rewrite bool_decide_eq_true_2 by done. split; [done|]. exists st. split_and!; [done|lia..|done].
  - split; [right; split; [done|]|done]. by eapply Hstay.
  - split; [right; split; [done|]|done]. destruct (Hat' _ Hs ltac:(done)) as [H0 _]. pose proof (step_at_some _ _ _ Hst).
    destruct (step_at_exists d (current_step_index w + 1)) as (s' & Hs' & Hin); [lia|].
    pose proof (definition_step_attempts d s' Hd Hin). split; [lia|]. exists s'. split_and!; [done|lia..|done].
  - split; [left; split; [done|lia]|done].
  - split; [right; split; [done|]|done]. destruct (Hat' _ Hs ltac:(done)) as [H0 (st & Hst' & Ha & _)].
    rewrite Hst in Hst'. injection Hst' as <-. split; [done|]. exists s. split_and!; [done|lia..].
  - split; [right; split; [done|]|done]. by eapply Hstay.
  - split; [right; split; [done|]|done]. by eapply Hstay.
  - split; [right; split; [done|]|done]. by eapply Hstay.
  - split; [right; split; [done|]|done]. eapply Hstay; [done| |done]. intros E. by rewrite E in Hs.
  - split; [right; split; [done|]|done]. eapply Hstay; [done| |done]. intros E. rewrite E in Hs. set_solver.
  - split; [right; split; [done|]|done]. eapply Hstay; [done| |done]. intros E. rewrite E in Hs. set_solver.
  - split; [right; split; [done|]|done]. apply bool_decide_eq_true in Hs. by eapply Hstay.
Qed.

(** ** Along runs *)
Definition tracked (st : orch_store) : Prop := ∀ i w, o_workflows st !! i = Some w →
  ∃ d, o_definitions st !! wf_definition_id w = Some d ∧ validate d = Ok () ∧ on_track d w.
Lemma move_tracked st st' : move false st st' → tracked st → tracked st'.
Proof.
  destruct 1 as [st st' Ew Ee Hd _ _|st w e d Hd Hvd Hf _ _|st w t u now e Hw _ Hstep _|st wid e _ _]; intros Htr i y.
  - rewrite Ew. intros (d & Hi & ?)%Htr. exists d. split; [by eapply lookup_weaken|done].
  - cbn. rewrite lookup_insert. case_decide; [|apply Htr]. intros [= <-]. exists d. split_and!; [done..|by apply fresh_on_track].
  - cbn. rewrite lookup_insert. case_decide; [|apply Htr]. intros [= <-]. destruct (Htr _ _ Hw) as (d & Hd & Hvd & Hon).
    rewrite Hd in Hstep. exists d. split_and!; [done..|by eapply row_step_on_track].
  - cbn. apply Htr.
Qed.
Lemma moves_tracked st st' : rtc (move false) st st' → tracked st → tracked st'.
Proof. induction 1; eauto using move_tracked. Qed.
Lemma empty_tracked : tracked empty_orch.
Proof. intros i w. cbn. by rewrite lookup_empty. Qed.

(** C7. Under the commands of the runtime and of the recovery a workflow
    never leaves its definition: it has succeeded after its last step, or it
    is at one of its steps in an attempt between one and the policy's limit,
    strictly below the limit while a retry is scheduled; and only a running
    workflow has a worker. *)
Theorem workflow_stays_on_track `{FloatPow} st i w : rtc (command false) empty_orch st → o_workflows st !! i = Some w →
  ∃ d, o_definitions st !! wf_definition_id w = Some d ∧ on_track d w.
Proof.
  intros Hrun Hw. apply commands_moves in Hrun; [|apply empty_tidy].
  destruct (moves_tracked _ _ Hrun empty_tracked i w Hw) as (d & ? & _ & ?). by exists d.
Qed.

(** ** Finished workflows *)
Lemma row_step_not_terminal d w t u : row_step false d w t u → terminal (wf_state w) = false.
Proof.
  destruct 1 as [att u Hs _ _ _ _ _|u Hs _ _ _ _|d' s u _ _ Hs _ _ _ _ _ _|d' s u _ Hs _ _ _ _ _ _
    |d' s u _ Hs _ _ _ _ _ _ _|u Hs _ _ _ _|u Hs _ _ _ _|u Hs _ _ _ _|u Hs _ _ _ _|u Hs _ _ _ _
    |u Hs _ _ _ _|u Hs _ _ _ _|u Hs _ _ _ _|u Hs _ _ _ _]; try done; try (by rewrite Hs).
  - unfold terminal. apply elem_of_cons in Hs as [->| ->%list_elem_of_singleton]; by vm_compute.
  - unfold terminal. rewrite !elem_of_cons in Hs. destruct Hs as [->|[->|[->|[]%elem_of_nil]]]; by vm_compute.
  - unfold terminal. rewrite !elem_of_cons in Hs. destruct Hs as [->|[->|[]%elem_of_nil]]; by vm_compute.
  - apply bool_decide_eq_true in Hs. by rewrite Hs.
Qed.
Lemma move_terminal st st' i w : move false st st' → o_workflows st !! i = Some w → tidy st → terminal (wf_state w) = true →
  o_workflows st' !! i = Some w.
Proof.
  destruct 1 as [st st' Ew _ _ _ _|st y e d _ _ _ Hn _|st y t u now e Hy _ Hstep _|st wid e _ _]; intros Hw Ht Hterm.
  - by rewrite Ew.
  - cbn. rewrite lookup_insert_ne; [done|]. intros <-. congruence.
  - cbn. rewrite lookup_insert_ne; [done|]. intros Hi. rewrite Hi, Hw in Hy. injection Hy as <-.
    apply row_step_not_terminal in Hstep. congruence.
  - done.
Qed.
Lemma moves_terminal st st' i w : rtc (move false) st st' → o_workflows st !! i = Some w → tidy st → terminal (wf_state w) = true →
  o_workflows st' !! i = Some w.
Proof. induction 1; eauto using move_terminal, move_tidy. Qed.

(** C34. A workflow that succeeded, failed or was cancelled is final: no
    sequence of commands of the runtime and of the recovery changes its row
    again, in state, step, attempt or version. *)
Theorem finished_workflow_is_final `{FloatPow} st st' i w : rtc (command false) empty_orch st → o_workflows st !! i = Some w →
  terminal (wf_state w) = true → rtc (command false) st st' → o_workflows st' !! i = Some w.
Proof.
  intros H0 Hw Hterm H1. apply commands_moves in H0; [|apply empty_tidy].
  pose proof (moves_tidy _ _ _ H0 empty_tidy) as Ht. apply commands_moves in H1; [|done]. by eapply moves_terminal.
Qed.
