(* ===== verification/OrchDelivery.v ===== *)
(** * OrchDelivery: what happens at most once

    A signal delivered again, a start requested again and an operation of
    uncertain outcome change nothing. *)
From S2P Require Import Prelude PyStd PyRe PyJson Identifiers TaskState ControlDomain SchedulerDomain OrchDomain OrchStore OrchRuntime OrchService OrchMachine.
Local Open Scope Z_scope.

(** ** Tables a computation only adds to *)
(** [keeps T m]: every store [m] ends in is related to the first by the
    preorder [T]. *)
Definition keeps (T : relation orch_store) {A} (m : orch A) : Prop := ∀ st st' r, m st = (st', r) → T st st'.
Section keeps.
Context (T : relation orch_store) `{!PreOrder T}.
Lemma keeps_pure {A} (m : orch A) : pure m → keeps T m.
Proof. intros Hm st st' r E. by apply pure_eq in E as ->. Qed.
Lemma keeps_bind {A B} (m : orch A) (f : A → orch B) : keeps T m → (∀ a, keeps T (f a)) → keeps T (m ≫= f).
Proof.
  intros Hm Hf st st' r [(a & st1 & E & E')|(e & E & ->)]%orch_bind_inv; [|by eapply Hm].
  etrans; [by eapply Hm|by eapply Hf].
Qed.
Lemma keeps_atomic {A} (f : orch_store → result (orch_store * A)) : (∀ st st' a, f st = Ok (st', a) → T st st') → keeps T (atomic f).
Proof. intros Hf st st' r. unfold atomic. destruct (f st) as [[st1 a]|e] eqn:E; intros [= <- <-]; [by eapply Hf|done]. Qed.
Context (Hrow : ∀ m st, T st (set_workflows m st)) (Hev : ∀ l st, T st (set_events l st)) (Hwait : ∀ m st, T st (set_waits m st)).
Lemma keeps_update w v : keeps T (update_workflow w v).
Proof.
  unfold update_workflow. apply keeps_bind; [by apply keeps_pure|]. intros _. apply keeps_atomic. intros st st' a.
  destruct (o_workflows st !! wf_workflow_id w); [|done]. intros E. apply bind_ok in E as ([] & _ & [= <- _]). apply Hrow.
Qed.
Lemma keeps_event wid t now p c : keeps T (_event wid t now p c).
Proof.
  unfold _event. apply keeps_bind; [by apply keeps_pure|]. intros n. apply keeps_bind; [by apply keeps_pure|]. intros i.
  apply keeps_bind; [by apply keeps_pure|]. intros e. apply keeps_atomic. intros st st' a.
  cbv zeta. repeat case_match; intros E; simplify_eq; try reflexivity; apply Hev.
Qed.
Lemma keeps_satisfy w wait p now : keeps T (satisfy w wait p now).
Proof.
  unfold satisfy. apply keeps_bind.
  { apply keeps_atomic. intros st st' a. destruct (o_waits st !! _); [intros [= <- _]; apply Hwait|].
    intros E. apply bind_ok in E as ([] & _ & [= <- _]). apply Hwait. }
  intros _. apply keeps_bind; [apply keeps_update|]. intros _. apply keeps_bind; [apply keeps_event|]. intros _. by apply keeps_pure.
Qed.
End keeps.

(** ** Signals *)
Definition inbox_le (st st' : orch_store) : Prop := o_inbox st ⊆ o_inbox st'.
#[export] Instance inbox_le_preorder : PreOrder inbox_le.
Proof. split; [intros st; unfold inbox_le; done|intros a b c; unfold inbox_le; by etrans]. Qed.
Lemma move_inbox x st st' : move x st st' → o_inbox st ⊆ o_inbox st'.
Proof. by destruct 1. Qed.
Lemma moves_inbox x st st' : rtc (move x) st st' → o_inbox st ⊆ o_inbox st'.
Proof. induction 1; [done|]. etrans; [by eapply move_inbox|done]. Qed.
Lemma signal_in_inbox s now st st' w : signal s now st = (st', Ok w) → is_Some (o_inbox st' !! signal_id s).
Proof.
  unfold signal. intros [(w0 & st1 & E & E')|(e & _ & [=])]%orch_bind_inv. apply query_ok in E as (-> & _ & _).
  apply orch_bind_inv in E' as [(b & st2 & E & E')|(e & _ & [=])].
  assert (is_Some (o_inbox st2 !! signal_id s)) as [row Hrow].
  { unfold record_inbox, atomic in E. destruct (o_inbox st !! signal_id s) as [row|] eqn:Er.
    - destruct (raise_if _ _ _) as [[]|]; cbn in E; [|done]. injection E as <- _. eauto.
    - destruct (foreign_key _ _) as [[]|]; cbn in E; [|done]. injection E as <- _. cbn. rewrite lookup_insert_eq. eauto. }
  assert (inbox_le st2 st') as Hle; [|eauto using lookup_weaken]. revert E'. destruct b; cbn [negb].
  - apply (keeps_bind inbox_le); [apply (keeps_event inbox_le); intros; red; done|]. intros e0. destruct (wf_state w0), (wf_wait_id w0) as [i|]; try by apply (keeps_pure inbox_le).
    destruct (negb (str_truthy i)); [by apply (keeps_pure inbox_le)|]. apply (keeps_bind inbox_le); [by apply (keeps_pure inbox_le)|].
    intros [wait|]; [|by apply (keeps_pure inbox_le)].
    destruct (_ && _); [apply (keeps_satisfy inbox_le); intros; red; done|by apply (keeps_pure inbox_le)].
  - intros [= <- _]. done.
Qed.
Lemma known_signal_ignored s now st st' r : is_Some (o_inbox st !! signal_id s) → signal s now st = (st', r) → st' = st.
Proof.
  intros [row Hrow]. unfold signal. intros [(w & st1 & E & E')|(e & E & _)]%orch_bind_inv; [|by apply pure_eq in E; auto with orch].
  apply query_ok in E as (-> & _ & _). apply orch_bind_inv in E' as [(b & st2 & E & E')|(e & E & _)];
    unfold record_inbox, atomic in E; rewrite Hrow in E; destruct (raise_if _ _ _) as [[]|]; cbn in E; try done.
  - injection E as <- <-. cbn in E'. by injection E'.
  - by injection E.
Qed.

(** A signal acts at most once: after a delivery that returned, whatever
    commands follow, the same signal delivered again leaves the whole store
    as it is. *)
Theorem signal_acts_once `{FloatPow} s now now' st st1 st2 st3 w r :
  rtc (command true) empty_orch st → signal s now st = (st1, Ok w) → rtc (command true) st1 st2 →
  signal s now' st2 = (st3, r) → st3 = st2.
Proof.
  intros H0 H1 H2 H3. apply commands_moves in H0; [|apply empty_tidy]. pose proof (moves_tidy _ _ _ H0 empty_tidy) as Ht.
  pose proof (signal_refines true s now st Ht st1 _ H1 ltac:(done)) as Hm. pose proof (moves_tidy _ _ _ Hm Ht) as Ht1.
  apply commands_moves, moves_inbox in H2; [|done]. apply signal_in_inbox in H1 as [row Hrow].
  eapply known_signal_ignored; [|exact H3]. eauto using lookup_weaken.
Qed.

(** ** Starts *)
Definition has_key (did key : string) (st : orch_store) : Prop := ∃ i w, o_workflows st !! i = Some w ∧ same_key did key w = true.
Lemma move_has_key x did key st st' : move x st st' → has_key did key st → has_key did key st'.
Proof.
  destruct 1 as [st st' Ew _ _ _ _|st y e d _ _ _ Hn _|st y t u now e Hy _ _ _|st wid e _ _]; intros (i & w & Hw & Hk).
  - exists i, w. by rewrite Ew.
  - exists i, w. split; [|done]. cbn. rewrite lookup_insert_ne; [done|]. intros <-. congruence.
  - destruct (decide (i = wf_workflow_id y)) as [->|Hi].
    + exists (wf_workflow_id y), (next_row y u now). cbn. rewrite lookup_insert_eq. rewrite Hy in Hw. injection Hw as <-. done.
    + exists i, w. split; [|done]. cbn. by rewrite lookup_insert_ne.
  - exists i, w. done.
Qed.
Lemma moves_has_key x did key st st' : rtc (move x) st st' → has_key did key st → has_key did key st'.
Proof. induction 1; eauto using move_has_key. Qed.
Lemma find_some_key did key st st' w : find_workflow_by_idempotency did key st = (st', Ok (Some w)) → st' = st
  ∧ validate w = Ok () ∧ same_key did key w = true ∧ ∃ i, o_workflows st !! i = Some w.
Proof.
  unfold find_workflow_by_idempotency, reads. intros [= <- E]. apply read_row_ok in E as [Ef Hv].
  apply find_some in Ef as [Hin Hk]. apply list_elem_of_In, list_elem_of_fmap in Hin as ([i y] & -> & Hi%elem_of_map_to_list).
  split_and!; [done..|by exists i].
Qed.
(** Events leave rows and outbox; a start leaves the outbox. *)
Definition same_rows (a b : orch_store) : Prop := o_workflows b = o_workflows a ∧ o_outbox b = o_outbox a.
#[export] Instance same_rows_preorder : PreOrder same_rows.
Proof. split; [done|]. intros a b c [E1 E2] [E3 E4]. split; congruence. Qed.
Definition same_outbox (a b : orch_store) : Prop := o_outbox b = o_outbox a.
#[export] Instance same_outbox_preorder : PreOrder same_outbox.
Proof. split; [done|]. unfold same_outbox. congruence. Qed.
Lemma event_same_rows wid t now p c : keeps same_rows (_event wid t now p c).
Proof. by apply (keeps_event same_rows). Qed.
Lemma start_same_outbox `{FloatPow} rq now : keeps same_outbox (start rq now).
Proof.
  unfold start. apply (keeps_bind same_outbox); [by apply (keeps_pure same_outbox)|]. intros [d|]; [|by apply (keeps_pure same_outbox)].
  apply (keeps_bind same_outbox); [by apply (keeps_pure same_outbox)|]. intros [w|].
  - apply (keeps_bind same_outbox); [by apply (keeps_pure same_outbox)|]. intros _. by apply (keeps_pure same_outbox).
  - apply (keeps_bind same_outbox); [by apply (keeps_pure same_outbox)|]. intros wid. apply (keeps_bind same_outbox); [by apply (keeps_pure same_outbox)|]. intros w.
    apply (keeps_bind same_outbox); [intros st st' r; unfold create_workflow; by destruct (_ || _ || _); intros [= <- _]|]. intros _.
    apply (keeps_bind same_outbox); [by apply (keeps_event same_outbox)|]. intros _. by apply (keeps_pure same_outbox).
Qed.
(** What a start that returns leaves and returns. *)
Lemma start_result `{FloatPow} rq now st st' w : start rq now st = (st', Ok w) →
  has_key (sr_definition_id rq) (sr_idempotency_key rq) st' ∧ validate w = Ok () ∧ same_key (sr_definition_id rq) (sr_idempotency_key rq) w = true.
Proof.
  unfold start. intros [(o & st1 & E & E')|(e & _ & [=])]%orch_bind_inv. destruct o as [d|]; [|done].
  apply get_definition_ok in E as (-> & _ & _). apply orch_bind_inv in E' as [(o & st1 & E & E')|(e & _ & [=])].
  destruct o as [y|].
  - apply find_some_key in E as (-> & Hv & Hk & i & Hi). apply orch_bind_inv in E' as [(u & st1 & E & E')|(e & _ & [=])].
    apply raise_if_inv in E as [-> _]. injection E' as <- <-. split_and!; [by exists i, y|done..].
  - apply find_none in E as [-> Hnone]. apply orch_bind_inv in E' as [(wid & st1 & E & E')|(e & _ & [=])].
    apply result_inv in E as [-> Hid]. apply orch_bind_inv in E' as [(y & st1 & E & E')|(e & _ & [=])].
    apply result_inv in E as [-> Hy]. apply new_ok in Hy as [-> Hv]. set (y := mkWorkflow _ _ _ _ _ _ _ _ _ _ _ _ _ _ _ _ _ _ _ _) in *.
    apply orch_bind_inv in E' as [(z & st1 & E & E')|(e & _ & [=])]. apply create_ok in E as (-> & Hfree & -> & _); [|exact Hnone].
    apply orch_bind_inv in E' as [(ev & st2 & E & E')|(e & _ & [=])]. injection E' as <- <-.
    apply event_same_rows in E as [Ew _]. split_and!; [|done|].
    + exists wid, y. rewrite Ew. cbn. rewrite lookup_insert_eq. split; [done|]. unfold same_key. cbn. by rewrite !String.eqb_refl.
    + unfold same_key. cbn. by rewrite !String.eqb_refl.
Qed.
Lemma known_start_ignored `{FloatPow} rq now st st' r : has_key (sr_definition_id rq) (sr_idempotency_key rq) st →
  start rq now st = (st', r) → st' = st.
Proof.
  intros (i & w & Hw & Hk). unfold start. intros [(o & st1 & E & E')|(e & E & _)]%orch_bind_inv; [|by apply pure_eq in E; auto with orch].
  apply pure_eq in E as ->; [|auto with orch]. destruct o as [d|]; [|by injection E'].
  apply orch_bind_inv in E' as [(o & st1 & E & E')|(e & E & _)]; [|by apply pure_eq in E; auto with orch].
  destruct o as [y|]; [|apply find_none in E as [-> Hnone]; specialize (Hnone _ _ Hw); congruence].
  apply pure_eq in E as ->; [|auto with orch]. apply orch_bind_inv in E' as [(u & st1 & E & E')|(e & E & _)].
  - apply raise_if_inv in E as [-> _]. by injection E'.
  - apply pure_eq in E as ->; auto with orch.
Qed.
(** The identifier of a workflow is fixed by its key. *)
Lemma keyed_id did key w : validate w = Ok () → same_key did key w = true → orchestration_identifier "workflow" [did; key] = Ok (wf_workflow_id w).
Proof.
  intros Hv Hk. apply andb_true_iff in Hk as [Hd Hk]. apply String.eqb_eq in Hd, Hk. subst did key.
  unfold validate, WorkflowInstance_model in Hv. apply bind_ok in Hv as ([] & _ & Hv). apply bind_ok in Hv as ([] & Hc & _).
  unfold carries in Hc. apply bind_ok in Hc as (i & Hi & Hc). apply raise_if_ok, negb_false_iff, String.eqb_eq in Hc. by rewrite Hi, Hc.
Qed.

(** A start is idempotent: once it returned, whatever commands follow,
    asking again with the same definition and key leaves the store as it is
    and returns, if it does, the same workflow. *)
Theorem start_is_idempotent `{FloatPow} rq rq' now now' st st1 st2 st3 w r :
  rtc (command true) empty_orch st → start rq now st = (st1, Ok w) → rtc (command true) st1 st2 →
  sr_definition_id rq' = sr_definition_id rq → sr_idempotency_key rq' = sr_idempotency_key rq →
  start rq' now' st2 = (st3, r) → st3 = st2 ∧ ∀ w', r = Ok w' → wf_workflow_id w' = wf_workflow_id w.
Proof.
  intros H0 H1 H2 Ed Ek H3. apply commands_moves in H0; [|apply empty_tidy]. pose proof (moves_tidy _ _ _ H0 empty_tidy) as Ht.
  pose proof (start_refines true rq now st Ht st1 _ H1 ltac:(done)) as Hm. pose proof (moves_tidy _ _ _ Hm Ht) as Ht1.
  apply start_result in H1 as (Hkey & Hv & Hk). apply commands_moves in H2; [|done].
  pose proof (moves_has_key _ _ _ _ _ H2 Hkey) as Hkey2. rewrite <-Ed, <-Ek in Hkey2. split; [by eapply known_start_ignored|].
  intros w' ->. apply start_result in H3 as (_ & Hv' & Hk'). rewrite Ed, Ek in Hk'.
  pose proof (keyed_id _ _ _ Hv Hk) as E1. pose proof (keyed_id _ _ _ Hv' Hk') as E2. congruence.
Qed.

(** ** Operations of uncertain outcome *)
Definition settled_operation (o : DurableOperation) : bool :=
  bool_decide (op_state o ∈ [OS_ACKNOWLEDGED; OS_RECONCILED; OS_UNKNOWN_OUTCOME]).
Lemma find_adapter (backends : list (DurableBackendKind * adapter)) k : k ∈ backends.*1 →
  ∃ a, List.find (λ kv, bool_decide (kv.1 = k)) backends = Some (k, a).
Proof.
  intros Hk. destruct (List.find (λ kv, bool_decide (kv.1 = k)) backends) as [[k' a]|] eqn:E.
  - apply find_some in E as [_ E]. apply bool_decide_eq_true in E. cbn in E. subst k'. by exists a.
  - exfalso. apply list_elem_of_fmap in Hk as ([k' a] & -> & Hin%list_elem_of_In). apply (List.find_none _ _ E) in Hin.
    by rewrite bool_decide_eq_true_2 in Hin.
Qed.

(** An engine is not asked again about a start it acknowledged, whose
    effect was reconciled, or whose outcome is unknown: while the operation is
    in such a state a start does not depend on what the engine would answer,
    and leaves the outbox as it is. *)
Theorem settled_start_not_sent_again `{FloatPow} backends backends' rq name now st wid oid o :
  orchestration_identifier "workflow" [sr_definition_id rq; sr_idempotency_key rq] = Ok wid →
  orchestration_identifier "operation" [wid; "START_WORKFLOW"; sr_idempotency_key rq] = Ok oid →
  o_outbox st !! oid = Some o → settled_operation o = true →
  sr_backend rq ∈ backends.*1 → sr_backend rq ∈ backends'.*1 →
  service_start backends rq name now st = service_start backends' rq name now st
  ∧ o_outbox (service_start backends rq name now st).1 = o_outbox st.
Proof.
  intros Hwid Hoid Ho Hset Hb Hb'. apply find_adapter in Hb as [a Ha], Hb' as [a' Ha']. unfold service_start.
  unfold mbind, orch_bind. rewrite Ha, Ha'. destruct (start rq now st) as [st1 [w|e]] eqn:Es;
    pose proof (start_same_outbox _ _ _ _ _ Es) as Eo; red in Eo; [|done].
  apply start_result in Es as (_ & Hv & Hk). pose proof (keyed_id _ _ _ Hv Hk) as E1. rewrite E1 in Hwid. injection Hwid as <-.
    destruct (_ || _); [done|]. unfold from_result. destruct (start_operation rq w name now) as [o'|e] eqn:Eop; [|done].
    assert (operation_id o' = oid) as ->.
    { unfold start_operation in Eop. rewrite Hoid in Eop. cbn [mbind result_bind] in Eop. by apply new_ok in Eop as [-> _]. }
    unfold get_operation, reads. rewrite Eo, Ho. cbn [read_row]. unfold new. destruct (validate o) as [[]|e]; [|done].
    cbn [mbind result_bind]. fold (settled_operation o). rewrite Hset.
    destruct (query (wf_workflow_id w) st1) as [st2 r] eqn:Eq. apply pure_eq in Eq as ->; [done|auto with orch].
Qed.
