(* ===== verification/OrchRecovery.v ===== *)
(** * OrchRecovery: workflows of lost workers

    What [recover_stale_workers] does to every row: the workflows of the
    workers whose heartbeat expired are released, the others stay. *)
From S2P Require Import Prelude PyStd PyRe PyJson Identifiers TaskState ControlDomain SchedulerDomain OrchDomain OrchStore OrchRuntime OrchService OrchMachine OrchLog OrchDelivery.
Local Open Scope Z_scope.

(** ** One row *)
(** The row of a lost workflow, before and after. *)
Record recovered (w w' : WorkflowInstance) : Prop := {
  rec_id : wf_workflow_id w' = wf_workflow_id w;
  rec_worker : assigned_worker_id w' = None;
  rec_state : wf_state w' ∈ [WS_RETRY_SCHEDULED; WS_RECOVERY_REQUIRED];
  rec_position : current_step_index w' = current_step_index w ∧ current_attempt w' = current_attempt w;
}.
Lemma row_written {A} (k : orch A) w u wid t now payload corr st st' r : o_workflows st !! wf_workflow_id w = Some w → pure k →
  (_ ← update_workflow (next_row w u now) (wf_version w); _ ← _event wid t now payload corr; k) st = (st', r) →
  o_workflows st' = <[wf_workflow_id w := next_row w u now]> (o_workflows st).
Proof.
  intros Hw Hk [(a & st1 & E & E')|(e & E & _)]%orch_bind_inv; apply update_ok in E as [E ->]; try done.
  apply orch_bind_inv in E' as [(ev & st2 & E1 & E')|(e & E1 & _)]; apply event_same_rows in E1 as [Ew _].
  - apply pure_eq in E' as ->; [by rewrite Ew|done].
  - by rewrite Ew.
Qed.

Section recovery.
Context `{FloatPow}.
Lemma fail_row code message now w d s st st' r : o_workflows st !! wf_workflow_id w = Some w → wf_state w = WS_RUNNING →
  o_definitions st !! wf_definition_id w = Some d → step_at d (current_step_index w) = Some s →
  recoverable s && (current_attempt w <? max_attempts (retry_policy s)) = true →
  fail_step (wf_workflow_id w) code message true now st = (st', Ok r) →
  ∃ w', o_workflows st' = <[wf_workflow_id w := w']> (o_workflows st) ∧ recovered w w'.
Proof.
  intros Hw Hs Hd Hst Hc. unfold fail_step. intros [(y & st1 & E & E')|(e & _ & [=])]%orch_bind_inv.
  apply query_ok in E as (-> & Hy & _). rewrite Hw in Hy. injection Hy as <-.
  apply orch_bind_inv in E' as [(u & st1 & E & E')|(e & _ & [=])]. apply raise_if_inv in E as [-> _].
  apply orch_bind_inv in E' as [(o & st1 & E & E')|(e & _ & [=])]. destruct o as [s'|]; [|done].
  apply current_step_ok in E as (-> & y & d' & Hy & _ & Hd' & _ & Hst'). rewrite Hw in Hy. injection Hy as <-.
  rewrite Hd in Hd'. injection Hd' as <-. rewrite Hst in Hst'. injection Hst' as <-.
  apply orch_bind_inv in E' as [(at_ & st1 & E & E')|(e & _ & [=])]. apply result_inv in E as [-> E].
  apply row_written in E'; [|done..]. eexists. split; [exact E'|]. split; [done..| |done]. cbn.
  unfold retry_time in E. cbn [andb] in E. rewrite Hc in E. apply bind_ok in E as (b & _ & E). apply bind_ok in E as (us & _ & [= <-]).
  rewrite bool_decide_eq_false_2 by done. set_solver.
Qed.
Lemma lost_row worker_id now w st st' r : o_workflows st !! wf_workflow_id w = Some w → wf_state w = WS_RUNNING →
  mark_lost (wf_workflow_id w) worker_id now st = (st', Ok r) →
  ∃ w', o_workflows st' = <[wf_workflow_id w := w']> (o_workflows st) ∧ recovered w w'.
Proof.
  intros Hw Hs. unfold mark_lost. intros [(o & st1 & E & E')|(e & _ & [=])]%orch_bind_inv. destruct o as [y|].
  - apply get_workflow_ok in E as (-> & Hy & _). rewrite Hw in Hy. injection Hy as <-.
    rewrite bool_decide_eq_true_2 in E' by done. apply row_written in E'; [|done..].
    eexists. split; [exact E'|]. split; [done..| |done]. cbn. set_solver.
  - unfold get_workflow, reads in E. injection E as <- E. unfold read_row in E. rewrite Hw in E. cbn in E.
    unfold new in E. by destruct (validate w) as [[]|].
Qed.
Lemma recovery_retry w st st1 safe reasons : o_workflows st !! wf_workflow_id w = Some w →
  recovery_action w st = (st1, Ok (RA_RETRY_STEP, safe, reasons)) → wf_state w = WS_RUNNING ∧
  ∃ d s, o_definitions st !! wf_definition_id w = Some d ∧ step_at d (current_step_index w) = Some s
    ∧ recoverable s && (current_attempt w <? max_attempts (retry_policy s)) = true.
Proof.
  intros Hw. unfold recovery_action. destruct (negb (bool_decide (wf_state w = WS_RUNNING))) eqn:Es; [done|].
  apply negb_decide_false in Es. intros [(o & st2 & E & E')|(e & _ & [=])]%orch_bind_inv. split; [done|].
  destruct o as [s|]; [|done]. apply current_step_ok in E as (-> & y & d & Hy & _ & Hd & _ & Hst).
  rewrite Hw in Hy. injection Hy as <-. exists d, s. split_and!; [done..|]. by destruct (recoverable s && _).
Qed.
Lemma recover_row worker_id now w st st' r : o_workflows st !! wf_workflow_id w = Some w → wf_state w = WS_RUNNING →
  recover_workflow worker_id now w st = (st', Ok r) →
  ∃ w', o_workflows st' = <[wf_workflow_id w := w']> (o_workflows st) ∧ recovered w w'.
Proof.
  intros Hw Hs. unfold recover_workflow. intros [([[act safe] reasons] & st1 & E & E')|(e & _ & [=])]%orch_bind_inv.
  pose proof (pure_eq _ _ _ _ (recovery_action_pure w) E) as ->.
  apply orch_bind_inv in E' as [(i & st1 & E1 & E')|(e & _ & [=])]. apply result_inv in E1 as [-> _].
  apply orch_bind_inv in E' as [(y & st1 & E1 & E')|(e & _ & [=])]. apply result_inv in E1 as [-> _].
  apply orch_bind_inv in E' as [(z & st1 & E1 & E')|(e & _ & [=])]. apply save_recovery_side in E1 as (Ew & _ & Hdef & _).
  apply orch_bind_inv in E' as [(u & st2 & E1 & E')|(e & _ & [=])]. injection E' as <- _. rewrite <-Ew in Hw |- *.
  destruct (bool_decide (act = RA_RETRY_STEP)) eqn:Ea.
  - apply bool_decide_eq_true in Ea as ->. rewrite Ew in Hw. destruct (recovery_retry _ _ _ _ _ Hw E) as (_ & d & s & Hd & Hst & Hc).
    apply orch_bind_inv in E1 as [(v & st3 & E1 & E')|(e & _ & [=])]. injection E' as <- _.
    eapply fail_row; [by rewrite Ew|done|by eapply lookup_weaken|done..].
  - by eapply lost_row.
Qed.

(** ** All rows *)
(** The rows [p] selects are recovered, the others are left. *)
Definition freed (p : WorkflowInstance → bool) (st st' : orch_store) : Prop := ∀ i w, o_workflows st !! i = Some w →
  if p w then ∃ w', o_workflows st' !! i = Some w' ∧ recovered w w' else o_workflows st' !! i = Some w.
Lemma freed_trans p q st st1 st2 : freed p st st1 → freed q st1 st2 → (∀ w w', recovered w w' → p w = true → q w' = false) →
  freed (λ w, p w || q w) st st2.
Proof.
  intros H1 H2 Hpq i w Hw. specialize (H1 i w Hw). destruct (p w) eqn:Ep; cbn.
  - destruct H1 as (w' & Hw' & Hr). exists w'. split; [|done]. specialize (H2 i w' Hw'). by rewrite (Hpq w w') in H2.
  - by apply H2.
Qed.
Lemma freed_ext p q st st' : (∀ i w, o_workflows st !! i = Some w → p w = q w) → freed p st st' → freed q st st'.
Proof. intros Hpq Hf i w Hw. rewrite <-(Hpq i w Hw). by apply Hf. Qed.
Definition listed (l : list WorkflowInstance) (w : WorkflowInstance) : bool := bool_decide (wf_workflow_id w ∈ wf_workflow_id <$> l).
Lemma recover_rows worker_id now l : ∀ st st' r, (∀ i w, o_workflows st !! i = Some w → wf_workflow_id w = i) →
  NoDup (wf_workflow_id <$> l) → (∀ w, w ∈ l → o_workflows st !! wf_workflow_id w = Some w ∧ wf_state w = WS_RUNNING) →
  ofor_each (recover_workflow worker_id now) l st = (st', Ok r) → freed (listed l) st st'.
Proof.
  induction l as [|w l IH]; intros st st' r Hid Hnd Hl.
  { intros [= <- _] i w Hw. done. }
  cbn [ofor_each]. intros [(d & st1 & E & E')|(e & _ & [=])]%orch_bind_inv.
  apply orch_bind_inv in E' as [(ds & st2 & E1 & E')|(e & _ & [=])]. injection E' as <- _.
  destruct (Hl w) as [Hw Hs]; [by left|]. apply recover_row in E as (w' & Ew & Hr); [|done..].
  cbn in Hnd. apply NoDup_cons in Hnd as [Hnin Hnd]. apply IH in E1; [|..|done|].
  - eapply freed_ext; [|eapply (freed_trans (λ y, bool_decide (wf_workflow_id y = wf_workflow_id w))); [|exact E1|]].
    + intros i y _. unfold listed. cbn. rewrite <-bool_decide_or. apply bool_decide_ext. by rewrite elem_of_cons.
    + intros i y Hy. pose proof (Hid _ _ Hy) as <-. rewrite Ew. case_bool_decide as Ey.
      * rewrite Ey in Hy |- *. rewrite Hw in Hy. injection Hy as <-. exists w'. by rewrite lookup_insert_eq.
      * by rewrite lookup_insert_ne.
    + intros y y' Hy Ey%bool_decide_eq_true. apply bool_decide_eq_false_2. by rewrite (rec_id _ _ Hy), Ey.
  - intros i y. rewrite Ew, lookup_insert. case_decide as Ei; [|apply Hid]. intros [= <-]. rewrite <-Ei. apply Hr.
  - intros y Hy. destruct (Hl y) as [Hy' Hsy]; [by right|]. split; [|done]. rewrite Ew, lookup_insert_ne; [done|].
    intros Ei. apply Hnin. rewrite Ei. by apply list_elem_of_fmap_2.
Qed.
(** Only running rows have a worker, and rows are filed under their
    identifier. *)
Definition orderly (m : gmap string WorkflowInstance) : Prop := ∀ i w, m !! i = Some w →
  wf_workflow_id w = i ∧ (assigned_worker_id w ≠ None → wf_state w = WS_RUNNING).
Definition held_by (ids : list string) (w : WorkflowInstance) : bool :=
  match assigned_worker_id w with Some k => bool_decide (k ∈ ids) | None => false end.
Lemma rows_nodup (m : gmap string WorkflowInstance) p : orderly m →
  NoDup (wf_workflow_id <$> List.filter p (snd <$> map_to_list m)).
Proof.
  intros Ho. eapply sublist_NoDup; [|apply fmap_sublist, filter_sublist].
  assert (wf_workflow_id <$> (snd <$> map_to_list m) = fst <$> map_to_list m) as ->; [|apply NoDup_fst_map_to_list].
  rewrite <-list_fmap_compose. apply list_fmap_ext. intros j [i w] Hj%list_elem_of_lookup_2%elem_of_map_to_list.
  by destruct (Ho i w Hj).
Qed.
Lemma recover_held now h st st' r : orderly (o_workflows st) → recover_worker now h st = (st', Ok r) →
  freed (held_by [hb_worker_id h]) st st'.
Proof.
  intros Ho. unfold recover_worker. intros [(ws & st1 & E & E')|(e & _ & [=])]%orch_bind_inv.
  unfold workflows_for_worker, reads in E. injection E as <- E. apply traverse_new in E as ->.
  eapply freed_ext; [|eapply recover_rows; [| | |exact E']].
  - intros i w Hw. destruct (Ho i w Hw) as [Hi Hr]. unfold listed, held_by. destruct (assigned_worker_id w) as [k|] eqn:Ek.
    + specialize (Hr ltac:(done)). apply bool_decide_ext. rewrite list_elem_of_fmap. split.
      * intros (y & Ey & Hy). apply elem_of_sorted_by, elem_of_List_filter in Hy as [Hy Hc].
        apply list_elem_of_fmap in Hy as ([j z] & -> & Hz%elem_of_map_to_list). cbn in *. destruct (Ho j z Hz) as [Hj _].
        rewrite Hi, Hj in Ey. subst j. rewrite Hw in Hz. injection Hz as <-.
        apply andb_true_iff in Hc as [Hc%bool_decide_eq_true _]. rewrite Ek in Hc. injection Hc as <-. set_solver.
      * intros ->%list_elem_of_singleton. exists w. split; [done|]. apply elem_of_sorted_by, elem_of_List_filter.
        split; [apply list_elem_of_fmap; exists (i, w); split; [done|by apply elem_of_map_to_list]|].
        rewrite Ek, Hr. rewrite !bool_decide_eq_true_2; [done|set_solver|done].
    + apply bool_decide_eq_false_2. intros (y & Ey & Hy)%list_elem_of_fmap.
      apply elem_of_sorted_by, elem_of_List_filter in Hy as [Hy Hc].
      apply list_elem_of_fmap in Hy as ([j z] & -> & Hz%elem_of_map_to_list). cbn in *. destruct (Ho j z Hz) as [Hj _].
      rewrite Hi, Hj in Ey. subst j. rewrite Hw in Hz. injection Hz as <-.
      apply andb_true_iff in Hc as [Hc%bool_decide_eq_true _]. congruence.
  - intros i w Hw. by destruct (Ho i w Hw).
  - rewrite sorted_by_perm. by apply rows_nodup.
  - intros w Hw. apply elem_of_sorted_by, elem_of_List_filter in Hw as [Hw Hc].
    apply list_elem_of_fmap in Hw as ([j z] & -> & Hz%elem_of_map_to_list). destruct (Ho j z Hz) as [Hj Hr]. cbn in *.
    rewrite Hj. split; [done|]. apply Hr. apply andb_true_iff in Hc as [Hc%bool_decide_eq_true _]. by rewrite Hc.
Qed.
Lemma rows_orderly st : rtc (move false) empty_orch st → orderly (o_workflows st).
Proof.
  intros Hm i w Hw. split; [by eapply tidy_rows; [eapply moves_tidy, empty_tidy|]|].
  by destruct (moves_tracked _ _ Hm empty_tracked i w Hw) as (d & _ & _ & _ & Hr).
Qed.
Lemma recover_all now hs : ∀ st st' r, rtc (move false) empty_orch st → ofor_each (recover_worker now) hs st = (st', Ok r) →
  freed (held_by (hb_worker_id <$> hs)) st st'.
Proof.
  induction hs as [|h hs IH]; intros st st' r Hm; cbn [ofor_each].
  { intros [= <- _] i w Hw. unfold held_by. by destruct (assigned_worker_id w). }
  intros [(d & st1 & E & E')|(e & _ & [=])]%orch_bind_inv. apply orch_bind_inv in E' as [(ds & st2 & E1 & E')|(e & _ & [=])].
  injection E' as <- _. assert (rtc (move false) st st1) as Hm1.
  { eapply (refines_bind false (workflows_for_worker (hb_worker_id h))); [by apply pure_refines| |by eapply moves_tidy, empty_tidy|exact E|done].
    intros ws st3 _. apply ofor_each_refines. apply recover_workflow_refines. }
  apply IH in E1; [|by etrans]. apply recover_held in E; [|by apply rows_orderly].
  eapply freed_ext; [|eapply freed_trans; [exact E|exact E1|]].
  - intros i w _. unfold held_by. destruct (assigned_worker_id w) as [k|]; [|done]. rewrite <-bool_decide_or.
    apply bool_decide_ext. cbn. set_solver.
  - intros w w' Hr _. unfold held_by. by rewrite (rec_worker _ _ Hr).
Qed.
End recovery.

(** The workers whose heartbeat has expired. *)
Definition expired_workers (now : Z) (st : orch_store) : list string :=
  hb_worker_id <$> List.filter (λ h, hb_expires_at_utc h <=? now) (snd <$> map_to_list (o_workers st)).

(** C8. A recovery that returns releases the workflows of the workers whose
    heartbeat has expired, and only those: the row of each loses its worker
    and waits for a retry or for an operator, at the step and in the attempt
    it was in; every other row is exactly as before. *)
Theorem recovery_releases_lost_workflows `{FloatPow} now st st' ds i w : rtc (command false) empty_orch st →
  recover_stale_workers now st = (st', Ok ds) → o_workflows st !! i = Some w →
  if held_by (expired_workers now st) w then ∃ w', o_workflows st' !! i = Some w' ∧ recovered w w'
  else o_workflows st' !! i = Some w.
Proof.
  intros Hrun E Hw. apply commands_moves in Hrun; [|apply empty_tidy]. unfold recover_stale_workers in E.
  apply orch_bind_inv in E as [(hs & st1 & E & E')|(e & _ & [=])]. unfold stale_workers, reads in E. injection E as <- E.
  apply traverse_new in E as ->. apply orch_bind_inv in E' as [(dss & st2 & E1 & E')|(e & _ & [=])]. injection E' as <- _.
  apply recover_all in E1; [|done]. eapply freed_ext in E1; [by apply (E1 i w)|].
  intros j y _. unfold held_by, expired_workers. destruct (assigned_worker_id y) as [k|]; [|done]. apply bool_decide_ext.
  by rewrite sorted_by_perm.
Qed.

(** ** Fencing *)
Lemma move_epochs x st st' : move x st st' → epochs_grow (o_workers st) (o_workers st').
Proof. destruct 1; auto with orch. Qed.
Lemma moves_epochs x st st' : rtc (move x) st st' → epochs_grow (o_workers st) (o_workers st').
Proof. induction 1; [auto with orch|]. eapply epochs_trans; [by eapply move_epochs|done]. Qed.
Lemma assign_checked wid worker_id epoch now st st' r : assign_worker wid worker_id epoch now st = (st', r) →
  (st' = st ∧ ∃ e, r = Raise e) ∨ ∃ h, o_workers st !! worker_id = Some h ∧ fencing_epoch h = epoch ∧ now < hb_expires_at_utc h.
Proof.
  unfold assign_worker. intros [(w & st1 & E & E')|(e & E & ->)]%orch_bind_inv; [|left; apply pure_eq in E as ->; eauto with orch].
  apply query_ok in E as (-> & _ & _).
  apply orch_bind_inv in E' as [(u & st1 & E & E')|(e & E & ->)]; [|left; apply pure_eq in E as ->; eauto with orch].
  apply raise_if_inv in E as [-> _].
  apply orch_bind_inv in E' as [(u' & st1 & E & E')|(e & E & ->)]; [|left; apply pure_eq in E as ->; eauto with orch].
  apply raise_if_inv in E as [-> _].
  apply orch_bind_inv in E' as [(o & st1 & E & E')|(e & E & ->)]; [|left; apply pure_eq in E as ->; eauto with orch].
  destruct o as [h|]; [|left; apply pure_eq in E as ->; [injection E' as <- <-; eauto|auto with orch]].
  unfold worker, reads in E. injection E as <- E. apply read_row_ok in E as [Hh _].
  apply orch_bind_inv in E' as [(u1 & st1 & E & E')|(e & E & ->)]; [|left; apply pure_eq in E as ->; eauto with orch].
  apply raise_if_inv in E as [-> Hexp].
  apply orch_bind_inv in E' as [(u2 & st1 & E & E')|(e & E & ->)]; [|left; apply pure_eq in E as ->; eauto with orch].
  apply raise_if_inv in E as [-> Hep%negb_false_iff%Z.eqb_eq]. right. exists h. split_and!; [done..|lia].
Qed.
Lemma heartbeat_saved k epoch ttl caps active now st st' h : heartbeat k epoch ttl caps active now st = (st', Ok h) →
  o_workers st' !! k = Some h ∧ fencing_epoch h = epoch.
Proof.
  unfold heartbeat. intros [(u & st1 & E & E')|(e & _ & [=])]%orch_bind_inv. apply raise_if_inv in E as [-> _].
  apply orch_bind_inv in E' as [(y & st1 & E & E')|(e & _ & [=])]. apply result_inv in E as [-> E]. apply new_ok in E as [-> _].
  unfold save_worker_heartbeat in E'. apply orch_bind_inv in E' as [(u' & st1 & E & E')|(e & _ & [=])]. injection E as <- _.
  apply orch_bind_inv in E' as [(u1 & st1 & E & E')|(e & _ & [=])]. injection E as <-. injection E' as <- <-.
  cbn. by rewrite lookup_insert_eq.
Qed.

(** A fenced worker gets no more work: once a worker has sent a heartbeat
    under an epoch, whatever commands follow, an assignment under an earlier
    epoch is refused and changes nothing. *)
Theorem fenced_worker_gets_no_work `{FloatPow} k epoch epoch' ttl caps active now now' wid st st1 st2 h :
  rtc (command true) empty_orch st → heartbeat k epoch ttl caps active now st = (st1, Ok h) → rtc (command true) st1 st2 →
  epoch' < epoch → ∃ e, assign_worker wid k epoch' now' st2 = (st2, Raise e).
Proof.
  intros H0 H1 H2 Hlt. apply commands_moves in H0; [|apply empty_tidy]. pose proof (moves_tidy _ _ _ H0 empty_tidy) as Ht.
  pose proof (heartbeat_refines true k epoch ttl caps active now st Ht st1 _ H1 ltac:(done)) as Hm.
  pose proof (moves_tidy _ _ _ Hm Ht) as Ht1. apply commands_moves, moves_epochs in H2; [|done].
  apply heartbeat_saved in H1 as [Hh He]. destruct (H2 k h Hh) as (h' & Hh' & Hle).
  destruct (assign_worker wid k epoch' now' st2) as [st3 r] eqn:E.
  apply assign_checked in E as [[-> [e ->]]|(y & Hy & Ey & _)]; [eauto|]. rewrite Hh' in Hy. injection Hy as <-. lia.
Qed.
