(* ===== verification/OrchScenarios.v ===== *)
(** * OrchScenarios: one build workflow

    A workflow of two steps is started, assigned, interrupted, signalled and
    cancelled; an external engine is unavailable when it is asked. *)
From S2P Require Import Prelude PyStd PyRe PyJson Identifiers TaskState ControlDomain SchedulerDomain OrchDomain OrchStore OrchRuntime OrchService OrchMachine OrchLog OrchDelivery OrchRecovery.
Local Open Scope Z_scope.

(** A [pow] by repeated multiplication. *)
#[local] Instance demo_pow : FloatPow := λ x n, Nat.iter (Z.to_nat n) (PyFloat.mul x) (PyFloat.of_Z 1).
Definition second : Z := 1000000.
Definition demo_id (kind : string) (parts : list string) : string :=
  match orchestration_identifier kind parts with Ok i => i | Raise _ => "" end.
Definition demo_step_of (name : string) (again : bool) : WorkflowStepDefinition :=
  mkStep name name default_retry_policy 3600 60 again false.
Definition demo_definition : WorkflowDefinition := Eval vm_compute in
  mkDefinition (demo_id "workflow_definition" ["build"; "1"]) "build" "1" [demo_step_of "compile" true; demo_step_of "publish" false].
Definition demo_request (key : string) (backend : DurableBackendKind) : WorkflowStartRequest :=
  mkStart (definition_id demo_definition) key (JObj [("ref", JStr "main")]) backend.
Definition wid1 : string := Eval vm_compute in demo_id "workflow" [definition_id demo_definition; "run-1"].
Definition wid2 : string := Eval vm_compute in demo_id "workflow" [definition_id demo_definition; "run-2"].
Definition wid3 : string := Eval vm_compute in demo_id "workflow" [definition_id demo_definition; "run-3"].
Definition demo_signal : WorkflowSignal := Eval vm_compute in
  mkSignal (demo_id "signal" [wid2; "approved"; "k"]) wid2 "approved" "k" (JObj []) (5 * second).
Definition row (st : orch_store) (i : string) : option (WorkflowState * Z * Z * option string) :=
  (λ w, (wf_state w, current_step_index w, current_attempt w, assigned_worker_id w)) <$> o_workflows st !! i.

(** Two runs; the worker of the first is lost, the second waits for a
    signal, goes on and is cancelled. *)
Definition r1 := Eval vm_compute in register_definition demo_definition empty_orch.
Definition r2 := Eval vm_compute in start (demo_request "run-1" DB_LOCAL_REFERENCE) second r1.1.
Definition r3 := Eval vm_compute in start (demo_request "run-2" DB_LOCAL_REFERENCE) second r2.1.
Definition r4 := Eval vm_compute in heartbeat "w-1" 2 60 ["python"] [] second r3.1.
Definition r5 := Eval vm_compute in assign_worker wid1 "w-1" 2 (2 * second) r4.1.
Definition r6 := Eval vm_compute in wait_for_signal wid2 "approved" (3 * second) r5.1.
Definition r7 := Eval vm_compute in signal demo_signal (5 * second) r6.1.
Definition r8 := Eval vm_compute in cancel wid2 (6 * second) r7.1.
Definition r9 := Eval vm_compute in recover_stale_workers (61 * second) r8.1.
Definition r10 := Eval vm_compute in heartbeat "w-2" 1 60 [] [] (62 * second) r9.1.
Definition r11 := Eval vm_compute in assign_worker wid1 "w-2" 1 (63 * second) r10.1.

Example demo_build :
  row r5.1 wid1 = Some (WS_RUNNING, 0, 1, Some "w-1") ∧ row r6.1 wid2 = Some (WS_WAITING, 0, 1, None)
  ∧ row r7.1 wid2 = Some (WS_RUNNING, 0, 1, None) ∧ row r9.1 wid2 = Some (WS_CANCELLED, 0, 1, None)
  ∧ row r9.1 wid1 = Some (WS_RETRY_SCHEDULED, 0, 1, None) ∧ row r11.1 wid1 = Some (WS_RUNNING, 0, 2, Some "w-2")
  ∧ event_type <$> events_of r11.1 wid1 = ["WORKFLOW_STARTED"; "STEP_ASSIGNED"; "STEP_RETRY_SCHEDULED"; "STEP_ASSIGNED"].
Proof. vm_compute. by split_and!. Qed.

(** ** The runs as commands *)
Definition quietb {A} (r : result A) : bool :=
  match r with Raise (Exn OrchestrationConflictError _) => false | _ => true end.
Lemma quietb_quiet {A} (r : result A) : quietb r = true → quiet r.
Proof. intros Hr m ->. done. Qed.
(** An equation that holds by computation of its left side. *)
Ltac computed := match goal with |- _ = ?b => vm_cast_no_check (eq_refl b) end.
(** The command of constructor [c], by computation. *)
Ltac by_result c := refine (c _ _); [computed|by apply quietb_quiet].
Section runs.
Context (x : bool).
Lemma step_r1 : command x empty_orch r1.1.
Proof. by_result (c_register x demo_definition empty_orch r1.1 r1.2). Qed.
Lemma step_r2 : command x r1.1 r2.1.
Proof. by_result (c_start x (demo_request "run-1" DB_LOCAL_REFERENCE) second r1.1 r2.1 r2.2). Qed.
Lemma step_r3 : command x r2.1 r3.1.
Proof. by_result (c_start x (demo_request "run-2" DB_LOCAL_REFERENCE) second r2.1 r3.1 r3.2). Qed.
Lemma step_r4 : command x r3.1 r4.1.
Proof. by_result (c_heartbeat x "w-1" 2 60 ["python"] [] second r3.1 r4.1 r4.2). Qed.
Lemma step_r5 : command x r4.1 r5.1.
Proof. by_result (c_assign x wid1 "w-1" 2 (2 * second) r4.1 r5.1 r5.2). Qed.
Lemma step_r6 : command x r5.1 r6.1.
Proof. by_result (c_wait_signal x wid2 "approved" (3 * second) r5.1 r6.1 r6.2). Qed.
Lemma step_r7 : command x r6.1 r7.1.
Proof. by_result (c_signal x demo_signal (5 * second) r6.1 r7.1 r7.2). Qed.
Lemma step_r8 : command x r7.1 r8.1.
Proof. by_result (c_cancel x wid2 (6 * second) r7.1 r8.1 r8.2). Qed.
Lemma step_r9 : command x r8.1 r9.1.
Proof. by_result (c_recover x (61 * second) r8.1 r9.1 r9.2). Qed.
Lemma step_r10 : command x r9.1 r10.1.
Proof. by_result (c_heartbeat x "w-2" 1 60 [] [] (62 * second) r9.1 r10.1 r10.2). Qed.
Lemma step_r11 : command x r10.1 r11.1.
Proof. by_result (c_assign x wid1 "w-2" 1 (63 * second) r10.1 r11.1 r11.2). Qed.
Lemma run_r3 : rtc (command x) empty_orch r3.1.
Proof. eapply rtc_l; [apply step_r1|]. eapply rtc_l; [apply step_r2|]. eapply rtc_once, step_r3. Qed.
Lemma run_r6 : rtc (command x) r4.1 r6.1.
Proof. eapply rtc_l; [apply step_r5|]. eapply rtc_once, step_r6. Qed.
Lemma run_to_r6 : rtc (command x) empty_orch r6.1.
Proof. etrans; [apply run_r3|]. eapply rtc_l; [apply step_r4|apply run_r6]. Qed.
Lemma run_to_r8 : rtc (command x) empty_orch r8.1.
Proof. etrans; [apply run_to_r6|]. eapply rtc_l; [apply step_r7|]. eapply rtc_once, step_r8. Qed.
Lemma run_r11 : rtc (command x) r8.1 r11.1.
Proof. eapply rtc_l; [apply step_r9|]. eapply rtc_l; [apply step_r10|]. eapply rtc_once, step_r11. Qed.
End runs.

(** ** The theorems at this build *)
Definition no_workflow : WorkflowInstance :=
  mkWorkflow "" "" "" WS_PENDING 1 DB_MOCK None JNull 0 0 None None None None false 0 None None 0 0.
Definition row_of (st : orch_store) (i : string) : WorkflowInstance := default no_workflow (o_workflows st !! i).
Lemma event_log_replays_workflow_witness :
  sequence <$> events_of r11.1 wid1 = seqZ 1 (Z.of_nat (length (events_of r11.1 wid1)))
  ∧ replay (event_type <$> events_of r11.1 wid1) = Some (run_of (row_of r11.1 wid1)).
Proof.
  apply (event_log_replays_workflow r11.1 wid1 (row_of r11.1 wid1)).
  - etrans; [apply run_to_r8|apply run_r11].
  - computed.
Defined.
Lemma workflow_stays_on_track_witness :
  ∃ d, o_definitions r11.1 !! wf_definition_id (row_of r11.1 wid1) = Some d ∧ on_track d (row_of r11.1 wid1).
Proof.
  apply (workflow_stays_on_track r11.1 wid1 (row_of r11.1 wid1)).
  - etrans; [apply run_to_r8|apply run_r11].
  - computed.
Defined.
Lemma finished_workflow_is_final_witness : o_workflows r11.1 !! wid2 = Some (row_of r8.1 wid2).
Proof.
  apply (finished_workflow_is_final r8.1 r11.1 wid2 (row_of r8.1 wid2)).
  - apply run_to_r8.
  - computed.
  - computed.
  - apply run_r11.
Defined.
Lemma signal_acts_once_witness : (signal demo_signal (9 * second) r8.1).1 = r8.1.
Proof.
  apply (signal_acts_once demo_signal (5 * second) (9 * second) r6.1 r7.1 r8.1 _ (row_of r7.1 wid2)
           (signal demo_signal (9 * second) r8.1).2).
  - apply run_to_r6.
  - computed.
  - apply rtc_once, step_r8.
  - apply surjective_pairing.
Defined.
Definition again := Eval vm_compute in start (demo_request "run-1" DB_LOCAL_REFERENCE) (99 * second) r2.1.
Lemma start_is_idempotent_witness : again.1 = r2.1 ∧ ∀ w', again.2 = Ok w' → wf_workflow_id w' = wf_workflow_id (row_of r2.1 wid1).
Proof.
  apply (start_is_idempotent (demo_request "run-1" DB_LOCAL_REFERENCE) (demo_request "run-1" DB_LOCAL_REFERENCE) second (99 * second)
           r1.1 r2.1 r2.1).
  - apply rtc_once, step_r1.
  - computed.
  - done.
  - done.
  - done.
  - apply surjective_pairing.
Defined.
Lemma recovery_releases_lost_workflows_witness : held_by (expired_workers (61 * second) r8.1) (row_of r8.1 wid1) = true
  ∧ if held_by (expired_workers (61 * second) r8.1) (row_of r8.1 wid1)
    then ∃ w', o_workflows r9.1 !! wid1 = Some w' ∧ recovered (row_of r8.1 wid1) w' else o_workflows r9.1 !! wid1 = Some (row_of r8.1 wid1).
Proof.
  split; [computed|].
  apply (recovery_releases_lost_workflows (61 * second) r8.1 r9.1 (match r9.2 with Ok ds => ds | Raise _ => [] end) wid1 (row_of r8.1 wid1)).
  - apply run_to_r8.
  - computed.
  - computed.
Defined.
Lemma fenced_worker_gets_no_work_witness : ∃ e, assign_worker wid1 "w-1" 1 (4 * second) r6.1 = (r6.1, Raise e).
Proof.
  apply (fenced_worker_gets_no_work "w-1" 2 1 60 ["python"] [] second (4 * second) wid1 r3.1 r4.1 r6.1
           (mkHeartbeat "w-1" 2 second (61 * second) ["python"] [])).
  - apply run_r3.
  - computed.
  - apply run_r6.
  - done.
Defined.

(** ** External engines *)
Definition lost_answer : adapter := λ _ _, raise BackendUnknownOutcomeError "connection reset".
Definition good_answer : adapter := λ _ _, Ok (mkReceipt DB_HATCHET true (Some "op-1") (Some "run-9") false "accepted").
Definition remote : WorkflowStartRequest := demo_request "run-3" DB_HATCHET.
Definition e1 := Eval vm_compute in service_start [(DB_HATCHET, lost_answer)] remote "build" second r1.1.
Definition oid3 : string := Eval vm_compute in demo_id "operation" [wid3; "START_WORKFLOW"; "run-3"].
Definition no_operation : DurableOperation := mkOperation "" "" "" "" OS_PENDING JNull "" DB_MOCK None 0 None 0 0.
Lemma settled_start_not_sent_again_witness :
  op_state (default no_operation (o_outbox e1.1 !! oid3)) = OS_UNKNOWN_OUTCOME
  ∧ service_start [(DB_HATCHET, lost_answer)] remote "build" (2 * second) e1.1
    = service_start [(DB_HATCHET, good_answer)] remote "build" (2 * second) e1.1
  ∧ o_outbox (service_start [(DB_HATCHET, lost_answer)] remote "build" (2 * second) e1.1).1 = o_outbox e1.1.
Proof.
  split; [computed|].
  apply (settled_start_not_sent_again [(DB_HATCHET, lost_answer)] [(DB_HATCHET, good_answer)] remote "build" (2 * second) e1.1
           wid3 oid3 (default no_operation (o_outbox e1.1 !! oid3))).
  - computed.
  - computed.
  - computed.
  - computed.
  - apply list_elem_of_singleton. done.
  - apply list_elem_of_singleton. done.
Defined.

(** A workflow of an engine that is not configured is suspended by the start
    that finds it cancelled, and can be resumed: the terminal state is lost. *)
Definition u1 := Eval vm_compute in service_start [] remote "build" second r1.1.
Definition u2 := Eval vm_compute in cancel wid3 (2 * second) u1.1.
Definition u3 := Eval vm_compute in service_start [] remote "build" (3 * second) u2.1.
Definition u4 := Eval vm_compute in resume wid3 (4 * second) u3.1.
Theorem cancelled_workflow_revived :
  row u2.1 wid3 = Some (WS_CANCELLED, 0, 1, None) ∧ row u3.1 wid3 = Some (WS_SUSPENDED, 0, 1, None)
  ∧ row u4.1 wid3 = Some (WS_RUNNING, 0, 1, None).
Proof. vm_compute. by split_and!. Qed.

(** The same checkpoint saved again a second later is refused as a collision
    of identities, since the stored row has another time. *)
Definition k1 := Eval vm_compute in checkpoint wid1 [("progress", JInt 1)] (3 * second) r5.1.
Definition k2 := Eval vm_compute in checkpoint wid1 [("progress", JInt 1)] (4 * second) k1.1.
Theorem repeated_checkpoint_refused :
  ck_attempt <$> k1.2 = Ok 1 ∧ k2.2 = raise OrchestrationConflictError "checkpoint identity collision".
Proof. split; computed. Qed.
