(* ===== verification/AgentDomain.v ===== *)
(** * AgentDomain: [domain/agents.py], providers, models and agents

    The records of the agent router.  Constructors that normalise their
    arguments are functions [new_...]; a registry checks the links between
    its records. *)
From S2P Require Import Prelude PyStd PyRe PyJson Identifiers TaskState ControlDomain SchedulerDomain.
From Stdlib Require Import Ascii.
Local Open Scope Z_scope.

(** ** Identifiers *)
Definition router_identifier (prefix : string) (parts : list string) : result string :=
  _ ← raise_if (bool_decide (parts = []) || existsb (λ p, negb (str_truthy (str_strip p))) parts) ValueError
        "router identifier parts must be non-empty";
  Ok (prefix +:+ "-" +:+ str_upper (str_take 20 (Sha256.hexdigest (str_join unit_separator (str_strip <$> parts))))).
Definition agent_fingerprint (j : json) : string := json_fingerprint j.
(** [value.strip().lower()]. *)
Definition norm_id (s : string) : string := str_lower (str_strip s).
Definition is_capability_char (c : ascii) : bool := is_lower c || is_digit c || Ascii.eqb c "_".
Definition CAPABILITY (s : string) : bool :=
  min_length 3 s && max_length 81 s && fullmatch (Cat (Cls is_lower) (Star (Cls is_capability_char))) s.
Definition is_entity_char (c : ascii) : bool :=
  is_lower c || is_digit c || Ascii.eqb c "." || Ascii.eqb c "_" || Ascii.eqb c ":" || Ascii.eqb c "-".
Definition entity_tail (s : string) : bool :=
  min_length 2 s && max_length 127 s && fullmatch (Cat (Cls (λ c, is_lower c || is_digit c)) (Star (Cls is_entity_char))) s.
Definition ENTITY_ID (s : string) : bool :=
  existsb (λ kind, str_startswith kind s && entity_tail (str_drop (String.length kind) s))
    ["provider:"; "model:"; "agent:"; "tool:"; "adapter:"].
(** [dict.fromkeys(...)]: the first occurrences, in order. *)
Definition fromkeys (l : list string) : list string := reverse (remove_dups (reverse l)).
Definition valid_capabilities (l : list string) (message : string) : result (list string) :=
  let caps := fromkeys (norm_id <$> l) in
  _ ← raise_if (bool_decide (caps = []) || existsb (λ c, negb (CAPABILITY c)) caps) ValueError message;
  Ok caps.
Definition valid_entity (s message : string) : result string :=
  _ ← raise_if (negb (ENTITY_ID (norm_id s))) ValueError message;
  Ok (norm_id s).
Definition valid_capability (s message : string) : result string :=
  _ ← raise_if (negb (CAPABILITY (norm_id s))) ValueError message;
  Ok (norm_id s).
(** [set(a) <= set(b)]. *)
Definition subset (a b : list string) : bool := forallb (λ x, str_in x b) a.
Lemma subset_spec a b : subset a b = true ↔ a ⊆ b.
Proof.
  unfold subset. rewrite forallb_forall. unfold str_in. split.
  - intros Hall x Hx. specialize (Hall x). rewrite existsb_exists in Hall.
    destruct Hall as (y & Hy & ->%String.eqb_eq); by apply list_elem_of_In.
  - intros Hs x Hx. apply existsb_exists. exists x. split; [apply list_elem_of_In, Hs, list_elem_of_In, Hx|apply String.eqb_refl].
Qed.

(** ** States *)
Inductive ProviderRuntimeState :=
  | PR_HEALTHY | PR_DEGRADED | PR_RATE_LIMITED | PR_QUOTA_LOW | PR_BUDGET_EXHAUSTED | PR_AUTH_FAILED | PR_UNAVAILABLE
  | PR_DISABLED | PR_MAINTENANCE | PR_RECOVERING.
#[export] Instance ProviderRuntimeState_eq_dec : EqDecision ProviderRuntimeState.
Proof. solve_decision. Defined.
Definition ProviderRuntimeState_value (s : ProviderRuntimeState) : string :=
  match s with
  | PR_HEALTHY => "HEALTHY" | PR_DEGRADED => "DEGRADED" | PR_RATE_LIMITED => "RATE_LIMITED" | PR_QUOTA_LOW => "QUOTA_LOW"
  | PR_BUDGET_EXHAUSTED => "BUDGET_EXHAUSTED" | PR_AUTH_FAILED => "AUTH_FAILED" | PR_UNAVAILABLE => "UNAVAILABLE"
  | PR_DISABLED => "DISABLED" | PR_MAINTENANCE => "MAINTENANCE" | PR_RECOVERING => "RECOVERING" end.
Inductive CircuitState := CS_CLOSED | CS_OPEN | CS_HALF_OPEN.
#[export] Instance CircuitState_eq_dec : EqDecision CircuitState.
Proof. solve_decision. Defined.
Definition CircuitState_value (s : CircuitState) : string :=
  match s with CS_CLOSED => "CLOSED" | CS_OPEN => "OPEN" | CS_HALF_OPEN => "HALF_OPEN" end.
Inductive QualificationState := QL_QUARANTINED | QL_SHADOW | QL_CANARY | QL_QUALIFIED | QL_REJECTED | QL_EXPIRED.
#[export] Instance QualificationState_eq_dec : EqDecision QualificationState.
Proof. solve_decision. Defined.
Definition QualificationState_value (s : QualificationState) : string :=
  match s with
  | QL_QUARANTINED => "QUARANTINED" | QL_SHADOW => "SHADOW" | QL_CANARY => "CANARY" | QL_QUALIFIED => "QUALIFIED"
  | QL_REJECTED => "REJECTED" | QL_EXPIRED => "EXPIRED" end.
Inductive ExecutionMode := EM_LOCAL_PROCESS | EM_HOSTED_API | EM_SUBSCRIPTION_TOOL | EM_BROWSER | EM_MOCK.
Inductive AuthorityClass := AC_ADVISORY | AC_IMPLEMENTATION | AC_REVIEW | AC_VERIFICATION | AC_RECOVERY | AC_STEWARDSHIP.

(** ** Registry *)
Record CapabilitySpec := mkCapability {
  cp_capability_id : string; cp_description : string; task_classes : list string; quality_tiers : list string;
  requires_tools : list string; risk_ceiling : string;
}.
Definition new_capability (c : CapabilitySpec) : result CapabilitySpec :=
  i ← valid_capability (cp_capability_id c) "capability_id must be lower snake case";
  _ ← raise_if (negb (min_length 1 (cp_description c) && max_length 1000 (cp_description c))) ValidationError "description";
  Ok (mkCapability i (cp_description c) (task_classes c) (quality_tiers c) (requires_tools c) (risk_ceiling c)).
Record ProviderSpec := mkProvider {
  pv_provider_id : string; display_name : string; pv_adapter_id : string; execution_mode : ExecutionMode;
  pv_capabilities : list string; pv_enabled : bool; pv_local : bool; subscription_backed : bool; data_egress : bool;
  cost_behavior : string; constraints : list string; pv_resource_claims : list ResourceClaim;
}.
Definition new_provider (p : ProviderSpec) : result ProviderSpec :=
  let message := "provider and adapter identifiers must be stable namespaced IDs" in
  i ← valid_entity (pv_provider_id p) message;
  _ ← raise_if (negb (min_length 1 (display_name p) && max_length 191 (display_name p))) ValidationError "display_name";
  a ← valid_entity (pv_adapter_id p) message;
  caps ← valid_capabilities (pv_capabilities p) "provider capabilities must be non-empty lower snake case identifiers";
  Ok (mkProvider i (display_name p) a (execution_mode p) caps (pv_enabled p) (pv_local p) (subscription_backed p)
        (data_egress p) (cost_behavior p) (constraints p) (pv_resource_claims p)).
Record ModelSpec := mkModel {
  md_model_id : string; md_provider_id : string; provider_model_name : string; md_version : string;
  md_capabilities : list string; md_quality_tier : string; md_qualification : QualificationState;
  context_limit : option Z; output_limit : option Z; md_local : bool; md_resource_claims : list ResourceClaim;
}.
Definition new_model (m : ModelSpec) : result ModelSpec :=
  let message := "model/provider identifiers must be stable namespaced IDs" in
  i ← valid_entity (md_model_id m) message;
  p ← valid_entity (md_provider_id m) message;
  _ ← raise_if (negb (min_length 1 (provider_model_name m) && max_length 191 (provider_model_name m)
                      && min_length 1 (md_version m) && max_length 191 (md_version m))) ValidationError "version";
  caps ← valid_capabilities (md_capabilities m) "model capabilities must be non-empty lower snake case identifiers";
  _ ← raise_if (negb (opt_all (Z.leb 1) (context_limit m) && opt_all (Z.leb 1) (output_limit m))) ValidationError "limit";
  Ok (mkModel i p (provider_model_name m) (md_version m) caps (md_quality_tier m) (md_qualification m) (context_limit m)
        (output_limit m) (md_local m) (md_resource_claims m)).
Record ToolSpec := mkTool {
  tool_id : string; tl_adapter_id : string; tl_version : string; tl_capabilities : list string;
  tl_qualification : QualificationState; mutating : bool; required_authority_scope : list string;
}.
Definition new_tool (t : ToolSpec) : result ToolSpec :=
  let message := "tool/adapter identifiers must be stable namespaced IDs" in
  i ← valid_entity (tool_id t) message;
  a ← valid_entity (tl_adapter_id t) message;
  Ok (mkTool i a (tl_version t) (tl_capabilities t) (tl_qualification t) (mutating t) (required_authority_scope t)).
Record AgentSpec := mkAgent {
  agent_id : string; ag_model_id : string; ag_capabilities : list string; authority_classes : list AuthorityClass;
  ag_qualification : QualificationState; tool_ids : list string;
}.
Definition new_agent (a : AgentSpec) : result AgentSpec :=
  let message := "agent/model identifiers must be stable namespaced IDs" in
  i ← valid_entity (agent_id a) message;
  m ← valid_entity (ag_model_id a) message;
  Ok (mkAgent i m (ag_capabilities a) (authority_classes a) (ag_qualification a) (tool_ids a)).
Record CapabilityRoutePolicy := mkRoutePolicy {
  cr_capability_id : string; preferred_provider_ids : list string; fallback_provider_ids : list string;
  prefer_local_under_pressure : bool;
}.
Definition new_route_policy (p : CapabilityRoutePolicy) : result CapabilityRoutePolicy :=
  i ← valid_capability (cr_capability_id p) "invalid capability_id";
  Ok (mkRoutePolicy i (preferred_provider_ids p) (fallback_provider_ids p) (prefer_local_under_pressure p)).

Record AgentRegistrySnapshot := mkAgentRegistry {
  registry_id : string; capabilities : list CapabilitySpec; providers : list ProviderSpec; models : list ModelSpec;
  agents : list AgentSpec; tools : list ToolSpec; routing_policies : list CapabilityRoutePolicy; rg_generated_at_utc : Z;
}.
Definition unique (l : list string) (kind : string) : result () :=
  raise_if (has_duplicates l) ValueError ("duplicate " +:+ kind +:+ " identifiers are not allowed").
Definition check_model (known : list string) (ps : gmap string ProviderSpec) (m : ModelSpec) : result () :=
  match ps !! md_provider_id m with
  | None => raise ValueError ("model references unknown provider: " +:+ md_provider_id m)
  | Some p =>
      _ ← raise_if (negb (subset (md_capabilities m) known)) ValueError
            ("model references unknown capabilities: " +:+ md_model_id m);
      raise_if (negb (subset (md_capabilities m) (pv_capabilities p))) ValueError
        ("model capabilities are incompatible with provider: " +:+ md_model_id m)
  end.
Definition check_agent (known known_tools : list string) (ps : gmap string ProviderSpec) (ms : gmap string ModelSpec)
    (a : AgentSpec) : result () :=
  match ms !! ag_model_id a with
  | None => raise ValueError ("agent references unknown model: " +:+ ag_model_id a)
  | Some m =>
      _ ← raise_if (negb (subset (ag_capabilities a) known)) ValueError
            ("agent references unknown capabilities: " +:+ agent_id a);
      _ ← raise_if (negb (subset (tool_ids a) known_tools)) ValueError ("agent references unknown tools: " +:+ agent_id a);
      match ps !! md_provider_id m with
      | None => raise KeyError (md_provider_id m)
      | Some p =>
          raise_if (negb (subset (ag_capabilities a) (List.filter (λ c, str_in c (pv_capabilities p)) (md_capabilities m))))
            ValueError ("agent capabilities are incompatible: " +:+ agent_id a)
      end
  end.
#[export] Instance AgentRegistrySnapshot_model : Model AgentRegistrySnapshot := λ r,
  _ ← unique (cp_capability_id <$> capabilities r) "capability";
  _ ← unique (pv_provider_id <$> providers r) "provider";
  _ ← unique (md_model_id <$> models r) "model";
  _ ← unique (agent_id <$> agents r) "agent";
  _ ← unique (tool_id <$> tools r) "tool";
  let ps := dict_of pv_provider_id (providers r) in
  let ms := dict_of md_model_id (models r) in
  let known := cp_capability_id <$> capabilities r in
  _ ← for_each (check_model known ps) (models r);
  _ ← for_each (check_agent known (tool_id <$> tools r) ps ms) (agents r);
  for_each (λ p, raise_if (negb (subset (pv_capabilities p) known)) ValueError
                   ("provider references unknown capabilities: " +:+ pv_provider_id p)) (providers r).

(** ** Observations and circuits *)
Record ProviderStateObservation := mkObservation {
  po_provider_id : string; po_state : ProviderRuntimeState; po_reason : string; po_observed_at_utc : Z;
  retry_after_utc : option Z; quota_remaining_milli : option Z;
}.
#[export] Instance ProviderStateObservation_model : Model ProviderStateObservation := λ o,
  raise_if (negb (opt_all (λ n, (0 <=? n) && (n <=? 1000)) (quota_remaining_milli o))) ValidationError "quota_remaining_milli".
Record CircuitBreakerPolicy := mkCircuitPolicy { failure_threshold : Z; recovery_seconds : Z; half_open_probe_limit : Z }.
#[export] Instance CircuitBreakerPolicy_model : Model CircuitBreakerPolicy := λ p,
  raise_if (negb ((1 <=? failure_threshold p) && (failure_threshold p <=? 100)
                  && (1 <=? recovery_seconds p) && (recovery_seconds p <=? 86400)
                  && (1 <=? half_open_probe_limit p) && (half_open_probe_limit p <=? 10))) ValidationError "policy".
Definition default_circuit_policy : CircuitBreakerPolicy := mkCircuitPolicy 3 120 1.
Record CircuitBreakerRecord := mkCircuit {
  cb_provider_id : string; cb_state : CircuitState; consecutive_failures : Z; opened_at_utc : option Z;
  half_open_probes : Z; last_failure : option string; cb_updated_at_utc : Z;
}.
#[export] Instance CircuitBreakerRecord_eq_dec : EqDecision CircuitBreakerRecord.
Proof. solve_decision. Defined.
#[export] Instance CircuitBreakerRecord_model : Model CircuitBreakerRecord := λ c,
  raise_if ((consecutive_failures c <? 0) || (half_open_probes c <? 0)) ValidationError "greater_than_equal".
(** [CircuitBreakerRecord(provider_id=..., updated_at_utc=...)]. *)
Definition closed_circuit (provider : string) (when_ : Z) : CircuitBreakerRecord := mkCircuit provider CS_CLOSED 0 None 0 None when_.
Definition permits (c : CircuitBreakerRecord) (when_ : Z) (p : CircuitBreakerPolicy) : bool :=
  match cb_state c with
  | CS_CLOSED => true
  | CS_HALF_OPEN => half_open_probes c <? half_open_probe_limit p
  | CS_OPEN => match opened_at_utc c with None => false | Some t => t + recovery_seconds p * 1000000 <=? when_ end
  end.

(** ** Contracts and results *)
Record NormalizedUsage := mkUsage {
  input_units : Z; output_units : Z; cached_input_units : Z; request_count : Z; us_cost_microunits : option Z;
}.
#[export] Instance NormalizedUsage_model : Model NormalizedUsage := λ u,
  raise_if ((input_units u <? 0) || (output_units u <? 0) || (cached_input_units u <? 0) || (request_count u <? 0)
            || negb (opt_all (Z.leb 0) (us_cost_microunits u))) ValidationError "greater_than_equal".
Record ExecutionTaskContract := mkContract {
  ct_task_id : string; ct_task_class : string; required_capabilities : list string; ct_quality_tier : string; ct_risk : string;
  ct_instructions : string; ct_context : json; output_schema : json; maximum_cost_microunits : option Z;
  allow_data_egress : bool; allow_degraded : bool; allow_canary : bool;
}.
Definition new_contract (c : ExecutionTaskContract) : result ExecutionTaskContract :=
  _ ← raise_if (negb (min_length 1 (ct_task_id c) && max_length 191 (ct_task_id c) && min_length 1 (ct_task_class c)
                      && max_length 100 (ct_task_class c) && min_length 1 (ct_instructions c)
                      && (Z.of_nat (String.length (ct_instructions c)) <=? 100000))) ValidationError "length";
  caps ← valid_capabilities (required_capabilities c) "required_capabilities must be non-empty lower snake case";
  _ ← raise_if (negb (opt_all (Z.leb 0) (maximum_cost_microunits c))) ValidationError "maximum_cost_microunits";
  Ok (mkContract (ct_task_id c) (ct_task_class c) caps (ct_quality_tier c) (ct_risk c) (ct_instructions c) (ct_context c)
        (output_schema c) (maximum_cost_microunits c) (allow_data_egress c) (allow_degraded c) (allow_canary c)).
(** [request.model_dump(mode="json")]. *)
Definition contract_json (c : ExecutionTaskContract) : json :=
  JObj [("schema_version", JStr "1.0.0"); ("task_id", JStr (ct_task_id c)); ("task_class", JStr (ct_task_class c));
        ("required_capabilities", JList (JStr <$> required_capabilities c)); ("quality_tier", JStr (ct_quality_tier c));
        ("risk", JStr (ct_risk c)); ("instructions", JStr (ct_instructions c)); ("context", ct_context c);
        ("output_schema", output_schema c); ("maximum_cost_microunits", JOptInt (maximum_cost_microunits c));
        ("allow_data_egress", JBool (allow_data_egress c)); ("allow_degraded", JBool (allow_degraded c));
        ("allow_canary", JBool (allow_canary c))].
Record ProviderInvocationResult := mkInvocation {
  iv_provider_id : string; iv_model_id : option string; iv_agent_id : option string; iv_output : json; usage : NormalizedUsage;
  provider_request_id : option string; finish_reason : option string; evidence_references : list string;
}.
Record PerformanceObservation := mkPerformance {
  observation_id : string; pf_target_id : string; pf_capability_id : string; pf_task_class : string; pf_success : bool;
  latency_ms : Z; pf_cost_microunits : option Z; retry_count : Z; rework_count : Z; review_findings : Z;
  pf_quality_milli : Z; pf_observed_at_utc : Z; synthetic : bool; pf_evidence_id : option string;
}.
#[export] Instance PerformanceObservation_model : Model PerformanceObservation := λ o,
  _ ← raise_if ((latency_ms o <? 0) || negb (opt_all (Z.leb 0) (pf_cost_microunits o)) || (retry_count o <? 0)
                || (rework_count o <? 0) || (review_findings o <? 0)) ValidationError "greater_than_equal";
  raise_if (negb ((0 <=? pf_quality_milli o) && (pf_quality_milli o <=? 1000))) ValidationError "quality_milli".
Record PerformanceSummary := mkSummary {
  sm_target_id : string; sm_capability_id : string; sample_count : Z; success_milli : Z; sm_quality_milli : Z;
  mean_latency_ms : Z; mean_cost_microunits : option Z;
}.
#[export] Instance PerformanceSummary_model : Model PerformanceSummary := λ s,
  raise_if (negb ((0 <=? sample_count s) && (0 <=? success_milli s) && (success_milli s <=? 1000) && (0 <=? sm_quality_milli s)
                  && (sm_quality_milli s <=? 1000) && (0 <=? mean_latency_ms s) && opt_all (Z.leb 0) (mean_cost_microunits s)))
    ValidationError "summary".
Record RouteCandidate := mkCandidate {
  rc_agent_id : string; rc_model_id : string; rc_provider_id : string; rc_adapter_id : string; eligible : bool;
  rc_reasons : list string; fallback_rank : Z; score : Z; rc_provider_state : ProviderRuntimeState;
  rc_circuit_state : CircuitState; rc_qualification : QualificationState; rc_performance : option PerformanceSummary;
}.
#[export] Instance RouteCandidate_model : Model RouteCandidate := λ c,
  raise_if (fallback_rank c <? 0) ValidationError "fallback_rank".
Record RoutingDecision := mkRouting {
  rd_decision_id : string; request_fingerprint : string; rd_task_id : string; rd_required_capabilities : list string;
  candidates : list RouteCandidate; selected_agent_id : option string; selected_model_id : option string;
  selected_provider_id : option string; rd_generated_at_utc : Z; no_route_reasons : list string;
}.
Record QualificationCheckResult := mkCheck { check_name : string; check_passed : bool; check_detail : string }.
Record AdapterQualificationReport := mkReport {
  report_id : string; subject_id : string; subject_version : string; checks : list QualificationCheckResult;
  rp_state : QualificationState; evaluated_at_utc : Z; rollback_ready : bool;
}.
Record ExecutionAttempt := mkAttempt {
  attempt_id : string; at_provider_id : string; at_model_id : string; at_agent_id : string; at_succeeded : bool;
  at_retryable : bool; error_kind : option string; error_message : option string; at_result : option ProviderInvocationResult;
  started_at_utc : Z; finished_at_utc : Z;
}.
Record ExecutionReceipt := mkExecutionReceipt {
  receipt_id : string; rx_task_id : string; routing_decision_id : string; attempts : list ExecutionAttempt; rx_succeeded : bool;
  rx_result : option ProviderInvocationResult; rx_generated_at_utc : Z;
}.
