(* ===== verification/AgentRouter.v ===== *)
(** * AgentRouter: circuits, performance, routing and qualification

    [agent_router/circuit.py], [agent_router/performance.py],
    [agent_router/router.py] and the reports of
    [agent_router/qualification.py]. *)
From S2P Require Import Prelude PyStd PyRe PyJson Identifiers TaskState ControlDomain SchedulerDomain LanePolicy AgentDomain.
From Stdlib Require Import SpecFloat.
Local Open Scope Z_scope.

(** ** Circuit breakers *)
Definition normalize_circuit (r : CircuitBreakerRecord) (p : CircuitBreakerPolicy) (when_ : Z) : CircuitBreakerRecord :=
  if bool_decide (cb_state r = CS_OPEN) && permits r when_ p then
    mkCircuit (cb_provider_id r) CS_HALF_OPEN (consecutive_failures r) (opened_at_utc r) 0 (last_failure r) when_
  else r.
Definition record_failure (r : CircuitBreakerRecord) (p : CircuitBreakerPolicy) (when_ : Z) (reason : string)
  : CircuitBreakerRecord :=
  let r := normalize_circuit r p when_ in
  let failures := consecutive_failures r + 1 in
  if bool_decide (cb_state r = CS_HALF_OPEN) || (failure_threshold p <=? failures) then
    mkCircuit (cb_provider_id r) CS_OPEN failures (Some when_) 0 (Some reason) when_
  else mkCircuit (cb_provider_id r) (cb_state r) failures (opened_at_utc r) (half_open_probes r) (Some reason) when_.
Definition record_success (r : CircuitBreakerRecord) (when_ : Z) : CircuitBreakerRecord :=
  mkCircuit (cb_provider_id r) CS_CLOSED 0 None 0 None when_.
Definition record_probe (r : CircuitBreakerRecord) (p : CircuitBreakerPolicy) (when_ : Z) : CircuitBreakerRecord :=
  let r := normalize_circuit r p when_ in
  if negb (bool_decide (cb_state r = CS_HALF_OPEN)) || (half_open_probe_limit p <=? half_open_probes r) then r
  else mkCircuit (cb_provider_id r) (cb_state r) (consecutive_failures r) (opened_at_utc r) (half_open_probes r + 1)
         (last_failure r) when_.

(** ** Performance *)
(** [round(x)]: to the nearest integer, ties to even. *)
Definition py_round (x : PyFloat.float) : result Z :=
  match x with
  | S754_zero _ => Ok 0
  | S754_finite s m e =>
      let a :=
        if 0 <=? e then Zpos m * 2 ^ e
        else
          let d := 2 ^ (- e) in
          let q := Zpos m / d in
          match Z.compare (2 * (Zpos m mod d)) d with Lt => q | Gt => q + 1 | Eq => if Z.even q then q else q + 1 end in
      Ok (if s then - a else a)
  | S754_infinity _ => raise OverflowError "cannot convert float infinity to integer"
  | S754_nan => raise ValueError "cannot convert float NaN to integer"
  end.
(** [round(total / count)]. *)
Definition rounded_mean (total count : Z) : result Z := py_round (PyFloat.truediv total count).
Definition DEFAULT_MAX_AGE : Z := 7 * 86400 * 1000000.
Definition perf_key : Type := string * string.
(** [grouped[key].append(item)], keys in order of first use. *)
Fixpoint group_append (key : perf_key) (o : PerformanceObservation) (groups : list (perf_key * list PerformanceObservation))
  : list (perf_key * list PerformanceObservation) :=
  match groups with
  | [] => [(key, [o])]
  | (k, l) :: rest => if bool_decide (k = key) then (k, l ++ [o]) :: rest else (k, l) :: group_append key o rest
  end.
Fixpoint group_observations (now max_age : Z) (allow_synthetic : bool) (os : list PerformanceObservation)
    (groups : list (perf_key * list PerformanceObservation)) : result (list (perf_key * list PerformanceObservation)) :=
  match os with
  | [] => Ok groups
  | o :: os =>
      _ ← raise_if (synthetic o && negb allow_synthetic) ValueError
            "synthetic performance observations cannot enter production routing";
      group_observations now max_age allow_synthetic os
        (if max_age <? now - pf_observed_at_utc o then groups
         else group_append (pf_target_id o, pf_capability_id o) o groups)
  end.
Definition summarize_group (g : perf_key * list PerformanceObservation) : result (perf_key * PerformanceSummary) :=
  let '(key, l) := g in
  let n := Z.of_nat (length l) in
  let costs := omap pf_cost_microunits l in
  ok_milli ← rounded_mean (Z.of_nat (length (List.filter pf_success l)) * 1000) n;
  quality ← rounded_mean (Z_sum (pf_quality_milli <$> l)) n;
  latency ← rounded_mean (Z_sum (latency_ms <$> l)) n;
  cost ← (if bool_decide (costs = []) then Ok None
          else c ← rounded_mean (Z_sum costs) (Z.of_nat (length costs)); Ok (Some c));
  s ← new (mkSummary key.1 key.2 n ok_milli quality latency cost);
  Ok (key, s).
Definition summarize_performance (os : list PerformanceObservation) (now max_age : Z) (allow_synthetic : bool)
  : result (list (perf_key * PerformanceSummary)) :=
  groups ← group_observations now max_age allow_synthetic os [];
  traverse summarize_group groups.
Definition perf_get (perf : list (perf_key * PerformanceSummary)) (k : perf_key) : option PerformanceSummary :=
  snd <$> List.find (λ kv, bool_decide (kv.1 = k)) perf.

(** ** Routing *)
Definition _ALLOWED_NORMAL : list ProviderRuntimeState := [PR_HEALTHY].
Definition _ALLOWED_DEGRADED : list ProviderRuntimeState := [PR_DEGRADED; PR_QUOTA_LOW; PR_RECOVERING].
Definition _PRESSURE_STATES : list ProviderRuntimeState :=
  [PR_DEGRADED; PR_RATE_LIMITED; PR_QUOTA_LOW; PR_BUDGET_EXHAUSTED; PR_AUTH_FAILED; PR_UNAVAILABLE; PR_DISABLED; PR_MAINTENANCE].
(** The dictionaries a routing looks things up in. *)
Record route_context := mkContext {
  cx_request : ExecutionTaskContract;
  cx_circuit_policy : CircuitBreakerPolicy;
  cx_now : Z;
  cx_states : gmap string ProviderStateObservation;
  cx_circuits : gmap string CircuitBreakerRecord;
  cx_perf : list (perf_key * PerformanceSummary);
  cx_providers : gmap string ProviderSpec;
  cx_models : gmap string ModelSpec;
  cx_policy : option CapabilityRoutePolicy;
}.
Definition primary_policy (r : ExecutionTaskContract) (reg : AgentRegistrySnapshot) : option CapabilityRoutePolicy :=
  c ← head (required_capabilities r); dict_of cr_capability_id (routing_policies reg) !! c.
(** [{provider_id: index for index, provider_id in enumerate(order)}]. *)
Fixpoint index_from (n : Z) (l : list string) (m : gmap string Z) : gmap string Z :=
  match l with [] => m | x :: l => index_from (n + 1) l (<[x := n]> m) end.
Definition order_index (p : option CapabilityRoutePolicy) : gmap string Z :=
  match p with Some p => index_from 0 (preferred_provider_ids p ++ fallback_provider_ids p) ∅ | None => ∅ end.
Section context.
Context (cx : route_context).
Definition provider_pressed (pid : string) : bool :=
  match cx_states cx !! pid with Some o => bool_decide (po_state o ∈ _PRESSURE_STATES) | None => false end
  || match cx_circuits cx !! pid with Some c => negb (permits c (cx_now cx) (cx_circuit_policy cx)) | None => false end.
Definition under_pressure : bool :=
  match cx_policy cx with
  | Some p => prefer_local_under_pressure p && existsb provider_pressed (preferred_provider_ids p)
  | None => false
  end.
Definition qualification_rank (q : QualificationState) : Z :=
  match q with
  | QL_REJECTED => 0 | QL_EXPIRED => 1 | QL_QUARANTINED => 2 | QL_SHADOW => 3 | QL_CANARY => 4 | QL_QUALIFIED => 5 end.
Definition weaker (a b : QualificationState) : QualificationState :=
  if qualification_rank b <? qualification_rank a then b else a.
Definition provider_observation (pid : string) : ProviderStateObservation :=
  default (mkObservation pid PR_UNAVAILABLE "no_runtime_observation" (cx_now cx) None None) (cx_states cx !! pid).
Definition provider_circuit (pid : string) : CircuitBreakerRecord :=
  default (closed_circuit pid (cx_now cx)) (cx_circuits cx !! pid).
Definition allowed_states : list ProviderRuntimeState :=
  _ALLOWED_NORMAL ++ (if allow_degraded (cx_request cx) then _ALLOWED_DEGRADED else []).
Definition target_performance (a : AgentSpec) (m : ModelSpec) : option PerformanceSummary :=
  head (omap (λ cap, match perf_get (cx_perf cx) (agent_id a, cap) with
                     | Some s => Some s | None => perf_get (cx_perf cx) (md_model_id m, cap) end)
          (required_capabilities (cx_request cx))).
(** A reason under its condition. *)
Definition reason_if (b : bool) (s : string) : list string := if b then [s] else [].
Definition route_reasons (a : AgentSpec) (m : ModelSpec) (p : ProviderSpec) : list string :=
  let rq := cx_request cx in
  let q := weaker (ag_qualification a) (md_qualification m) in
  let o := provider_observation (pv_provider_id p) in
  let c := provider_circuit (pv_provider_id p) in
  reason_if (negb (pv_enabled p)) "provider_disabled_by_configuration"
  ++ reason_if (negb (allow_data_egress rq) && data_egress p) "data_egress_not_allowed"
  ++ reason_if (negb (String.eqb (md_quality_tier m) (ct_quality_tier rq)) && negb (str_in (ct_quality_tier rq) ["standard"; "any"]))
       ("quality_tier:" +:+ md_quality_tier m)
  ++ reason_if (if bool_decide (q = QL_CANARY) then negb (allow_canary rq) else negb (bool_decide (q = QL_QUALIFIED)))
       ("qualification:" +:+ QualificationState_value q)
  ++ reason_if (negb (bool_decide (po_state o ∈ allowed_states))) ("provider_state:" +:+ ProviderRuntimeState_value (po_state o))
  ++ reason_if (negb (permits c (cx_now cx) (cx_circuit_policy cx))) ("circuit:" +:+ CircuitState_value (cb_state c))
  ++ reason_if (match maximum_cost_microunits rq, (target_performance a m ≫= mean_cost_microunits) with
                | Some limit, Some cost => limit <? cost | _, _ => false end) "estimated_cost_above_contract_limit".
Definition route_rank (p : ProviderSpec) : Z := default 5000 (order_index (cx_policy cx) !! pv_provider_id p).
Definition route_score (a : AgentSpec) (m : ModelSpec) (p : ProviderSpec) : Z :=
  100000 - route_rank p * 1000
  + (if pv_local p then 300 else 0)
  + (if under_pressure && pv_local p then 5000 else 0)
  + match po_state (provider_observation (pv_provider_id p)) with
    | PR_HEALTHY => 500 | PR_DEGRADED => -250 | PR_QUOTA_LOW => -500 | _ => 0 end
  + match target_performance a m with
    | None => 0
    | Some s => success_milli s + sm_quality_milli s - Z.min (mean_latency_ms s / 10) 2000
                - match mean_cost_microunits s with Some c => Z.min (c / 1000) 2000 | None => 0 end
    end.
(** What the loop does for one agent: nothing, or a candidate. *)
Definition capable (a : AgentSpec) (m : ModelSpec) (p : ProviderSpec) : bool :=
  let required := required_capabilities (cx_request cx) in
  subset required (ag_capabilities a) && subset required (md_capabilities m) && subset required (pv_capabilities p).
Definition target (a : AgentSpec) : option (ModelSpec * ProviderSpec) :=
  m ← cx_models cx !! ag_model_id a;
  p ← cx_providers cx !! md_provider_id m;
  if capable a m p then Some (m, p) else None.
Definition candidate_of (a : AgentSpec) (m : ModelSpec) (p : ProviderSpec) : RouteCandidate :=
  let reasons := route_reasons a m p in
  mkCandidate (agent_id a) (md_model_id m) (pv_provider_id p) (pv_adapter_id p) (bool_decide (reasons = [])) reasons
    (route_rank p) (route_score a m p) (po_state (provider_observation (pv_provider_id p)))
    (cb_state (provider_circuit (pv_provider_id p))) (weaker (ag_qualification a) (md_qualification m)) (target_performance a m).
Definition route_candidate (a : AgentSpec) : result (option RouteCandidate) :=
  match target a with
  | None => Ok None
  | Some (m, p) => c ← new (candidate_of a m p); Ok (Some c)
  end.
End context.
Definition candidate_key (c : RouteCandidate) : Z * Z * Z * string * string * string :=
  ((if eligible c then 0 else 1), - score c, fallback_rank c, rc_provider_id c, rc_model_id c, rc_agent_id c).
Definition no_route (selected : option RouteCandidate) (cs : list RouteCandidate) : list string :=
  match selected with
  | Some _ => []
  | None => if bool_decide (cs = []) then ["no_capability_match"] else sorted_set (cs ≫= rc_reasons)
  end.
Definition route_context_of (circuit_policy : CircuitBreakerPolicy) (request : ExecutionTaskContract) (reg : AgentRegistrySnapshot)
    (provider_states : list ProviderStateObservation) (circuit_records : list CircuitBreakerRecord)
    (perf : list (perf_key * PerformanceSummary)) (now : Z) : route_context :=
  mkContext request circuit_policy now (dict_of po_provider_id provider_states)
    (dict_of cb_provider_id ((λ c, normalize_circuit c circuit_policy now) <$> circuit_records)) perf
    (dict_of pv_provider_id (providers reg)) (dict_of md_model_id (models reg)) (primary_policy request reg).
Definition route (circuit_policy : CircuitBreakerPolicy) (request : ExecutionTaskContract) (reg : AgentRegistrySnapshot)
    (provider_states : list ProviderStateObservation) (circuit_records : list CircuitBreakerRecord)
    (performance : list PerformanceObservation) (now : Z) : result RoutingDecision :=
  perf ← summarize_performance performance now DEFAULT_MAX_AGE false;
  let cx := route_context_of circuit_policy request reg provider_states circuit_records perf now in
  found ← traverse (route_candidate cx) (agents reg);
  let cs := sorted_by candidate_key (somes found) in
  let selected := List.find eligible cs in
  let fp := agent_fingerprint (contract_json request) in
  i ← router_identifier "ROUTE" [ct_task_id request; fp; registry_id reg];
  Ok (mkRouting i fp (ct_task_id request) (required_capabilities request) cs (rc_agent_id <$> selected)
        (rc_model_id <$> selected) (rc_provider_id <$> selected) now (no_route selected cs)).

(** ** Qualification *)
Definition REQUIRED_ADAPTER_CHECKS : list string :=
  ["health"; "execution"; "cancellation"; "usage"; "timeout"; "malformed_output"; "quota"; "checkpoint";
   "context_acknowledgement"].
Definition qualification_word (s : QualificationState) : string :=
  if bool_decide (s = QL_QUALIFIED) then "qualified" else "quarantined".
Definition qualification_report (subject version : string) (cs : list QualificationCheckResult) (rollback : bool) (when_ : Z)
  : result AdapterQualificationReport :=
  let by_name := dict_of check_name cs in
  let complete := forallb (λ n, match by_name !! n with Some c => check_passed c | None => false end) REQUIRED_ADAPTER_CHECKS in
  let state := if complete && rollback then QL_QUALIFIED else QL_QUARANTINED in
  i ← router_identifier "QUAL" [subject; version; qualification_word state];
  Ok (mkReport i subject version (snd <$> sorted_by fst (map_to_list by_name)) state when_ rollback).
Definition accept_qualification_report (r : AdapterQualificationReport) (subject version : string) (now max_age : Z)
  : result AdapterQualificationReport :=
  _ ← raise_if (negb (String.eqb (subject_id r) subject) || negb (String.eqb (subject_version r) version)) ValueError
        "qualification report subject does not match the requested adapter";
  _ ← raise_if (max_age <? now - evaluated_at_utc r) ValueError "qualification report is stale";
  i ← router_identifier "QUAL" [subject_id r; subject_version r; qualification_word (rp_state r)];
  _ ← raise_if (negb (String.eqb (report_id r) i)) ValueError "qualification report identity is forged or incompatible";
  Ok r.
