(* ===== verification/AgentPerformance.v ===== *)
(** * AgentPerformance: means computed in binary64, and circuit breakers

    [round(total / count)] of the performance summaries stays within the
    bounds of its terms, so that the summaries of valid observations are
    valid. *)
From S2P Require Import Prelude PyStd PyRe PyJson Identifiers TaskState ControlDomain SchedulerDomain LanePolicy AgentDomain AgentRouter.
From Stdlib Require Import SpecFloat.
Local Open Scope Z_scope.

(** ** Shifting keeps the value from below *)
Lemma shr_1_half r : 0 ≤ shr_m r → 0 ≤ shr_m (shr_1 r) ∧ 2 * shr_m (shr_1 r) ≤ shr_m r.
Proof. destruct r as [[|[p|p|]|p] ? ?]; simpl; lia. Qed.
Lemma iter_shr_half p r : 0 ≤ shr_m r → 0 ≤ shr_m (iter_pos shr_1 p r) ∧ 2 ^ Zpos p * shr_m (iter_pos shr_1 p r) ≤ shr_m r.
Proof.
  revert r. induction p as [p IH|p IH|]; intros r Hr; cbn [iter_pos].
  - pose proof (shr_1_half r Hr) as [H0 H1]. pose proof (IH _ H0) as [H2 H3]. pose proof (IH _ H2) as [H4 H5].
    rewrite (Pos2Z.inj_xI p). 
    assert (2 ^ (2 * Zpos p + 1) = 2 ^ Zpos p * 2 ^ Zpos p * 2) as -> by (rewrite <-Z.add_diag, !Z.pow_add_r by lia; done).
    split; [done|]. nia.
  - pose proof (IH r Hr) as [H2 H3]. pose proof (IH _ H2) as [H4 H5].
    rewrite (Pos2Z.inj_xO p).
    assert (2 ^ (2 * Zpos p) = 2 ^ Zpos p * 2 ^ Zpos p) as -> by (rewrite <-Z.add_diag, Z.pow_add_r by lia; done). split; [done|]. nia.
  - pose proof (shr_1_half r Hr) as [H0 H1]. split; [done|]. simpl (2 ^ 1). lia.
Qed.
Lemma shr_fexp_value m e l : 0 ≤ m → ∃ r e', shr_fexp 53 1024 m e l = (r, e') ∧ e ≤ e' ∧ 0 ≤ shr_m r
  ∧ shr_m r * 2 ^ (e' - e) ≤ m ∧ e' ≤ Z.max e (fexp 53 1024 (Zdigits2 m + e)).
Proof.
  intros Hm. unfold shr_fexp. assert (shr_m (shr_record_of_loc m l) = m) as Hr by (by destruct l as [|[]]).
  destruct (fexp 53 1024 (Zdigits2 m + e) - e) as [|p|p] eqn:E; cbn [shr]; do 2 eexists; (split; [reflexivity|]).
  - rewrite Z.sub_diag, Hr. lia.
  - pose proof (iter_shr_half p (shr_record_of_loc m l)) as Hh. rewrite Hr in Hh. specialize (Hh Hm).
    replace (e + Zpos p - e) with (Zpos p) by lia. lia.
  - rewrite Z.sub_diag, Hr. lia.
Qed.
(** A value below [2^k] has at most [k] digits. *)
Lemma digits_value m e k : 0 ≤ m → 0 ≤ k - e → m < 2 ^ (k - e) → Zdigits2 m + e ≤ k.
Proof. intros Hm Hk Hlt. pose proof (PyFloat.Zdigits2_le m (k - e)). lia. Qed.
(** Rounding a value of at most [K] gives a float just above [K] at most. *)
Lemma rounded_value m e l K : 0 ≤ K < 2 ^ 40 → 0 ≤ m → e ≤ -12 → m ≤ K * 2 ^ (- e) →
  ∃ x, binary_round_aux 53 1024 false m e l = x ∧
    (x = S754_zero false ∨ ∃ p e', x = S754_finite false p e' ∧ e' ≤ -11 ∧ Zpos p ≤ K * 2 ^ (- e') + 1).
Proof.
  intros HK Hm He Hv. unfold binary_round_aux.
  destruct (shr_fexp_value m e l Hm) as (r & e1 & -> & Hle & Hr0 & Hr & He1).
  assert (Zdigits2 m + e ≤ 40) as Hd.
  { apply digits_value; [lia..|]. replace (40 - e) with (40 + - e) by lia. rewrite Z.pow_add_r by lia. nia. }
  assert (e1 ≤ -12) as He1' by (unfold fexp, emin in He1; lia).
  assert (shr_m r ≤ K * 2 ^ (- e1)) as Hr'.
  { replace (- e) with (- e1 + (e1 - e)) in Hv by lia. rewrite Z.pow_add_r in Hv by lia.
    assert (0 < 2 ^ (e1 - e)) by (apply Z.pow_pos_nonneg; lia). nia. }
  set (m1 := round_nearest_even _ _). pose proof (PyFloat.round_nearest_even_bound (shr_m r) (loc_of_shr_record r) Hr0) as Hm1.
  fold m1 in Hm1. destruct (shr_fexp_value m1 e1 loc_Exact) as (r2 & e2 & -> & Hle2 & Hr20 & Hr2 & He2); [lia|].
  assert (0 < 2 ^ (- e1)) as Hp1 by (apply Z.pow_pos_nonneg; lia).
  assert (Zdigits2 m1 + e1 ≤ 41) as Hd1.
  { apply digits_value; [lia..|]. replace (41 - e1) with (41 + - e1) by lia. rewrite Z.pow_add_r by lia. nia. }
  assert (e2 ≤ -12) as He2' by (unfold fexp, emin in He2; lia).
  eexists. split; [reflexivity|]. destruct (shr_m r2) as [|p|p] eqn:Ep; [by left| |lia].
  destruct (Z.leb_spec e2 (1024 - 53)); [|lia]. right. exists p, e2. split_and!; [done|lia|].
  assert (0 < 2 ^ (e2 - e1)) as Hp2 by (apply Z.pow_pos_nonneg; lia).
  replace (- e1) with (- e2 + (e2 - e1)) in Hr' by lia. rewrite Z.pow_add_r in Hr' by lia.
  assert (Zpos p * 2 ^ (e2 - e1) ≤ (K * 2 ^ (- e2) + 1) * 2 ^ (e2 - e1)) by nia. nia.
Qed.
Lemma quotient_value a b K : 0 < a < 2 ^ 64 → 0 < b < 2 ^ 64 → 0 ≤ K < 2 ^ 40 → a ≤ K * b →
  ∃ x, PyFloat.truediv a b = x ∧
    (x = S754_zero false ∨ ∃ p e', x = S754_finite false p e' ∧ e' ≤ -11 ∧ Zpos p ≤ K * 2 ^ (- e') + 1).
Proof.
  intros Ha Hb HK Hle. unfold PyFloat.truediv. destruct a as [|a|a], b as [|b|b]; try lia.
  cbn [PyFloat.exact SFdiv xorb]. unfold SFdiv_core_binary. set (e' := Z.min _ _).
  assert (e' ≤ -12) as He.
  { unfold e', fexp, emin. pose proof (PyFloat.Zdigits2_le (Zpos a) (Zdigits2 (Zpos b) + 40)) as Hd.
    simpl Zdigits2 in *. rewrite !PyFloat.digits2_pos_log2 in *. pose proof (Z.log2_nonneg (Zpos b)).
    assert (Zpos a < 2 ^ (Z.log2 (Zpos b) + 1 + 40)).
    { rewrite Z.pow_add_r by lia. pose proof (Z.log2_spec (Zpos b)) as Hl. rewrite Z.add_1_r. nia. }
    lia. }
  set (m := match _ with Z0 => _ | Zpos _ => _ | Zneg _ => _ end).
  assert (m = Zpos a * 2 ^ (- e')) as Hm.
  { unfold m. replace (0 - 0 - e') with (- e') by lia. destruct (- e') as [|s|s] eqn:Es; [lia| |lia].
    by rewrite Z.shiftl_mul_pow2. }
  destruct (Z.div_eucl m (Zpos b)) as [q r] eqn:Eq. pose proof (Z_div_mod m (Zpos b)) as Hdm. rewrite Eq in Hdm.
  assert (0 < 2 ^ (- e')) by (apply Z.pow_pos_nonneg; lia).
  apply rounded_value; [done|nia|done|]. assert (q * Zpos b ≤ K * 2 ^ (- e') * Zpos b) by nia. nia.
Qed.
Lemma py_round_ok x : PyFloat.nonneg x = true → is_ok (PyFloat.trunc x) = true → ∃ z, py_round x = Ok z ∧ 0 ≤ z.
Proof.
  destruct x as [s|s| |s m e]; try done; cbn [py_round]; [by exists 0|]. destruct s; [done|]. intros _ _. eexists. split; [done|].
  destruct (Z.leb_spec 0 e); [apply Z.mul_nonneg_nonneg; [lia|by apply Z.pow_nonneg]|].
  assert (0 < 2 ^ (- e)) by (apply Z.pow_pos_nonneg; lia). pose proof (Z.div_pos (Zpos m) (2 ^ (- e))).
  cbv zeta. destruct (Z.compare _ _); [destruct (Z.even _)|..]; lia.
Qed.
Lemma py_round_below x K p e : x = S754_finite false p e → e ≤ -11 → Zpos p ≤ K * 2 ^ (- e) + 1 → ∀ z, py_round x = Ok z → z ≤ K.
Proof.
  intros -> He Hp z. cbn [py_round]. destruct (Z.leb_spec 0 e); [lia|]. intros [= <-]. set (d := 2 ^ (- e)) in *.
  assert (2 ^ 11 ≤ d) as Hd by (apply Z.pow_le_mono_r; lia). change (2 ^ 11) with 2048 in Hd.
  pose proof (Z.div_mod (Zpos p) d) as Hdm. pose proof (Z.mod_pos_bound (Zpos p) d) as Hmod.
  set (q := Zpos p / d) in *. set (r := Zpos p mod d) in *.
  assert (q < K ∨ q = K ∧ r ≤ 1) as Hq by nia. cbv zeta.
  destruct (Z.compare_spec (2 * r) d); [destruct (Z.even q)|..]; lia.
Qed.
Lemma rounded_mean_ok a b : 0 ≤ a < 2 ^ 64 → 0 < b < 2 ^ 64 →
  ∃ z, rounded_mean a b = Ok z ∧ 0 ≤ z ∧ ∀ K, 0 ≤ K < 2 ^ 40 → a ≤ K * b → z ≤ K.
Proof.
  intros Ha Hb. destruct (PyFloat.truediv_finite a b Ha Hb) as (x & Ex & Hn & Hok).
  destruct (py_round_ok x Hn Hok) as (z & Ez & Hz). exists z. unfold rounded_mean. rewrite Ex. split_and!; [done..|].
  intros K HK Hle. destruct (decide (a = 0)) as [->|Ha0].
  - rewrite <-Ex in Ez. destruct b; try lia. injection Ez as <-. lia.
  - destruct (quotient_value a b K) as (y & Ey & Hy); [lia..|]. rewrite Ex in Ey. subst y.
    destruct Hy as [->|(p & e & E & He & Hp)]; [injection Ez as <-; lia|]. by eapply py_round_below.
Qed.

(** ** Summaries *)
(** What a group sums up to, in the range of the machine's division. *)
Record measured (l : list PerformanceObservation) : Prop := {
  measured_count : Z.of_nat (length l) < 2 ^ 50;
  measured_latency : Z_sum (latency_ms <$> l) < 2 ^ 64;
  measured_cost : Z_sum (omap pf_cost_microunits l) < 2 ^ 64;
}.
Lemma observation_bounds o : validate o = Ok () → 0 ≤ latency_ms o ∧ 0 ≤ pf_quality_milli o ≤ 1000
  ∧ ∀ c, pf_cost_microunits o = Some c → 0 ≤ c.
Proof.
  unfold validate, PerformanceObservation_model. intros Hv. apply bind_ok in Hv as ([] & H1 & H2).
  apply raise_if_ok in H1, H2. repeat (apply orb_false_iff in H1 as [H1 ?]). apply negb_false_iff, andb_true_iff in H2 as [H2 Hq].
  split_and!; [lia..|]. intros c Hc. rewrite Hc in *. cbn in *. lia.
Qed.
Lemma Z_sum_bounds {A} (f : A → Z) l lo hi : (∀ x, x ∈ l → lo ≤ f x ≤ hi) →
  lo * Z.of_nat (length l) ≤ Z_sum (f <$> l) ≤ hi * Z.of_nat (length l).
Proof.
  induction l as [|x l IH]; intros Hl; [cbn; lia|]. cbn [fmap list_fmap Z_sum foldr length].
  pose proof (Hl x ltac:(left)). specialize (IH ltac:(intros y Hy; apply Hl; by right)). unfold Z_sum in IH. cbn in IH. lia.
Qed.
Lemma Z_sum_nonneg' l : (∀ z, z ∈ l → 0 ≤ z) → 0 ≤ Z_sum l.
Proof. induction l as [|z l IH]; intros Hl; [done|]. pose proof (Hl z ltac:(left)). cbn. apply Z.add_nonneg_nonneg; [done|]. apply IH. set_solver. Qed.
Lemma summarize_group_ok key l : l ≠ [] → measured l → (∀ o, o ∈ l → validate o = Ok ()) →
  ∃ s, summarize_group (key, l) = Ok (key, s).
Proof.
  intros Hne [Hn Hlat Hcost] Hv. unfold summarize_group. set (n := Z.of_nat (length l)) in *.
  assert (0 < n) as Hn0 by (unfold n; destruct l; [done|cbn; lia]).
  assert (Z.of_nat (length (List.filter pf_success l)) ≤ n) as Hs.
  { apply inj_le. apply sublist_length, filter_sublist. }
  pose proof (Z_sum_bounds pf_quality_milli l 0 1000) as Hq. specialize (Hq ltac:(intros o Ho; by apply observation_bounds, Hv)).
  fold n in Hq. assert (0 ≤ Z_sum (latency_ms <$> l)) as Hl0.
  { apply Z_sum_nonneg'. intros z (o & -> & Ho)%list_elem_of_fmap. by apply observation_bounds, Hv. }
  destruct (rounded_mean_ok (Z.of_nat (length (List.filter pf_success l)) * 1000) n) as (z1 & -> & Hz1 & Hb1); [lia..|].
  destruct (rounded_mean_ok (Z_sum (pf_quality_milli <$> l)) n) as (z2 & -> & Hz2 & Hb2); [lia..|].
  destruct (rounded_mean_ok (Z_sum (latency_ms <$> l)) n) as (z3 & -> & Hz3 & _); [lia..|].
  specialize (Hb1 1000 ltac:(lia) ltac:(lia)). specialize (Hb2 1000 ltac:(lia) ltac:(lia)). cbn [mbind result_bind].
  assert (∃ c, (if bool_decide (omap pf_cost_microunits l = []) then Ok None
    else c ← rounded_mean (Z_sum (omap pf_cost_microunits l)) (Z.of_nat (length (omap pf_cost_microunits l))); Ok (Some c)) = Ok c
    ∧ opt_all (Z.leb 0) c = true) as (c & Ec & Hc).
  { case_bool_decide as E; [by exists None|].
    assert (∀ z, z ∈ omap pf_cost_microunits l → 0 ≤ z) as Hnn.
    { intros z (o & Ho & Hz)%list_elem_of_omap. by eapply observation_bounds; [apply Hv|]. }
    pose proof (Z_sum_nonneg' _ Hnn). assert (length (omap pf_cost_microunits l) ≤ length l)%nat as Hlen.
    { clear. induction l as [|o l IH]; [done|]. cbn. destruct (pf_cost_microunits o); cbn in *; lia. }
    destruct (rounded_mean_ok (Z_sum (omap pf_cost_microunits l)) (Z.of_nat (length (omap pf_cost_microunits l))))
      as (z & -> & Hz & _); [lia| |].
    - destruct (omap pf_cost_microunits l); [done|]. cbn in *. lia.
    - exists (Some z). split; [done|]. cbn. lia. }
  rewrite Ec. cbn [mbind result_bind]. eexists. rewrite new_valid; [done|].
  unfold validate, PerformanceSummary_model. cbn [sample_count success_milli sm_quality_milli mean_latency_ms mean_cost_microunits].
  rewrite Hc. apply raise_if_ok. lia.
Qed.
Definition grouped_from (pre : list PerformanceObservation) (groups : list (perf_key * list PerformanceObservation)) : Prop :=
  ∀ k l, (k, l) ∈ groups → l ≠ [] ∧ l `sublist_of` pre.
Lemma group_append_from pre key o groups : grouped_from pre groups → grouped_from (pre ++ [o]) (group_append key o groups).
Proof.
  induction groups as [|[k l] rest IH]; intros Hg k' l'; cbn [group_append].
  - intros [= -> ->]%list_elem_of_singleton. split; [done|]. by apply sublist_inserts_l.
  - assert (grouped_from (pre ++ [o]) rest) as Hrest.
    { intros k2 l2 Hin. destruct (Hg k2 l2) as [? Hs]; [by right|]. split; [done|]. by apply sublist_inserts_r. }
    destruct (Hg k l ltac:(left)) as [Hne Hs]. case_bool_decide; intros [[= -> ->]|Hin]%elem_of_cons.
    + split; [by destruct l|]. by apply sublist_app.
    + by apply Hrest in Hin.
    + split; [done|]. by apply sublist_inserts_r.
    + apply IH in Hin; [done|]. intros k2 l2 ?. apply (Hg k2 l2). by right.
Qed.
Lemma group_observations_ok now age os : (∀ o, o ∈ os → synthetic o = false) → ∀ pre groups, grouped_from pre groups →
  ∃ groups', group_observations now age false os groups = Ok groups' ∧ grouped_from (pre ++ os) groups'.
Proof.
  induction os as [|o os IH]; intros Hsyn pre groups Hg; cbn [group_observations].
  - exists groups. by rewrite app_nil_r.
  - rewrite (Hsyn o) by left. cbn [andb raise_if mbind result_bind]. rewrite cons_middle, app_assoc. apply IH; [set_solver|].
    destruct (age <? now - pf_observed_at_utc o); [|by apply group_append_from].
    intros k l Hin. destruct (Hg k l Hin). split; [done|]. by apply sublist_inserts_r.
Qed.
Lemma sublist_sum l k : l `sublist_of` k → (∀ z, z ∈ k → 0 ≤ z) → Z_sum l ≤ Z_sum k.
Proof.
  induction 1 as [|z l k Hs IH|z l k Hs IH]; intros Hk; [done|..]; unfold Z_sum in *; cbn;
    specialize (IH ltac:(intros y Hy; apply Hk; by right)); [lia|]. specialize (Hk z ltac:(left)). lia.
Qed.
Lemma omap_sublist {A B} (f : A → option B) l k : l `sublist_of` k → omap f l `sublist_of` omap f k.
Proof. induction 1 as [|x l k _ IH|x l k _ IH]; [done|..]; cbn; destruct (f x); by try constructor. Qed.
Lemma measured_sublist l k : l `sublist_of` k → (∀ o, o ∈ k → validate o = Ok ()) → measured k → measured l.
Proof.
  intros Hs Hv [H1 H2 H3]. split.
  - pose proof (sublist_length _ _ Hs). lia.
  - eapply Z.le_lt_trans; [|exact H2]. apply sublist_sum; [by apply fmap_sublist|].
    intros z (o & -> & Ho)%list_elem_of_fmap. by apply observation_bounds, Hv.
  - eapply Z.le_lt_trans; [|exact H3]. apply sublist_sum; [by apply omap_sublist|].
    intros z (o & Ho & Hz)%list_elem_of_omap. by eapply observation_bounds; [apply Hv|].
Qed.
(** Valid observations that are not synthetic are summarised. *)
Lemma summarize_ok os now age : (∀ o, o ∈ os → validate o = Ok () ∧ synthetic o = false) → measured os →
  ∃ perf, summarize_performance os now age false = Ok perf.
Proof.
  intros Hos Hm. unfold summarize_performance.
  destruct (group_observations_ok now age os ltac:(intros o Ho; by apply Hos) [] []) as (groups & -> & Hg).
  { intros k l Hin. by apply not_elem_of_nil in Hin. }
  cbn [mbind result_bind]. destruct (traverse_total summarize_group (λ _ _, True) groups) as (ys & -> & _); [|by exists ys].
  intros [k l] Hin. destruct (Hg k l Hin) as [Hne Hs].
  destruct (summarize_group_ok k l Hne) as (s & Es); [|intros o Ho|by exists (k, s)].
  - eapply measured_sublist; [exact Hs|intros o Ho; by apply Hos|done].
  - apply Hos. by eapply elem_of_submseteq, sublist_submseteq.
Qed.

(** ** a circuit breaker as a function of its history

    The breaker keeps a state machine; its client sees a rule on the history
    of failures, successes and probes. *)
(** ** Histories *)
Inductive circuit_event := Failed (when_ : Z) (reason : string) | Succeeded (when_ : Z) | Probed (when_ : Z).
Definition event_time (e : circuit_event) : Z := match e with Failed t _ | Succeeded t | Probed t => t end.
Definition circuit_step (p : CircuitBreakerPolicy) (r : CircuitBreakerRecord) (e : circuit_event) : CircuitBreakerRecord :=
  match e with
  | Failed t reason => record_failure r p t reason
  | Succeeded t => record_success r t
  | Probed t => record_probe r p t
  end.
(** The breaker of a provider after a history, oldest event first. *)
Definition circuit_run (p : CircuitBreakerPolicy) (provider : string) (t0 : Z) (h : list circuit_event) : CircuitBreakerRecord :=
  foldl (circuit_step p) (closed_circuit provider t0) h.

(** ** The rule *)
(** What a client may read off a history: the failures since the last
    success, the time of the last of them, and the probes since the breaker
    let calls through again. *)
Record circuit_view := mkView { v_failures : Z; v_last : Z; v_probes : Z }.
Definition view_step (p : CircuitBreakerPolicy) (v : circuit_view) (e : circuit_event) : circuit_view :=
  match e with
  | Succeeded _ => mkView 0 0 0
  | Failed t _ => mkView (v_failures v + 1) t 0
  | Probed t => if (failure_threshold p <=? v_failures v) && (v_last v + recovery_seconds p * 1000000 <=? t)
                then mkView (v_failures v) (v_last v) (v_probes v + 1) else v
  end.
Definition circuit_view_of (p : CircuitBreakerPolicy) (h : list circuit_event) : circuit_view := foldl (view_step p) (mkView 0 0 0) h.
(** Calls are let through while the failures are below the threshold, or
    once the recovery time has passed and probes are left. *)
Definition lets_through (p : CircuitBreakerPolicy) (v : circuit_view) (when_ : Z) : bool :=
  (v_failures v <? failure_threshold p)
  || ((v_last v + recovery_seconds p * 1000000 <=? when_) && (v_probes v <? half_open_probe_limit p)).

(** ** The machine follows the rule *)
Inductive agrees (p : CircuitBreakerPolicy) (now : Z) (v : circuit_view) (r : CircuitBreakerRecord) : Prop :=
  | ag_closed : cb_state r = CS_CLOSED → consecutive_failures r = v_failures v → v_failures v < failure_threshold p →
      v_probes v = 0 → agrees p now v r
  | ag_open : cb_state r = CS_OPEN → consecutive_failures r = v_failures v → failure_threshold p ≤ v_failures v →
      opened_at_utc r = Some (v_last v) → v_probes v = 0 → agrees p now v r
  | ag_half : cb_state r = CS_HALF_OPEN → consecutive_failures r = v_failures v → failure_threshold p ≤ v_failures v →
      v_last v + recovery_seconds p * 1000000 ≤ now → half_open_probes r = Z.min (v_probes v) (half_open_probe_limit p) →
      0 < v_probes v → agrees p now v r.
Lemma agrees_permits p now v r when_ : agrees p now v r → 1 ≤ half_open_probe_limit p → now ≤ when_ →
  permits (normalize_circuit r p when_) when_ p = lets_through p v when_.
Proof.
  unfold normalize_circuit, lets_through. intros [Es _ Hlt Hp|Es _ Hge Ho Hp|Es _ Hge Hrec Hh Hp] Hl Hnow.
  - rewrite bool_decide_eq_false_2 by congruence. cbn [andb]. unfold permits. rewrite Es. symmetry. apply orb_true_iff. left. lia.
  - rewrite bool_decide_eq_true_2 by done. cbn [andb]. unfold permits at 2. rewrite Es, Ho.
    destruct (Z.leb_spec (v_last v + recovery_seconds p * 1000000) when_); unfold permits; cbn [cb_state half_open_probes]; [lia|].
    rewrite Es, Ho. lia.
  - rewrite bool_decide_eq_false_2 by congruence. cbn [andb]. unfold permits. rewrite Es, Hh. lia.
Qed.
Lemma agrees_step p now v r e : agrees p now v r → now ≤ event_time e → 1 ≤ failure_threshold p → 1 ≤ half_open_probe_limit p →
  agrees p (event_time e) (view_step p v e) (circuit_step p r e).
Proof.
  intros Ha Hnow Hthr Hl. destruct e as [t reason|t|t]; cbn [circuit_step view_step event_time] in *.
  - unfold record_failure, normalize_circuit. destruct Ha as [Es Ef Hlt _|Es Ef Hge Ho _|Es Ef Hge _ _ _].
    + rewrite (bool_decide_eq_false_2 (cb_state r = CS_OPEN)) by congruence. cbn [andb].
      rewrite bool_decide_eq_false_2 by congruence. cbn [orb]. rewrite Ef.
      destruct (Z.leb_spec (failure_threshold p) (v_failures v + 1)); [apply ag_open|apply ag_closed]; cbn; done || lia.
    + rewrite (bool_decide_eq_true_2 (cb_state r = CS_OPEN)) by done. cbn [andb]. destruct (permits r t p); cbn [cb_state consecutive_failures];
        rewrite Ef; destruct (_ || _) eqn:E; try (apply ag_open; cbn; done || lia);
        exfalso; apply orb_false_iff in E as [_ E]; lia.
    + rewrite (bool_decide_eq_false_2 (cb_state r = CS_OPEN)) by congruence. cbn [andb].
      rewrite bool_decide_eq_true_2 by done. cbn [orb]. rewrite Ef. apply ag_open; cbn; done || lia.
  - apply ag_closed; cbn; done || lia.
  - unfold record_probe, normalize_circuit. destruct Ha as [Es Ef Hlt Hp|Es Ef Hge Ho Hp|Es Ef Hge Hrec Hh Hp].
    + rewrite (bool_decide_eq_false_2 (cb_state r = CS_OPEN)) by congruence. cbn [andb].
      rewrite bool_decide_eq_false_2 by congruence. cbn [negb orb]. replace (failure_threshold p <=? v_failures v) with false by lia.
      by apply ag_closed.
    + rewrite (bool_decide_eq_true_2 (cb_state r = CS_OPEN)) by done. cbn [andb]. unfold permits. rewrite Es, Ho.
      replace (failure_threshold p <=? v_failures v) with true by lia. cbn [andb].
      destruct (Z.leb_spec (v_last v + recovery_seconds p * 1000000) t); cbn [cb_state half_open_probes].
      * rewrite bool_decide_eq_true_2 by done. cbn [negb orb]. destruct (Z.leb_spec (half_open_probe_limit p) 0); [lia|].
        apply ag_half; cbn; done || lia.
      * rewrite bool_decide_eq_false_2 by congruence. cbn [negb orb]. by apply ag_open.
    + rewrite (bool_decide_eq_false_2 (cb_state r = CS_OPEN)) by congruence. cbn [andb].
      rewrite bool_decide_eq_true_2 by done. cbn [negb orb]. replace (failure_threshold p <=? v_failures v) with true by lia.
      replace (v_last v + recovery_seconds p * 1000000 <=? t) with true by lia. cbn [andb].
      destruct (Z.leb_spec (half_open_probe_limit p) (half_open_probes r)); apply ag_half; cbn; done || lia.
Qed.
(** The times of a history do not go back, from [t0] to [now]. *)
Fixpoint ordered (t0 : Z) (h : list circuit_event) (now : Z) : Prop :=
  match h with [] => t0 ≤ now | e :: h => t0 ≤ event_time e ∧ ordered (event_time e) h now end.
Lemma agrees_run p h : 1 ≤ failure_threshold p → 1 ≤ half_open_probe_limit p → ∀ v r t0 now, agrees p t0 v r → ordered t0 h now →
  ∃ t, t ≤ now ∧ agrees p t (foldl (view_step p) v h) (foldl (circuit_step p) r h).
Proof.
  intros Hthr Hl. induction h as [|e h IH]; intros v r t0 now Ha Ho; [by exists t0|]. destruct Ho as [Ht Ho].
  cbn [foldl]. eapply IH; [|exact Ho]. by eapply agrees_step.
Qed.

(** C35. A circuit breaker lets a call through exactly when its history says
    so: with fewer failures since the last success than the threshold, or
    when the recovery time after the last failure has passed and fewer probes
    than the limit were made since. *)
Theorem circuit_follows_history p provider t0 h now : validate p = Ok () → ordered t0 h now →
  permits (normalize_circuit (circuit_run p provider t0 h) p now) now p = lets_through p (circuit_view_of p h) now.
Proof.
  intros Hv Ho. unfold validate, CircuitBreakerPolicy_model in Hv. apply raise_if_ok, negb_false_iff in Hv.
  repeat (apply andb_true_iff in Hv as [Hv ?]). unfold circuit_run, circuit_view_of.
  destruct (agrees_run p h ltac:(lia) ltac:(lia) (mkView 0 0 0) (closed_circuit provider t0) t0 now) as (t & Ht & Ha); [|done|].
  - apply ag_closed; cbn; done || lia.
  - eapply agrees_permits; [exact Ha|lia|done].
Qed.
