(* ===== verification/AgentRouting.v ===== *)
(** * AgentRouting: the router selects the best agent that fits

    [fit] is the specification of a target of a contract, independent of the
    reasons the router collects; [route] finds the fitting target of the
    highest score, whatever the order of the registry. *)
From S2P Require Import Prelude PyStd PyRe PyJson Identifiers TaskState ControlDomain SchedulerDomain LanePolicy AgentDomain AgentRouter AgentPerformance.
Local Open Scope Z_scope.

(** ** What a contract asks for *)
Record linked (reg : AgentRegistrySnapshot) (a : AgentSpec) (m : ModelSpec) (p : ProviderSpec) : Prop := {
  linked_agent : a ∈ agents reg;
  linked_model : m ∈ models reg ∧ md_model_id m = ag_model_id a;
  linked_provider : p ∈ providers reg ∧ pv_provider_id p = md_provider_id m;
}.
Record fit (cx : route_context) (a : AgentSpec) (m : ModelSpec) (p : ProviderSpec) : Prop := {
  fit_capable : required_capabilities (cx_request cx) ⊆ ag_capabilities a;
  fit_enabled : pv_enabled p = true;
  fit_egress : data_egress p = true → allow_data_egress (cx_request cx) = true;
  fit_tier : md_quality_tier m = ct_quality_tier (cx_request cx) ∨ ct_quality_tier (cx_request cx) ∈ ["standard"; "any"];
  fit_qualified : ∀ q, q ∈ [ag_qualification a; md_qualification m] →
    q = QL_QUALIFIED ∨ q = QL_CANARY ∧ allow_canary (cx_request cx) = true;
  fit_state : ∃ o, cx_states cx !! pv_provider_id p = Some o ∧ (po_state o = PR_HEALTHY
    ∨ allow_degraded (cx_request cx) = true ∧ po_state o ∈ [PR_DEGRADED; PR_QUOTA_LOW; PR_RECOVERING]);
  fit_circuit : ∀ c, cx_circuits cx !! pv_provider_id p = Some c → permits c (cx_now cx) (cx_circuit_policy cx) = true;
  fit_cost : ∀ limit s cost, maximum_cost_microunits (cx_request cx) = Some limit → target_performance cx a m = Some s →
    mean_cost_microunits s = Some cost → cost ≤ limit;
}.
Lemma reason_if_nil b s : reason_if b s = [] ↔ b = false.
Proof. by destruct b. Qed.
Lemma state_allowed cx pid : po_state (provider_observation cx pid) ∈ allowed_states cx ↔ ∃ o, cx_states cx !! pid = Some o
  ∧ (po_state o = PR_HEALTHY ∨ allow_degraded (cx_request cx) = true ∧ po_state o ∈ [PR_DEGRADED; PR_QUOTA_LOW; PR_RECOVERING]).
Proof.
  unfold provider_observation, allowed_states, _ALLOWED_NORMAL, _ALLOWED_DEGRADED.
  destruct (cx_states cx !! pid) as [o|]; cbn [default po_state].
  - rewrite elem_of_app, list_elem_of_singleton. split.
    + intros [Ho|Ho]; exists o; (split; [done|]); [by left|right]. by destruct (allow_degraded (cx_request cx)); [|apply not_elem_of_nil in Ho].
    + intros (o' & [= <-] & [Ho|[-> Ho]]); [by left|by right].
  - split; [|by intros (o & [=] & _)]. rewrite elem_of_app. destruct (allow_degraded (cx_request cx)); set_solver.
Qed.
Lemma weaker_qualified cx a m : (if bool_decide (weaker (ag_qualification a) (md_qualification m) = QL_CANARY)
    then negb (allow_canary (cx_request cx)) else negb (bool_decide (weaker (ag_qualification a) (md_qualification m) = QL_QUALIFIED))) = false
  ↔ ∀ q, q ∈ [ag_qualification a; md_qualification m] → q = QL_QUALIFIED ∨ q = QL_CANARY ∧ allow_canary (cx_request cx) = true.
Proof.
  assert (∀ P : QualificationState → Prop, (∀ q, q ∈ [ag_qualification a; md_qualification m] → P q)
    ↔ P (ag_qualification a) ∧ P (md_qualification m)) as -> by set_solver.
  destruct (ag_qualification a), (md_qualification m), (allow_canary (cx_request cx)); vm_compute; naive_solver.
Qed.
Lemma reasons_fit cx a m p : required_capabilities (cx_request cx) ⊆ ag_capabilities a → route_reasons cx a m p = [] ↔ fit cx a m p.
Proof.
  intros Hc. unfold route_reasons. cbv zeta. rewrite !app_nil, !reason_if_nil, weaker_qualified. split.
  - intros (H1 & H2 & H3 & H4 & H5 & H6 & H7). split; [done|by apply negb_false_iff| | |done| | |].
    + intros He. rewrite He, andb_true_r in H2. by apply negb_false_iff.
    + apply andb_false_iff in H3 as [H3|H3]; apply negb_false_iff in H3; [left; by apply String.eqb_eq|right].
      unfold str_in in H3. apply existsb_exists in H3 as (y & Hy & ->%String.eqb_eq). by apply list_elem_of_In.
    + apply negb_false_iff, bool_decide_eq_true in H5. by apply state_allowed.
    + intros c Hcc. apply negb_false_iff in H6. unfold provider_circuit in H6. by rewrite Hcc in H6.
    + intros limit s cost E1 E2 E3. rewrite E1, E2 in H7. cbn in H7. rewrite E3 in H7. lia.
  - intros [_ H1 H2 H3 H4 H5 H6 H7]. split_and!; [by rewrite H1| | |done| | |].
    + destruct (data_egress p); [by rewrite H2|apply andb_false_r].
    + apply andb_false_iff. destruct H3 as [->|H3]; [left; by rewrite String.eqb_refl|right]. apply negb_false_iff.
      apply existsb_exists. exists (ct_quality_tier (cx_request cx)). split; [by apply list_elem_of_In|apply String.eqb_refl].
    + by apply negb_false_iff, bool_decide_eq_true, state_allowed.
    + apply negb_false_iff. unfold provider_circuit. destruct (cx_circuits cx !! pv_provider_id p) as [c|] eqn:E; [by apply H6|done].
    + destruct (maximum_cost_microunits (cx_request cx)) as [limit|]; [|done]. destruct (target_performance cx a m) as [s|] eqn:Es; [|done].
      cbn. destruct (mean_cost_microunits s) as [cost|] eqn:E; [|done]. specialize (H7 limit s cost eq_refl eq_refl E). lia.
Qed.

(** ** Candidates *)
Lemma index_from_nonneg l : ∀ n m, 0 ≤ n → (∀ k i, m !! k = Some i → 0 ≤ i) → ∀ k i, index_from n l m !! k = Some i → 0 ≤ i.
Proof.
  induction l as [|x l IH]; intros n m Hn Hm k i; cbn [index_from]; [apply Hm|]. apply IH; [lia|].
  intros k' i'. rewrite lookup_insert. case_decide; [|apply Hm]. by intros [= <-].
Qed.
Lemma route_rank_nonneg cx p : 0 ≤ route_rank cx p.
Proof.
  unfold route_rank, order_index. destruct (cx_policy cx) as [rp|]; [|by rewrite lookup_empty].
  destruct (index_from _ _ _ !! _) as [i|] eqn:E; [|done]. cbn. eapply index_from_nonneg; [|..|exact E]; [done|].
  intros k j. by rewrite lookup_empty.
Qed.
Definition found_for (cx : route_context) (a : AgentSpec) : option RouteCandidate :=
  '(m, p) ← target cx a; Some (candidate_of cx a m p).
Lemma route_candidate_ok cx a : route_candidate cx a = Ok (found_for cx a).
Proof.
  unfold route_candidate, found_for. destruct (target cx a) as [[m p]|]; [|done]. cbn [mbind option_bind].
  rewrite new_valid; [done|]. unfold validate, RouteCandidate_model. cbn [fallback_rank candidate_of].
  apply raise_if_ok. pose proof (route_rank_nonneg cx p). lia.
Qed.
Lemma traverse_pure {A B} (f : A → result B) (g : A → B) l : (∀ a, f a = Ok (g a)) → traverse f l = Ok (g <$> l).
Proof. intros Hf. apply traverse_map_ok. intros a _. apply Hf. Qed.
(** The first match of a sorted list is below every other match. *)
Lemma find_sorted_least {A K} `{PyOrdLaws K} (key : A → K) (ok : A → bool) l x : StronglySorted (key_le key) l →
  List.find ok l = Some x → x ∈ l ∧ ok x = true ∧ ∀ y, y ∈ l → ok y = true → pyleb (key x) (key y) = true.
Proof.
  induction 1 as [|z l Hl IH Hz]; [done|]. cbn [List.find]. destruct (ok z) eqn:Ez.
  - intros [= <-]. split; [left|]. split; [done|]. intros y [->|Hy]%elem_of_cons _; [apply pyleb_refl|].
    rewrite Forall_forall in Hz. by apply Hz.
  - intros (Hx & Hok & Hle)%IH. split; [by right|]. split; [done|].
    intros y [->|Hy]%elem_of_cons Hyok; [congruence|by apply Hle].
Qed.
Lemma find_none_all {A} (ok : A → bool) l : List.find ok l = None → ∀ x, x ∈ l → ok x = false.
Proof. intros E x Hx. eapply List.find_none; [exact E|by apply list_elem_of_In]. Qed.
Lemma prod_pyleb_fst {A B} `{PyOrd A, PyOrd B} (x y : A * B) : pyleb x y = true → pyleb x.1 y.1 = true.
Proof. unfold pyleb at 1, prod_pyord, prod_pyleb. by destruct (pyleb x.1 y.1). Qed.
Lemma candidate_key_score c c' : eligible c = true → eligible c' = true → pyleb (candidate_key c) (candidate_key c') = true →
  score c' ≤ score c.
Proof.
  intros Hc Hc' Hle. unfold candidate_key in Hle. rewrite Hc, Hc' in Hle.
  do 4 apply prod_pyleb_fst in Hle. cbn [fst] in Hle. unfold pyleb, prod_pyord, prod_pyleb in Hle. cbn in Hle.
  unfold pyleb, Z_pyord in Hle. lia.
Qed.

(** ** Valid registries *)
Record registry_ok (reg : AgentRegistrySnapshot) : Prop := {
  ro_providers : NoDup (pv_provider_id <$> providers reg);
  ro_models : NoDup (md_model_id <$> models reg);
  ro_agents : NoDup (agent_id <$> agents reg);
  ro_links : ∀ a, a ∈ agents reg → ∃ m p, linked reg a m p ∧ ag_capabilities a ⊆ md_capabilities m
    ∧ ag_capabilities a ⊆ pv_capabilities p;
}.
Lemma registry_valid reg : validate reg = Ok () → registry_ok reg.
Proof.
  unfold validate, AgentRegistrySnapshot_model. cbv zeta. intros Hv. unfold unique in Hv.
  apply bind_ok in Hv as ([] & _ & Hv). apply bind_ok in Hv as ([] & Hp & Hv). apply bind_ok in Hv as ([] & Hm & Hv).
  apply bind_ok in Hv as ([] & Ha & Hv). apply bind_ok in Hv as ([] & _ & Hv). apply bind_ok in Hv as ([] & _ & Hv).
  apply bind_ok in Hv as ([] & Hall & _). apply raise_if_ok, has_duplicates_false in Hp, Hm, Ha. split; [done..|].
  intros a Hin. rewrite for_each_ok in Hall. specialize (Hall a Hin). unfold check_agent in Hall.
  destruct (dict_of md_model_id (models reg) !! ag_model_id a) as [m|] eqn:Em; [|done].
  apply bind_ok in Hall as ([] & _ & Hall). apply bind_ok in Hall as ([] & _ & Hall).
  destruct (dict_of pv_provider_id (providers reg) !! md_provider_id m) as [p|] eqn:Ep; [|done].
  apply dict_of_lookup_Some in Em, Ep. apply raise_if_ok, negb_false_iff, subset_spec in Hall.
  exists m, p. split; [by split|]. split; intros c Hc; apply Hall, elem_of_List_filter in Hc as [Hc Hs]; [done|].
  unfold str_in in Hs. apply existsb_exists in Hs as (y & Hy & ->%String.eqb_eq). by apply list_elem_of_In.
Qed.
Section routing.
Context (policy : CircuitBreakerPolicy) (rq : ExecutionTaskContract) (reg : AgentRegistrySnapshot).
Context (states : list ProviderStateObservation) (circuits : list CircuitBreakerRecord).
Context (perf : list (perf_key * PerformanceSummary)) (now : Z).
Abbreviation cx := (route_context_of policy rq reg states circuits perf now).
Lemma target_linked a m p : registry_ok reg → linked reg a m p →
  required_capabilities rq ⊆ ag_capabilities a → target cx a = Some (m, p).
Proof.
  intros Hok [Ha [Hm Em] [Hp Ep]] Hc. destruct (ro_links _ Hok a Ha) as (m' & p' & [_ [Hm' Em'] [Hp' Ep']] & Hcm & Hcp).
  unfold target. cbn [cx_models cx_providers route_context_of].
  pose proof (dict_of_lookup _ _ _ (ro_models _ Hok) Hm) as E1. pose proof (dict_of_lookup _ _ _ (ro_models _ Hok) Hm') as E1'.
  rewrite Em in E1. rewrite Em' in E1'. rewrite E1 in E1'. injection E1' as <-.
  pose proof (dict_of_lookup _ _ _ (ro_providers _ Hok) Hp) as E2. pose proof (dict_of_lookup _ _ _ (ro_providers _ Hok) Hp') as E2'.
  rewrite Ep in E2. rewrite Ep' in E2'. rewrite E2 in E2'. injection E2' as <-.
  rewrite E1. cbn [mbind option_bind]. rewrite E2. cbn [mbind option_bind]. unfold capable. cbn [cx_request route_context_of].
  by rewrite !(proj2 (subset_spec _ _)) by (by etrans).
Qed.
Lemma target_some a m p : a ∈ agents reg → target cx a = Some (m, p) → linked reg a m p ∧ required_capabilities rq ⊆ ag_capabilities a.
Proof.
  intros Ha. unfold target. cbn [cx_models cx_providers route_context_of]. intros (m' & Hm & E)%bind_Some.
  apply bind_Some in E as (p' & Hp & E). destruct (capable _ a m' p') eqn:Ec; [|done]. injection E as -> ->.
  apply dict_of_lookup_Some in Hm, Hp. split; [by split|]. unfold capable in Ec. cbn [cx_request route_context_of] in Ec.
  do 2 apply andb_true_iff in Ec as [Ec _]. by apply subset_spec.
Qed.
Lemma elem_of_found c : c ∈ somes (found_for cx <$> agents reg) ↔ ∃ a m p, a ∈ agents reg ∧ target cx a = Some (m, p)
  ∧ c = candidate_of cx a m p.
Proof.
  rewrite elem_of_somes, list_elem_of_fmap. unfold found_for. split.
  - intros (a & E & Ha). destruct (target cx a) as [[m p]|] eqn:Et; [|done]. injection E as ->. by exists a, m, p.
  - intros (a & m & p & Ha & Et & ->). exists a. by rewrite Et.
Qed.
Definition routed : list RouteCandidate := sorted_by candidate_key (somes (found_for cx <$> agents reg)).
Lemma selected_spec : registry_ok reg →
  match List.find eligible routed with
  | Some c => ∃ a m p, linked reg a m p ∧ c = candidate_of cx a m p ∧ fit cx a m p
      ∧ ∀ a' m' p', linked reg a' m' p' → fit cx a' m' p' → route_score cx a' m' p' ≤ route_score cx a m p
  | None => (∀ a m p, linked reg a m p → ¬ fit cx a m p) ∧ no_route None routed ≠ []
  end.
Proof.
  intros Hok. assert (∀ a m p, linked reg a m p → fit cx a m p →
    candidate_of cx a m p ∈ routed ∧ eligible (candidate_of cx a m p) = true) as Hin.
  { intros a m p Hl Hf. pose proof (fit_capable _ _ _ _ Hf) as Hc. split.
    - apply elem_of_sorted_by, elem_of_found. exists a, m, p. split; [apply Hl|]. split; [by apply target_linked|done].
    - cbn [eligible candidate_of]. by apply bool_decide_eq_true, reasons_fit. }
  destruct (List.find eligible routed) as [c|] eqn:E.
  - apply (find_sorted_least candidate_key) in E as (Hc & Hel & Hle); [|apply sorted_by_sorted; typeclasses eauto].
    apply elem_of_sorted_by, elem_of_found in Hc as (a & m & p & Ha & Et & ->). apply target_some in Et as [Hl Hc]; [|done].
    exists a, m, p. split; [done|]. split; [done|]. split.
    + cbn [eligible candidate_of] in Hel. apply bool_decide_eq_true in Hel. by apply reasons_fit.
    + intros a' m' p' Hl' Hf'. destruct (Hin a' m' p' Hl' Hf') as [Hin' Hel']. specialize (Hle _ Hin' Hel').
      by apply (candidate_key_score _ _ Hel Hel') in Hle.
  - pose proof (find_none_all _ _ E) as Hall. split.
    + intros a m p Hl Hf. destruct (Hin a m p Hl Hf) as [Hin' Hel]. by rewrite (Hall _ Hin') in Hel.
    + unfold no_route. case_bool_decide as En; [done|]. destruct routed as [|c cs] eqn:Er; [done|]. intros Hnil.
      specialize (Hall c ltac:(left)). assert (c ∈ routed) as Hc by (rewrite Er; left). apply elem_of_sorted_by, elem_of_found in Hc
        as (a & m & p & _ & _ & ->). cbn [eligible candidate_of] in Hall. apply bool_decide_eq_false in Hall.
      destruct (route_reasons cx a m p) as [|s l] eqn:Es; [done|].
      assert (s ∈ sorted_set ((candidate_of cx a m p :: cs) ≫= rc_reasons)) as Hs.
      { unfold sorted_set. apply elem_of_sorted_by, elem_of_remove_dups. cbn. rewrite Es. left. }
      rewrite Hnil in Hs. by apply not_elem_of_nil in Hs.
Qed.
End routing.
Lemma router_identifier_ok prefix p parts : (∀ q, q ∈ p :: parts → str_truthy (str_strip q) = true) →
  ∃ i, router_identifier prefix (p :: parts) = Ok i.
Proof.
  intros Hall. unfold router_identifier. rewrite bool_decide_eq_false_2 by done. cbn [orb].
  assert (existsb (λ q, negb (str_truthy (str_strip q))) (p :: parts) = false) as ->; [|by eexists].
  apply not_true_is_false. intros (q & Hq & Hn)%existsb_exists. rewrite Hall in Hn; [done|by apply list_elem_of_In].
Qed.
(** The inputs a routing does not refuse. *)
Record routable (rq : ExecutionTaskContract) (reg : AgentRegistrySnapshot) (performance : list PerformanceObservation) : Prop := {
  rt_registry : validate reg = Ok ();
  rt_task : str_truthy (str_strip (ct_task_id rq)) = true;
  rt_registry_id : str_truthy (str_strip (registry_id reg)) = true;
  rt_observed : ∀ o, o ∈ performance → validate o = Ok () ∧ synthetic o = false;
  rt_measured : measured performance;
}.
Lemma route_returns policy rq reg states circuits performance now : routable rq reg performance →
  ∃ perf i fp, summarize_performance performance now DEFAULT_MAX_AGE false = Ok perf ∧
    let cs := routed policy rq reg states circuits perf now in
    let selected := List.find eligible cs in
    route policy rq reg states circuits performance now
    = Ok (mkRouting i fp (ct_task_id rq) (required_capabilities rq) cs (rc_agent_id <$> selected) (rc_model_id <$> selected)
            (rc_provider_id <$> selected) now (no_route selected cs)).
Proof.
  intros [_ Ht Hr Ho Hm]. destruct (summarize_ok performance now DEFAULT_MAX_AGE Ho Hm) as [perf Eperf].
  destruct (router_identifier_ok "ROUTE" (ct_task_id rq) [agent_fingerprint (contract_json rq); registry_id reg]) as [i Ei].
  { intros q. rewrite !elem_of_cons. intros [->|[->|[->|[]%elem_of_nil]]]; [done|apply hexdigest_nonblank|done]. }
  exists perf, i, (agent_fingerprint (contract_json rq)). split; [done|]. cbv zeta. unfold route. rewrite Eperf. cbn [mbind result_bind].
  rewrite (traverse_pure _ (found_for (route_context_of policy rq reg states circuits perf now)))
    by (intros a; apply route_candidate_ok). cbn [mbind result_bind]. by rewrite Ei.
Qed.

(** C22. The router always answers, and selects a best target: for a valid
    registry and valid, observed performance data it returns a decision; the
    selected agent runs on its model and provider, fits the contract in every
    respect and no fitting agent has a higher score; when nothing is selected
    no agent fits, and reasons are given. *)
Theorem route_selects_best policy rq reg states circuits performance now : routable rq reg performance →
  ∃ perf d, summarize_performance performance now DEFAULT_MAX_AGE false = Ok perf
  ∧ route policy rq reg states circuits performance now = Ok d ∧
  let cx := route_context_of policy rq reg states circuits perf now in
  match selected_agent_id d with
  | Some i => ∃ a m p, linked reg a m p ∧ agent_id a = i ∧ selected_model_id d = Some (md_model_id m)
      ∧ selected_provider_id d = Some (pv_provider_id p) ∧ fit cx a m p
      ∧ ∀ a' m' p', linked reg a' m' p' → fit cx a' m' p' → route_score cx a' m' p' ≤ route_score cx a m p
  | None => (∀ a m p, linked reg a m p → ¬ fit cx a m p) ∧ no_route_reasons d ≠ []
  end.
Proof.
  intros Hrt. destruct (route_returns policy rq reg states circuits performance now Hrt) as (perf & i & fp & Eperf & Er).
  pose proof (selected_spec policy rq reg states circuits perf now (registry_valid _ (rt_registry _ _ _ Hrt))) as Hs.
  cbv zeta in Er. eexists perf, _. split; [done|]. split; [exact Er|]. cbn -[routed].
  destruct (List.find eligible _) as [c|]; cbn -[routed]; [|done].
  destruct Hs as (a & m & p & Hl & -> & Hf & Hbest). by exists a, m, p.
Qed.

(** ** The order of a registry *)
Lemma dict_of_perm {A} (key : A → string) l k : NoDup (key <$> l) → l ≡ₚ k → dict_of key l = dict_of key k.
Proof.
  intros Hnd Hp. assert (NoDup (key <$> k)) as Hnd' by (by rewrite <-Hp). apply map_eq. intros i.
  destruct (dict_of key l !! i) as [x|] eqn:E; symmetry.
  - apply dict_of_lookup_Some in E as [Hx <-]. apply dict_of_lookup; [done|]. by rewrite <-Hp.
  - destruct (dict_of key k !! i) as [x|] eqn:E'; [|done]. apply dict_of_lookup_Some in E' as [Hx <-].
    rewrite <-Hp in Hx. rewrite (dict_of_lookup key l x Hnd Hx) in E. done.
Qed.
Lemma somes_perm {A} (l k : list (option A)) : l ≡ₚ k → somes l ≡ₚ somes k.
Proof. intros Hp. unfold somes. by rewrite Hp. Qed.
Lemma found_nodup cx l : NoDup (agent_id <$> l) → NoDup (candidate_key <$> somes (found_for cx <$> l)).
Proof.
  intros Hnd. eapply (NoDup_fmap_1 snd). rewrite <-list_fmap_compose. eapply sublist_NoDup; [exact Hnd|].
  clear Hnd. induction l as [|a l IH]; [done|]. cbn. unfold found_for at 1. destruct (target cx a) as [[m p]|]; cbn; by constructor.
Qed.

(** A decision does not depend on the order in which a registry lists its
    agents, models and providers. *)
Theorem route_order_independent policy rq reg reg' states circuits performance now : routable rq reg performance →
  agents reg ≡ₚ agents reg' → models reg ≡ₚ models reg' → providers reg ≡ₚ providers reg' →
  routing_policies reg = routing_policies reg' → registry_id reg = registry_id reg' →
  route policy rq reg states circuits performance now = route policy rq reg' states circuits performance now.
Proof.
  intros Hrt Ha Hm Hp Hpol Hid. pose proof (registry_valid _ (rt_registry _ _ _ Hrt)) as [Hnp Hnm Hna _].
  unfold route. destruct (summarize_performance performance now DEFAULT_MAX_AGE false) as [perf|]; [|done]. cbn [mbind result_bind].
  assert (route_context_of policy rq reg states circuits perf now = route_context_of policy rq reg' states circuits perf now) as ->.
  { unfold route_context_of, primary_policy. by rewrite (dict_of_perm _ _ _ Hnp Hp), (dict_of_perm _ _ _ Hnm Hm), Hpol. }
  set (cx := route_context_of _ _ _ _ _ _ _). rewrite !(traverse_pure _ (found_for cx)) by apply route_candidate_ok.
  cbn [mbind result_bind]. rewrite Hid.
  rewrite (sorted_by_perm_eq candidate_key _ (somes (found_for cx <$> agents reg'))); [done|by apply found_nodup|].
  apply somes_perm. by rewrite Ha.
Qed.
