(* ===== verification/AgentService.v ===== *)
(** * AgentService: [agent_router/persistence.py] and [agent_router/service.py]

    The tables of the agent router and the execution of a contract over the
    eligible candidates.  An adapter is a parameter: it answers, refuses with
    a [ProviderAdapterError], or raises something else.  [clock] gives the
    successive readings of the wall clock. *)
From S2P Require Import Prelude PyStd PyRe PyJson Identifiers TaskState ControlDomain SchedulerDomain LanePolicy AgentDomain AgentRouter.
Local Open Scope Z_scope.

(** ** Tables *)
Record agent_store := mkAgentStore {
  as_registries : gmap string AgentRegistrySnapshot;
  as_states : gmap string ProviderStateObservation;
  as_circuits : gmap string CircuitBreakerRecord;
  as_performance : gmap string PerformanceObservation;
  as_decisions : gmap string RoutingDecision;
  as_receipts : gmap string ExecutionReceipt;
  as_qualifications : gmap string AdapterQualificationReport;
}.
Definition empty_agent_store : agent_store := mkAgentStore ∅ ∅ ∅ ∅ ∅ ∅ ∅.
Definition save_registry (r : AgentRegistrySnapshot) (s : agent_store) : agent_store :=
  mkAgentStore (<[registry_id r := r]> (as_registries s)) (as_states s) (as_circuits s) (as_performance s) (as_decisions s)
    (as_receipts s) (as_qualifications s).
Definition save_provider_state (o : ProviderStateObservation) (s : agent_store) : agent_store :=
  mkAgentStore (as_registries s) (<[po_provider_id o := o]> (as_states s)) (as_circuits s) (as_performance s) (as_decisions s)
    (as_receipts s) (as_qualifications s).
Definition save_circuit (c : CircuitBreakerRecord) (s : agent_store) : agent_store :=
  mkAgentStore (as_registries s) (as_states s) (<[cb_provider_id c := c]> (as_circuits s)) (as_performance s) (as_decisions s)
    (as_receipts s) (as_qualifications s).
Definition save_performance (o : PerformanceObservation) (s : agent_store) : agent_store :=
  mkAgentStore (as_registries s) (as_states s) (as_circuits s) (<[observation_id o := o]> (as_performance s)) (as_decisions s)
    (as_receipts s) (as_qualifications s).
Definition save_routing_decision (d : RoutingDecision) (s : agent_store) : agent_store :=
  mkAgentStore (as_registries s) (as_states s) (as_circuits s) (as_performance s) (<[rd_decision_id d := d]> (as_decisions s))
    (as_receipts s) (as_qualifications s).
Definition save_execution_receipt (r : ExecutionReceipt) (s : agent_store) : agent_store :=
  mkAgentStore (as_registries s) (as_states s) (as_circuits s) (as_performance s) (as_decisions s)
    (<[receipt_id r := r]> (as_receipts s)) (as_qualifications s).
Definition save_qualification (r : AdapterQualificationReport) (s : agent_store) : agent_store :=
  mkAgentStore (as_registries s) (as_states s) (as_circuits s) (as_performance s) (as_decisions s) (as_receipts s)
    (<[report_id r := r]> (as_qualifications s)).
Definition provider_states (s : agent_store) : result (list ProviderStateObservation) :=
  traverse new (sorted_by po_provider_id (snd <$> map_to_list (as_states s))).
Definition stored_circuits (s : agent_store) : result (list CircuitBreakerRecord) :=
  traverse new (sorted_by cb_provider_id (snd <$> map_to_list (as_circuits s))).
Definition stored_performance (s : agent_store) : result (list PerformanceObservation) :=
  traverse new (sorted_by (λ o, (pf_observed_at_utc o, observation_id o)) (snd <$> map_to_list (as_performance s))).

(** ** Execution *)
Inductive invocation :=
  | Invoked (r : ProviderInvocationResult)
  | Refused (kind message : string) (retryable : bool)
  | Crashed (e : exn).
Definition provider_adapter : Type := ExecutionTaskContract → string → invocation.

Section execution.
Context (policy : CircuitBreakerPolicy) (reg : AgentRegistrySnapshot) (adapters : gmap string provider_adapter).
Context (clock : nat → Z) (contract : ExecutionTaskContract) (now : Z).
(** [if self.store: ...]. *)
Definition stored (f : agent_store → agent_store) (st : option agent_store) : option agent_store := f <$> st.
(** The record of an attempt, after the [n] before it. *)
Definition attempt_record (decision_id : string) (c : RouteCandidate) (n : nat) (ok retryable : bool) (kind message : option string)
    (r : option ProviderInvocationResult) : result ExecutionAttempt :=
  i ← router_identifier "ATTEMPT" [decision_id; rc_provider_id c; str_of_nat n];
  Ok (mkAttempt i (rc_provider_id c) (rc_model_id c) (rc_agent_id c) ok retryable kind message r now (clock n)).
Definition circuit_for (circuit_by : gmap string CircuitBreakerRecord) (pid : string) : CircuitBreakerRecord :=
  default (closed_circuit pid now) (circuit_by !! pid).
Fixpoint try_candidates (decision_id : string) (cs : list RouteCandidate) (circuit_by : gmap string CircuitBreakerRecord)
    (done_ : list ExecutionAttempt) (st : option agent_store)
  : option agent_store * result (list ExecutionAttempt * option ProviderInvocationResult) :=
  match cs with
  | [] => (st, Ok (done_, None))
  | c :: cs =>
      match adapters !! rc_adapter_id c with
      | None => try_candidates decision_id cs circuit_by done_ st
      | Some adapter =>
          match dict_of md_model_id (models reg) !! rc_model_id c with
          | None => (st, raise KeyError (rc_model_id c))
          | Some m =>
              let n := length done_ in
              match adapter contract (provider_model_name m) with
              | Crashed e => (st, Raise e)
              | Invoked r =>
                  match attempt_record decision_id c n true false None None (Some r) with
                  | Raise e => (st, Raise e)
                  | Ok a => (stored (save_circuit (record_success (circuit_for circuit_by (rc_provider_id c)) (clock n))) st,
                             Ok (done_ ++ [a], Some r))
                  end
              | Refused kind message retryable =>
                  match attempt_record decision_id c n false retryable (Some kind) (Some message) None with
                  | Raise e => (st, Raise e)
                  | Ok a =>
                      let record := record_failure (circuit_for circuit_by (rc_provider_id c)) policy (clock n) kind in
                      try_candidates decision_id cs (<[rc_provider_id c := record]> circuit_by) (done_ ++ [a])
                        (stored (save_circuit record) st)
                  end
              end
          end
      end
  end.
(** [int((finished - started).total_seconds() * 1000)], not below zero. *)
Definition attempt_latency (a : ExecutionAttempt) : result Z :=
  ms ← PyFloat.trunc (PyFloat.mul (PyFloat.truediv (finished_at_utc a - started_at_utc a) 1000000) (PyFloat.of_Z 1000));
  Ok (Z.max 0 ms).
Definition attempt_observation (receipt : string) (a : ExecutionAttempt) (latency : Z) (cap : string) : result PerformanceObservation :=
  i ← router_identifier "PERF" [attempt_id a; cap];
  new (mkPerformance i (at_agent_id a) cap (ct_task_class contract) (at_succeeded a) latency
         (at_result a ≫= λ r, us_cost_microunits (usage r)) 0 0 0 500 (finished_at_utc a) false (Some receipt)).
Fixpoint save_observations (receipt : string) (a : ExecutionAttempt) (latency : Z) (caps : list string) (s : agent_store)
  : agent_store * result () :=
  match caps with
  | [] => (s, Ok ())
  | cap :: caps =>
      match attempt_observation receipt a latency cap with
      | Raise e => (s, Raise e)
      | Ok o => save_observations receipt a latency caps (save_performance o s)
      end
  end.
Fixpoint save_attempts (receipt : string) (l : list ExecutionAttempt) (s : agent_store) : agent_store * result () :=
  match l with
  | [] => (s, Ok ())
  | a :: l =>
      match attempt_latency a with
      | Raise e => (s, Raise e)
      | Ok latency =>
          match save_observations receipt a latency (required_capabilities contract) s with
          | (s, Raise e) => (s, Raise e)
          | (s, Ok _) => save_attempts receipt l s
          end
      end
  end.
Definition finish_execution (d : RoutingDecision) (l : list ExecutionAttempt) (r : option ProviderInvocationResult)
    (st : option agent_store) : option agent_store * result ExecutionReceipt :=
  match router_identifier "ATTEMPT" [rd_decision_id d; "receipt"] with
  | Raise e => (st, Raise e)
  | Ok i =>
      let receipt := mkExecutionReceipt i (ct_task_id contract) (rd_decision_id d) l (bool_decide (r ≠ None)) r (clock (length l)) in
      match st with
      | None => (None, Ok receipt)
      | Some s =>
          match save_attempts i l (save_execution_receipt receipt s) with
          | (s, Raise e) => (Some s, Raise e)
          | (s, Ok _) => (Some s, Ok receipt)
          end
      end
  end.
Definition execute (states : list ProviderStateObservation) (circuits : list CircuitBreakerRecord)
    (performance : list PerformanceObservation) (st : option agent_store) : option agent_store * result ExecutionReceipt :=
  match route policy contract reg states circuits performance now with
  | Raise e => (st, Raise e)
  | Ok d =>
      let st := stored (save_routing_decision d) st in
      if negb (opt_truthy (selected_provider_id d)) then
        (st, raise AgentRoutingError ("no eligible route: " +:+ str_join "," (no_route_reasons d)))
      else
        match try_candidates (rd_decision_id d) (List.filter eligible (candidates d)) (dict_of cb_provider_id circuits) [] st with
        | (st, Raise e) => (st, Raise e)
        | (st, Ok (l, r)) => finish_execution d l r st
        end
  end.
End execution.
