(* ===== verification/AgentExecution.v ===== *)
(** * AgentExecution: what an execution calls and leaves

    The attempts of an execution are the eligible candidates in routing
    order, up to the first that succeeds; the stored circuits are the given
    ones after the outcomes. *)
From S2P Require Import Prelude PyStd PyRe PyJson Identifiers TaskState ControlDomain SchedulerDomain LanePolicy AgentDomain AgentRouter AgentPerformance AgentRouting AgentService.
Local Open Scope Z_scope.

(** ** Attempts *)
(** The attempt is a call of this candidate. *)
Definition attempt_for (c : RouteCandidate) (a : ExecutionAttempt) : Prop :=
  at_provider_id a = rc_provider_id c ∧ at_model_id a = rc_model_id c ∧ at_agent_id a = rc_agent_id c.
Definition failed (a : ExecutionAttempt) : Prop := at_succeeded a = false ∧ at_result a = None.
(** A list of attempts that ends with the result [r]. *)
Definition ends_with (r : option ProviderInvocationResult) (l : list ExecutionAttempt) : Prop :=
  match r with
  | Some x => ∃ before a, l = before ++ [a] ∧ Forall failed before ∧ at_succeeded a = true ∧ at_result a = Some x
  | None => Forall failed l
  end.
Definition outcome_event (a : ExecutionAttempt) : circuit_event :=
  if at_succeeded a then Succeeded (finished_at_utc a) else Failed (finished_at_utc a) (default "" (error_kind a)).
Definition outcomes (pid : string) (l : list ExecutionAttempt) : list circuit_event :=
  outcome_event <$> List.filter (λ a, String.eqb (at_provider_id a) pid) l.
Lemma outcomes_cons pid a l : outcomes pid (a :: l)
  = (if String.eqb (at_provider_id a) pid then [outcome_event a] else []) ++ outcomes pid l.
Proof. unfold outcomes. cbn [List.filter]. by destruct (String.eqb _ _). Qed.

Section loop.
Context (policy : CircuitBreakerPolicy) (reg : AgentRegistrySnapshot) (adapters : gmap string provider_adapter).
Context (clock : nat → Z) (contract : ExecutionTaskContract) (now : Z) (did : string).
Definition callable (c : RouteCandidate) : bool := bool_decide (is_Some (adapters !! rc_adapter_id c)).
Lemma try_candidates_order cs : ∀ cb before st st' l r,
  try_candidates policy reg adapters clock contract now did cs cb before st = (st', Ok (l, r)) →
  ∃ tried rest added, List.filter callable cs = tried ++ rest ∧ l = before ++ added ∧ Forall2 attempt_for tried added
    ∧ ends_with r added ∧ (r = None → rest = []).
Proof.
  induction cs as [|c cs IH]; intros cb before st st' l r; cbn [try_candidates List.filter].
  { intros [= <- <- <-]. exists [], [], [].
    split_and!; [done|by rewrite app_nil_r|apply Forall2_nil_2|apply Forall_nil_2|done]. }
  unfold callable at 1. destruct (adapters !! rc_adapter_id c) as [adapter|]; [|intros E; rewrite bool_decide_eq_false_2 by (by intros [? [=]]); by eapply IH].
  rewrite bool_decide_eq_true_2 by eauto. destruct (dict_of md_model_id (models reg) !! rc_model_id c) as [m|]; [|done].
  destruct (adapter contract (provider_model_name m)) as [x|kind message retryable|e]; [..|done]; unfold attempt_record;
    destruct (router_identifier _ _) as [i|]; cbn [mbind result_bind]; try done.
  - intros [= <- <- <-]. eexists [c], (List.filter callable cs), [_]. split_and!; [done..| | |done].
    + by apply Forall2_cons_2, Forall2_nil_2.
    + by eexists [], _.
  - intros (tried & rest & added & -> & -> & Hf & He & Hr)%IH. eexists (c :: tried), rest, (_ :: added).
    split_and!; [done|by rewrite <-app_assoc|by apply Forall2_cons_2| |done].
    destruct r as [x|]; cbn in *; [|by apply Forall_cons_2]. destruct He as (b & a & -> & Hb & Ha). eexists (_ :: b), a.
    split; [done|]. split; [by apply Forall_cons_2|done].
Qed.
(** Records are filed under their provider. *)
Definition filed (cb : gmap string CircuitBreakerRecord) : Prop := ∀ pid r, cb !! pid = Some r → cb_provider_id r = pid.
Lemma record_failure_id r when_ reason : cb_provider_id (record_failure r policy when_ reason) = cb_provider_id r.
Proof. unfold record_failure, normalize_circuit. by destruct (_ && permits _ _ _); cbn; destruct (_ || _). Qed.
Lemma circuit_for_id cb pid : filed cb → cb_provider_id (circuit_for now cb pid) = pid.
Proof. intros Hf. unfold circuit_for. destruct (cb !! pid) as [r|] eqn:E; [by apply Hf|done]. Qed.
Lemma try_candidates_circuits cs : ∀ cb before s st' l r, filed cb →
  try_candidates policy reg adapters clock contract now did cs cb before (Some s) = (st', Ok (l, r)) →
  ∃ added s', l = before ++ added ∧ st' = Some s' ∧ ∀ pid, as_circuits s' !! pid =
    if bool_decide (outcomes pid added = []) then as_circuits s !! pid
    else Some (foldl (circuit_step policy) (circuit_for now cb pid) (outcomes pid added)).
Proof.
  induction cs as [|c cs IH]; intros cb before s st' l r Hf; cbn [try_candidates].
  { intros [= <- <- <-]. exists [], s. split_and!; [by rewrite app_nil_r|done..]. }
  destruct (adapters !! rc_adapter_id c) as [adapter|]; [|by apply IH].
  destruct (dict_of md_model_id (models reg) !! rc_model_id c) as [m|]; [|done].
  destruct (adapter contract (provider_model_name m)) as [x|kind message retryable|e]; [..|done]; unfold attempt_record;
    destruct (router_identifier _ _) as [i|]; cbn [mbind result_bind]; try done.
  - intros [= <- <- <-]. eexists [_], _. split; [done|]. split; [done|]. intros pid.
    rewrite outcomes_cons. cbn [at_provider_id stored fmap option_fmap save_circuit as_circuits].
    destruct (String.eqb_spec (rc_provider_id c) pid) as [<-|Hne]; cbn [app].
    + rewrite bool_decide_eq_false_2 by done. cbn [outcome_event at_succeeded foldl circuit_step finished_at_utc record_success cb_provider_id].
      by rewrite (circuit_for_id _ _ Hf), lookup_insert_eq.
    + rewrite bool_decide_eq_true_2 by done. cbn [record_success cb_provider_id]. by rewrite (circuit_for_id _ _ Hf), lookup_insert_ne.
  - set (rec := record_failure _ _ _ _). cbn [stored fmap option_fmap option_map].
    assert (cb_provider_id rec = rc_provider_id c) as Hrec by (unfold rec; by rewrite record_failure_id, circuit_for_id).
    intros (added & s' & -> & -> & Hc)%IH.
    + eexists (_ :: added), s'. split; [by rewrite <-app_assoc|]. split; [done|]. intros pid. rewrite Hc, outcomes_cons.
      cbn [at_provider_id as_circuits save_circuit]. rewrite Hrec. unfold circuit_for at 1. rewrite !lookup_insert.
      destruct (String.eqb_spec (rc_provider_id c) pid) as [<-|Hne]; cbn [app].
      * rewrite !decide_True by done. rewrite (bool_decide_eq_false_2 (_ :: _ = [])) by done.
        cbn [default foldl circuit_step outcome_event at_succeeded finished_at_utc error_kind].
        case_bool_decide as E; [by rewrite E|done].
      * by rewrite !decide_False.
    + intros pid y. rewrite lookup_insert. case_decide as Ei; [|apply Hf]. intros [= <-]. by rewrite Hrec.
Qed.
Lemma save_observations_circuits receipt a latency caps : ∀ s s' u, save_observations contract receipt a latency caps s = (s', u) →
  as_circuits s' = as_circuits s.
Proof.
  induction caps as [|cap caps IH]; intros s s' u; cbn [save_observations]; [by intros [= <- _]|].
  destruct (attempt_observation _ _ _ _ _) as [o|e]; [|by intros [= <- _]]. intros E. by rewrite (IH _ _ _ E).
Qed.
Lemma save_attempts_circuits receipt l : ∀ s s' u, save_attempts contract receipt l s = (s', u) → as_circuits s' = as_circuits s.
Proof.
  induction l as [|a l IH]; intros s s' u; cbn [save_attempts]; [by intros [= <- _]|].
  destruct (attempt_latency a) as [latency|e]; [|by intros [= <- _]].
  destruct (save_observations _ _ _ _ _ _) as [s1 [v|e]] eqn:E; apply save_observations_circuits in E; [|by intros [= <- _]].
  intros E'. by rewrite (IH _ _ _ E').
Qed.
Lemma finish_receipt d l r st st' rx : finish_execution clock contract d l r st = (st', Ok rx) →
  attempts rx = l ∧ rx_result rx = r ∧ rx_succeeded rx = bool_decide (r ≠ None)
  ∧ (as_circuits <$> st') = (as_circuits <$> st).
Proof.
  unfold finish_execution. destruct (router_identifier _ _) as [i|]; [|done]. destruct st as [s|]; [|by intros [= <- <-]].
  destruct (save_attempts _ _ _ _) as [s1 [v|e]] eqn:E; [|done]. intros [= <- <-]. apply save_attempts_circuits in E.
  split_and!; [done..|]. cbn. by rewrite E.
Qed.
End loop.

(** ** Executions *)
Lemma execute_inv policy reg adapters clock contract now states circuits performance st st' rx :
  execute policy reg adapters clock contract now states circuits performance st = (st', Ok rx) →
  ∃ d st1 l r, route policy contract reg states circuits performance now = Ok d
    ∧ try_candidates policy reg adapters clock contract now (rd_decision_id d) (List.filter eligible (candidates d))
        (dict_of cb_provider_id circuits) [] (stored (save_routing_decision d) st) = (st1, Ok (l, r))
    ∧ finish_execution clock contract d l r st1 = (st', Ok rx).
Proof.
  unfold execute. destruct (route _ _ _ _ _ _ _) as [d|]; [|done]. destruct (negb _); [done|].
  destruct (try_candidates _ _ _ _ _ _ _ _ _ _ _) as [st1 [[l r]|e]] eqn:E; [|done]. intros E'. by exists d, st1, l, r.
Qed.


(** The circuits an execution stores are the given ones after the
    outcomes of its attempts, provider by provider; the circuits of the
    providers it did not call are left. *)
Theorem execution_updates_circuits policy reg adapters clock contract now states circuits performance s st' rx :
  execute policy reg adapters clock contract now states circuits performance (Some s) = (st', Ok rx) →
  ∃ s', st' = Some s' ∧ ∀ pid, as_circuits s' !! pid =
    if bool_decide (outcomes pid (attempts rx) = []) then as_circuits s !! pid
    else Some (foldl (circuit_step policy) (default (closed_circuit pid now) (dict_of cb_provider_id circuits !! pid))
                 (outcomes pid (attempts rx))).
Proof.
  intros (d & st1 & l & r & _ & Et & Ef)%execute_inv. apply try_candidates_circuits in Et as (added & s1 & -> & -> & Hc).
  - apply finish_receipt in Ef as (Ea & _ & _ & Ecirc). destruct st' as [s'|]; [|done]. injection Ecirc as Ecirc.
    exists s'. split; [done|]. intros pid. by rewrite Ecirc, Hc, Ea.
  - intros pid c Hl. by apply dict_of_lookup_Some in Hl as [_ ?].
Qed.

(** ** a registry of two providers

    A hosted provider is preferred and fails; the local one answers. *)
Module Scenarios.
Definition reasoning : string := "routine_reasoning".
Definition hosted : ProviderSpec :=
  mkProvider "provider:hosted" "Hosted" "adapter:hosted" EM_HOSTED_API [reasoning] true false false true "metered" [] [].
Definition on_site : ProviderSpec :=
  mkProvider "provider:local" "Local" "adapter:local" EM_LOCAL_PROCESS [reasoning] true true false false "free" [] [].
Definition large : ModelSpec :=
  mkModel "model:large" "provider:hosted" "large-1" "1" [reasoning] "standard" QL_QUALIFIED None None false [].
Definition small : ModelSpec :=
  mkModel "model:small" "provider:local" "small-1" "1" [reasoning] "standard" QL_QUALIFIED None None true [].
Definition first_agent : AgentSpec := mkAgent "agent:first" "model:large" [reasoning] [AC_ADVISORY] QL_QUALIFIED [].
Definition second_agent : AgentSpec := mkAgent "agent:second" "model:small" [reasoning] [AC_ADVISORY] QL_QUALIFIED [].
Definition demo_registry (l : list AgentSpec) : AgentRegistrySnapshot :=
  mkAgentRegistry "REG-1" [mkCapability reasoning "Reasoning" [] ["standard"] [] "HIGH"] [hosted; on_site] [large; small] l []
    [mkRoutePolicy reasoning ["provider:hosted"] ["provider:local"] true] 0.
Definition both : AgentRegistrySnapshot := demo_registry [first_agent; second_agent].
Definition demo_contract : ExecutionTaskContract :=
  mkContract "T-1" "analysis" [reasoning] "standard" "LOW" "summarise" (JObj []) JNull None true true false.
Definition healthy : list ProviderStateObservation :=
  [mkObservation "provider:hosted" PR_HEALTHY "" 0 None None; mkObservation "provider:local" PR_HEALTHY "" 0 None None].
Definition noon : Z := 43200000000.
Definition seen : list PerformanceObservation :=
  [mkPerformance "p-1" "agent:first" reasoning "analysis" true 900 (Some 2000) 0 0 0 800 0 false None;
   mkPerformance "p-2" "agent:first" reasoning "analysis" false 400 None 0 0 0 500 0 false None].

(** Every record of the registry is its own normal form, and the registry is
    accepted. *)
Example demo_agents_valid :
  new_provider hosted = Ok hosted ∧ new_provider on_site = Ok on_site ∧ new_model large = Ok large ∧ new_model small = Ok small
  ∧ new_agent first_agent = Ok first_agent ∧ new_agent second_agent = Ok second_agent ∧ new_contract demo_contract = Ok demo_contract
  ∧ validate both = Ok ().
Proof. vm_compute. by split_and!. Qed.
(** [round] ties to even; 2.5, 3.5 and one third of two. *)
Example demo_rounding : rounded_mean 5 2 = Ok 2 ∧ rounded_mean 7 2 = Ok 4 ∧ rounded_mean 2 3 = Ok 1 ∧ rounded_mean 2000 3 = Ok 667.
Proof. vm_compute. by split_and!. Qed.
Lemma demo_routable l : validate (demo_registry l) = Ok () → routable demo_contract (demo_registry l) seen.
Proof.
  intros Hv. split; [done|done|done| |by split].
  intros o. unfold seen. rewrite !elem_of_cons. by intros [->|[->|[]%elem_of_nil]].
Qed.

(** ** Routing *)
Lemma route_selects_best_witness :
  ∃ perf d, summarize_performance seen noon DEFAULT_MAX_AGE false = Ok perf
  ∧ route default_circuit_policy demo_contract both healthy [] seen noon = Ok d ∧
  let cx := route_context_of default_circuit_policy demo_contract both healthy [] perf noon in
  match selected_agent_id d with
  | Some i => ∃ a m p, linked both a m p ∧ agent_id a = i ∧ selected_model_id d = Some (md_model_id m)
      ∧ selected_provider_id d = Some (pv_provider_id p) ∧ fit cx a m p
      ∧ ∀ a' m' p', linked both a' m' p' → fit cx a' m' p' → route_score cx a' m' p' ≤ route_score cx a m p
  | None => (∀ a m p, linked both a m p → ¬ fit cx a m p) ∧ no_route_reasons d ≠ []
  end.
Proof.
  apply (route_selects_best default_circuit_policy demo_contract both healthy [] seen noon). apply demo_routable. by vm_compute.
Defined.
Lemma route_order_independent_witness :
  route default_circuit_policy demo_contract both healthy [] seen noon
  = route default_circuit_policy demo_contract (demo_registry [second_agent; first_agent]) healthy [] seen noon.
Proof.
  apply (route_order_independent default_circuit_policy demo_contract both (demo_registry [second_agent; first_agent]) healthy [] seen noon).
  - apply demo_routable. by vm_compute.
  - apply Permutation_swap.
  - done.
  - done.
  - done.
  - done.
Defined.

(** ** Circuits *)
Definition three_failures : list circuit_event :=
  [Failed 1000000 "QUOTA"; Failed 2000000 "QUOTA"; Failed 3000000 "QUOTA"; Probed 100000000; Probed 124000000].
Lemma circuit_follows_history_witness :
  lets_through default_circuit_policy (circuit_view_of default_circuit_policy three_failures) 125000000 = false
  ∧ permits (normalize_circuit (circuit_run default_circuit_policy "provider:hosted" 0 three_failures) default_circuit_policy 125000000)
      125000000 default_circuit_policy
    = lets_through default_circuit_policy (circuit_view_of default_circuit_policy three_failures) 125000000.
Proof.
  split; [by vm_compute|].
  apply (circuit_follows_history default_circuit_policy "provider:hosted" 0 three_failures 125000000).
  - by vm_compute.
  - cbn. lia.
Defined.

(** ** Executions *)
Definition refusing : provider_adapter := λ _ _, Refused "QUOTA" "quota exhausted" true.
Definition answering : provider_adapter := λ _ _,
  Invoked (mkInvocation "provider:local" None None (JObj []) (mkUsage 10 20 0 1 (Some 0)) None None []).
Definition demo_adapters : gmap string provider_adapter := {[ "adapter:hosted" := refusing; "adapter:local" := answering ]}.
Definition demo_clock (n : nat) : Z := noon + Z.of_nat (S n) * 1000000.
Definition run1 := Eval vm_compute in
  execute default_circuit_policy both demo_adapters demo_clock demo_contract noon healthy [] seen (Some empty_agent_store).
Definition no_receipt : ExecutionReceipt := mkExecutionReceipt "" "" "" [] false None 0.
Definition receipt1 : ExecutionReceipt := match run1.2 with Ok r => r | Raise _ => no_receipt end.
Example demo_execution :
  at_agent_id <$> attempts receipt1 = ["agent:first"; "agent:second"] ∧ at_succeeded <$> attempts receipt1 = [false; true]
  ∧ rx_succeeded receipt1 = true.
Proof. by vm_compute. Qed.
Lemma execution_updates_circuits_witness :
  ∃ s', run1.1 = Some s' ∧ ∀ pid, as_circuits s' !! pid =
    if bool_decide (outcomes pid (attempts receipt1) = []) then as_circuits empty_agent_store !! pid
    else Some (foldl (circuit_step default_circuit_policy)
                 (default (closed_circuit pid noon) (dict_of cb_provider_id [] !! pid)) (outcomes pid (attempts receipt1))).
Proof.
  apply (execution_updates_circuits default_circuit_policy both demo_adapters demo_clock demo_contract noon healthy [] seen
           empty_agent_store run1.1 receipt1).
  by vm_compute.
Defined.

(** The identifiers of a decision, its attempts, its receipt and its
    observations depend on the contract and not on the execution: the same
    contract executed again replaces the records of the first execution. *)
Definition tomorrow : Z := noon + 86400000000.
Definition run2 := Eval vm_compute in
  execute default_circuit_policy both {[ "adapter:hosted" := answering; "adapter:local" := answering ]}
    (λ n, tomorrow + Z.of_nat (S n) * 1000000) demo_contract tomorrow healthy [] [] run1.1.
Definition receipts_of (st : option agent_store) : list (string * bool * Z) :=
  (λ kr, (kr.1, rx_succeeded kr.2, rx_generated_at_utc kr.2)) <$> match st with Some s => map_to_list (as_receipts s) | None => [] end.
Theorem repeated_execution_replaces_history :
  length (receipts_of run1.1) = 1%nat ∧ length (receipts_of run2.1) = 1%nat
  ∧ (receipts_of run1.1).*1.*1 = (receipts_of run2.1).*1.*1 ∧ (receipts_of run1.1).*2 ≠ (receipts_of run2.1).*2
  ∧ size <$> (as_performance <$> run1.1) = Some 2%nat ∧ size <$> (as_performance <$> run2.1) = Some 2%nat.
Proof. vm_compute. by split_and!. Qed.

(** Every attempt is said to start with the execution: the latency booked for
    a fallback, here of one second, includes the attempts before it. *)
Theorem fallback_latency_includes_earlier_attempts :
  (λ a, finished_at_utc a) <$> attempts receipt1 = [noon + 1000000; noon + 2000000]
  ∧ (λ o, (pf_target_id o, latency_ms o)) <$> (snd <$> match run1.1 with Some s => map_to_list (as_performance s) | None => [] end)
    ≡ₚ [("agent:first", 1000); ("agent:second", 2000)].
Proof. vm_compute. split; [done|]. (apply Permutation_swap || reflexivity). Qed.
End Scenarios.
