(* ===== verification/IsoInstant.v ===== *)
(** * IsoInstant: instants written and read again

    [fromisoformat] reads back what [isoformat] and [model_dump(mode="json")]
    write, to the microsecond, for every instant Python can represent. *)
From S2P Require Import Prelude PyStd PyRe PyJson SchedulerDomain.
From stdpp Require Import pretty.
From Stdlib Require Import Ascii.
Local Open Scope Z_scope.

(** ** The calendar *)
Lemma year_of_era doe : 0 ≤ doe < 146097 →
  let yoe := (doe - doe / 1460 + doe / 36524 - doe / 146096) / 365 in
  let doy := doe - (365 * yoe + yoe / 4 - yoe / 100) in
  0 ≤ yoe < 400 ∧ 0 ≤ doy ≤ 365
  ∧ (doy = 365 → (yoe + 1) mod 4 = 0 ∧ ((yoe + 1) mod 100 ≠ 0 ∨ (yoe + 1) mod 400 = 0)).
Proof.
  intros H. cbv zeta. split; [Z.to_euclidean_division_equations; lia|]. split; [Z.to_euclidean_division_equations; lia|].
  intros E. split; [Z.to_euclidean_division_equations; lia|]. Z.to_euclidean_division_equations; lia.
Qed.
Lemma day_of_year doy : 0 ≤ doy ≤ 365 →
  let mp := (5 * doy + 2) / 153 in let day := doy - (153 * mp + 2) / 5 + 1 in
  0 ≤ mp < 12 ∧ 1 ≤ day ≤ 31 ∧ (mp = 1 ∨ mp = 3 ∨ mp = 6 ∨ mp = 8 → day ≤ 30) ∧ (mp = 11 → day ≤ 28 ∨ (day = 29 ∧ doy = 365)).
Proof. intros H. cbv zeta. Z.to_euclidean_division_equations; lia. Qed.
(** A day number gives a date of the calendar, which gives it back. *)
Lemma civil_valid d : let '(y, m, day) := civil_of_days d in
  days_of_civil y m day = d ∧ 1 ≤ m ≤ 12 ∧ 1 ≤ day ≤ month_days y m.
Proof.
  unfold civil_of_days. set (z := d + 719468). pose proof (Z.mod_pos_bound z 146097 ltac:(lia)) as Hdoe.
  pose proof (Z.div_mod z 146097 ltac:(lia)) as Hz. set (era := z / 146097) in *. set (doe := z mod 146097) in *.
  pose proof (year_of_era doe Hdoe) as Hy. cbv zeta in *. set (yoe := (doe - doe / 1460 + doe / 36524 - doe / 146096) / 365) in *.
  set (doy := doe - (365 * yoe + yoe / 4 - yoe / 100)) in *. destruct Hy as (Hyoe & Hdoy & Hleap).
  pose proof (day_of_year doy Hdoy) as Hd. cbv zeta in Hd. set (mp := (5 * doy + 2) / 153) in *.
  set (day := doy - (153 * mp + 2) / 5 + 1) in *. destruct Hd as (Hmp & Hday & H30 & H28).
  assert (era * 146097 + (yoe * 365 + yoe / 4 - yoe / 100 + doy) - 719468 = d) as Hback by lia.
  destruct (Z.ltb_spec mp 10) as [Hm|Hm].
  - destruct (Z.leb_spec (mp + 3) 2); [lia|]. unfold days_of_civil, month_days. cbv zeta.
    destruct (Z.leb_spec (mp + 3) 2); [lia|]. destruct (Z.ltb_spec 2 (mp + 3)); [|lia]. rewrite Z.add_0_r.
    replace (mp + 3 - 3) with mp by lia. rewrite (Z.mul_comm 400 era), Z.div_add, Z_mod_plus_full, (Z.div_small yoe), (Z.mod_small yoe) by lia.
    split; [unfold day; lia|]. split; [lia|]. split; [lia|].
    destruct (Z.eqb_spec (mp + 3) 2); [lia|]. destruct (Z.eqb_spec (mp + 3) 4); [cbn; lia|]. destruct (Z.eqb_spec (mp + 3) 6); [cbn; lia|].
    destruct (Z.eqb_spec (mp + 3) 9); [cbn; lia|]. destruct (Z.eqb_spec (mp + 3) 11); cbn; lia.
  - destruct (Z.leb_spec (mp - 9) 2); [|lia]. unfold days_of_civil, month_days. cbv zeta.
    destruct (Z.leb_spec (mp - 9) 2); [|lia]. destruct (Z.ltb_spec 2 (mp - 9)); [lia|].
    replace (yoe + 400 * era + 1 - 1) with (yoe + era * 400) by lia. replace (mp - 9 + 9) with mp by lia.
    rewrite Z.div_add, Z_mod_plus_full, (Z.div_small yoe), (Z.mod_small yoe) by lia.
    split; [unfold day; lia|]. split; [lia|]. split; [lia|]. destruct (Z.eqb_spec (mp - 9) 2) as [E2|E2].
    + destruct H28 as [|[-> E365]]; [lia|case_match; lia|]. destruct (Hleap E365) as [H4 H100].
      replace (yoe + 400 * era + 1) with (yoe + 1 + (100 * era) * 4) by lia. rewrite Z_mod_plus_full, H4.
      replace (yoe + 1 + (100 * era) * 4) with (yoe + 1 + (4 * era) * 100) by lia. rewrite Z_mod_plus_full.
      replace (yoe + 1 + (4 * era) * 100) with (yoe + 1 + era * 400) by lia. rewrite Z_mod_plus_full.
      destruct (Z.eqb_spec ((yoe + 1) mod 100) 0), (Z.eqb_spec ((yoe + 1) mod 400) 0); cbn; lia.
    + assert (mp = 10) by lia. destruct (Z.eqb_spec (mp - 9) 4), (Z.eqb_spec (mp - 9) 6), (Z.eqb_spec (mp - 9) 9), (Z.eqb_spec (mp - 9) 11); cbn; lia.
Qed.

(** ** Numbers of fixed width *)
Fixpoint fixed (n : nat) (v : N) (s : string) : string :=
  match n with O => s | S n => fixed n (v / 10)%N (String (pretty_N_char (v mod 10)%N) s) end.
Definition zeros (n : nat) : string := str_join "" (replicate n "0").
Lemma zeros_S n s : zeros (S n) +:+ s = String "0" (zeros n +:+ s).
Proof. unfold zeros, str_join. destruct n as [|n]; [done|]. by rewrite <-str_app_cons. Qed.
Lemma zeros_end n s : zeros n +:+ String "0" s = String "0" (zeros n +:+ s).
Proof. induction n as [|n IH]; [done|]. by rewrite !zeros_S, IH. Qed.
Lemma fixed_0 n s : fixed n 0 s = zeros n +:+ s.
Proof. revert s. induction n as [|n IH]; intros s; [done|]. cbn [fixed]. change (0 / 10)%N with 0%N. by rewrite IH, zeros_end, zeros_S. Qed.
Lemma pretty_go_length v s : String.length (pretty_N_go v s) = (String.length (pretty_N_go v "") + String.length s)%nat.
Proof.
  revert s. induction (N.lt_wf_0 v) as [v _ IH]; intros s. assert (v = 0 ∨ 0 < v)%N as [->|Hv] by lia; [done|].
  assert (v / 10 < v)%N as Hd by (by apply N.div_lt).
  rewrite !(pretty_N_go_step v) by done. rewrite (IH _ Hd). symmetry. rewrite (IH _ Hd). cbn. lia.
Qed.
Lemma fixed_pretty n v s : (v < 10 ^ N.of_nat n)%N → fixed n v s = zeros (n - String.length (pretty_N_go v "")) +:+ pretty_N_go v s.
Proof.
  revert v s. induction n as [|n IH]; intros v s Hv.
  { assert (v = 0)%N as -> by (cbn in Hv; lia). done. }
  assert (v = 0 ∨ 0 < v)%N as [->|Hp] by lia; [by rewrite fixed_0|].
  rewrite Nat2N.inj_succ, N.pow_succ_r' in Hv. cbn [fixed]. rewrite IH by (apply N.Div0.div_lt_upper_bound; lia).
  rewrite !(pretty_N_go_step v) by done. rewrite (pretty_go_length _ (String _ "")). cbn [String.length].
  replace (S n - (String.length (pretty_N_go (v / 10) "") + 1))%nat with (n - String.length (pretty_N_go (v / 10) ""))%nat by lia. done.
Qed.
Lemma pad_int_fixed n v : (0 < n)%nat → 0 ≤ v < 10 ^ Z.of_nat n → pad_int n v = fixed n (Z.to_N v) "".
Proof.
  intros Hn Hv. unfold pad_int, pad_zero, str_of_Z. fold (zeros (n - String.length (pretty v))).
  destruct v as [|p|p]; [| |lia].
  - change (pretty 0) with "0". cbn [String.length Z.to_N]. rewrite fixed_0. destruct n as [|n]; [lia|].
    rewrite zeros_end, zeros_S. by replace (S n - 1)%nat with n by lia.
  - change (pretty (Z.pos p)) with (pretty (N.pos p)). unfold pretty at 1 2, pretty_N. rewrite decide_False by done.
    rewrite fixed_pretty; [done|]. cbn [Z.to_N]. apply N2Z.inj_lt. rewrite N2Z.inj_pow, nat_N_Z. cbn. lia.
Qed.
Lemma digit_read v : (v < 10)%N → is_digit (pretty_N_char v) = true ∧ ascii_code (pretty_N_char v) - 48 = Z.of_N v.
Proof.
  intros Hv. assert (v = 0 ∨ v = 1 ∨ v = 2 ∨ v = 3 ∨ v = 4 ∨ v = 5 ∨ v = 6 ∨ v = 7 ∨ v = 8 ∨ v = 9)%N as Hc by lia.
  destruct_or! Hc; subst v; done.
Qed.
Lemma take_fixed n m v s acc : (v < 10 ^ N.of_nat n)%N →
  take_digits (n + m) (fixed n v s) acc = take_digits m s (acc * 10 ^ Z.of_nat n + Z.of_N v).
Proof.
  revert m v s. induction n as [|n IH]; intros m v s Hv.
  { assert (v = 0)%N as -> by (cbn in Hv; lia). cbn [fixed Nat.add]. f_equal. cbn. lia. }
  rewrite Nat2N.inj_succ, N.pow_succ_r' in Hv. cbn [fixed]. rewrite Nat.add_succ_comm.
  rewrite IH by (apply N.Div0.div_lt_upper_bound; lia). cbn [take_digits].
  destruct (digit_read (v mod 10)%N) as [-> ->]; [by apply N.mod_lt|]. f_equal.
  rewrite Nat2Z.inj_succ, Z.pow_succ_r by lia. rewrite N2Z.inj_div, N2Z.inj_mod. pose proof (Z.div_mod (Z.of_N v) 10 ltac:(lia)). cbn. lia.
Qed.
Lemma fixed_app n v s : fixed n v s = fixed n v "" +:+ s.
Proof.
  revert v s. induction n as [|n IH]; intros v s; [done|]. cbn [fixed]. rewrite IH. symmetry. rewrite IH, str_app_assoc. done.
Qed.
(** A number printed with [n] digits is read back. *)
Lemma take_pad n v s : (0 < n)%nat → 0 ≤ v < 10 ^ Z.of_nat n → take_digits n (pad_int n v +:+ s) 0 = Some (v, s).
Proof.
  intros Hn Hv. rewrite pad_int_fixed, <-fixed_app by done. rewrite <-(Nat.add_0_r n) at 1.
  rewrite take_fixed; [cbn [take_digits]; by rewrite Z2N.id by lia|].
  apply N2Z.inj_lt. rewrite N2Z.inj_pow, nat_N_Z, Z2N.id by lia. cbn. lia.
Qed.

(** ** Instants *)
(** [datetime.min] and [datetime.max], in microseconds of the epoch. *)
Definition MIN_INSTANT : Z := -62135596800000000.
Definition MAX_INSTANT : Z := 253402300799999999.
Lemma civil_year d : -719162 ≤ d ≤ 2932896 → 1 ≤ (civil_of_days d).1.1 ≤ 9999.
Proof.
  intros Hd. unfold civil_of_days. cbn [fst]. cbv zeta. set (z := d + 719468). assert (306 ≤ z ≤ 3652364) by (unfold z; lia).
  pose proof (Z.mod_pos_bound z 146097 ltac:(lia)) as Hdoe. pose proof (Z.div_mod z 146097 ltac:(lia)) as Hz.
  set (era := z / 146097) in *. set (doe := z mod 146097) in *. pose proof (year_of_era doe Hdoe) as Hy. cbv zeta in Hy.
  set (yoe := (doe - doe / 1460 + doe / 36524 - doe / 146096) / 365) in *. destruct Hy as (Hyoe & Hdoy & _).
  remember (doe - (365 * yoe + yoe / 4 - yoe / 100)) as doy eqn:Edoy. clearbody yoe.
  assert (doy < 306 → (5 * doy + 2) / 153 < 10) as H1 by (intros; Z.to_euclidean_division_equations; lia).
  assert (306 ≤ doy → 10 ≤ (5 * doy + 2) / 153 < 12) as H2 by (intros; Z.to_euclidean_division_equations; lia).
  assert (0 ≤ (5 * doy + 2) / 153) as H3 by (apply Z.div_pos; lia).
  assert (0 ≤ era ≤ 24) as Hera by lia.
  destruct (Z.ltb_spec ((5 * doy + 2) / 153) 10).
  - rewrite (proj2 (Z.leb_gt _ _)) by lia. assert (doy < 306) by lia. assert (yoe = 0 → 1 ≤ era).
    { intros ->. change (0 / 4) with 0 in Edoy. change (0 / 100) with 0 in Edoy. lia. } lia.
  - rewrite (proj2 (Z.leb_le _ _)) by lia. assert (306 ≤ doy) by lia. assert (era = 24 → yoe < 399).
    { intros ->. assert (doe ≤ 146036) by lia. clear H1 H2 H3. Z.to_euclidean_division_equations; lia. } lia.
Qed.
Lemma take_char_app c s : take_char c (String c "" +:+ s) = Some s.
Proof. change (String c "" +:+ s) with (String c s). cbn. by rewrite Ascii.eqb_refl. Qed.
Lemma take_fraction_read frac s : 0 ≤ frac < 1000000 → take_char "." s = None →
  take_fraction ((if frac =? 0 then "" else "." +:+ pad_int 6 frac) +:+ s) = Some (frac, s).
Proof.
  intros Hf Hs. destruct (Z.eqb_spec frac 0) as [->|].
  - change ("" +:+ s) with s. destruct s as [|c s]; [done|]. cbn in Hs. unfold take_fraction.
    by destruct c as [[] [] [] [] [] [] [] []].
  - rewrite str_app_assoc. change ("." +:+ (pad_int 6 frac +:+ s)) with (String "." (pad_int 6 frac +:+ s)). cbn [take_fraction].
    apply take_pad; [lia|cbn; lia].
Qed.
Lemma clock_split r : 0 ≤ r < us_per_day → let sec := r / 1000000 in
  0 ≤ sec / 3600 < 24 ∧ 0 ≤ sec / 60 mod 60 < 60 ∧ 0 ≤ sec mod 60 < 60 ∧ 0 ≤ r mod 1000000 < 1000000
  ∧ (sec / 3600 * 60 + sec / 60 mod 60) * 60000000 + sec mod 60 * 1000000 + r mod 1000000 = r.
Proof. intros Hr. cbv zeta. unfold us_per_day in Hr. Z.to_euclidean_division_equations; lia. Qed.
(** What [isoformat] writes before the offset. *)
Definition iso_body (us : Z) : string :=
  let '(y, m, d) := civil_of_days (us / us_per_day) in
  let r := us mod us_per_day in let sec := r / 1000000 in let frac := r mod 1000000 in
  pad_int 4 y +:+ "-" +:+ pad_int 2 m +:+ "-" +:+ pad_int 2 d +:+ "T"
  +:+ pad_int 2 (sec / 3600) +:+ ":" +:+ pad_int 2 (sec / 60 mod 60) +:+ ":" +:+ pad_int 2 (sec mod 60)
  +:+ (if frac =? 0 then "" else "." +:+ pad_int 6 frac).
Lemma isoformat_body us : isoformat us = iso_body us +:+ "+00:00".
Proof. unfold isoformat, iso_body. destruct (civil_of_days _) as [[y m] d]. cbv zeta. by rewrite !str_app_assoc. Qed.
Lemma parse_isoformat us : MIN_INSTANT ≤ us ≤ MAX_INSTANT → parse_instant (isoformat us) = Some us.
Proof.
  intros Hus. unfold isoformat. pose proof (civil_valid (us / us_per_day)) as Hc.
  assert (1 ≤ (civil_of_days (us / us_per_day)).1.1 ≤ 9999) as Hy.
  { apply civil_year. unfold MIN_INSTANT, MAX_INSTANT, us_per_day in *. Z.to_euclidean_division_equations; lia. }
  destruct (civil_of_days (us / us_per_day)) as [[y m] d]. destruct Hc as (Hd & Hm & Hday). cbn [fst] in Hy. cbv zeta.
  pose proof (Z.mod_pos_bound us us_per_day eq_refl) as Hr. pose proof (clock_split _ Hr) as Hk. cbv zeta in Hk.
  set (r := us mod us_per_day) in *. set (sec := r / 1000000) in *. destruct Hk as (Hh & Hmi & Hs & Hf & Ht).
  assert (month_days y m ≤ 31) as Hmd by (unfold month_days; repeat case_match; lia).
  unfold parse_instant. rewrite take_pad by (cbn; lia). cbn [mbind option_bind]. rewrite take_char_app. cbn [mbind option_bind].
  rewrite take_pad by (cbn; lia). cbn [mbind option_bind]. rewrite take_char_app. cbn [mbind option_bind].
  rewrite take_pad by (cbn; lia). cbn [mbind option_bind]. rewrite take_char_app. cbn [mbind option_bind].
  rewrite take_pad by (cbn; lia). cbn [mbind option_bind]. rewrite take_char_app. cbn [mbind option_bind].
  rewrite take_pad by (cbn; lia). cbn [mbind option_bind]. rewrite take_char_app. cbn [mbind option_bind].
  rewrite take_pad by (cbn; lia). cbn [mbind option_bind]. rewrite take_fraction_read by done. cbn [mbind option_bind].
  change (take_offset "+00:00") with (Some 0). cbn [mbind option_bind].
  rewrite !(proj2 (Z.leb_le _ _)), !(proj2 (Z.ltb_lt _ _)) by lia. cbn [andb]. f_equal. rewrite Hd.
  pose proof (Z.div_mod us us_per_day ltac:(done)) as E. fold r in E. unfold us_per_day in *. lia.
Qed.
(** No letter Z is written but the one of UTC. *)
Definition not_Z (c : ascii) : bool := negb (Ascii.eqb c "Z").
Lemma fixed_not_Z n v s : str_forall not_Z s = true → str_forall not_Z (fixed n v s) = true.
Proof.
  revert v s. induction n as [|n IH]; intros v s Hs; [done|]. cbn [fixed]. apply IH. cbn [str_forall]. rewrite Hs, andb_true_r.
  unfold pretty_N_char. by repeat case_match.
Qed.
Lemma pad_not_Z n v : (0 < n)%nat → 0 ≤ v < 10 ^ Z.of_nat n → str_forall not_Z (pad_int n v) = true.
Proof. intros Hn Hv. rewrite pad_int_fixed by done. by apply fixed_not_Z. Qed.
Lemma iso_body_not_Z us : MIN_INSTANT ≤ us ≤ MAX_INSTANT → str_forall not_Z (iso_body us) = true.
Proof.
  intros Hus. unfold iso_body. pose proof (civil_valid (us / us_per_day)) as Hc.
  assert (1 ≤ (civil_of_days (us / us_per_day)).1.1 ≤ 9999) as Hy.
  { apply civil_year. unfold MIN_INSTANT, MAX_INSTANT, us_per_day in *. Z.to_euclidean_division_equations; lia. }
  destruct (civil_of_days (us / us_per_day)) as [[y m] d]. destruct Hc as (_ & Hm & Hday). cbn [fst] in Hy. cbv zeta.
  pose proof (Z.mod_pos_bound us us_per_day eq_refl) as Hr. pose proof (clock_split _ Hr) as Hk. cbv zeta in Hk.
  destruct Hk as (Hh & Hmi & Hs & Hf & _). assert (month_days y m ≤ 31) as Hmd by (unfold month_days; repeat case_match; lia).
  rewrite !str_forall_app. rewrite !pad_not_Z by (cbn; lia). destruct (_ =? 0); [done|].
  rewrite str_forall_app, pad_not_Z by (cbn; lia). done.
Qed.
Lemma replace_z_app s t : str_forall not_Z s = true → replace_z (s +:+ t) = s +:+ replace_z t.
Proof.
  induction s as [|c s IH]; [done|]. cbn [str_forall]. rewrite andb_true_iff. intros [Hc Hs]. rewrite !str_app_cons. cbn [replace_z].
  unfold not_Z in Hc. apply negb_true_iff in Hc. rewrite Hc, IH by done. done.
Qed.
Lemma fromisoformat_isoformat us : MIN_INSTANT ≤ us ≤ MAX_INSTANT → fromisoformat (isoformat us) = Ok us.
Proof.
  intros Hus. unfold fromisoformat. rewrite isoformat_body, replace_z_app by (by apply iso_body_not_Z).
  change (replace_z "+00:00") with "+00:00". by rewrite <-isoformat_body, parse_isoformat.
Qed.
Lemma json_instant_text us : json_instant us = JStr (iso_body us +:+ "Z").
Proof.
  unfold json_instant. rewrite isoformat_body, str_length_app. cbn [String.length]. do 2 f_equal.
  replace (String.length (iso_body us) + 6 - 6)%nat with (String.length (iso_body us)) by lia. f_equal. apply str_take_app.
Qed.
Lemma fromisoformat_dump us : MIN_INSTANT ≤ us ≤ MAX_INSTANT → fromisoformat (iso_body us +:+ "Z") = Ok us.
Proof.
  intros Hus. unfold fromisoformat. rewrite replace_z_app by (by apply iso_body_not_Z).
  change (replace_z "Z") with "+00:00". by rewrite <-isoformat_body, parse_isoformat.
Qed.
