(* ===== verification/FleetJobs.v ===== *)
(** * FleetJobs: [autonomy_runtime/durable_jobs.py], the durable job store

    [FleetJobStore] over its SQLite file, seen from one thread's connection.
    The connection is in autocommit mode and the methods open their
    transactions by hand: an exception between [BEGIN IMMEDIATE] and [COMMIT]
    leaves the transaction open, and a further [BEGIN] is refused.  Payloads
    are JSON objects. *)
From S2P Require Import Prelude PyStd PyRe PyJson SchedulerDomain.
From Stdlib Require Import Ascii.
Local Open Scope Z_scope.

(** ** Secrets: [autonomy_runtime/providers.py] *)
Definition opt (r : re) : re := Alt Eps r.
Definition blank : re := Cls is_space.
Definition nonblank : re := Cls (λ c, negb (is_space c)).
Definition secret_word : re :=
  alts [cats [lit "api"; opt (Cls (λ c, Ascii.eqb c "_" || Ascii.eqb c "-")); lit "key"]; lit "token"; lit "secret"; lit "password";
        lit "authorization"].
Definition is_lower_digit (c : ascii) : bool := is_lower c || is_digit c.
(** Case is ignored: the patterns are in lower case and so is the text. *)
Definition SECRET_SHAPED : re :=
  alts [cats [secret_word; Star blank; Cls (λ c, Ascii.eqb c ":" || Ascii.eqb c "="); Star blank; plus nonblank];
        cats [lit "sk-"; times 16 (Cls is_lower_digit); Star (Cls is_lower_digit)];
        cats [lit "akia"; times 16 (Cls is_lower_digit)]].
Definition SENSITIVE_KEY (key : string) : bool := search_end secret_word (str_lower key).
Fixpoint contains_secret_shaped (j : json) : bool :=
  match j with
  | JObj l => existsb (λ kv, SENSITIVE_KEY kv.1 || contains_secret_shaped kv.2) l
  | JList l => existsb contains_secret_shaped l
  | JStr s => search SECRET_SHAPED (str_lower s)
  | _ => false
  end.

(** ** Tables *)
Definition object : Type := list (string * json).
Inductive JobStoreStatus :=
  | J_INTENT | J_DISPATCHED | J_RUNNING | J_ACCEPTED | J_REJECTED | J_UNKNOWN_OUTCOME | J_RECONCILING.
#[export] Instance JobStoreStatus_eq_dec : EqDecision JobStoreStatus.
Proof. solve_decision. Defined.
(** The columns taken from the envelope, its JSON, and the status. *)
Definition INTENT_COLUMNS : list string :=
  ["host_id"; "lease_id"; "fence"; "source_sha"; "source_tree"; "overlay_sha256"; "input_sha256"; "principal"; "profile_id";
   "deadline_utc"].
Record intent_row := mkIntent { ir_columns : list string; ir_payload : object; ir_status : JobStoreStatus; ir_created : Z }.
Record result_row := mkResult {
  rr_host_id : string; rr_fence : string; rr_exit_code : Z; rr_output_sha256 : string; rr_stdout_sha256 : string;
  rr_stderr_sha256 : string; rr_payload : object; rr_accepted : Z;
}.
Record job_lease := mkJobLease { jl_token : string; jl_expires : Z; jl_released : option Z }.
Record jobs_db := mkJobs {
  j_intents : gmap string intent_row;
  j_results : gmap string result_row;
  j_expired : gmap string Z;
  (** [scheduler_resource_leases], once it exists. *)
  j_leases : option (gmap string job_lease);
}.
Definition empty_jobs : jobs_db := mkJobs ∅ ∅ ∅ None.
(** What is committed, and what an open transaction of this connection sees. *)
Record job_store := mkJobStore { committed : jobs_db; open_transaction : option jobs_db }.
Definition visible (st : job_store) : jobs_db := default (committed st) (open_transaction st).
Definition jobs (A : Type) : Type := job_store → job_store * result A.
(** A statement outside [BEGIN]: it commits by itself, or joins the
    transaction that is open. *)
Definition statement (f : jobs_db → jobs_db) : jobs () := λ st,
  match open_transaction st with
  | None => (mkJobStore (f (committed st)) None, Ok ())
  | Some db => (mkJobStore (committed st) (Some (f db)), Ok ())
  end.
Definition query_jobs {A} (f : jobs_db → A) : jobs A := λ st, (st, Ok (f (visible st))).
(** [BEGIN IMMEDIATE] ... [COMMIT]; the body raises only before it writes. *)
Definition immediate {A} (body : jobs_db → result (jobs_db * A)) : jobs A := λ st,
  match open_transaction st with
  | Some _ => (st, raise OperationalError "cannot start a transaction within a transaction")
  | None =>
      match body (committed st) with
      | Ok (db, a) => (mkJobStore db None, Ok a)
      | Raise e => (mkJobStore (committed st) (Some (committed st)), Raise e)
      end
  end.
(** A process that ends with a transaction open loses it. *)
Definition restart (st : job_store) : job_store := mkJobStore (committed st) None.
Definition set_intents m (db : jobs_db) : jobs_db := mkJobs m (j_results db) (j_expired db) (j_leases db).
Definition set_status (job_id : string) (s : JobStoreStatus) (db : jobs_db) : jobs_db :=
  match j_intents db !! job_id with
  | Some r => set_intents (<[job_id := mkIntent (ir_columns r) (ir_payload r) s (ir_created r)]> (j_intents db)) db
  | None => db
  end.
(** [str(d[key])]. *)
Definition required_text (o : object) (key : string) : result string :=
  match obj_get key o with Some j => Ok (py_str j) | None => raise KeyError key end.

(** ** Intents *)
Inductive intent_reply :=
  | I_secret
  | I_duplicate (s : JobStoreStatus)
  | I_replaced
  | I_conflict (s : JobStoreStatus)
  | I_stored.
Definition intent_body (job_id : string) (envelope : object) (now : Z) (db : jobs_db) : result (jobs_db * intent_reply) :=
  let store :=
    columns ← traverse (required_text envelope) INTENT_COLUMNS;
    Ok (set_intents (<[job_id := mkIntent columns envelope J_INTENT now]> (j_intents db)) db) in
  match j_intents db !! job_id with
  | Some r =>
      if String.eqb (dumps_spaced (JObj (ir_payload r))) (dumps_spaced (JObj envelope)) then Ok (db, I_duplicate (ir_status r))
      else if bool_decide (ir_status r = J_INTENT) then db' ← store; Ok (db', I_replaced)
      else Ok (db, I_conflict (ir_status r))
  | None => db' ← store; Ok (db', I_stored)
  end.
Definition persist_intent (envelope : object) (now : Z) : jobs intent_reply := λ st,
  match required_text envelope "job_id" with
  | Raise e => (st, Raise e)
  | Ok job_id =>
      if contains_secret_shaped (JObj envelope) then (st, Ok I_secret)
      else immediate (intent_body job_id envelope now) st
  end.
Definition mark_status (job_id : string) (s : JobStoreStatus) : jobs () := statement (set_status job_id s).
Definition release_unlaunched (job_id : string) : jobs () := statement (λ db,
  match j_intents db !! job_id with
  | Some r => if bool_decide (ir_status r = J_DISPATCHED) then set_status job_id J_INTENT db else db
  | None => db
  end).
Definition get_intent (job_id : string) : jobs (option (object * JobStoreStatus)) :=
  query_jobs (λ db, (λ r, (ir_payload r, ir_status r)) <$> j_intents db !! job_id).
Definition get_result (job_id : string) : jobs (option object) := query_jobs (λ db, rr_payload <$> j_results db !! job_id).

(** ** Fences and leases *)
Definition remember_scheduler_lease (lease_id fence : string) (now ttl_seconds : Z) : jobs () := statement (λ db,
  mkJobs (j_intents db) (j_results db) (j_expired db)
    (Some (<[lease_id := mkJobLease fence (now + ttl_seconds * 1000000) None]> (default ∅ (j_leases db))))).
Definition expire_fence (fence : string) (now : Z) : jobs () := statement (λ db,
  mkJobs (j_intents db) (j_results db) (<[fence := now]> (j_expired db)) (j_leases db)).
Definition fence_expired (fence : string) : jobs bool := query_jobs (λ db, bool_decide (is_Some (j_expired db !! fence))).
Definition _query_scheduler_lease (table : option (gmap string job_lease)) (lease_id fence : string) (now : Z) : option bool :=
  leases ← table;
  l ← leases !! lease_id;
  Some (if bool_decide (is_Some (jl_released l)) then false
        else if jl_expires l <? now then false
        else negb (str_truthy fence) || String.eqb (jl_token l) fence).
(** [scheduler] is the lease table of the scheduler's own database, if one
    is configured. *)
Definition _scheduler_lease_active (db : jobs_db) (scheduler : option (gmap string job_lease)) (lease_id fence : string) (now : Z)
  : bool :=
  match _query_scheduler_lease (j_leases db) lease_id fence now with
  | Some b => b
  | None => default false (_query_scheduler_lease scheduler lease_id fence now)
  end.

(** ** Results *)
Definition digest_bytes (payload : string) : string := Sha256.hexdigest payload.
Inductive accept_reply :=
  | A_rejected (reason : string)
  | A_duplicate (r : object)
  | A_accepted (r : object).
(** The result after the check of its artifact, or the reason it is refused. *)
Definition check_artifact (stored res : object) (artifact : option string) : string + object :=
  let contract := get_text "output_contract_sha256" stored in
  if str_truthy contract || match obj_get "require_context_consumption" stored with Some j => json_truthy j | None => false end then
    match artifact with
    | None => inl "artifact_bytes_required"
    | Some bytes =>
        let actual := digest_bytes bytes in
        let claimed := match obj_get "artifact_sha256" res with
                       | Some j => if json_truthy j then py_str j else get_text "junit_sha256" res
                       | None => get_text "junit_sha256" res end in
        let expected := if str_truthy contract then contract else claimed in
        if str_truthy expected && negb (String.eqb actual expected) then inl "output_tamper"
        else
          let res := obj_set "artifact_sha256" (JStr actual) res in
          inr (if str_truthy contract then res else obj_set "output_sha256" (JStr actual) res)
    end
  else inr res.
Definition check_context (stored : object) (receipt : object) : option string :=
  if match obj_get "require_context_consumption" stored with Some j => json_truthy j | None => false end then
    if negb (match obj_get "ok" receipt with Some j => json_truthy j | None => false end) then Some "context_unconsumed"
    else if negb (String.eqb (get_text "job_id" receipt) (get_text "job_id" stored)) then Some "context_wrong_job"
    else if negb (String.eqb (get_text "host_id" receipt) (get_text "host_id" stored)) then Some "context_wrong_host"
    else if str_truthy (get_text "pack_sha256" stored) && negb (String.eqb (get_text "pack_sha256" receipt) (get_text "pack_sha256" stored))
    then Some "context_wrong_pack" else None
  else None.
(** Insert the result and close the intent, or answer a replay; the replay is
    compared after the commit. *)
Definition store_result (job_id : string) (res : object) (exit_code now : Z) (db : jobs_db)
  : result (jobs_db * result accept_reply) :=
  match j_results db !! job_id with
  | Some old =>
      Ok (db,
        match obj_get "output_sha256" res with
        | None => raise KeyError "output_sha256"
        | Some output => Ok (if bool_decide (output = JStr (rr_output_sha256 old)) && (rr_exit_code old =? exit_code)
                             then A_duplicate (rr_payload old) else A_rejected "conflicting_replay")
        end)
  | None =>
      host ← required_text res "host_id";
      fence ← required_text res "fence";
      output ← required_text res "output_sha256";
      out ← required_text res "stdout_sha256";
      err ← required_text res "stderr_sha256";
      let row := mkResult host fence exit_code output out err res now in
      Ok (set_status job_id J_ACCEPTED (mkJobs (j_intents db) (<[job_id := row]> (j_results db)) (j_expired db) (j_leases db)),
          Ok (A_accepted res))
  end.
Definition accept_body (scheduler : option (gmap string job_lease)) (job_id : string) (res envelope : object)
    (artifact : option string) (receipt : object) (now : Z) (db : jobs_db) : result (jobs_db * result accept_reply) :=
  let reject reason := Ok (db, Ok (A_rejected reason)) in
  match j_intents db !! job_id with
  | None => reject "intent_missing"
  | Some row =>
      let stored := obj_pop "status" (ir_payload row) in
      let expected := obj_pop "status" envelope in
      let fence := get_text "fence" stored in
      if negb (bool_decide (expected = [])) && negb (json_eqb (JObj stored) (JObj expected)) then reject "conflicting_intent"
      else if negb (String.eqb (get_text "host_id" res) (get_text "host_id" stored)) then reject "wrong_host"
      else if negb (String.eqb (get_text "fence" res) fence) then reject "expired_fence"
      else if bool_decide (is_Some (j_expired db !! fence)) then reject "expired_fence"
      else
        deadline ← fromisoformat (get_text "deadline_utc" stored);
        if deadline <? now then reject "late_result"
        else match obj_get "exit_code" res ≫= int_of_json with
             | None => reject "nonzero_exit"
             | Some exit_code =>
                 if negb (exit_code =? 0) then reject "nonzero_exit"
                 else match check_artifact stored res artifact with
                      | inl reason => reject reason
                      | inr res =>
                          match check_context stored receipt with
                          | Some reason => reject reason
                          | None =>
                              let lease_id := get_text "lease_id" stored in
                              if str_truthy lease_id && negb (_scheduler_lease_active db scheduler lease_id fence now)
                              then reject "scheduler_lease_inactive"
                              else store_result job_id res exit_code now db
                          end
                      end
             end
  end.
Definition accept_result (scheduler : option (gmap string job_lease)) (res envelope : object) (artifact : option string)
    (receipt : object) (now : Z) : jobs accept_reply := λ st,
  let job_id := get_text "job_id" res in
  if negb (str_truthy job_id) then (st, Ok (A_rejected "job_id_missing"))
  else match immediate (accept_body scheduler job_id res envelope artifact receipt now) st with
       | (st, Ok r) => (st, r)
       | (st, Raise e) => (st, Raise e)
       end.

(** ** Launches *)
Inductive claim_reply := C_refused (reason : string) | C_dispatched.
Definition claim_body (job_id : string) (envelope : object) (db : jobs_db) : result (jobs_db * claim_reply) :=
  match j_intents db !! job_id with
  | None => Ok (db, C_refused "intent_missing")
  | Some row =>
      if negb (json_eqb (JObj (obj_pop "status" (ir_payload row))) (JObj (obj_pop "status" envelope))) then
        Ok (db, C_refused "conflicting_intent")
      else if bool_decide (ir_status row ∈ [J_DISPATCHED; J_RUNNING; J_UNKNOWN_OUTCOME; J_RECONCILING]) then
        Ok (db, C_refused "unresolved_in_flight")
      else if bool_decide (ir_status row = J_ACCEPTED) then Ok (db, C_refused "already_accepted")
      else if bool_decide (ir_status row = J_INTENT) then Ok (set_status job_id J_DISPATCHED db, C_dispatched)
      else Ok (db, C_refused "unresolved_in_flight")
  end.
Definition claim_launch (envelope : object) : jobs claim_reply := λ st,
  match required_text envelope "job_id" with
  | Raise e => (st, Raise e)
  | Ok job_id => immediate (claim_body job_id envelope) st
  end.
Inductive reconcile_reply := R_refused (reason : string) | R_no_intent | R_reconciling (prior : JobStoreStatus).
Definition reconcile_body (job_id : string) (absence_proof : bool) (db : jobs_db) : result (jobs_db * reconcile_reply) :=
  if bool_decide (is_Some (j_results db !! job_id)) then Ok (db, R_refused "result_already_accepted")
  else match j_intents db !! job_id with
       | None => Ok (db, R_no_intent)
       | Some row =>
           if bool_decide (ir_status row = J_ACCEPTED) then Ok (db, R_refused "already_accepted")
           else if bool_decide (ir_status row ∈ [J_RUNNING; J_DISPATCHED; J_UNKNOWN_OUTCOME]) && negb absence_proof then
             Ok (db, R_refused "absence_proof_required")
           else Ok (set_status job_id J_RECONCILING db, R_reconciling (ir_status row))
       end.
Definition reconcile_unresolved (job_id : string) (absence_proof : bool) : jobs reconcile_reply :=
  immediate (reconcile_body job_id absence_proof).
