(* ===== verification/FleetSafety.v ===== *)
(** * FleetSafety: results once, launches once

    What sequences of operations on the job store can do. *)
From S2P Require Import Prelude PyStd PyRe PyJson SchedulerDomain FleetJobs.
Local Open Scope Z_scope.

(** ** Sequences of operations *)
Inductive job_op :=
  | OpPersist (envelope : object) (now : Z)
  | OpMark (job_id : string) (s : JobStoreStatus)
  | OpRelease (job_id : string)
  | OpLease (lease_id fence : string) (now ttl : Z)
  | OpFence (fence : string) (now : Z)
  | OpAccept (scheduler : option (gmap string job_lease)) (res envelope : object) (artifact : option string) (receipt : object) (now : Z)
  | OpClaim (envelope : object)
  | OpReconcile (job_id : string) (absence_proof : bool)
  | OpRestart.
Definition run_op (st : job_store) (o : job_op) : job_store :=
  match o with
  | OpPersist e now => (persist_intent e now st).1
  | OpMark j s => (mark_status j s st).1
  | OpRelease j => (release_unlaunched j st).1
  | OpLease l f now ttl => (remember_scheduler_lease l f now ttl st).1
  | OpFence f now => (expire_fence f now st).1
  | OpAccept sched r e a c now => (accept_result sched r e a c now st).1
  | OpClaim e => (claim_launch e st).1
  | OpReconcile j proof => (reconcile_unresolved j proof st).1
  | OpRestart => restart st
  end.
Definition run_ops (st : job_store) (ops : list job_op) : job_store := foldl run_op st ops.
Lemma run_ops_inv (P : job_op → Prop) (I : job_store → Prop) ops st : (∀ o st, P o → I st → I (run_op st o)) →
  Forall P ops → I st → I (run_ops st ops).
Proof.
  intros Hstep. unfold run_ops. revert st. induction ops as [|o ops IH]; intros st Hp Hi; [done|].
  apply Forall_cons in Hp as [Ho Hp]. cbn [foldl]. apply IH; [done|by apply Hstep].
Qed.

(** ** What one operation does to the tables *)
(** The step of the visible tables: the body of the operation, and what it
    answers. *)
Definition op_body (o : job_op) (db db' : jobs_db) : Prop :=
  match o with
  | OpPersist e now => db' = db ∨ ∃ j r, required_text e "job_id" = Ok j ∧ intent_body j e now db = Ok (db', r)
  | OpMark j s => db' = set_status j s db
  | OpRelease j => db' = match j_intents db !! j with
                         | Some r => if bool_decide (ir_status r = J_DISPATCHED) then set_status j J_INTENT db else db
                         | None => db end
  | OpLease _ _ _ _ | OpFence _ _ => j_intents db' = j_intents db ∧ j_results db' = j_results db
  | OpAccept sched r e a c now => db' = db ∨ ∃ reply, accept_body sched (get_text "job_id" r) r e a c now db = Ok (db', reply)
  | OpClaim e => db' = db ∨ ∃ j reply, required_text e "job_id" = Ok j ∧ claim_body j e db = Ok (db', reply)
  | OpReconcile j proof => db' = db ∨ ∃ reply, reconcile_body j proof db = Ok (db', reply)
  | OpRestart => db' = db
  end.
(** A property of tables, of what is committed and of what is visible. *)
Definition holds (I : jobs_db → Prop) (st : job_store) : Prop := I (committed st) ∧ ∀ db, open_transaction st = Some db → I db.
Lemma immediate_holds {A} (I : jobs_db → Prop) (body : jobs_db → result (jobs_db * A)) st :
  (∀ db db' a, I db → body db = Ok (db', a) → I db') → holds I st → holds I (immediate body st).1.
Proof.
  intros Hb [Hc Ho]. unfold immediate. destruct (open_transaction st) as [db|] eqn:E.
  { split; [done|]. cbn. rewrite E. exact Ho. }
  destruct (body (committed st)) as [[db a]|e] eqn:Eb; cbn; split; cbn; try done; [by eapply Hb|]. by intros db [= <-].
Qed.
Lemma statement_holds (I : jobs_db → Prop) f st : (∀ db, I db → I (f db)) → holds I st → holds I (statement f st).1.
Proof.
  intros Hf [Hc Ho]. unfold statement. destruct (open_transaction st) as [db|] eqn:E; cbn; split; cbn; auto.
  intros db' [= <-]. apply Hf. by apply Ho.
Qed.
Lemma op_holds (I : jobs_db → Prop) o st : (∀ db db', op_body o db db' → I db → I db') → holds I st → holds I (run_op st o).
Proof.
  intros Hb Hi. destruct o as [e now|j s|j|l f now ttl|f now|sched r e a c now|e|j proof|]; cbn [run_op op_body] in *.
  - unfold persist_intent. destruct (required_text e "job_id") as [j|] eqn:Ej; [|done]. destruct (contains_secret_shaped _); [done|].
    apply immediate_holds; [|done]. intros db db' x Hdb E. eapply Hb; [|exact Hdb]. right. by exists j, x.
  - apply statement_holds; [|done]. intros db Hdb. by eapply Hb.
  - apply statement_holds; [|done]. intros db Hdb. by eapply Hb.
  - apply statement_holds; [|done]. intros db Hdb. eapply Hb; [|exact Hdb]. by split.
  - apply statement_holds; [|done]. intros db Hdb. eapply Hb; [|exact Hdb]. by split.
  - unfold accept_result. destruct (negb _); [done|].
    assert (holds I (immediate (accept_body sched (get_text "job_id" r) r e a c now) st).1) as Hh.
    { apply immediate_holds; [|done]. intros db db' x Hdb E. eapply Hb; [|exact Hdb]. right. by exists x. }
    by destruct (immediate _ st) as [st' [x|x]].
  - unfold claim_launch. destruct (required_text e "job_id") as [j|] eqn:Ej; [|done].
    apply immediate_holds; [|done]. intros db db' x Hdb E. eapply Hb; [|exact Hdb]. right. by exists j, x.
  - apply immediate_holds; [|done]. intros db db' x Hdb E. eapply Hb; [|exact Hdb]. right. by exists x.
  - destruct Hi as [Hc _]. by split.
Qed.
Lemma run_ops_holds (I : jobs_db → Prop) (P : job_op → Prop) ops st :
  (∀ o db db', P o → op_body o db db' → I db → I db') → Forall P ops → holds I st → holds I (run_ops st ops).
Proof. intros Hb. apply run_ops_inv. intros o st' Ho. apply op_holds. intros db db'. by apply Hb. Qed.

(** ** Bodies *)
Lemma set_status_results j s db : j_results (set_status j s db) = j_results db.
Proof. unfold set_status. by destruct (j_intents db !! j). Qed.
Lemma set_status_intents j s db i : j_intents (set_status j s db) !! i =
  (if bool_decide (i = j) then (λ r, mkIntent (ir_columns r) (ir_payload r) s (ir_created r)) <$> j_intents db !! j else j_intents db !! i).
Proof.
  unfold set_status. destruct (j_intents db !! j) as [r|] eqn:E; cbn; case_bool_decide as Ei.
  - subst i. by rewrite lookup_insert_eq.
  - by rewrite lookup_insert_ne.
  - by subst i.
  - done.
Qed.
Lemma intent_body_spec j e now db db' r : intent_body j e now db = Ok (db', r) → db' = db ∨
  ((∀ row, j_intents db !! j = Some row → ir_status row = J_INTENT)
   ∧ ∃ columns, traverse (required_text e) INTENT_COLUMNS = Ok columns
       ∧ db' = set_intents (<[j := mkIntent columns e J_INTENT now]> (j_intents db)) db).
Proof.
  unfold intent_body. cbv zeta. destruct (j_intents db !! j) as [row|] eqn:E.
  - destruct (String.eqb _ _); [intros [= <- _]; by left|]. case_bool_decide as Es; [|intros [= <- _]; by left].
    intros Eb. apply bind_ok in Eb as (db1 & Eb & [= <- _]). apply bind_ok in Eb as (cols & Ec & [= <-]). right.
    split; [by intros row' [= <-]|]. by exists cols.
  - intros Eb. apply bind_ok in Eb as (db1 & Eb & [= <- _]). apply bind_ok in Eb as (cols & Ec & [= <-]). right.
    split; [done|]. by exists cols.
Qed.
Lemma claim_body_spec j e db db' r : claim_body j e db = Ok (db', r) →
  (db' = db ∧ r ≠ C_dispatched) ∨ ∃ row, j_intents db !! j = Some row ∧ ir_status row = J_INTENT ∧ db' = set_status j J_DISPATCHED db.
Proof.
  unfold claim_body. destruct (j_intents db !! j) as [row|]; [|intros [= <- <-]; by left].
  destruct (negb _); [intros [= <- <-]; by left|]. case_bool_decide; [intros [= <- <-]; by left|].
  case_bool_decide; [intros [= <- <-]; by left|]. case_bool_decide as Es; [|intros [= <- <-]; by left].
  intros [= <- <-]. right. by exists row.
Qed.
Lemma reconcile_body_spec j proof db db' r : reconcile_body j proof db = Ok (db', r) →
  db' = db ∨ (j_results db !! j = None ∧ db' = set_status j J_RECONCILING db).
Proof.
  unfold reconcile_body. case_bool_decide as Er; [intros [= <- _]; by left|].
  destruct (j_intents db !! j) as [row|]; [|intros [= <- _]; by left]. case_bool_decide; [intros [= <- _]; by left|].
  destruct (_ && _); [intros [= <- _]; by left|]. intros [= <- _]. right. split; [|done].
  destruct (j_results db !! j); [|done]. destruct Er. eauto.
Qed.

(** ** Accepted results *)
Lemma obj_get_set k k' v o : obj_get k (obj_set k' v o) = if String.eqb k k' then Some v else obj_get k o.
Proof.
  unfold obj_get. induction o as [|[k1 x] o IH]; cbn.
  - rewrite String.eqb_sym. by destruct (String.eqb k k').
  - destruct (String.eqb_spec k1 k') as [->|Hk]; cbn.
    + rewrite String.eqb_sym. by destruct (String.eqb k k').
    + destruct (String.eqb_spec k1 k) as [->|]; cbn; [|done]. by destruct (String.eqb_spec k k').
Qed.
Lemma obj_get_pop k k' o : k ≠ k' → obj_get k (obj_pop k' o) = obj_get k o.
Proof.
  intros Hk. unfold obj_get, obj_pop. induction o as [|[k1 x] o IH]; cbn; [done|].
  destruct (String.eqb_spec k1 k') as [->|]; cbn.
  - rewrite IH. by destruct (String.eqb_spec k' k) as [->|].
  - by destruct (String.eqb_spec k1 k).
Qed.
Lemma get_text_set k k' v o : k ≠ k' → get_text k (obj_set k' v o) = get_text k o.
Proof. intros Hk. unfold get_text. rewrite obj_get_set. by destruct (String.eqb_spec k k'). Qed.
Lemma get_text_pop k k' o : k ≠ k' → get_text k (obj_pop k' o) = get_text k o.
Proof. intros Hk. unfold get_text. by rewrite obj_get_pop. Qed.
Lemma store_result_spec j res exit now db db' reply : store_result j res exit now db = Ok (db', reply) →
  (db' = db ∧ ∃ old, j_results db !! j = Some old ∧ ∀ r, reply ≠ Ok (A_accepted r) ∧ (reply = Ok (A_duplicate r) → r = rr_payload old))
  ∨ (j_results db !! j = None ∧ reply = Ok (A_accepted res) ∧ ∃ row, rr_payload row = res ∧ rr_exit_code row = exit ∧ rr_accepted row = now
     ∧ db' = set_status j J_ACCEPTED (mkJobs (j_intents db) (<[j := row]> (j_results db)) (j_expired db) (j_leases db))).
Proof.
  unfold store_result. destruct (j_results db !! j) as [old|] eqn:E.
  - intros [= <- <-]. left. split; [done|]. exists old. split; [done|]. intros r.
    destruct (obj_get _ _); [|done]. destruct (_ && _); split; try done. by intros [= <-].
  - intros Eb. apply bind_ok in Eb as (host & _ & Eb). apply bind_ok in Eb as (fence & _ & Eb).
    apply bind_ok in Eb as (output & _ & Eb). apply bind_ok in Eb as (out & _ & Eb). apply bind_ok in Eb as (err & _ & Eb).
    injection Eb as <- <-. right. split; [done|]. split; [done|]. by exists (mkResult host fence exit output out err res now).
Qed.

(** What the intent of a job lets a result be. *)
Definition entitled (it : intent_row) (row : result_row) : Prop :=
  rr_exit_code row = 0
  ∧ get_text "host_id" (rr_payload row) = get_text "host_id" (ir_payload it)
  ∧ get_text "fence" (rr_payload row) = get_text "fence" (ir_payload it)
  ∧ (∃ deadline, fromisoformat (get_text "deadline_utc" (ir_payload it)) = Ok deadline ∧ rr_accepted row ≤ deadline)
  ∧ (get_text "output_contract_sha256" (ir_payload it) ≠ "" →
     get_text "artifact_sha256" (rr_payload row) = get_text "output_contract_sha256" (ir_payload it)).
Lemma check_artifact_spec stored res artifact res' : check_artifact stored res artifact = inr res' →
  (∀ k, k ≠ "artifact_sha256" → k ≠ "output_sha256" → get_text k res' = get_text k res)
  ∧ (get_text "output_contract_sha256" stored ≠ "" → get_text "artifact_sha256" res' = get_text "output_contract_sha256" stored).
Proof.
  unfold check_artifact. cbv zeta. set (contract := get_text "output_contract_sha256" stored).
  destruct (str_truthy contract) eqn:Ec; cbn [orb].
  - destruct artifact as [bytes|]; [|done]. cbv iota. rewrite Ec. cbn [andb].
    destruct (String.eqb_spec (digest_bytes bytes) contract) as [E|]; cbn [negb]; [|done].
    intros [= <-]. split; [intros k ? ?; by apply get_text_set|]. intros _. unfold get_text. rewrite obj_get_set. cbn.
    by rewrite E, Ec.
  - intros E. split; [|intros Hn; by destruct contract]. intros k Ha Ho. revert E.
    destruct (match obj_get "require_context_consumption" stored with Some j => _ | None => _ end); [|by intros [= <-]].
    destruct artifact as [bytes|]; [|done]. destruct (_ && _); [done|]. intros [= <-]. by rewrite !get_text_set.
Qed.
Ltac rej := let E := fresh in intros E; left; match goal with H : ∀ _, _ = _ → _ |- _ => exact (H _ E) end.
(** Whatever body accepts a result has checked it, and stores it in the row
    that was free. *)
Lemma accept_body_spec sched j res e a c now db db' reply : accept_body sched j res e a c now db = Ok (db', reply) →
  (db' = db ∧ (∀ r, reply ≠ Ok (A_accepted r))
   ∧ (∀ old r, j_results db !! j = Some old → reply = Ok (A_duplicate r) → r = rr_payload old)
   ∧ (∀ x, reply = Raise x → is_Some (j_results db !! j)))
  ∨ ∃ it row, j_intents db !! j = Some it ∧ j_results db !! j = None ∧ reply = Ok (A_accepted (rr_payload row)) ∧ entitled it row
      ∧ db' = set_status j J_ACCEPTED (mkJobs (j_intents db) (<[j := row]> (j_results db)) (j_expired db) (j_leases db)).
Proof.
  unfold accept_body. cbv zeta.
  assert (∀ reason, Ok (db, Ok (A_rejected reason)) = Ok (db', reply) → (db' = db ∧ (∀ r, reply ≠ Ok (A_accepted r))
   ∧ (∀ old r, j_results db !! j = Some old → reply = Ok (A_duplicate r) → r = rr_payload old)
   ∧ (∀ x, reply = Raise x → is_Some (j_results db !! j)))) as Hrej.
  { by intros reason [= <- <-]. }
  destruct (j_intents db !! j) as [it|] eqn:Ei; [|rej]. set (stored := obj_pop "status" (ir_payload it)).
  destruct (_ && _); [rej|]. destruct (String.eqb_spec (get_text "host_id" res) (get_text "host_id" stored)) as [Eh|]; [|rej].
  destruct (String.eqb_spec (get_text "fence" res) (get_text "fence" stored)) as [Ef|]; [|rej]. cbn [negb].
  case_bool_decide; [rej|]. intros Eb. apply bind_ok in Eb as (deadline & Ed & Eb). revert Eb.
  destruct (Z.ltb_spec deadline now) as [|Hd]; [rej|]. destruct (obj_get "exit_code" res ≫= int_of_json) as [exit|]; [|rej].
  destruct (Z.eqb_spec exit 0) as [->|]; cbn [negb]; [|rej].
  destruct (check_artifact stored res a) as [|res'] eqn:Ea; [rej|]. apply check_artifact_spec in Ea as [Ek Ea].
  destruct (check_context stored c); [rej|]. destruct (_ && _); [rej|].
  intros Es. apply store_result_spec in Es as [(-> & old & Eo & Hr)|(En & -> & row & Ep & Ex & Et & ->)].
  - left. split; [done|]. split; [intros r; apply Hr|]. split; [|by rewrite Eo].
    intros old' r Eo'. rewrite Eo in Eo'. injection Eo' as <-. apply Hr.
  - right. exists it, row. rewrite Ep. split_and!; try done. unfold entitled. rewrite Ep.
    rewrite !Ek by done. rewrite Eh, Ef. unfold stored in *. rewrite !get_text_pop in * by done. split_and!; try done.
    exists deadline. split; [done|lia].
Qed.

(** ** A result is accepted once *)
Lemma intent_body_results j e now db db' r : intent_body j e now db = Ok (db', r) → j_results db' = j_results db.
Proof. intros E. apply intent_body_spec in E as [->|(_ & cols & _ & ->)]; done. Qed.
Lemma op_results o db db' j row : op_body o db db' → j_results db !! j = Some row → j_results db' !! j = Some row.
Proof.
  intros Hb Hr. destruct o as [e now|j' s|j'|l f now ttl|f now|sched r e a c now|e|j' proof|]; cbn [op_body] in Hb.
  - destruct Hb as [->|(j' & r & _ & E)]; [done|]. by rewrite (intent_body_results _ _ _ _ _ _ E).
  - by rewrite Hb, set_status_results.
  - rewrite Hb. destruct (j_intents db !! j'); [|done]. case_bool_decide; [by rewrite set_status_results|done].
  - by destruct Hb as [_ ->].
  - by destruct Hb as [_ ->].
  - destruct Hb as [->|(reply & E)]; [done|]. apply accept_body_spec in E as [(-> & _)|(it & new & _ & En & _ & _ & ->)]; [done|].
    rewrite set_status_results. cbn. rewrite lookup_insert_ne; [done|]. congruence.
  - destruct Hb as [->|(j' & reply & _ & E)]; [done|]. apply claim_body_spec in E as [[-> _]|(it & _ & _ & ->)]; [done|].
    by rewrite set_status_results.
  - destruct Hb as [->|(reply & E)]; [done|]. apply reconcile_body_spec in E as [->|[_ ->]]; [done|]. by rewrite set_status_results.
  - by subst db'.
Qed.
Lemma immediate_ok {A} (body : jobs_db → result (jobs_db * A)) st st' x : immediate body st = (st', Ok x) →
  open_transaction st = None ∧ ∃ db, body (committed st) = Ok (db, x) ∧ st' = mkJobStore db None.
Proof.
  unfold immediate. destruct (open_transaction st); [done|]. destruct (body (committed st)) as [[db y]|]; [|done].
  intros [= <- <-]. split; [done|]. by exists db.
Qed.
Lemma accept_result_ok sched res e a c now st st' x : accept_result sched res e a c now st = (st', Ok x) →
  (st' = st ∧ x = A_rejected "job_id_missing")
  ∨ (open_transaction st = None ∧ ∃ db, accept_body sched (get_text "job_id" res) res e a c now (committed st) = Ok (db, Ok x)
     ∧ st' = mkJobStore db None).
Proof.
  unfold accept_result. cbv zeta. destruct (negb _); [intros [= <- <-]; by left|]. intros E.
  destruct (immediate _ st) as [st1 [r|]] eqn:Ei; [|done]. injection E as <- ->. apply immediate_ok in Ei as [Eo (db & Eb & ->)].
  right. split; [done|]. by exists db.
Qed.
Lemma visible_holds (I : jobs_db → Prop) st : holds I st → I (visible st).
Proof. intros [Hc Ho]. unfold visible. destruct (open_transaction st) as [db|] eqn:E; cbn; [by apply Ho|done]. Qed.

(** C10. Exactly once: once a result of a job has been accepted, then whatever
    operations follow (other results, status changes, fences, crashes), the
    store still answers with that very result, no second result of the job is
    ever accepted, and a replay recognised as a duplicate is answered with the
    first one. *)
Theorem result_accepted_once sched res e a c now st st1 r ops :
  accept_result sched res e a c now st = (st1, Ok (A_accepted r)) →
  let job_id := get_text "job_id" res in let st2 := run_ops st1 ops in
  (get_result job_id st2).2 = Ok (Some r)
  ∧ ∀ sched' res' e' a' c' now', get_text "job_id" res' = job_id → ∀ r',
      (accept_result sched' res' e' a' c' now' st2).2 ≠ Ok (A_accepted r')
      ∧ ((accept_result sched' res' e' a' c' now' st2).2 = Ok (A_duplicate r') → r' = r).
Proof.
  intros Ea. cbv zeta. apply accept_result_ok in Ea as [[_ [=]]|(_ & db & Eb & ->)].
  apply accept_body_spec in Eb as [(_ & Hr & _)|(it & row & _ & _ & [= ->] & _ & Edb)]; [by destruct (Hr r)|].
  set (j := get_text "job_id" res) in *.
  assert (holds (λ db, j_results db !! j = Some row) (run_ops (mkJobStore db None) ops)) as Hh.
  { apply (run_ops_holds _ (λ _, True)); [intros o db1 db2 _; apply op_results|by apply Forall_true|]. split; [|done]. cbn.
    rewrite Edb, set_status_results. apply lookup_insert_eq. }
  split; [unfold get_result, query_jobs; cbn [snd]; by rewrite (visible_holds _ _ Hh)|].
  intros sched' res' e' a' c' now' Ej r'. destruct (accept_result _ _ _ _ _ _ _) as [st3 [x|]] eqn:E3; [|done]. cbn [snd].
  apply accept_result_ok in E3 as [[_ ->]|(_ & db3 & Eb & _)]; [done|]. rewrite Ej in Eb. destruct Hh as [Hc _].
  apply accept_body_spec in Eb as [(_ & Hn & Hd & _)|(it' & row' & _ & En & _)]; [|congruence].
  split; [intros [= ->]; by destruct (Hn r')|]. intros [= ->]. by apply (Hd row).
Qed.
