(* ===== verification/FleetLaunch.v ===== *)
(** * FleetLaunch: launches, entitled results and interrupted transactions

    A job is launched once, the results that are stored are the ones their
    intents allow, and what an exception inside a transaction does to the
    store. *)
From S2P Require Import Prelude PyStd PyRe PyJson SchedulerDomain FleetJobs FleetSafety.
Local Open Scope Z_scope.

(** ** Launches *)
(** The intent of [j] is there, in a state of [allowed]. *)
Definition intent_in (allowed : JobStoreStatus → Prop) (j : string) (db : jobs_db) : Prop :=
  ∃ it, j_intents db !! j = Some it ∧ allowed (ir_status it).
Lemma set_status_in allowed j j' s db : (j' = j → allowed s) → intent_in allowed j db → intent_in allowed j (set_status j' s db).
Proof.
  intros Hs (it & Ei & Ha). unfold intent_in. setoid_rewrite set_status_intents. case_bool_decide as Ej; [subst j'|by exists it].
  rewrite Ei. eexists. split; [done|]. by apply Hs.
Qed.
(** An operation that may move the job out of [allowed]: a status set by
    hand, or a release where an allowed state can be released. *)
Definition moves_out (allowed : JobStoreStatus → Prop) (j : string) (o : job_op) : Prop :=
  match o with
  | OpMark j' s => j' = j ∧ ¬ allowed s
  | OpRelease j' => j' = j ∧ allowed J_DISPATCHED
  | _ => False
  end.
Lemma op_intent_in allowed j o db db' `{∀ s, Decision (allowed s)} :
  ¬ allowed J_INTENT → allowed J_ACCEPTED → allowed J_RECONCILING → ¬ moves_out allowed j o →
  op_body o db db' → intent_in allowed j db → intent_in allowed j db'.
Proof.
  intros Hi Ha Hr Hm Hb Hin. destruct o as [e now|j' s|j'|l f now ttl|f now|sched r e a c now|e|j' proof|]; cbn [op_body moves_out] in *.
  - destruct Hb as [->|(j' & r & _ & E)]; [done|]. apply intent_body_spec in E as [->|(Hs & cols & _ & ->)]; [done|].
    destruct Hin as (it & Ei & Hit). exists it. split; [|done]. cbn. rewrite lookup_insert_ne; [done|]. intros ->.
    apply Hi. by rewrite <-(Hs _ Ei).
  - subst db'. apply set_status_in; [|done]. intros ->. destruct (decide (allowed s)); [done|]. by destruct Hm.
  - subst db'. destruct (j_intents db !! j') as [r|] eqn:E; [|done]. case_bool_decide as Es; [|done]. apply set_status_in; [|done].
    intros ->. destruct Hin as (it & Ei & Hit). rewrite E in Ei. injection Ei as <-. rewrite Es in Hit. by destruct Hm.
  - destruct Hb as [Hb _], Hin as (it & Ei & Hit). exists it. by rewrite Hb.
  - destruct Hb as [Hb _], Hin as (it & Ei & Hit). exists it. by rewrite Hb.
  - destruct Hb as [->|(reply & E)]; [done|]. apply accept_body_spec in E as [(-> & _)|(it & new & _ & _ & _ & _ & ->)]; [done|].
    by apply set_status_in.
  - destruct Hb as [->|(j' & reply & _ & E)]; [done|]. apply claim_body_spec in E as [[-> _]|(it & Ei & Es & ->)]; [done|].
    apply set_status_in; [|done]. intros ->. destruct Hin as (it' & Ei' & Hit). rewrite Ei in Ei'. injection Ei' as <-.
    by rewrite Es in Hit.
  - destruct Hb as [->|(reply & E)]; [done|]. apply reconcile_body_spec in E as [->|[_ ->]]; [done|]. by apply set_status_in.
  - by subst db'.
Qed.
Lemma no_claim_in allowed j e st : ¬ allowed J_INTENT → required_text e "job_id" = Ok j → holds (intent_in allowed j) st →
  (claim_launch e st).2 ≠ Ok C_dispatched.
Proof.
  intros Hi Ej [(it & Ei & Hit) _] E. unfold claim_launch in E. rewrite Ej in E.
  destruct (immediate _ st) as [st' x] eqn:Em. cbn in E. subst x. apply immediate_ok in Em as [_ (db & Eb & _)].
  apply claim_body_spec in Eb as [[_ ?]|(it' & Ei' & Es & _)]; [done|]. rewrite Ei in Ei'. injection Ei' as <-.
  by rewrite Es in Hit.
Qed.

(** A job is launched once: after a successful claim no further claim of
    the job succeeds, through any operations but a release of the unlaunched
    job or a status set back by hand; and once the job has been marked RUNNING
    even releases change nothing: only a status set back to INTENT or
    DISPATCHED could make it claimable again. *)
Theorem job_launched_once e j st st1 : claim_launch e st = (st1, Ok C_dispatched) → required_text e "job_id" = Ok j →
  (∀ ops, Forall (λ o, ¬ moves_out (λ s, s ≠ J_INTENT) j o) ops →
     ∀ e', required_text e' "job_id" = Ok j → (claim_launch e' (run_ops st1 ops)).2 ≠ Ok C_dispatched)
  ∧ ∀ ops, Forall (λ o, ¬ moves_out (λ s, s ≠ J_INTENT ∧ s ≠ J_DISPATCHED) j o) ops →
     ∀ e', required_text e' "job_id" = Ok j → (claim_launch e' (run_ops st1 (OpMark j J_RUNNING :: ops))).2 ≠ Ok C_dispatched.
Proof.
  intros Ec Ej. unfold claim_launch in Ec. rewrite Ej in Ec. apply immediate_ok in Ec as [_ (db & Eb & ->)].
  apply claim_body_spec in Eb as [[_ ?]|(it & Ei & _ & Edb)]; [done|].
  assert (j_intents db !! j = Some (mkIntent (ir_columns it) (ir_payload it) J_DISPATCHED (ir_created it))) as Ed.
  { rewrite Edb, set_status_intents, bool_decide_eq_true_2 by done. by rewrite Ei. }
  split; intros ops Hops e' Ej'.
  - apply (no_claim_in (λ s, s ≠ J_INTENT) j); [by intros []|done|]. eapply run_ops_holds; [|exact Hops|].
    + intros o db1 db2 Ho. apply op_intent_in; [apply _|by intros []|done|done|done].
    + split; [|done]. eexists. by split.
  - apply (no_claim_in (λ s, s ≠ J_INTENT ∧ s ≠ J_DISPATCHED) j); [by intros [[] _]|done|]. unfold run_ops. cbn [foldl].
    eapply run_ops_holds; [|exact Hops|].
    + intros o db1 db2 Ho. apply op_intent_in; [apply _|by intros [[] _]|done|done|done].
    + split; [|done]. cbn. eexists. rewrite set_status_intents, bool_decide_eq_true_2 by done. rewrite Ed. by split.
Qed.

(** ** Entitled results *)
(** The statuses that callers set by hand: [autonomy_runtime/remote_job.py]
    and [fleet_loop.py] never reopen a job by hand. *)
Definition marks_forward (o : job_op) : Prop :=
  match o with OpMark _ s => s ≠ J_INTENT ∧ s ≠ J_DISPATCHED | _ => True end.
Definition results_entitled (db : jobs_db) : Prop := ∀ j row, j_results db !! j = Some row →
  ∃ it, j_intents db !! j = Some it ∧ (ir_status it ≠ J_INTENT ∧ ir_status it ≠ J_DISPATCHED) ∧ entitled it row.
Lemma entitled_status it row s : entitled it row → entitled (mkIntent (ir_columns it) (ir_payload it) s (ir_created it)) row.
Proof. done. Qed.
Lemma set_status_entitled j s db : (is_Some (j_results db !! j) → s ≠ J_INTENT ∧ s ≠ J_DISPATCHED) →
  results_entitled db → results_entitled (set_status j s db).
Proof.
  intros Hs Hdb j' row. rewrite set_status_results. intros Er. destruct (Hdb _ _ Er) as (it & Ei & Hst & He).
  rewrite set_status_intents. case_bool_decide as Ej; [subst j'|by exists it]. rewrite Ei. eexists. split; [done|]. split; [|done].
  apply Hs. by exists row.
Qed.
Lemma op_entitled o db db' : marks_forward o → op_body o db db' → results_entitled db → results_entitled db'.
Proof.
  intros Hm Hb Hdb. destruct o as [e now|j s|j|l f now ttl|f now|sched r e a c now|e|j proof|]; cbn [op_body marks_forward] in *.
  - destruct Hb as [->|(j & r & _ & E)]; [done|]. apply intent_body_spec in E as [->|(Hs & cols & _ & ->)]; [done|].
    intros j' row Er. cbn in *. destruct (Hdb _ _ Er) as (it & Ei & Hst & He). exists it. split; [|done].
    rewrite lookup_insert_ne; [done|]. intros ->. by destruct (proj1 Hst (Hs _ Ei)).
  - subst db'. by apply set_status_entitled.
  - subst db'. destruct (j_intents db !! j) as [r|] eqn:E; [|done]. case_bool_decide as Es; [|done]. apply set_status_entitled; [|done].
    intros [row Er]. destruct (Hdb _ _ Er) as (it & Ei & [_ Hst] & _). congruence.
  - destruct Hb as [Hi Hr]. intros j row. by rewrite Hi, Hr; apply Hdb.
  - destruct Hb as [Hi Hr]. intros j row. by rewrite Hi, Hr; apply Hdb.
  - destruct Hb as [->|(reply & E)]; [done|]. set (j := get_text "job_id" r) in *.
    apply accept_body_spec in E as [(-> & _)|(it & new & Ei & En & _ & He & ->)]; [done|].
    intros j' row. rewrite set_status_results, set_status_intents. cbn. case_bool_decide as Ej.
    + subst j'. rewrite lookup_insert_eq, Ei. intros [= <-]. eexists. split; [done|]. by split.
    + rewrite lookup_insert_ne by done. apply Hdb.
  - destruct Hb as [->|(j & reply & _ & E)]; [done|]. apply claim_body_spec in E as [[-> _]|(it & Ei & Es & ->)]; [done|].
    apply set_status_entitled; [|done]. intros [row Er]. destruct (Hdb _ _ Er) as (it' & Ei' & [Hst _] & _). congruence.
  - destruct Hb as [->|(reply & E)]; [done|]. apply reconcile_body_spec in E as [->|[_ ->]]; [done|]. by apply set_status_entitled.
  - by subst db'.
Qed.

(** Whatever operations run on a new store, as long as jobs are not
    reopened by hand, every stored result is one its intent entitles: exit
    code 0, from the host and under the fence the intent names, accepted no
    later than the intent's deadline, and, where the intent has an output
    contract, with an artifact of exactly that digest. *)
Theorem stored_results_are_entitled ops j r : Forall marks_forward ops →
  (get_result j (run_ops (mkJobStore empty_jobs None) ops)).2 = Ok (Some r) →
  ∃ it row, j_intents (visible (run_ops (mkJobStore empty_jobs None) ops)) !! j = Some it ∧ rr_payload row = r ∧ entitled it row.
Proof.
  intros Hops. set (st := run_ops _ ops).
  assert (holds results_entitled st) as Hh.
  { eapply run_ops_holds; [|exact Hops|by split]. intros o db db'. apply op_entitled. }
  apply visible_holds in Hh. unfold get_result, query_jobs. cbn [snd].
  destruct (j_results (visible st) !! j) as [row|] eqn:E; [|done]. intros [= <-].
  destruct (Hh _ _ E) as (it & Ei & _ & He). by exists it, row.
Qed.

(** ** Interrupted transactions *)
Definition not_restart (o : job_op) : Prop := match o with OpRestart => False | _ => True end.
Lemma immediate_open {A} (body : jobs_db → result (jobs_db * A)) st db : open_transaction st = Some db →
  immediate body st = (st, raise OperationalError "cannot start a transaction within a transaction").
Proof. intros E. unfold immediate. by rewrite E. Qed.
Lemma statement_open f st db : open_transaction st = Some db → (statement f st).1 = mkJobStore (committed st) (Some (f db)).
Proof. intros E. unfold statement. by rewrite E. Qed.
Definition wedged (db : jobs_db) (st : job_store) : Prop := committed st = db ∧ is_Some (open_transaction st).
Lemma op_wedged db o st : not_restart o → wedged db st → wedged db (run_op st o).
Proof.
  intros Ho [Hc [t Ht]]. assert (wedged db st) as Hw by (split; eauto).
  destruct o as [e now|j s|j|l f now ttl|f now|sched r e a c now|e|j proof|]; cbn [run_op not_restart] in *; try done.
  - unfold persist_intent. destruct (required_text _ _); [|done]. destruct (contains_secret_shaped _); [done|].
    by rewrite (immediate_open _ _ _ Ht).
  - unfold mark_status. rewrite (statement_open _ _ _ Ht). by split; [|eexists].
  - unfold release_unlaunched. rewrite (statement_open _ _ _ Ht). by split; [|eexists].
  - unfold remember_scheduler_lease. rewrite (statement_open _ _ _ Ht). by split; [|eexists].
  - unfold expire_fence. rewrite (statement_open _ _ _ Ht). by split; [|eexists].
  - unfold accept_result. cbv zeta. destruct (negb _); [done|]. by rewrite (immediate_open _ _ _ Ht).
  - unfold claim_launch. destruct (required_text _ _); [|done]. by rewrite (immediate_open _ _ _ Ht).
  - unfold reconcile_unresolved. by rewrite (immediate_open _ _ _ Ht).
Qed.

(** C40. An exception while a first result is taken in wedges the store: the
    transaction that [accept_result] opened stays open, so from then until the
    process restarts nothing at all is committed, whatever operations run, and
    every launch and every reconciliation fails. *)
Theorem interrupted_accept_wedges_store sched res e a c now st st1 x ops :
  open_transaction st = None → j_results (committed st) !! get_text "job_id" res = None →
  accept_result sched res e a c now st = (st1, Raise x) → Forall not_restart ops →
  let st2 := run_ops st1 ops in
  committed st2 = committed st
  ∧ (∀ e', is_ok (claim_launch e' st2).2 = false) ∧ (∀ j proof, is_ok (reconcile_unresolved j proof st2).2 = false).
Proof.
  intros Ho Hr Ea Hops. cbv zeta.
  assert (wedged (committed st) st1) as Hw.
  { unfold accept_result in Ea. cbv zeta in Ea. destruct (negb _); [done|]. unfold immediate in Ea. rewrite Ho in Ea.
    destruct (accept_body _ _ _ _ _ _ _ _) as [[db r]|] eqn:Eb; injection Ea as <- ->; [|by split; [|eexists]].
    apply accept_body_spec in Eb as [(_ & _ & _ & Hx)|(it & row & _ & _ & [=] & _)].
    destruct (Hx _ eq_refl) as [old Eold]. congruence. }
  assert (wedged (committed st) (run_ops st1 ops)) as [Hc [t Ht]].
  { eapply run_ops_inv; [|exact Hops|done]. intros o st'. apply op_wedged. }
  split; [done|]. split.
  - intros e'. unfold claim_launch. destruct (required_text e' _); [|done]. by rewrite (immediate_open _ _ _ Ht).
  - intros j proof. unfold reconcile_unresolved. by rewrite (immediate_open _ _ _ Ht).
Qed.
