(* ===== verification/RemoteJob.v ===== *)
(** * RemoteJob: [autonomy_runtime/remote_job.py] and [confinement.py]

    The controller that launches a job of the store on a worker and takes its
    result in.  The worker is a parameter: what its adapter answers to a call.
    So is what only the operating system knows: how a local workspace
    resolves, and the limits a job object can enforce.  Instants are in UTC. *)
From S2P Require Import Prelude PyStd PyRe PyJson SchedulerDomain FleetJobs.
From Stdlib Require Import Ascii.
Local Open Scope Z_scope.

(** ** Confinement *)
Definition is_unsafe (c : ascii) : bool :=
  existsb (Ascii.eqb c) ["<"; ">"; "|"; "&"; "^"; "%"; newline; ascii_of_nat 13; ascii_of_nat 0; quote; "`"]%char.
Definition tab : ascii := ascii_of_nat 9.
Definition bs : string := String backslash "".
Definition UNC_PREFIXES : list string := [bs +:+ bs; "//"; bs +:+ bs +:+ "?" +:+ bs; "//?/"].
Definition DEVICE_PREFIXES : list string :=
  [bs +:+ bs +:+ "." +:+ bs; "//./"; bs +:+ bs +:+ "?" +:+ bs; "nul"; "con"; "aux"; "prn"].
Definition XEON_MACHINE_ID : string := "WIN-EVSH1DN8H5O".
Definition COMFY_MACHINE_ID : string := "COMFY-V4-CPU-01".
Definition REMOTE_JOB_WORKSPACES : list (string * string) :=
  [(XEON_MACHINE_ID, str_join bs ["C:"; "Users"; "kines"; "ProjectPipeline"; "jobs"]);
   (COMFY_MACHINE_ID, str_join bs ["C:"; "Users"; "Windows 11"; "ProjectPipeline"; "jobs"])].
(** [Path(token).name]; on Windows both slashes separate, and a drive is no
    name. *)
Definition path_name (windows : bool) (s : string) : string :=
  let s := if windows then str_replace_char backslash "/" s else s in
  let s := if windows && match s with String c (String ":" _) => is_alpha c | _ => false end then str_drop 2 s else s in
  default "" (last (List.filter (λ w, str_truthy w && negb (String.eqb w ".")) (str_split "/" s))).
Definition _looks_like_device (windows : bool) (raw : string) : bool :=
  let token := str_lower (str_rstrip (λ c, Ascii.eqb c backslash || Ascii.eqb c "/") (str_strip raw)) in
  let name := default "" (head (str_split "." (str_lower (path_name windows token)))) in
  str_in name ["nul"; "con"; "aux"; "prn"; "com1"; "lpt1"] || existsb (λ p, str_startswith p token) DEVICE_PREFIXES.
Definition reject_unsafe_string (windows : bool) (value field : string) : result string :=
  _ ← raise_if (negb (str_truthy value) || negb (str_truthy (str_strip value))) ValueError (field +:+ "_empty");
  _ ← raise_if (str_exists is_unsafe value) ValueError (field +:+ "_metacharacters");
  _ ← raise_if (search (lit "..") value || str_exists (Ascii.eqb tab) value) ValueError (field +:+ "_traversal");
  _ ← raise_if (existsb (λ p, str_startswith p (str_lower value)) UNC_PREFIXES) ValueError (field +:+ "_unc");
  _ ← raise_if (_looks_like_device windows value) ValueError (field +:+ "_device");
  Ok value.
Definition lexical_path (s : string) : string := str_rstrip (Ascii.eqb backslash) (str_replace_char "/" backslash s).
Definition confine_remote_workspace (windows : bool) (workspace allowed_root : string) : result string :=
  _ ← reject_unsafe_string windows workspace "workspace";
  _ ← reject_unsafe_string windows allowed_root "workspace_root";
  let work_key := str_lower (lexical_path workspace) in
  let root_key := str_lower (lexical_path allowed_root) in
  _ ← raise_if (negb (String.eqb work_key root_key) && negb (str_startswith (root_key +:+ bs) work_key)) ValueError
        "workspace_outside_root";
  Ok workspace.
Definition argv_is_confined (argv : list string) : bool :=
  negb (bool_decide (argv = [])) && negb (existsb (λ item, negb (str_truthy item) || str_exists (Ascii.eqb (ascii_of_nat 0)) item) argv)
  && forallb (λ item, negb (str_exists is_unsafe item)) argv.

(** ** Envelopes and results *)
Inductive effect_kind := IDEMPOTENT_RESULT | NON_IDEMPOTENT_EFFECT.
Record RemoteJobEnvelope := mkEnvelope {
  ev_job_id : string; ev_host_id : string; ev_profile_id : string; ev_principal : string; ev_lease_id : string; ev_fence : string;
  ev_source_sha : string; ev_source_tree : string; ev_overlay_sha256 : string; ev_input_sha256 : string; ev_argv : list string;
  ev_workspace : string; ev_deadline_utc : Z; ev_cpu_ceiling : Z; ev_memory_mb_ceiling : Z; ev_correlation_id : string;
  ev_workspace_root : option string; ev_output_contract_sha256 : option string; ev_context_pack : option object;
  ev_pack_sha256 : option string; ev_require_context_consumption : bool; ev_test_selection : list string;
  ev_lease_grant : option object; ev_project_id : string; ev_effect_class : effect_kind;
}.
#[export] Instance RemoteJobEnvelope_model : Model RemoteJobEnvelope := λ e,
  _ ← raise_if (negb (Nat.eqb (String.length (ev_source_sha e)) 40)) ValidationError "source_sha";
  _ ← raise_if (negb (Nat.eqb (String.length (ev_source_tree e)) 40)) ValidationError "source_tree";
  _ ← raise_if (ev_cpu_ceiling e <? 1) ValidationError "cpu_ceiling";
  raise_if (ev_memory_mb_ceiling e <? 1) ValidationError "memory_mb_ceiling".
Definition JOptObj (o : option object) : json := match o with Some o => JObj o | None => JNull end.
(** [model_dump(mode="json")]. *)
Definition envelope_dump (e : RemoteJobEnvelope) : object :=
  [("schema_version", JStr "1.0.0"); ("job_id", JStr (ev_job_id e)); ("host_id", JStr (ev_host_id e));
   ("profile_id", JStr (ev_profile_id e)); ("principal", JStr (ev_principal e)); ("lease_id", JStr (ev_lease_id e));
   ("fence", JStr (ev_fence e)); ("source_sha", JStr (ev_source_sha e)); ("source_tree", JStr (ev_source_tree e));
   ("overlay_sha256", JStr (ev_overlay_sha256 e)); ("input_sha256", JStr (ev_input_sha256 e));
   ("argv", JList (JStr <$> ev_argv e)); ("workspace", JStr (ev_workspace e)); ("deadline_utc", json_instant (ev_deadline_utc e));
   ("cpu_ceiling", JInt (ev_cpu_ceiling e)); ("memory_mb_ceiling", JInt (ev_memory_mb_ceiling e));
   ("correlation_id", JStr (ev_correlation_id e)); ("workspace_root", JOptStr (ev_workspace_root e));
   ("output_contract_sha256", JOptStr (ev_output_contract_sha256 e)); ("context_pack", JOptObj (ev_context_pack e));
   ("pack_sha256", JOptStr (ev_pack_sha256 e)); ("require_context_consumption", JBool (ev_require_context_consumption e));
   ("test_selection", JList (JStr <$> ev_test_selection e)); ("lease_grant", JOptObj (ev_lease_grant e));
   ("project_id", JStr (ev_project_id e));
   ("effect_class", JStr match ev_effect_class e with IDEMPOTENT_RESULT => "IDEMPOTENT_RESULT"
                         | NON_IDEMPOTENT_EFFECT => "NON_IDEMPOTENT_EFFECT" end)].
Definition envelope_digest (e : RemoteJobEnvelope) : string := json_fingerprint (JObj (envelope_dump e)).
Record RemoteJobResult := mkRemoteResult {
  re_job_id : string; re_host_id : string; re_fence : string; re_exit_code : Z; re_stdout_sha256 : string; re_stderr_sha256 : string;
  re_output_sha256 : string; re_accepted_at_utc : option Z;
}.
Definition result_dump (r : RemoteJobResult) : object :=
  [("schema_version", JStr "1.0.0"); ("job_id", JStr (re_job_id r)); ("host_id", JStr (re_host_id r)); ("fence", JStr (re_fence r));
   ("exit_code", JInt (re_exit_code r)); ("stdout_sha256", JStr (re_stdout_sha256 r)); ("stderr_sha256", JStr (re_stderr_sha256 r));
   ("output_sha256", JStr (re_output_sha256 r)); ("accepted_at_utc", json_opt_instant (re_accepted_at_utc r))].

(** ** The worker and the host *)
(** What [adapter.execute] may do: raise one of the exceptions the controller
    tells apart, or another one, or answer. *)
Inductive adapter_reply :=
  | Ad_limited (reason : string)
  | Ad_type_error
  | Ad_os_error
  | Ad_raises (x : exn)
  | Ad_payload (payload : object).
Record launch_args := mkLaunch {
  la_command : list string; la_workspace : string; la_timeout_seconds : Z; la_threads : Z; la_handle : option Z;
  la_job_id : string; la_input_sha256 : string; la_envelope : object;
}.
Record DispatchAdapter := mkAdapter { remote_host : bool; machine_id : option string; adapter_execute : launch_args → adapter_reply }.
(** What the controller's own machine answers: [resolve_inside] is the part of
    [canonicalize_workspace] that asks the file system, and [job_object] is
    [enforce_or_reject] on Windows. *)
Record host_machine := mkHost {
  h_windows : bool;
  resolve_inside : string → string → result string;
  is_dir : string → bool;
  job_object : Z → Z → Z → result (option string * option Z);
}.
Record controller_config := mkControllerConfig {
  require_intent : bool; expected_source_sha : option string; expected_source_tree : option string;
  expected_overlay_sha256 : option string; expected_principal : option string; cc_workspace_root : option string;
}.
(** The controller, and the calls that reached the adapter with their
    answers. *)
Record controller := mkController {
  rc_store : option job_store; rc_expired : gset string; rc_accepted : gmap string RemoteJobResult;
  rc_calls : list (string * adapter_reply);
}.
Definition set_store st (c : controller) : controller := mkController st (rc_expired c) (rc_accepted c) (rc_calls c).
(** A call of the store, or nothing where there is none. *)
Definition with_store {A} (f : jobs A) (none : A) (c : controller) : controller * result A :=
  match rc_store c with
  | None => (c, Ok none)
  | Some st => let '(st', r) := f st in (set_store (Some st') c, r)
  end.
Definition truthy (o : option string) : bool := match o with Some s => str_truthy s | None => false end.

Definition controller_expire_fence (fence : string) (now : Z) (c : controller) : controller :=
  (with_store (expire_fence fence now) () (mkController (rc_store c) ({[fence]} ∪ rc_expired c) (rc_accepted c) (rc_calls c))).1.
Definition _fence_expired (fence : string) (c : controller) : bool :=
  bool_decide (fence ∈ rc_expired c)
  || match rc_store c with Some st => bool_decide (is_Some (j_expired (visible st) !! fence)) | None => false end.

(** [if expected and actual != expected: failures.append(name)]. *)
Definition mismatch (expected : option string) (actual name : string) : list string :=
  match expected with
  | Some x => if str_truthy x && negb (String.eqb actual x) then [name] else []
  | None => []
  end.
Definition intent_failures (e : RemoteJobEnvelope) (c : controller) : list string :=
  match rc_store c with
  | None => ["intent_store_missing"]
  | Some st =>
      match j_intents (visible st) !! ev_job_id e with
      | None => ["intent_missing"]
      | Some row =>
          let text key := match obj_get key (ir_payload row) with Some j => py_str j | None => "None" end in
          if negb (json_eqb (JObj (obj_pop "status" (ir_payload row))) (JObj (obj_pop "status" (envelope_dump e)))) then
            ["conflicting_intent"]
          else if negb (String.eqb (text "lease_id") (ev_lease_id e)) then ["lease_mismatch"]
          else if negb (String.eqb (text "fence") (ev_fence e)) then ["fence_mismatch"]
          else []
      end
  end.
Definition _authority_failures (cfg : controller_config) (e : RemoteJobEnvelope) (c : controller) : list string :=
  mismatch (expected_source_sha cfg) (ev_source_sha e) "source_mismatch"
  ++ mismatch (expected_source_tree cfg) (ev_source_tree e) "tree_mismatch"
  ++ mismatch (expected_overlay_sha256 cfg) (ev_overlay_sha256 e) "overlay_mismatch"
  ++ mismatch (expected_principal cfg) (ev_principal e) "principal_mismatch"
  ++ (if require_intent cfg then intent_failures e c else [])
  ++ (if argv_is_confined (ev_argv e) then [] else ["argv_not_confined"])
  ++ (if contains_secret_shaped (JList (JStr <$> ev_argv e)) || contains_secret_shaped (JStr (ev_workspace e))
      then ["secret_in_argv"] else []).

(** ** Launching *)
Definition canonicalize_workspace (h : host_machine) (workspace root host_id : string) : result string :=
  _ ← reject_unsafe_string (h_windows h) workspace "workspace";
  _ ← reject_unsafe_string (h_windows h) root "workspace_root";
  resolved ← resolve_inside h workspace root;
  _ ← raise_if (str_truthy host_id && negb (str_in host_id [XEON_MACHINE_ID; COMFY_MACHINE_ID; "PRIMARY-CODEX-WORKSTATION"]))
        ValueError "unknown_host";
  Ok resolved.
(** The reason that refuses a job, and the handle of its job object. *)
Definition limits_for_adapter (h : host_machine) (a : DispatchAdapter) (cpu memory seconds : Z) : result (option string * option Z) :=
  if remote_host a then
    _ ← raise_if ((cpu <? 1) || (memory <? 1) || (seconds <? 1)) ValueError "invalid_limits";
    Ok (Some "controller_job_object_not_remote_enforcement", None)
  else if h_windows h then job_object h cpu memory seconds
  else _ ← raise_if ((cpu <? 1) || (memory <? 1) || (seconds <? 1)) ValueError "invalid_limits"; Ok (None, None).
Definition nested_threads (cpu_ceiling : Z) : Z := Z.max 1 cpu_ceiling.
Definition launch_workspace (cfg : controller_config) (h : host_machine) (a : DispatchAdapter) (e : RemoteJobEnvelope) : result string :=
  let root := if truthy (ev_workspace_root e) then ev_workspace_root e else cc_workspace_root cfg in
  workspace ← (if remote_host a then
    let allowed := if truthy (ev_workspace_root e) then ev_workspace_root e
                   else snd <$> List.find (λ kv, String.eqb kv.1 (ev_host_id e)) REMOTE_JOB_WORKSPACES in
    match allowed with
    | Some root => if str_truthy root then _ ← confine_remote_workspace (h_windows h) (ev_workspace e) root; Ok (ev_workspace e)
                   else raise ValueError "workspace_root_missing"
    | None => raise ValueError "workspace_root_missing"
    end
  else match root with
       | Some root => if str_truthy root then canonicalize_workspace h (ev_workspace e) root (ev_host_id e) else Ok (ev_workspace e)
       | None => Ok (ev_workspace e)
       end);
  _ ← raise_if (negb (remote_host a) && negb (is_dir h workspace)) ValueError "workspace_missing";
  Ok workspace.
(** From the claim to the call of the adapter; the exceptions that
    [ConfinementError] and [ResourceLimitError] turn into a rejection. *)
Definition prepare_launch (cfg : controller_config) (h : host_machine) (a : DispatchAdapter) (e : RemoteJobEnvelope) (now : Z)
  : result launch_args :=
  _ ← raise_if (remote_host a && negb (bool_decide (machine_id a = Some (ev_host_id e)))) ValueError "wrong_host";
  workspace ← launch_workspace cfg h a e;
  let remaining := Z.max 1 ((ev_deadline_utc e - now) / 1000000) in
  '(refusal, handle) ← limits_for_adapter h a (ev_cpu_ceiling e) (ev_memory_mb_ceiling e) remaining;
  _ ← (match refusal with
       | Some reason => raise_if (negb (remote_host a)) ValueError (if str_truthy reason then reason else "unsupported_limits")
       | None => Ok () end);
  Ok (mkLaunch (ev_argv e) workspace remaining (nested_threads (ev_cpu_ceiling e)) (if remote_host a then None else handle) (ev_job_id e)
        (ev_input_sha256 e) (envelope_dump e)).

Inductive exec_reply :=
  | X_rejected (reason : string) (failures : list string)
  | X_unknown (reason : string)
  | X_executed (r : RemoteJobResult) (digest : string) (payload : object).
Definition worker_result (a : DispatchAdapter) (e : RemoteJobEnvelope) (payload : object) : result RemoteJobResult :=
  exit_code ← (match obj_get "exit_code" payload with
               | None => raise KeyError "exit_code"
               | Some j => match int_of_json j with Some n => Ok n | None => raise ValueError "exit_code" end end);
  out ← required_text payload "stdout_sha256";
  err ← required_text payload "stderr_sha256";
  output ← required_text payload "payload_sha256";
  Ok (mkRemoteResult (ev_job_id e) (if truthy (machine_id a) then default "" (machine_id a) else ev_host_id e) (ev_fence e) exit_code out
        err output None).
Definition mark (e : RemoteJobEnvelope) (s : JobStoreStatus) (c : controller) : controller :=
  (with_store (mark_status (ev_job_id e) s) () c).1.
(** The body of the [try]: whether the job counts as launched, and the
    answer. *)
Definition launch (cfg : controller_config) (h : host_machine) (a : DispatchAdapter) (e : RemoteJobEnvelope) (now : Z) (c : controller)
  : controller * bool * result exec_reply :=
  match prepare_launch cfg h a e now with
  | Raise (Exn _ reason) => (c, false, Ok (X_rejected reason []))
  | Ok args =>
      let reply := adapter_execute a args in
      let c := mkController (rc_store c) (rc_expired c) (rc_accepted c) ((ev_job_id e, reply) :: rc_calls c) in
      match reply with
      | Ad_limited reason => (c, false, Ok (X_rejected reason []))
      | Ad_type_error => (mark e J_UNKNOWN_OUTCOME c, true, Ok (X_unknown "adapter_execute_contract_error"))
      | Ad_os_error => (mark e J_UNKNOWN_OUTCOME c, true, Ok (X_unknown "transport_uncertain"))
      | Ad_raises x => (c, true, Raise x)
      | Ad_payload payload =>
          if match obj_get "timed_out" payload with Some j => json_truthy j | None => false end then
            (mark e J_UNKNOWN_OUTCOME c, true, Ok (X_unknown "lost_acknowledgement"))
          else (mark e J_RUNNING c, true, r ← worker_result a e payload; Ok (X_executed r (envelope_digest e) payload))
      end
  end.
(** The [finally] of the launch. *)
Definition finish (e : RemoteJobEnvelope) (claimed : bool) (out : controller * bool * result exec_reply) : controller * result exec_reply :=
  let '(c, launched, r) := out in
  (if claimed && negb launched then (with_store (release_unlaunched (ev_job_id e)) () c).1 else c, r).
Definition execute (cfg : controller_config) (h : host_machine) (a : DispatchAdapter) (e : RemoteJobEnvelope) (now : Z) (c : controller)
  : controller * result exec_reply :=
  if _fence_expired (ev_fence e) c then (c, Ok (X_rejected "expired_fence" []))
  else if ev_deadline_utc e <? now then (c, Ok (X_unknown "deadline_elapsed"))
  else match _authority_failures cfg e c with
       | failure :: failures => (c, Ok (X_rejected failure (failure :: failures)))
       | [] =>
           match rc_store c with
           | None => finish e false (launch cfg h a e now c)
           | Some st =>
               if bool_decide (is_Some (j_results (visible st) !! ev_job_id e)) then (c, Ok (X_rejected "already_accepted" []))
               else match with_store (claim_launch (envelope_dump e)) (C_refused "") c with
                    | (c, Raise x) => (c, Raise x)
                    | (c, Ok (C_refused reason)) =>
                        (c, Ok (if String.eqb reason "unresolved_in_flight" then X_unknown reason
                                else X_rejected (if str_truthy reason then reason else "intent_missing") []))
                    | (c, Ok C_dispatched) => finish e true (launch cfg h a e now c)
                    end
           end
       end.

(** ** Taking a result in *)
Inductive take_reply :=
  | T_rejected (reason : string)
  | T_stored (r : accept_reply)
  | T_accepted (duplicate : bool) (r : RemoteJobResult).
(** The receipt of the context, where there is no store. *)
Definition check_receipt (e : RemoteJobEnvelope) (receipt : object) : option string :=
  let job := get_text "job_id" receipt in
  let host := get_text "host_id" receipt in
  if negb (match obj_get "ok" receipt with Some j => json_truthy j | None => false end) then Some "context_unconsumed"
  else if str_truthy job && negb (String.eqb job (ev_job_id e)) then Some "context_wrong_job"
  else if str_truthy host && negb (String.eqb host (ev_host_id e)) then Some "context_wrong_host"
  else if truthy (ev_pack_sha256 e) && negb (bool_decide (ev_pack_sha256 e = Some (get_text "pack_sha256" receipt)))
  then Some "context_wrong_pack"
  else None.
Definition take_in_memory (e : RemoteJobEnvelope) (r : RemoteJobResult) (now : Z) (artifact : option string) (receipt : object)
    (c : controller) : controller * take_reply :=
  if _fence_expired (ev_fence e) c || negb (String.eqb (re_fence r) (ev_fence e)) then (c, T_rejected "expired_fence")
  else if ev_deadline_utc e <? now then (c, T_rejected "late_result")
  else if negb (re_exit_code r =? 0) then (c, T_rejected "nonzero_exit")
  else if (truthy (ev_output_contract_sha256 e) || ev_require_context_consumption e) && bool_decide (artifact = None) then
    (c, T_rejected "artifact_bytes_required")
  else if match artifact with
          | Some bytes => truthy (ev_output_contract_sha256 e)
                          && negb (bool_decide (ev_output_contract_sha256 e = Some (digest_bytes bytes)))
          | None => false end then (c, T_rejected "output_tamper")
  else match (if ev_require_context_consumption e then check_receipt e receipt else None) with
       | Some reason => (c, T_rejected reason)
       | None =>
           match rc_accepted c !! ev_job_id e with
           | Some old =>
               (c, if String.eqb (re_output_sha256 old) (re_output_sha256 r) && (re_exit_code old =? re_exit_code r)
                   then T_accepted true old else T_rejected "conflicting_replay")
           | None =>
               let accepted := mkRemoteResult (re_job_id r) (re_host_id r) (re_fence r) (re_exit_code r) (re_stdout_sha256 r)
                                 (re_stderr_sha256 r) (re_output_sha256 r) (Some now) in
               (mkController (rc_store c) (rc_expired c) (<[ev_job_id e := accepted]> (rc_accepted c)) (rc_calls c), T_accepted false accepted)
           end
       end.
Definition accept (cfg : controller_config) (scheduler : option (gmap string job_lease)) (e : RemoteJobEnvelope) (r : RemoteJobResult)
    (expected_host : string) (now : Z) (artifact : option string) (receipt : object) (c : controller) : controller * result take_reply :=
  if negb (String.eqb (re_job_id r) (ev_job_id e)) then (c, Ok (T_rejected "wrong_job"))
  else if negb (String.eqb (re_host_id r) expected_host) || negb (String.eqb (re_host_id r) (ev_host_id e)) then
    (c, Ok (T_rejected "wrong_host"))
  else match rc_store c with
       | Some st =>
           let '(st', reply) := accept_result scheduler (result_dump r) (envelope_dump e) artifact receipt now st in
           (set_store (Some st') c, T_stored <$> reply)
       | None => if require_intent cfg then (c, Ok (T_rejected "intent_missing"))
                 else let '(c', reply) := take_in_memory e r now artifact receipt c in (c', Ok reply)
       end.
