(* ===== verification/Confinement.v ===== *)
(** * Confinement: what a confined workspace is

    The lexical check of [confine_remote_workspace] by string prefixes means
    what it should in terms of path components. *)
From S2P Require Import Prelude PyStd PyRe PyJson SchedulerDomain ResourceKeys FleetJobs RemoteJob.
From Stdlib Require Import Ascii.
Local Open Scope Z_scope.

(** The components of a Windows path, case folded. *)
Definition components (path : string) : list string := str_split backslash (str_lower (lexical_path path)).

(** ** Splitting *)
Lemma str_split_ne c s : str_split c s ≠ [].
Proof. destruct s as [|x s]; cbn; [done|]. destruct (str_split c s); [done|]. by case_match. Qed.
Lemma str_split_at c a b : str_split c (a +:+ String c b) = str_split c a ++ str_split c b.
Proof.
  induction a as [|x a IH].
  - change ("" +:+ String c b) with (String c b). cbn [str_split app]. pose proof (str_split_ne c b). destruct (str_split c b); [done|]. by rewrite Ascii.eqb_refl.
  - rewrite str_app_cons. cbn [str_split]. rewrite IH. pose proof (str_split_ne c a). destruct (str_split c a) as [|w ws]; [done|].
    cbn [app]. by destruct (Ascii.eqb x c).
Qed.
(** The two characters of a parent reference, next to each other. *)
Fixpoint has_dots (s : string) : bool :=
  match s with
  | String a s' => (Ascii.eqb "." a && match s' with String b _ => Ascii.eqb "." b | EmptyString => false end) || has_dots s'
  | EmptyString => false
  end.
Lemma match_at_Empty s : match_at Empty s = false.
Proof. by induction s. Qed.
Lemma match_at_dots a s : match_at (lit "..") (String a s) = Ascii.eqb "." a && match s with String b _ => Ascii.eqb "." b | EmptyString => false end.
Proof.
  change (match_at (lit "..") (String a s)) with (match_at (cat (if Ascii.eqb "." a then Eps else Empty) (lit ".")) s).
  destruct (Ascii.eqb "." a); [|apply match_at_Empty]. destruct s as [|b s]; [done|].
  change (match_at _ (String b s)) with (match_at (cat (if Ascii.eqb "." b then Eps else Empty) Eps) s).
  destruct (Ascii.eqb "." b); [by destruct s|apply match_at_Empty].
Qed.
Lemma search_dots s : search (lit "..") s = has_dots s.
Proof. induction s as [|a s IH]; [done|]. cbn [search has_dots]. by rewrite IH, match_at_dots. Qed.
Lemma has_dots_app a b : has_dots a = true → has_dots (a +:+ b) = true.
Proof.
  induction a as [|x a IH]; [done|]. rewrite str_app_cons. cbn [has_dots]. rewrite !orb_true_iff, !andb_true_iff.
  intros [[Hx Hy]|Hd]; [left|right; auto]. split; [done|]. destruct a as [|y a]; [done|]. by rewrite str_app_cons.
Qed.
Lemma dots_component c s : ".." ∈ str_split c s → has_dots s = true.
Proof.
  assert (∀ w ws, str_split c s = w :: ws → (∃ rest, s = w +:+ rest) ∧ (".." ∈ ws → has_dots s = true)) as H.
  { induction s as [|x s IH]; cbn; intros w ws.
    { intros [= <- <-]. split; [by exists ""|]. by intros ?%elem_of_nil. }
    pose proof (str_split_ne c s) as Hne. destruct (str_split c s) as [|w0 ws0]; [done|]. destruct (IH _ _ eq_refl) as [[rest Hr] Hd].
    assert (has_dots s = true → has_dots (String x s) = true) as Hx.
    { intros E. cbn [has_dots]. by rewrite E, orb_true_r. }
    destruct (Ascii.eqb x c); intros [= <- <-].
    - split; [by exists (String x s)|]. intros [E|Hin]%elem_of_cons; apply Hx; [|by apply Hd].
      rewrite Hr, <-E. by apply has_dots_app.
    - split; [exists rest; by rewrite str_app_cons, <-Hr|]. intros Hin. apply Hx. by apply Hd. }
  destruct (str_split c s) as [|w ws] eqn:E; [by apply str_split_ne in E|]. destruct (H _ _ eq_refl) as [[rest ->] Hd].
  intros [<-|Hin]%elem_of_cons; [by apply has_dots_app|by apply Hd].
Qed.
(** Case folding, slashes and trailing separators make no dots. *)
Lemma has_dots_map f s : (∀ c, Ascii.eqb "." (f c) = true → Ascii.eqb "." c = true) → has_dots (str_map f s) = true → has_dots s = true.
Proof.
  intros Hf. induction s as [|a s IH]; [done|]. cbn [str_map has_dots]. rewrite !orb_true_iff, !andb_true_iff.
  intros [[Ha Hb]|Hd]; [left|auto]. split; [auto|]. destruct s as [|b s]; [done|]. cbn [str_map] in Hb. auto.
Qed.
Lemma has_dots_rstrip p s : has_dots (str_rstrip p s) = true → has_dots s = true.
Proof.
  assert (∃ t, s = str_rstrip p s +:+ t) as [t Ht].
  { induction s as [|c s [t IH]]; [by exists ""|]. cbn. destruct (str_rstrip p s) as [|d w] eqn:E.
    - destruct (p c); [by exists (String c s)|]. by exists s.
    - exists t. rewrite str_app_cons. by rewrite <-IH. }
  intros Hd. rewrite Ht. by apply has_dots_app.
Qed.
Lemma dot_lower c : Ascii.eqb "." (ascii_lower c) = true → Ascii.eqb "." c = true.
Proof. destruct c as [[] [] [] [] [] [] [] []]; vm_compute; congruence. Qed.
Lemma dot_slash c : Ascii.eqb "." (if Ascii.eqb c "/" then backslash else c) = true → Ascii.eqb "." c = true.
Proof. destruct (Ascii.eqb c "/"); [done|auto]. Qed.
Lemma no_parent_component path : search (lit "..") path = false → ".." ∉ components path.
Proof.
  intros Hs Hin. apply dots_component in Hin. apply has_dots_map in Hin; [|exact dot_lower].
  apply has_dots_rstrip, has_dots_map in Hin; [|exact dot_slash]. rewrite search_dots in Hs. congruence.
Qed.

(** ** Confined workspaces *)
Lemma reject_unsafe_ok windows v field x : reject_unsafe_string windows v field = Ok x →
  x = v ∧ str_exists is_unsafe v = false ∧ search (lit "..") v = false.
Proof.
  unfold reject_unsafe_string. intros E. apply bind_ok in E as ([] & _ & E). apply bind_ok in E as ([] & E1 & E).
  apply bind_ok in E as ([] & E2 & E). apply bind_ok in E as ([] & _ & E). apply bind_ok in E as ([] & _ & [= <-]).
  apply raise_if_ok in E1, E2. apply orb_false_iff in E2 as [E2 _]. done.
Qed.
(** Whatever workspace is let through lies in the allowed root: its path
    components start with those of the root, and no component leads out
    again. *)
Lemma confined_inside windows workspace root x : confine_remote_workspace windows workspace root = Ok x →
  (components root `prefix_of` components workspace) ∧ (".." ∉ components workspace) ∧ str_exists is_unsafe workspace = false.
Proof.
  unfold confine_remote_workspace. intros E. apply bind_ok in E as (w & Ew & E). apply reject_unsafe_ok in Ew as (_ & Hu & Hd).
  apply bind_ok in E as (r & _ & E). apply bind_ok in E as ([] & Ep & _). apply raise_if_ok in Ep.
  split; [|split; [by apply no_parent_component|done]]. unfold components. cbv zeta in Ep.
  destruct (String.eqb_spec (str_lower (lexical_path workspace)) (str_lower (lexical_path root))) as [->|]; [done|].
  cbn in Ep. apply negb_false_iff, startswith_spec in Ep as [rest ->]. rewrite str_app_assoc.
  unfold bs. rewrite str_app_cons. change ("" +:+ rest) with rest. rewrite str_split_at. by eexists.
Qed.
