(* ===== verification/RemoteSafety.v ===== *)
(** * RemoteSafety: a job runs at most once

    The controller and the job store together: over any sequence of
    executions, acceptances, crashes and operations of the store, a worker
    starts a job at most once; and it starts only what the controller was
    told to allow. *)
From S2P Require Import Prelude PyStd PyRe PyJson SchedulerDomain FleetJobs FleetSafety FleetLaunch RemoteJob Confinement.
Local Open Scope Z_scope.

(** ** Sequences of operations *)
Inductive fleet_op :=
  | F_execute (cfg : controller_config) (h : host_machine) (a : DispatchAdapter) (e : RemoteJobEnvelope) (now : Z)
  | F_accept (cfg : controller_config) (scheduler : option (gmap string job_lease)) (e : RemoteJobEnvelope) (r : RemoteJobResult)
      (expected_host : string) (now : Z) (artifact : option string) (receipt : object)
  | F_expire (fence : string) (now : Z)
  | F_store (o : job_op).
Definition run_fleet_op (c : controller) (o : fleet_op) : controller :=
  match o with
  | F_execute cfg h a e now => (execute cfg h a e now c).1
  | F_accept cfg sched e r host now artifact receipt => (accept cfg sched e r host now artifact receipt c).1
  | F_expire fence now => controller_expire_fence fence now c
  | F_store OpRestart => mkController (restart <$> rc_store c) ∅ ∅ (rc_calls c)
  | F_store o => set_store ((λ st, run_op st o) <$> rc_store c) c
  end.
Definition run_fleet (c : controller) (ops : list fleet_op) : controller := foldl run_fleet_op c ops.
(** Nobody but the controller releases a job, and nobody reopens one by
    hand. *)
Definition leaves_jobs_claimed (o : fleet_op) : Prop :=
  match o with
  | F_store (OpRelease _) => False
  | F_store (OpMark _ s) => s ≠ J_INTENT
  | _ => True
  end.
(** The calls of the adapter that may have started the job: all but those
    refused for their resource limits. *)
Definition may_have_started (call : string * adapter_reply) : bool := match call.2 with Ad_limited _ => false | _ => true end.
Definition launches (j : string) (c : controller) : list (string * adapter_reply) :=
  List.filter (λ call, String.eqb call.1 j && may_have_started call) (rc_calls c).

(** ** One execution *)
Lemma with_store_some {A} (f : jobs A) none c st : rc_store c = Some st → with_store f none c = (set_store (Some (f st).1) c, (f st).2).
Proof. intros E. unfold with_store. rewrite E. by destruct (f st). Qed.
Abbreviation claimed_state := (λ s, s ≠ J_INTENT).
(** What a launch does to the store and to the calls. *)
Lemma launch_effect cfg h a e now c st : rc_store c = Some st → let '(c', launched, _) := launch cfg h a e now c in
  (launched = false ∧ rc_store c' = Some st ∧ ∀ j, launches j c' = launches j c)
  ∨ (launched = true ∧ (∃ reply, rc_calls c' = (ev_job_id e, reply) :: rc_calls c ∧ may_have_started (ev_job_id e, reply) = true)
     ∧ (rc_store c' = Some st ∨ ∃ s, s ≠ J_INTENT ∧ rc_store c' = Some (run_op st (OpMark (ev_job_id e) s)))).
Proof.
  intros Hst. unfold launch. destruct (prepare_launch cfg h a e now) as [args|[k reason]]; [|left; by split_and!]. cbv zeta.
  assert (∀ s k, rc_store (mark e s (mkController (rc_store c) (rc_expired c) (rc_accepted c) k)) = Some (run_op st (OpMark (ev_job_id e) s))
    ∧ rc_calls (mark e s (mkController (rc_store c) (rc_expired c) (rc_accepted c) k)) = k) as Hm.
  { intros s k. unfold mark. by erewrite with_store_some by exact Hst. }
  destruct (adapter_execute a args) as [reason| | |x|payload].
  - left. split_and!; [done|done|]. intros j. unfold launches. cbn. by rewrite andb_false_r.
  - right. split; [done|]. split; [eexists; split; [apply Hm|done]|]. right. exists J_UNKNOWN_OUTCOME. split; [done|apply Hm].
  - right. split; [done|]. split; [eexists; split; [apply Hm|done]|]. right. exists J_UNKNOWN_OUTCOME. split; [done|apply Hm].
  - right. split; [done|]. split; [by eexists|by left].
  - destruct (match obj_get "timed_out" payload with Some j => _ | None => _ end).
    + right. split; [done|]. split; [eexists; split; [apply Hm|done]|]. right. exists J_UNKNOWN_OUTCOME. split; [done|apply Hm].
    + right. split; [done|]. split; [eexists; split; [apply Hm|done]|]. right. exists J_RUNNING. split; [done|apply Hm].
Qed.
(** What an execution does: nothing; a claim that is refused; a claim, a
    release of what was not launched; or a claim and a launch. *)
Lemma execute_effect cfg h a e now c st : rc_store c = Some st → let c' := (execute cfg h a e now c).1 in
  let job := ev_job_id e in let st1 := run_op st (OpClaim (envelope_dump e)) in
  (rc_store c' = Some st ∧ rc_calls c' = rc_calls c)
  ∨ (rc_store c' = Some st1 ∧ rc_calls c' = rc_calls c)
  ∨ ((claim_launch (envelope_dump e) st).2 = Ok C_dispatched
     ∧ ((rc_store c' = Some (run_op st1 (OpRelease job)) ∧ ∀ j, launches j c' = launches j c)
        ∨ ((∃ reply, rc_calls c' = (job, reply) :: rc_calls c ∧ may_have_started (job, reply) = true)
           ∧ (rc_store c' = Some st1 ∨ ∃ s, s ≠ J_INTENT ∧ rc_store c' = Some (run_op st1 (OpMark job s)))))).
Proof.
  intros Hst. cbv zeta. unfold execute. destruct (_fence_expired _ c); [by left|]. destruct (_ <? _); [by left|].
  destruct (_authority_failures cfg e c) as [|f fs]; [|by left]. rewrite Hst. case_bool_decide; [by left|].
  rewrite (with_store_some _ _ _ _ Hst). cbn [run_op].
  destruct (claim_launch (envelope_dump e) st) as [st1 [[reason|]|x]]; cbn [fst snd]; [by right; left| |by right; left].
  do 2 right. split; [done|].
  pose proof (launch_effect cfg h a e now (set_store (Some st1) c) st1 eq_refl) as Hl.
  destruct (launch cfg h a e now (set_store (Some st1) c)) as [[c' launched] r].
  destruct Hl as [(-> & Hs & Hc)|(-> & Hc & Hs)]; cbn; [left|by right].
  rewrite (with_store_some _ _ _ _ Hs). split; [done|exact Hc].
Qed.

(** ** At most once *)
(** The job has not been started, or once, and then its intent is claimed. *)
Definition started_once (j : string) (c : controller) : Prop :=
  ∃ st, rc_store c = Some st ∧ (launches j c = [] ∨ (length (launches j c) = 1%nat ∧ holds (intent_in claimed_state j) st)).
Lemma op_claimed j o st : ¬ moves_out claimed_state j o → holds (intent_in claimed_state j) st → holds (intent_in claimed_state j) (run_op st o).
Proof. intros Hm. apply op_holds. intros db db'. apply op_intent_in; [apply _|by intros []|done|done|done]. Qed.
Lemma started_keep j c c' st o : rc_store c = Some st → rc_store c' = Some (run_op st o) → launches j c' = launches j c →
  ¬ moves_out claimed_state j o → started_once j c → started_once j c'.
Proof.
  intros Hs Hs' Hl Hm (st0 & Hs0 & Hj). rewrite Hs in Hs0. injection Hs0 as <-. exists (run_op st o). split; [done|]. rewrite Hl.
  destruct Hj as [Hj|[Hj Hh]]; [by left|right]. split; [done|]. by apply op_claimed.
Qed.
Lemma launches_same j c c' : rc_calls c' = rc_calls c → launches j c' = launches j c.
Proof. unfold launches. by intros ->. Qed.
Lemma started_same j c c' : rc_store c' = rc_store c → rc_calls c' = rc_calls c → started_once j c → started_once j c'.
Proof. intros Hs Hc (st & Hst & Hj). exists st. by rewrite Hs, (launches_same _ _ _ Hc). Qed.
Lemma claim_holds e st : (claim_launch (envelope_dump e) st).2 = Ok C_dispatched →
  holds (intent_in claimed_state (ev_job_id e)) (run_op st (OpClaim (envelope_dump e)))
  ∧ ¬ holds (intent_in claimed_state (ev_job_id e)) st.
Proof.
  intros E. split; [|intros Hh; by eapply (no_claim_in claimed_state (ev_job_id e) (envelope_dump e) st); eauto].
  cbn [run_op]. unfold claim_launch in *. change (required_text (envelope_dump e) "job_id") with (Ok (ev_job_id e)) in *.
  cbv iota in *. destruct (immediate (claim_body (ev_job_id e) (envelope_dump e)) st) as [st1 r] eqn:Em. cbn in E. subst r. apply immediate_ok in Em as [_ (db & Eb & ->)].
  apply claim_body_spec in Eb as [[_ ?]|(it & Ei & _ & ->)]; [done|]. split; [|done]. cbn. eexists.
  rewrite set_status_intents, bool_decide_eq_true_2 by done. by rewrite Ei.
Qed.
Lemma execute_started_once cfg h a e now c j : started_once j c → started_once j (execute cfg h a e now c).1.
Proof.
  intros Hj. pose proof Hj as (st & Hst & Hcase).
  destruct (execute_effect cfg h a e now c st Hst) as [[Hs Hc]|[[Hs Hc]|(Ec & Hrest)]].
  - by apply (started_same j c); [rewrite Hst|..].
  - by eapply started_keep; [exact Hst|exact Hs|by apply launches_same|intros []|].
  - destruct (claim_holds e st Ec) as [Hh Hn]. set (st1 := run_op st (OpClaim _)) in *. destruct (decide (j = ev_job_id e)) as [->|Hne].
    + destruct Hcase as [Hl|[_ Hh']]; [|done]. destruct Hrest as [[Hs Hl']|[(reply & Hc & Hr) Hs]].
      { eexists. split; [exact Hs|]. left. by rewrite Hl'. }
      assert (length (launches (ev_job_id e) (execute cfg h a e now c).1) = 1%nat) as Hone.
      { unfold launches in *. rewrite Hc. cbn. rewrite String.eqb_refl, Hr. cbn. by rewrite Hl. }
      destruct Hs as [Hs|(s & Hi & Hs)]; eexists; (split; [exact Hs|]); right; (split; [done|]); [done|].
      apply op_claimed; [|done]. cbn. naive_solver.
    + assert (started_once j (set_store (Some st1) c)) as Hj1.
      { eapply started_keep; [exact Hst|done|done| |exact Hj]. by intros []. }
      destruct Hrest as [[Hs Hl']|[(reply & Hc & _) Hs]].
      { eapply started_keep; [|exact Hs|rewrite Hl'|..|exact Hj1]; [done|done|]. cbn. naive_solver. }
      assert (launches j (execute cfg h a e now c).1 = launches j c) as Hl'.
      { unfold launches. rewrite Hc. cbn. destruct (String.eqb_spec (ev_job_id e) j); [congruence|done]. }
      destruct Hs as [Hs|(s & Hi & Hs)].
      * destruct Hj1 as (st2 & [= <-] & Hj1). exists st1. rewrite Hl'. by split.
      * eapply started_keep; [|exact Hs|rewrite Hl'|..|exact Hj1]; [done|done|]. cbn. naive_solver.
Qed.

Lemma accept_result_run sched r e a c now st : (accept_result sched r e a c now st).1 = run_op st (OpAccept sched r e a c now).
Proof. done. Qed.
Lemma accept_started_once cfg sched e r host now artifact receipt c j : started_once j c →
  started_once j (accept cfg sched e r host now artifact receipt c).1.
Proof.
  intros Hj. pose proof Hj as (st & Hst & _). unfold accept. destruct (negb _); [done|]. destruct (_ || _); [done|]. rewrite Hst.
  pose proof (accept_result_run sched (result_dump r) (envelope_dump e) artifact receipt now st) as Hr.
  destruct (accept_result sched (result_dump r) (envelope_dump e) artifact receipt now st) as [st' reply]. cbn [fst] in Hr. subst st'.
  by eapply started_keep; [exact Hst|done|done|intros []|].
Qed.
Lemma fleet_op_started_once j o c : leaves_jobs_claimed o → started_once j c → started_once j (run_fleet_op c o).
Proof.
  intros Ho Hj. pose proof Hj as (st & Hst & Hcase).
  assert (∀ o', ¬ moves_out claimed_state j o' → started_once j (set_store ((λ st, run_op st o') <$> rc_store c) c)) as Hop.
  { intros o' Hm. eapply (started_keep j c _ st o'); [done| |done|done|done]. cbn [set_store rc_store]. by rewrite Hst. }
  destruct o as [cfg h a e now|cfg sched e r host now artifact receipt|fence now|o]; cbn [run_fleet_op].
  - by apply execute_started_once.
  - by apply accept_started_once.
  - unfold controller_expire_fence. erewrite with_store_some by exact Hst. cbn [fst].
    by eapply (started_keep j c _ st (OpFence fence now)); [| | |intros []|].
  - destruct o; try (apply Hop; cbn; naive_solver).
    exists (restart st). split; [cbn; by rewrite Hst|]. destruct Hcase as [Hl|[Hl [Hc _]]]; [by left|right]. by split.
Qed.

(** C9. A job runs at most once.  Start a controller on any job store that
    has launched nothing, and let anything happen: executions of any envelopes
    by any adapters (which may refuse, time out, fail or answer anything),
    results, expired fences, crashes and restarts in between, other operations
    of the store, except a release or a reset of a job by hand.  The calls of
    the adapter that may have started a given job are never more than one. *)
Theorem job_runs_at_most_once st ops j : Forall leaves_jobs_claimed ops →
  (length (launches j (run_fleet (mkController (Some st) ∅ ∅ []) ops)) ≤ 1)%nat.
Proof.
  intros Hops. assert (∀ c, started_once j c → started_once j (run_fleet c ops)) as Hrun.
  { unfold run_fleet. induction Hops as [|o ops Ho _ IH]; intros c Hc; [done|]. cbn [foldl]. apply IH. by apply fleet_op_started_once. }
  destruct (Hrun (mkController (Some st) ∅ ∅ [])) as (st' & _ & [->|[-> _]]); [by exists st; split; [|left]|cbn; lia|done].
Qed.

(** ** What may be launched *)
Lemma mismatch_nil expected actual name : mismatch expected actual name = [] → ∀ x, expected = Some x → x ≠ "" → actual = x.
Proof.
  intros Hm x -> Hx. unfold mismatch in Hm. destruct x as [|ch s]; [done|]. cbn [str_truthy andb] in Hm.
  by destruct (String.eqb_spec actual (String ch s)).
Qed.
(** The envelope is what the controller's configuration expects. *)
Definition authorised (cfg : controller_config) (e : RemoteJobEnvelope) : Prop :=
  (∀ x, expected_source_sha cfg = Some x → x ≠ "" → ev_source_sha e = x)
  ∧ (∀ x, expected_source_tree cfg = Some x → x ≠ "" → ev_source_tree e = x)
  ∧ (∀ x, expected_overlay_sha256 cfg = Some x → x ≠ "" → ev_overlay_sha256 e = x)
  ∧ (∀ x, expected_principal cfg = Some x → x ≠ "" → ev_principal e = x)
  ∧ argv_is_confined (ev_argv e) = true
  ∧ contains_secret_shaped (JList (JStr <$> ev_argv e)) = false.
Lemma authority_nil cfg e c : _authority_failures cfg e c = [] → authorised cfg e.
Proof.
  unfold _authority_failures. intros H. apply app_nil in H as [H1 H]. apply app_nil in H as [H2 H]. apply app_nil in H as [H3 H].
  apply app_nil in H as [H4 H]. apply app_nil in H as [_ H]. apply app_nil in H as [H5 H6].
  unfold authorised. split_and!; try (by eapply mismatch_nil); [by destruct (argv_is_confined _)|].
  by destruct (contains_secret_shaped (JList _)).
Qed.
Lemma launch_calls cfg h a e now c : rc_calls (launch cfg h a e now c).1.1 ≠ rc_calls c → is_ok (prepare_launch cfg h a e now) = true.
Proof. unfold launch. by destruct (prepare_launch cfg h a e now) as [|[]]. Qed.
Lemma finish_calls e claimed out : rc_calls (finish e claimed out).1 = rc_calls out.1.1.
Proof.
  destruct out as [[c launched] r]. cbn. destruct (claimed && negb launched); [|done]. unfold with_store.
  by destruct (rc_store c) as [st|]; [destruct (release_unlaunched _ st)|].
Qed.
(** The root a remote job must stay in. *)
Definition allowed_root (e : RemoteJobEnvelope) : option string :=
  if truthy (ev_workspace_root e) then ev_workspace_root e
  else snd <$> List.find (λ kv, String.eqb kv.1 (ev_host_id e)) REMOTE_JOB_WORKSPACES.
Lemma prepared_remote cfg h a e now : is_ok (prepare_launch cfg h a e now) = true → remote_host a = true →
  machine_id a = Some (ev_host_id e)
  ∧ ∃ root, allowed_root e = Some root ∧ (components root `prefix_of` components (ev_workspace e)) ∧ (".." ∉ components (ev_workspace e)).
Proof.
  destruct (prepare_launch cfg h a e now) as [args|] eqn:E; [intros _|done]. intros Hr. unfold prepare_launch in E. rewrite Hr in E.
  apply bind_ok in E as ([] & Em & E). apply raise_if_ok in Em. apply negb_false_iff, bool_decide_eq_true_1 in Em.
  apply bind_ok in E as (ws & Ew & _). split; [done|]. unfold launch_workspace in Ew. rewrite Hr in Ew.
  apply bind_ok in Ew as (ws' & Ew & _). fold (allowed_root e) in Ew.
  destruct (allowed_root e) as [root|]; [|done]. exists root. split; [done|].
  destruct (str_truthy root); [|done]. apply bind_ok in Ew as (x & Ew & _). apply confined_inside in Ew as (? & ? & _). done.
Qed.
(** A claim that succeeds finds the intent of the envelope, unclaimed. *)
Lemma claimed_intent e st st1 : claim_launch (envelope_dump e) st = (st1, Ok C_dispatched) →
  ¬ is_Some (j_results (visible st) !! ev_job_id e) →
  ∃ it, j_intents (committed st) !! ev_job_id e = Some it ∧ ir_status it = J_INTENT
    ∧ json_eqb (JObj (obj_pop "status" (ir_payload it))) (JObj (envelope_dump e)) = true ∧ j_results (committed st) !! ev_job_id e = None.
Proof.
  unfold claim_launch. change (required_text (envelope_dump e) "job_id") with (Ok (ev_job_id e)). cbv iota.
  intros Em Hr. apply immediate_ok in Em as [Ho (db & Eb & _)]. unfold visible in Hr. rewrite Ho in Hr. cbn in Hr.
  assert (j_results (committed st) !! ev_job_id e = None) as Hn.
  { destruct (j_results (committed st) !! ev_job_id e); [|done]. by destruct Hr. }
  unfold claim_body in Eb. destruct (j_intents (committed st) !! ev_job_id e) as [it|]; [|done].
  change (obj_pop "status" (envelope_dump e)) with (envelope_dump e) in Eb. destruct (json_eqb _ _) eqn:Ej; [|done].
  cbn [negb] in Eb. case_bool_decide; [done|]. case_bool_decide; [done|]. case_bool_decide; [|done]. by exists it.
Qed.

(** C30. Nothing is launched that was not allowed: when an execution reaches
    the adapter, the fence of the envelope has not expired, its deadline has
    not passed, its source, tree, overlay and principal are the configured
    ones, its command line has no shell metacharacter and no secret; with a
    store, the job's intent was stored with this very envelope and unclaimed,
    and no result had been accepted; and a remote worker is the host the
    envelope names, with a workspace whose path lies in the allowed root. *)
Theorem launch_is_authorised cfg h a e now c : rc_calls (execute cfg h a e now c).1 ≠ rc_calls c →
  _fence_expired (ev_fence e) c = false ∧ now ≤ ev_deadline_utc e ∧ authorised cfg e
  ∧ (∀ st, rc_store c = Some st → ∃ it, j_intents (committed st) !! ev_job_id e = Some it ∧ ir_status it = J_INTENT
       ∧ json_eqb (JObj (obj_pop "status" (ir_payload it))) (JObj (envelope_dump e)) = true ∧ j_results (committed st) !! ev_job_id e = None)
  ∧ (remote_host a = true → machine_id a = Some (ev_host_id e) ∧ ∃ root, allowed_root e = Some root
       ∧ (components root `prefix_of` components (ev_workspace e)) ∧ (".." ∉ components (ev_workspace e))).
Proof.
  unfold execute. destruct (_fence_expired _ c); [done|]. destruct (Z.ltb_spec (ev_deadline_utc e) now); [done|].
  destruct (_authority_failures cfg e c) eqn:Ea; [|done]. apply authority_nil in Ea. intros Hc.
  cut ((∀ st, rc_store c = Some st → ∃ it, j_intents (committed st) !! ev_job_id e = Some it ∧ ir_status it = J_INTENT
       ∧ json_eqb (JObj (obj_pop "status" (ir_payload it))) (JObj (envelope_dump e)) = true ∧ j_results (committed st) !! ev_job_id e = None)
       ∧ is_ok (prepare_launch cfg h a e now) = true).
  { intros [Hst Hp]. split_and!; try done. exact (prepared_remote cfg h a e now Hp). }
  destruct (rc_store c) as [st|] eqn:Hst; [|split; [done|]].
  - revert Hc. case_bool_decide as Hr; [done|]. rewrite (with_store_some _ _ _ _ Hst).
    destruct (claim_launch (envelope_dump e) st) as [st1 r] eqn:Ec. cbn [fst snd]. destruct r as [[|]|]; try done.
    intros Hc. rewrite finish_calls in Hc. split; [|by apply (launch_calls cfg h a e now (set_store (Some st1) c))].
    intros st0 [= <-]. by apply claimed_intent in Ec.
  - rewrite finish_calls in Hc. by eapply launch_calls.
Qed.
