(* ===== verification/RemoteResults.v ===== *)
(** * RemoteResults: what an accepted result means

    Both ways of accepting a result, through the job store and in memory,
    hold it to the envelope it answers. *)
From S2P Require Import Prelude PyStd PyRe PyJson SchedulerDomain IsoInstant FleetJobs FleetSafety FleetLaunch RemoteJob Confinement RemoteSafety.
Local Open Scope Z_scope.

(** ** The checks of the store *)
Definition is_accepting (r : accept_reply) : bool := match r with A_rejected _ => false | _ => true end.
Definition flag (key : string) (o : object) : bool := match obj_get key o with Some j => json_truthy j | None => false end.
(** What the store has checked of a result it takes, new or replayed. *)
Record checked (stored res expected : object) (artifact : option string) (receipt : object) (now : Z) (db : jobs_db) : Prop := {
  ck_envelope : expected ≠ [] → json_eqb (JObj stored) (JObj expected) = true;
  ck_fence : get_text "fence" res = get_text "fence" stored;
  ck_live : j_expired db !! get_text "fence" stored = None;
  ck_deadline : ∃ deadline, fromisoformat (get_text "deadline_utc" stored) = Ok deadline ∧ now ≤ deadline;
  ck_exit : obj_get "exit_code" res ≫= int_of_json = Some 0;
  ck_contract : get_text "output_contract_sha256" stored ≠ "" →
    ∃ bytes, artifact = Some bytes ∧ digest_bytes bytes = get_text "output_contract_sha256" stored;
  ck_context : flag "require_context_consumption" stored = true → is_Some artifact ∧ flag "ok" receipt = true
    ∧ get_text "job_id" receipt = get_text "job_id" stored ∧ get_text "host_id" receipt = get_text "host_id" stored;
}.
Lemma check_artifact_ok stored res artifact res' : check_artifact stored res artifact = inr res' →
  (get_text "output_contract_sha256" stored ≠ "" → ∃ bytes, artifact = Some bytes ∧ digest_bytes bytes = get_text "output_contract_sha256" stored)
  ∧ (flag "require_context_consumption" stored = true → is_Some artifact).
Proof.
  unfold check_artifact. cbv zeta. fold (flag "require_context_consumption" stored).
  set (contract := get_text "output_contract_sha256" stored). destruct (str_truthy contract) eqn:Ec; cbn [orb].
  - destruct artifact as [bytes|]; [|done]. cbv iota. rewrite Ec. cbn [andb].
    destruct (String.eqb_spec (digest_bytes bytes) contract); [|done]. intros _. split; [by exists bytes|done].
  - assert (contract = "") as -> by (by destruct contract). destruct (flag _ _); [|by intros _].
    destruct artifact as [bytes|]; [|done]. intros _. by split.
Qed.
Lemma check_context_ok stored receipt : check_context stored receipt = None → flag "require_context_consumption" stored = true →
  flag "ok" receipt = true ∧ get_text "job_id" receipt = get_text "job_id" stored ∧ get_text "host_id" receipt = get_text "host_id" stored.
Proof.
  unfold check_context. fold (flag "require_context_consumption" stored) (flag "ok" receipt). intros E Hf. rewrite Hf in E.
  destruct (flag "ok" receipt); [|done]. destruct (String.eqb_spec (get_text "job_id" receipt) (get_text "job_id" stored)); [|done].
  by destruct (String.eqb_spec (get_text "host_id" receipt) (get_text "host_id" stored)).
Qed.
Lemma accept_body_checked sched j res e a c now db db' reply : accept_body sched j res e a c now db = Ok (db', Ok reply) →
  is_accepting reply = true → ∃ it, j_intents db !! j = Some it ∧ checked (obj_pop "status" (ir_payload it)) res (obj_pop "status" e) a c now db.
Proof.
  unfold accept_body. cbv zeta. intros E Hacc. assert (∀ reason, Ok (db, Ok (A_rejected reason)) ≠ Ok (db', Ok reply)) as Hr.
  { intros reason [= _ <-]. done. }
  destruct (j_intents db !! j) as [it|]; [|by apply Hr in E]. exists it. split; [done|]. set (stored := obj_pop "status" (ir_payload it)) in *.
  destruct (_ && _) eqn:Ee; [by apply Hr in E|]. destruct (String.eqb_spec (get_text "host_id" res) (get_text "host_id" stored)); [|by apply Hr in E].
  destruct (String.eqb_spec (get_text "fence" res) (get_text "fence" stored)); [|by apply Hr in E]. cbn [negb] in E.
  case_bool_decide as Ef; [by apply Hr in E|]. apply bind_ok in E as (deadline & Ed & E).
  destruct (Z.ltb_spec deadline now); [by apply Hr in E|]. destruct (obj_get "exit_code" res ≫= int_of_json) as [x|] eqn:Ex; [|by apply Hr in E].
  destruct (Z.eqb_spec x 0) as [->|]; [|by apply Hr in E]. cbn [negb] in E.
  destruct (check_artifact stored res a) as [|res'] eqn:Ea; [by apply Hr in E|]. apply check_artifact_ok in Ea as [Ea1 Ea2].
  destruct (check_context stored c) eqn:Ec; [by apply Hr in E|]. split; try done.
  - intros Hne. rewrite bool_decide_eq_false_2 in Ee by done. cbn in Ee. by apply negb_false_iff in Ee.
  - by apply eq_None_not_Some.
  - exists deadline. split; [done|lia].
  - intros Hf. split; [auto|]. by apply check_context_ok.
Qed.

(** ** Envelopes in the store *)
Lemma get_text_str key s o : obj_get key o = Some (JStr s) → get_text key o = s.
Proof. intros E. unfold get_text. rewrite E. cbn. by destruct s. Qed.
Lemma JOptStr_eq a b : json_eqb (JOptStr a) (JOptStr b) = true → a = b.
Proof. destruct a, b; cbn; try done. by intros ->%String.eqb_eq. Qed.
Lemma get_text_opt key o obj : obj_get key obj = Some (JOptStr o) → get_text key obj = default "" o.
Proof. intros E. unfold get_text. rewrite E. by destruct o as [[]|]. Qed.
(** Equal dumps are dumps of envelopes with the same fields. *)
Lemma dumps_agree e0 e : json_eqb (JObj (envelope_dump e0)) (JObj (envelope_dump e)) = true →
  ev_fence e0 = ev_fence e ∧ ev_job_id e0 = ev_job_id e ∧ ev_host_id e0 = ev_host_id e
  ∧ iso_body (ev_deadline_utc e0) +:+ "Z" = iso_body (ev_deadline_utc e) +:+ "Z"
  ∧ ev_output_contract_sha256 e0 = ev_output_contract_sha256 e ∧ ev_require_context_consumption e0 = ev_require_context_consumption e.
Proof.
  unfold envelope_dump. rewrite !json_instant_text. cbn -[iso_body String.append JOptStr JOptObj]. rewrite !andb_true_iff.
  intros (_ & Hj & Hh & _ & _ & _ & Hf & _ & _ & _ & _ & _ & _ & Hd & _ & _ & _ & _ & Hc & _ & _ & Hr & _).
  apply String.eqb_eq in Hj, Hh, Hf, Hd. apply JOptStr_eq in Hc. split_and!; try done.
  by destruct (ev_require_context_consumption e0), (ev_require_context_consumption e).
Qed.

(** ** Accepted results *)
Definition representable (us : Z) : Prop := MIN_INSTANT ≤ us ≤ MAX_INSTANT.
(** The result answers the envelope: on all points the envelope makes. *)
Definition answers (e : RemoteJobEnvelope) (r : RemoteJobResult) (now : Z) (artifact : option string) (receipt : object) : Prop :=
  re_job_id r = ev_job_id e ∧ re_host_id r = ev_host_id e ∧ re_fence r = ev_fence e ∧ re_exit_code r = 0 ∧ now ≤ ev_deadline_utc e
  ∧ (∀ contract, ev_output_contract_sha256 e = Some contract → contract ≠ "" → ∃ bytes, artifact = Some bytes ∧ digest_bytes bytes = contract)
  ∧ (ev_require_context_consumption e = true → is_Some artifact ∧ flag "ok" receipt = true).
Definition accepting (r : take_reply) : bool :=
  match r with T_rejected _ => false | T_stored r => is_accepting r | T_accepted _ _ => true end.
Lemma taken_in_memory e r now artifact receipt c : re_job_id r = ev_job_id e → re_host_id r = ev_host_id e →
  accepting (take_in_memory e r now artifact receipt c).2 = true →
  answers e r now artifact receipt ∧ ev_fence e ∉ rc_expired c.
Proof.
  intros Hj Hh. unfold take_in_memory. destruct (_fence_expired (ev_fence e) c) eqn:Ef; [done|]. cbn [orb].
  destruct (String.eqb_spec (re_fence r) (ev_fence e)) as [Hf|]; [|done]. cbn [negb]. destruct (Z.ltb_spec (ev_deadline_utc e) now); [done|].
  destruct (Z.eqb_spec (re_exit_code r) 0) as [Hx|]; [|done]. cbn [negb]. destruct ((_ || _) && _) eqn:Ea; [done|].
  destruct (match artifact with Some bytes => _ | None => _ end) eqn:Et; [done|].
  destruct (if ev_require_context_consumption e then _ else _) eqn:Er; [done|]. intros _. split.
  - unfold answers. split_and!; try done.
    + intros contract Ec Hc. rewrite Ec in *. destruct contract as [|ch s]; [done|]. cbn [truthy str_truthy orb andb] in *.
      destruct artifact as [bytes|]; [|done]. exists bytes. split; [done|]. apply negb_false_iff, bool_decide_eq_true_1 in Et. congruence.
    + intros Hr. rewrite Hr in *. rewrite orb_true_r in Ea. cbn [andb] in Ea. split.
      * destruct artifact; [by eexists|done].
      * unfold check_receipt in Er. cbv zeta in Er. fold (flag "ok" receipt) in Er. by destruct (flag "ok" receipt).
  - unfold _fence_expired in Ef. apply orb_false_iff in Ef as [Ef _]. by apply bool_decide_eq_false_1 in Ef.
Qed.
Lemma checked_answers e0 e r now artifact receipt db : checked (envelope_dump e0) (result_dump r) (envelope_dump e) artifact receipt now db →
  representable (ev_deadline_utc e0) → representable (ev_deadline_utc e) → re_job_id r = ev_job_id e → re_host_id r = ev_host_id e →
  answers e r now artifact receipt ∧ j_expired db !! ev_fence e = None.
Proof.
  intros [He Hf Hl Hd Hx Hc Hr] H0 H1 Hj Hh. specialize (He ltac:(done)). apply dumps_agree in He as (Ef & Ej & Eh & Ed & Ec & Er).
  rewrite (get_text_str "fence" (ev_fence e0) (envelope_dump e0)) in Hf, Hl by done. rewrite (get_text_str "fence" (re_fence r) (result_dump r)) in Hf by done.
  rewrite (get_text_str "deadline_utc" (iso_body (ev_deadline_utc e0) +:+ "Z")) in Hd by (rewrite <-json_instant_text; done).
  rewrite Ed in Hd. destruct Hd as (deadline & Hp & Hle). rewrite fromisoformat_dump in Hp by done. injection Hp as <-.
  assert (re_exit_code r = 0) as Hexit by (cbn in Hx; congruence).
  rewrite (get_text_opt "output_contract_sha256" (ev_output_contract_sha256 e0)), Ec in Hc by done.
  split; [|by rewrite <-Ef]. unfold answers. rewrite <-Ef. split_and!; try done.
  - intros contract E Hne. rewrite E in Hc. by apply Hc.
  - intros Hq. destruct Hr as (? & ? & _); [|done]. unfold flag. change (obj_get "require_context_consumption" (envelope_dump e0))
      with (Some (JBool (ev_require_context_consumption e0))). cbn. congruence.
Qed.

(** C29. A result the controller accepts, for the first time or as a replay,
    through the job store or in memory, answers its envelope: it is of the
    same job, host and fence, the fence has not expired, the exit code is 0,
    the deadline (written to the store as text and read back) has not passed,
    an output contract is met by the very bytes that were handed over, and a
    required context was consumed. *)
Theorem accepted_result_answers_envelope cfg sched e r host now artifact receipt c reply :
  representable (ev_deadline_utc e) →
  (∀ st it, rc_store c = Some st → j_intents (committed st) !! ev_job_id e = Some it →
     ∃ e0, ir_payload it = envelope_dump e0 ∧ representable (ev_deadline_utc e0)) →
  (accept cfg sched e r host now artifact receipt c).2 = Ok reply → accepting reply = true →
  answers e r now artifact receipt ∧ re_host_id r = host
  ∧ match rc_store c with Some st => j_expired (committed st) !! ev_fence e = None | None => ev_fence e ∉ rc_expired c end.
Proof.
  intros H1 Hst E Hacc. unfold accept in E. destruct (String.eqb_spec (re_job_id r) (ev_job_id e)) as [Hj|]; [|by injection E as <-].
  destruct (String.eqb_spec (re_host_id r) host) as [Hh|]; [|by injection E as <-].
  destruct (String.eqb_spec (re_host_id r) (ev_host_id e)) as [Hh'|]; [|by injection E as <-]. cbn [negb orb] in E.
  destruct (rc_store c) as [st|] eqn:Es.
  - destruct (accept_result sched (result_dump r) (envelope_dump e) artifact receipt now st) as [st' x] eqn:Ea. cbn [snd] in E.
    destruct x as [x|]; [|done]. injection E as <-. apply accept_result_ok in Ea as [[_ ->]|(_ & db & Eb & _)]; [done|].
    rewrite (get_text_str "job_id" (re_job_id r)), Hj in Eb by done. apply accept_body_checked in Eb as (it & Ei & Hck); [|done].
    destruct (Hst st it eq_refl Ei) as (e0 & Ep & H0). rewrite Ep in Hck.
    destruct (checked_answers e0 e r now artifact receipt (committed st) Hck H0 H1 Hj Hh') as [Ha Hf]. done.
  - destruct (require_intent cfg); [by injection E as <-|].
    pose proof (taken_in_memory e r now artifact receipt c Hj Hh') as Hm.
    destruct (take_in_memory e r now artifact receipt c) as [c' x]. injection E as <-. destruct (Hm Hacc) as [Ha Hf]. done.
Qed.

(** ** a job from intent to result

    A concrete job for a remote worker: the theorems about the job store and
    the controller hold of it, and what a malformed result does. *)
Module Scenarios.
Ltac computed := match goal with |- _ = ?b => vm_cast_no_check (eq_refl b) end.

(** ** The job *)
Definition t0 : Z := 1750000000000000.
Definition forty : string := "0123456789012345678901234567890123456789".
Definition report : string := "junit".
Definition contract : string := Eval vm_compute in digest_bytes report.
Definition job : RemoteJobEnvelope :=
  mkEnvelope "J1" COMFY_MACHINE_ID "profile" "svc" "L1" "F1" forty forty "ov" "in" ["python"; "-m"; "pytest"]
    (str_join bs ["c:"; "users"; "windows 11"; "projectpipeline"; "jobs"; "J1"]) (t0 + 60000000) 2 512 "corr" None (Some contract) None None
    false [] None "PROJECT-PIPELINE" IDEMPOTENT_RESULT.
Definition envelope : object := Eval vm_compute in envelope_dump job.
Definition new_store : job_store := mkJobStore empty_jobs None.
Definition prepared : job_store := Eval vm_compute in
  run_ops new_store [OpPersist (envelope_dump job) t0; OpLease "L1" "F1" t0 3600].
Definition payload : object :=
  [("exit_code", JInt 0); ("stdout_sha256", JStr "so"); ("stderr_sha256", JStr "se"); ("payload_sha256", JStr "out")].
Definition worker : DispatchAdapter := mkAdapter true (Some COMFY_MACHINE_ID) (λ _, Ad_payload payload).
Definition lost_worker : DispatchAdapter := mkAdapter true (Some COMFY_MACHINE_ID) (λ _, Ad_os_error).
Definition this_host : host_machine :=
  mkHost false (λ _ _, raise ValueError "workspace_unresolvable") (λ _, false) (λ _ _ _, Ok (None, None)).
Definition config : controller_config := mkControllerConfig true (Some forty) (Some forty) None None None.
Definition idle : controller := mkController (Some prepared) ∅ ∅ [].
Definition ran := Eval vm_compute in execute config this_host worker job t0 idle.
Definition the_result : RemoteJobResult := mkRemoteResult "J1" COMFY_MACHINE_ID "F1" 0 "so" "se" "out" None.
Example job_executed : match ran.2 with Ok (X_executed r _ _) => r = the_result | _ => False end ∧ rc_calls ran.1 = [("J1", Ad_payload payload)].
Proof. by split. Qed.

(** ** Launches *)
Lemma launch_is_authorised_witness :
  _fence_expired "F1" idle = false ∧ t0 ≤ ev_deadline_utc job ∧ authorised config job
  ∧ (∀ st, rc_store idle = Some st → ∃ it, j_intents (committed st) !! "J1" = Some it ∧ ir_status it = J_INTENT
       ∧ json_eqb (JObj (obj_pop "status" (ir_payload it))) (JObj (envelope_dump job)) = true ∧ j_results (committed st) !! "J1" = None)
  ∧ (remote_host worker = true → machine_id worker = Some (ev_host_id job) ∧ ∃ root, allowed_root job = Some root
       ∧ (components root `prefix_of` components (ev_workspace job)) ∧ (".." ∉ components (ev_workspace job))).
Proof.
  apply (launch_is_authorised config this_host worker job t0 idle).
  assert (rc_calls (execute config this_host worker job t0 idle).1 = [("J1", Ad_payload payload)]) as -> by computed. done.
Defined.
Definition retries : list fleet_op :=
  [F_execute config this_host lost_worker job t0; F_execute config this_host worker job (t0 + 1); F_store OpRestart;
   F_execute config this_host worker job (t0 + 2)].
Lemma job_runs_at_most_once_witness :
  (length (launches "J1" (run_fleet idle retries)) ≤ 1)%nat ∧ launches "J1" (run_fleet idle retries) = [("J1", Ad_os_error)].
Proof.
  split; [|computed]. apply (job_runs_at_most_once prepared retries "J1"). repeat constructor.
Defined.

(** ** Results *)
Definition running : job_store := Eval vm_compute in default new_store (rc_store ran.1).
Definition taken := Eval vm_compute in accept_result None (result_dump the_result) (envelope_dump job) (Some report) [] (t0 + 5) running.
Definition accepted_payload : object := Eval vm_compute in match taken.2 with Ok (A_accepted r) => r | _ => [] end.
Definition later : list job_op :=
  [OpMark "J1" J_UNKNOWN_OUTCOME; OpAccept None (obj_set "output_sha256" (JStr "other") (result_dump the_result)) [] (Some report) [] (t0 + 6);
   OpFence "F1" (t0 + 7); OpRestart; OpClaim (envelope_dump job)].
Lemma result_accepted_once_witness :
  (get_result "J1" (run_ops taken.1 later)).2 = Ok (Some accepted_payload)
  ∧ ∀ sched' res' e' a' c' now', get_text "job_id" res' = "J1" → ∀ r',
      (accept_result sched' res' e' a' c' now' (run_ops taken.1 later)).2 ≠ Ok (A_accepted r')
      ∧ ((accept_result sched' res' e' a' c' now' (run_ops taken.1 later)).2 = Ok (A_duplicate r') → r' = accepted_payload).
Proof.
  apply (result_accepted_once None (result_dump the_result) (envelope_dump job) (Some report) [] (t0 + 5) running taken.1 accepted_payload later).
  computed.
Defined.
Definition story : list job_op :=
  [OpPersist (envelope_dump job) t0; OpLease "L1" "F1" t0 3600; OpClaim (envelope_dump job); OpMark "J1" J_RUNNING;
   OpAccept None (result_dump the_result) (envelope_dump job) (Some report) [] (t0 + 5)].
Lemma stored_results_are_entitled_witness :
  ∃ it row, j_intents (visible (run_ops new_store story)) !! "J1" = Some it ∧ rr_payload row = accepted_payload ∧ entitled it row.
Proof. apply (stored_results_are_entitled story "J1" accepted_payload); [by repeat constructor|computed]. Defined.
Lemma accepted_result_answers_envelope_witness :
  answers job the_result (t0 + 5) (Some report) [] ∧ re_host_id the_result = COMFY_MACHINE_ID
  ∧ j_expired (committed running) !! "F1" = None.
Proof.
  apply (accepted_result_answers_envelope config None job the_result COMFY_MACHINE_ID (t0 + 5) (Some report) []
           (mkController (Some running) ∅ ∅ []) (T_stored (A_accepted accepted_payload))).
  - by vm_compute.
  - intros st it [= <-] E. exists job. split; [|by vm_compute].
    assert (j_intents (committed running) !! "J1" = Some (mkIntent (ir_columns it) envelope (ir_status it) (ir_created it))) as E'.
    { change (j_intents (committed running) !! ev_job_id job) with (j_intents (committed running) !! "J1") in E. rewrite E.
      vm_compute in E. injection E as <-. done. }
    change (j_intents (committed running) !! ev_job_id job) with (j_intents (committed running) !! "J1") in E.
    rewrite E in E'. injection E' as E'. rewrite E'. computed.
  - computed.
  - done.
Defined.

(** A result whose digest of the output is missing. *)
Definition malformed : object := obj_pop "output_sha256" (result_dump the_result).
Definition wedge := Eval vm_compute in accept_result None malformed [] (Some report) [] (t0 + 5) running.
Definition afterwards : list job_op := [OpAccept None (result_dump the_result) [] (Some report) [] (t0 + 6); OpFence "F1" (t0 + 7)].
Lemma interrupted_accept_wedges_store_witness :
  committed (run_ops wedge.1 afterwards) = committed running
  ∧ (∀ e', is_ok (claim_launch e' (run_ops wedge.1 afterwards)).2 = false)
  ∧ (∀ j proof, is_ok (reconcile_unresolved j proof (run_ops wedge.1 afterwards)).2 = false).
Proof.
  apply (interrupted_accept_wedges_store None malformed [] (Some report) [] (t0 + 5) running wedge.1 (Exn KeyError "output_sha256") afterwards);
    [done|by vm_compute|computed|by repeat constructor].
Defined.
End Scenarios.
