(* ===== verification/SecurityDomain.v ===== *)
(** * SecurityDomain: [domain/security.py] and [contracts/envelopes.py]

    Identities, roles, grants, approvals, policy decisions, egress and secret
    leases, with their validators; the action intents they judge. *)
From S2P Require Import Prelude PyStd PyRe PyJson Identifiers TaskState ControlDomain SchedulerDomain.
From Stdlib Require Import Ascii.
Local Open Scope Z_scope.

Definition SECURITY_ID : re :=
  Cat (alts (lit <$> ["IDENT"; "ROLE"; "GRANT"; "APPROVAL"; "POLICY"; "EGRESS"; "SREF"; "SLEASE"; "SAUDIT"; "SBOM"; "SCOMP"; "PROV";
                      "INTEGRITY"; "SCANEVID"; "SGATE"; "SELFCHG"; "ROOTTRUST"])) (Cat (lit "-") (times 20 hex_upper)).
Definition security_identifier (prefix : string) (parts : list string) : result string := prefixed_identifier "security" prefix parts.
Definition security_fingerprint (j : json) : string := json_fingerprint j.
Definition carries_security_id (prefix id message : string) : result () :=
  raise_if (negb (valid_prefixed_id SECURITY_ID prefix id)) ValueError message.

(** ** Enumerations *)
Inductive IdentityKind := HUMAN | AGENT | SERVICE | ADAPTER.
#[export] Instance IdentityKind_eq_dec : EqDecision IdentityKind.
Proof. solve_decision. Defined.
Inductive IdentityState := ID_ACTIVE | ID_SUSPENDED | ID_REVOKED.
#[export] Instance IdentityState_eq_dec : EqDecision IdentityState.
Proof. solve_decision. Defined.
Inductive AuthorityCapability :=
  | AC_READ | AC_PROPOSE | AC_APPROVE | AC_MUTATE | AC_MERGE | AC_DEPLOY | AC_SPEND | AC_EXTERNAL_MODEL | AC_ACCESS_SECRET
  | AC_MODIFY_INSTRUCTIONS | AC_MODIFY_POLICY | AC_COMPLETE_PROJECT | AC_EMERGENCY.
#[export] Instance AuthorityCapability_eq_dec : EqDecision AuthorityCapability.
Proof. solve_decision. Defined.
Definition AuthorityCapability_value (c : AuthorityCapability) : string :=
  match c with
  | AC_READ => "READ" | AC_PROPOSE => "PROPOSE" | AC_APPROVE => "APPROVE" | AC_MUTATE => "MUTATE" | AC_MERGE => "MERGE"
  | AC_DEPLOY => "DEPLOY" | AC_SPEND => "SPEND" | AC_EXTERNAL_MODEL => "EXTERNAL_MODEL" | AC_ACCESS_SECRET => "ACCESS_SECRET"
  | AC_MODIFY_INSTRUCTIONS => "MODIFY_INSTRUCTIONS" | AC_MODIFY_POLICY => "MODIFY_POLICY"
  | AC_COMPLETE_PROJECT => "COMPLETE_PROJECT" | AC_EMERGENCY => "EMERGENCY" end.
Inductive ApprovalDecision := DEC_APPROVED | DEC_DENIED.
#[export] Instance ApprovalDecision_eq_dec : EqDecision ApprovalDecision.
Proof. solve_decision. Defined.
Inductive PolicyDisposition := PD_ALLOW | PD_DENY | PD_REQUIRE_APPROVAL | PD_CONSTRAIN.
#[export] Instance PolicyDisposition_eq_dec : EqDecision PolicyDisposition.
Proof. solve_decision. Defined.
Definition PolicyDisposition_value (d : PolicyDisposition) : string :=
  match d with PD_ALLOW => "ALLOW" | PD_DENY => "DENY" | PD_REQUIRE_APPROVAL => "REQUIRE_APPROVAL" | PD_CONSTRAIN => "CONSTRAIN" end.
Inductive DataClassification := DC_PUBLIC | DC_INTERNAL | DC_CONFIDENTIAL | DC_SECRET | DC_LOCAL_ONLY.
#[export] Instance DataClassification_eq_dec : EqDecision DataClassification.
Proof. solve_decision. Defined.
Definition DataClassification_value (d : DataClassification) : string :=
  match d with DC_PUBLIC => "PUBLIC" | DC_INTERNAL => "INTERNAL" | DC_CONFIDENTIAL => "CONFIDENTIAL" | DC_SECRET => "SECRET"
  | DC_LOCAL_ONLY => "LOCAL_ONLY" end.
Inductive SecretBackendKind := SB_ENVIRONMENT | SB_FILE | SB_SOPS | SB_AGE | SB_OPENBAO.
#[export] Instance SecretBackendKind_eq_dec : EqDecision SecretBackendKind.
Proof. solve_decision. Defined.
Definition SecretBackendKind_value (k : SecretBackendKind) : string :=
  match k with SB_ENVIRONMENT => "ENVIRONMENT" | SB_FILE => "FILE" | SB_SOPS => "SOPS" | SB_AGE => "AGE" | SB_OPENBAO => "OPENBAO" end.
Inductive RiskLevel := RISK_LOW | RISK_MEDIUM | RISK_HIGH | RISK_CRITICAL.
#[export] Instance RiskLevel_eq_dec : EqDecision RiskLevel.
Proof. solve_decision. Defined.
Definition RiskLevel_value (r : RiskLevel) : string :=
  match r with RISK_LOW => "LOW" | RISK_MEDIUM => "MEDIUM" | RISK_HIGH => "HIGH" | RISK_CRITICAL => "CRITICAL" end.
Inductive ApprovalState := AS_NOT_REQUIRED | AS_REQUIRED | AS_APPROVED | AS_DENIED.
#[export] Instance ApprovalState_eq_dec : EqDecision ApprovalState.
Proof. solve_decision. Defined.
Definition ApprovalState_value (s : ApprovalState) : string :=
  match s with AS_NOT_REQUIRED => "NOT_REQUIRED" | AS_REQUIRED => "REQUIRED" | AS_APPROVED => "APPROVED" | AS_DENIED => "DENIED" end.

(** ** Records *)
Record SecurityIdentity := mkIdentity {
  si_identity_id : string; si_kind : IdentityKind; si_display_name : string; si_principal : string; si_state : IdentityState;
  si_project_ids : list string; si_environment_scopes : list string; si_role_ids : list string; si_metadata : gmap string string;
  si_created_at_utc : Z;
}.
#[export] Instance SecurityIdentity_eq_dec : EqDecision SecurityIdentity.
Proof. solve_decision. Defined.
#[export] Instance SecurityIdentity_model : Model SecurityIdentity := λ i,
  _ ← raise_if (negb (min_length 1 (si_display_name i) && max_length 200 (si_display_name i))) ValidationError "display_name";
  _ ← raise_if (negb (min_length 1 (si_principal i) && max_length 512 (si_principal i))) ValidationError "principal";
  carries_security_id "IDENT-" (si_identity_id i) "invalid security identity id".
Record RoleDefinition := mkRole {
  ro_role_id : string; ro_name : string; ro_capabilities : list AuthorityCapability; ro_allowed_target_prefixes : list string;
  ro_allowed_environments : list string; ro_max_risk : RiskLevel; ro_emergency : bool;
}.
#[export] Instance RoleDefinition_eq_dec : EqDecision RoleDefinition.
Proof. solve_decision. Defined.
#[export] Instance RoleDefinition_model : Model RoleDefinition := λ r,
  _ ← raise_if (negb (min_length 2 (ro_name r) && max_length 100 (ro_name r))) ValidationError "name";
  _ ← carries_security_id "ROLE-" (ro_role_id r) "invalid role id";
  _ ← raise_if (bool_decide (ro_capabilities r = [])) ValueError "role requires at least one capability";
  raise_if (ro_emergency r && negb (bool_decide (AC_EMERGENCY ∈ ro_capabilities r))) ValueError
    "emergency role requires EMERGENCY capability".
Record CapabilityGrant := mkGrant {
  gr_grant_id : string; gr_identity_id : string; gr_capability : AuthorityCapability; gr_project_id : string; gr_target_prefix : string;
  gr_environment : string; gr_operation_class : string; gr_issued_by : string; gr_issued_at_utc : Z; gr_expires_at_utc : Z;
  gr_revoked_at_utc : option Z;
}.
#[export] Instance CapabilityGrant_eq_dec : EqDecision CapabilityGrant.
Proof. solve_decision. Defined.
#[export] Instance CapabilityGrant_model : Model CapabilityGrant := λ g,
  _ ← carries_security_id "GRANT-" (gr_grant_id g) "invalid grant id";
  _ ← raise_if (gr_expires_at_utc g <=? gr_issued_at_utc g) ValueError "grant must expire after issuance";
  raise_if (match gr_revoked_at_utc g with Some r => r <? gr_issued_at_utc g | None => false end) ValueError
    "grant revocation cannot precede issuance".
Definition grant_active_at (g : CapabilityGrant) (when : Z) : bool :=
  bool_decide (gr_revoked_at_utc g = None) && (gr_issued_at_utc g <=? when) && (when <? gr_expires_at_utc g).
Record ApprovalRecord := mkApproval {
  ap_approval_id : string; ap_action_id : string; ap_proposer_identity_id : string; ap_approver_identity_id : string;
  ap_capability : AuthorityCapability; ap_decision : ApprovalDecision; ap_reason : string; ap_correlation_id : string;
  ap_decided_at_utc : Z;
}.
#[export] Instance ApprovalRecord_model : Model ApprovalRecord := λ a,
  _ ← raise_if (negb (min_length 3 (ap_reason a) && max_length 2000 (ap_reason a))) ValidationError "reason";
  _ ← carries_security_id "APPROVAL-" (ap_approval_id a) "invalid approval id";
  raise_if (String.eqb (ap_proposer_identity_id a) (ap_approver_identity_id a)) ValueError
    "approval identity must be independent from proposer".
Record PolicyDecision := mkDecision {
  pd_decision_id : string; pd_policy_version : string; pd_action_id : string; pd_actor_identity_id : string;
  pd_capability : AuthorityCapability; pd_disposition : PolicyDisposition; pd_reasons : list string; pd_constraints : list (string * json);
  pd_approval_required : bool; pd_input_fingerprint : string;
}.
#[export] Instance PolicyDecision_model : Model PolicyDecision := λ d,
  _ ← raise_if (negb (is_hex64 (pd_input_fingerprint d))) ValidationError "input_fingerprint";
  _ ← carries_security_id "POLICY-" (pd_decision_id d) "invalid policy decision id";
  _ ← raise_if (bool_decide (pd_reasons d = [])) ValueError "policy decision requires reasons";
  raise_if (bool_decide (pd_disposition d = PD_REQUIRE_APPROVAL) && negb (pd_approval_required d)) ValueError
    "require-approval disposition must mark approval_required".
Record EgressRequest := mkEgressRequest {
  er_request_id : string; er_actor_identity_id : string; er_project_id : string; er_destination : string; er_provider_id : string;
  er_classification : DataClassification; er_content_fingerprint : string; er_context_keys : list string; er_contains_secret : bool;
  er_contains_untrusted_instructions : bool;
}.
#[export] Instance EgressRequest_model : Model EgressRequest := λ r,
  _ ← raise_if (negb (is_hex64 (er_content_fingerprint r))) ValidationError "content_fingerprint";
  carries_security_id "EGRESS-" (er_request_id r) "invalid egress request id".
Record EgressDecision := mkEgressDecision {
  ed_decision_id : string; ed_request_id : string; ed_disposition : PolicyDisposition; ed_allowed_context_keys : list string;
  ed_redacted_context_keys : list string; ed_reasons : list string;
}.
#[export] Instance EgressDecision_model : Model EgressDecision := λ d,
  _ ← carries_security_id "POLICY-" (ed_decision_id d) "invalid egress decision id";
  raise_if (bool_decide (ed_reasons d = [])) ValueError "egress decision requires reasons".
Record SecretCapabilityReference := mkSecretRef {
  sr_secret_ref_id : string; sr_logical_name : string; sr_backend : SecretBackendKind; sr_reference : string;
  sr_classification : DataClassification; sr_allowed_operations : list string; sr_allowed_target_prefixes : list string;
  sr_rotation_hint : option string;
}.
#[export] Instance SecretCapabilityReference_eq_dec : EqDecision SecretCapabilityReference.
Proof. solve_decision. Defined.
#[export] Instance SecretCapabilityReference_model : Model SecretCapabilityReference := λ r,
  _ ← raise_if (negb (min_length 1 (sr_logical_name r) && max_length 200 (sr_logical_name r))) ValidationError "logical_name";
  _ ← raise_if (negb (min_length 3 (sr_reference r) && max_length 1000 (sr_reference r))) ValidationError "reference";
  _ ← carries_security_id "SREF-" (sr_secret_ref_id r) "invalid secret reference id";
  _ ← raise_if (negb (bool_decide (sr_classification r ∈ [DC_SECRET; DC_LOCAL_ONLY]))) ValueError
        "secret capability must be SECRET or LOCAL_ONLY";
  raise_if (bool_decide (sr_allowed_operations r = []) || bool_decide (sr_allowed_target_prefixes r = [])) ValueError
    "secret capability requires operation and target scope".
Record SecretLease := mkSecretLease {
  sl_lease_id : string; sl_secret_ref_id : string; sl_identity_id : string; sl_project_id : string; sl_target : string;
  sl_operation : string; sl_issued_by : string; sl_issued_at_utc : Z; sl_expires_at_utc : Z; sl_revoked_at_utc : option Z;
  sl_materialization_count : Z;
}.
#[export] Instance SecretLease_model : Model SecretLease := λ l,
  _ ← raise_if (sl_materialization_count l <? 0) ValidationError "materialization_count";
  _ ← carries_security_id "SLEASE-" (sl_lease_id l) "invalid secret lease id";
  raise_if (sl_expires_at_utc l <=? sl_issued_at_utc l) ValueError "secret lease must expire after issuance".
Definition lease_active_at (l : SecretLease) (when : Z) : bool :=
  bool_decide (sl_revoked_at_utc l = None) && (sl_issued_at_utc l <=? when) && (when <? sl_expires_at_utc l).

(** ** Action intents: [contracts/envelopes.py] *)
Definition is_identifier_char (c : ascii) : bool :=
  is_alpha c || is_digit c || Ascii.eqb c "." || Ascii.eqb c "_" || Ascii.eqb c ":" || Ascii.eqb c "-".
Definition Identifier (s : string) : bool :=
  min_length 3 s && max_length 191 s && fullmatch (Cat (Cls (λ c, is_alpha c || is_digit c)) (Star (Cls is_identifier_char))) s.
Record ActionIntent := mkActionIntent {
  ai_action_id : string; ai_actor_id : string; ai_authority : string; ai_target : string; ai_operation : string; ai_scope : list string;
  ai_risk : RiskLevel; ai_idempotency_key : string; ai_approval_state : ApprovalState; ai_correlation_id : string;
}.
#[export] Instance ActionIntent_model : Model ActionIntent := λ a,
  _ ← raise_if (negb (forallb Identifier [ai_action_id a; ai_actor_id a; ai_authority a; ai_operation a; ai_correlation_id a]))
        ValidationError "Identifier";
  _ ← raise_if (negb (min_length 1 (ai_target a) && max_length 512 (ai_target a))) ValidationError "target";
  raise_if (negb (min_length 8 (ai_idempotency_key a) && max_length 256 (ai_idempotency_key a))) ValidationError "idempotency_key".
Definition intent_json (a : ActionIntent) : json :=
  JObj [("schema_version", JStr "1.0.0"); ("action_id", JStr (ai_action_id a)); ("actor_id", JStr (ai_actor_id a));
        ("authority", JStr (ai_authority a)); ("target", JStr (ai_target a)); ("operation", JStr (ai_operation a));
        ("scope", JList (JStr <$> ai_scope a)); ("risk", JStr (RiskLevel_value (ai_risk a)));
        ("idempotency_key", JStr (ai_idempotency_key a)); ("approval_state", JStr (ApprovalState_value (ai_approval_state a)));
        ("correlation_id", JStr (ai_correlation_id a))].
