(* ===== verification/SecurityPolicy.v ===== *)
(** * SecurityPolicy: [security/identity.py], [security/policy.py], [security/secrets.py]

    Who may do what, which actions need approval, and who gets a secret.  The
    instants that the source takes from the clock are arguments. *)
From S2P Require Import Prelude PyStd PyRe PyJson Identifiers TaskState ControlDomain SchedulerDomain SecurityDomain.
From Stdlib Require Import Ascii.
Local Open Scope Z_scope.

(** ** Identities and authority *)
Definition RISK (r : RiskLevel) : Z := match r with RISK_LOW => 0 | RISK_MEDIUM => 1 | RISK_HIGH => 2 | RISK_CRITICAL => 3 end.
Definition new_default_role (name : string) (caps : list AuthorityCapability) (max_risk : RiskLevel) (emergency : bool) : result RoleDefinition :=
  role_id ← security_identifier "ROLE" [name];
  new (mkRole role_id name caps [] [] max_risk emergency).
Definition default_roles : result (list RoleDefinition) :=
  observer ← new_default_role "observer" [AC_READ] RISK_CRITICAL false;
  worker ← new_default_role "worker" [AC_READ; AC_PROPOSE] RISK_HIGH false;
  operator ← new_default_role "operator"
    [AC_READ; AC_PROPOSE; AC_APPROVE; AC_MUTATE; AC_MERGE; AC_SPEND; AC_EXTERNAL_MODEL; AC_ACCESS_SECRET] RISK_HIGH false;
  security_admin ← new_default_role "security-admin"
    [AC_READ; AC_APPROVE; AC_MUTATE; AC_ACCESS_SECRET; AC_MODIFY_POLICY; AC_MODIFY_INSTRUCTIONS; AC_DEPLOY] RISK_CRITICAL false;
  completion ← new_default_role "completion-authority" [AC_READ; AC_APPROVE; AC_COMPLETE_PROJECT] RISK_CRITICAL false;
  emergency ← new_default_role "emergency-operator" [AC_READ; AC_APPROVE; AC_EMERGENCY] RISK_CRITICAL true;
  Ok [observer; worker; operator; security_admin; completion; emergency].
Record IdentityAuthority := mkAuthority {
  au_identities : gmap string SecurityIdentity; au_roles : gmap string RoleDefinition; au_grants : gmap string CapabilityGrant;
}.
Definition register_identity (i : SecurityIdentity) (a : IdentityAuthority) : result IdentityAuthority :=
  _ ← raise_if (match au_identities a !! si_identity_id i with Some old => bool_decide (old ≠ i) | None => false end) ValueError
        "security identity id collision";
  Ok (mkAuthority (<[si_identity_id i := i]> (au_identities a)) (au_roles a) (au_grants a)).
Definition register_role (r : RoleDefinition) (a : IdentityAuthority) : result IdentityAuthority :=
  _ ← raise_if (match au_roles a !! ro_role_id r with Some old => bool_decide (old ≠ r) | None => false end) ValueError "role id collision";
  Ok (mkAuthority (au_identities a) (<[ro_role_id r := r]> (au_roles a)) (au_grants a)).
Definition add_grant (g : CapabilityGrant) (a : IdentityAuthority) : result IdentityAuthority :=
  _ ← raise_if (match au_grants a !! gr_grant_id g with Some old => bool_decide (old ≠ g) | None => false end) ValueError
        "capability grant id collision";
  _ ← raise_if (bool_decide (au_identities a !! gr_identity_id g = None)) ValueError "capability grant identity is unknown";
  Ok (mkAuthority (au_identities a) (au_roles a) (<[gr_grant_id g := g]> (au_grants a))).
(** [target == prefix or target.startswith(prefix.rstrip("/") + "/")]. *)
Definition under_prefix (target prefix : string) : bool :=
  String.eqb target prefix || str_startswith (str_rstrip (Ascii.eqb "/") prefix +:+ "/") target.
Definition _target_allowed (prefixes : list string) (target : string) : bool :=
  bool_decide (prefixes = []) || existsb (under_prefix target) prefixes.
Definition role_allows (a : IdentityAuthority) (cap : AuthorityCapability) (target environment : string) (risk : RiskLevel) (role_id : string) : bool :=
  match au_roles a !! role_id with
  | None => false
  | Some role =>
      bool_decide (cap ∈ ro_capabilities role) && negb (RISK (ro_max_risk role) <? RISK risk)
      && (bool_decide (ro_allowed_environments role = []) || str_in environment (ro_allowed_environments role))
      && _target_allowed (ro_allowed_target_prefixes role) target
  end.
Definition grant_allows (identity_id : string) (cap : AuthorityCapability) (project_id target environment operation : string) (when : Z)
    (g : CapabilityGrant) : bool :=
  String.eqb (gr_identity_id g) identity_id && bool_decide (gr_capability g = cap) && String.eqb (gr_project_id g) project_id
  && String.eqb (gr_environment g) environment && String.eqb (gr_operation_class g) operation && grant_active_at g when
  && _target_allowed [gr_target_prefix g] target.
Definition authorize (a : IdentityAuthority) (identity_id : string) (cap : AuthorityCapability)
    (project_id target environment operation : string) (risk : RiskLevel) (when : Z) : bool :=
  match au_identities a !! identity_id with
  | None => false
  | Some i =>
      if negb (bool_decide (si_state i = ID_ACTIVE)) then false
      else if negb (bool_decide (si_project_ids i = [])) && negb (str_in project_id (si_project_ids i)) then false
      else if negb (bool_decide (si_environment_scopes i = [])) && negb (str_in environment (si_environment_scopes i)) then false
      else if existsb (role_allows a cap target environment risk) (si_role_ids i) then true
      else existsb (grant_allows identity_id cap project_id target environment operation when) ((map_to_list (au_grants a)).*2)
  end.
Definition validate_approval (a : IdentityAuthority) (approval : ApprovalRecord) (project_id target environment : string) (risk : RiskLevel) : bool :=
  if negb (bool_decide (ap_decision approval = DEC_APPROVED)) then false
  else authorize a (ap_approver_identity_id approval) AC_APPROVE project_id target environment
         (AuthorityCapability_value (ap_capability approval)) risk (ap_decided_at_utc approval).

(** ** Policy *)
Definition HIGH_IMPACT : list AuthorityCapability :=
  [AC_MERGE; AC_DEPLOY; AC_SPEND; AC_EXTERNAL_MODEL; AC_ACCESS_SECRET; AC_MODIFY_INSTRUCTIONS; AC_MODIFY_POLICY; AC_COMPLETE_PROJECT;
   AC_EMERGENCY].
Definition capability_words : list (list string * AuthorityCapability) :=
  [(["modify_policy"; "policy_change"], AC_MODIFY_POLICY); (["instruction"; "governing_instruction"], AC_MODIFY_INSTRUCTIONS);
   (["complete"; "completion"], AC_COMPLETE_PROJECT); (["deploy"; "release"], AC_DEPLOY); (["merge"], AC_MERGE);
   (["spend"; "purchase"; "budget"], AC_SPEND); (["external_model"; "provider"; "llm"], AC_EXTERNAL_MODEL);
   (["secret"; "credential"], AC_ACCESS_SECRET); (["approve"], AC_APPROVE); (["read"; "get"; "list"; "inspect"], AC_READ);
   (["propose"; "plan"], AC_PROPOSE)].
Definition classify_action_capability (operation : string) : AuthorityCapability :=
  let normalized := str_replace_char ":" "_" (str_replace_char "-" "_" (str_lower operation)) in
  match List.find (λ wc, existsb (λ w, search (lit w) normalized) wc.1) capability_words with
  | Some (_, cap) => cap
  | None => AC_MUTATE
  end.
Definition policy_version : string := "SECURITY-POLICY-1.0.0".
(** [approved] of [evaluate_action]. *)
Definition approval_fits (a : IdentityAuthority) (intent : ActionIntent) (cap : AuthorityCapability) (project_id environment : string)
    (approval : option ApprovalRecord) : bool :=
  match approval with
  | None => false
  | Some ap =>
      String.eqb (ap_action_id ap) (ai_action_id intent) && String.eqb (ap_proposer_identity_id ap) (ai_actor_id intent)
      && bool_decide (ap_capability ap = cap) && validate_approval a ap project_id (ai_target intent) environment (ai_risk intent)
  end.
Definition action_disposition (a : IdentityAuthority) (intent : ActionIntent) (project_id environment : string)
    (approval : option ApprovalRecord) (now : Z) : PolicyDisposition * string :=
  let cap := classify_action_capability (ai_operation intent) in
  if negb (authorize a (ai_actor_id intent) cap project_id (ai_target intent) environment (AuthorityCapability_value cap) (ai_risk intent) now)
  then (PD_DENY, "actor lacks least-privilege authority for requested capability, scope, environment, or risk")
  else if bool_decide (cap ∈ HIGH_IMPACT) then
    if negb (approval_fits a intent cap project_id environment approval) then
      (PD_REQUIRE_APPROVAL, "high-impact action requires independent authorized approval")
    else if negb (bool_decide (ai_approval_state intent = AS_APPROVED)) then
      (PD_REQUIRE_APPROVAL, "action intent does not record approved state")
    else (PD_ALLOW, "least-privilege authority and independent approval are satisfied")
  else (PD_ALLOW, "least-privilege authority is satisfied").
Definition evaluate_action (a : IdentityAuthority) (intent : ActionIntent) (project_id environment : string)
    (approval : option ApprovalRecord) (now : Z) : result PolicyDecision :=
  let cap := classify_action_capability (ai_operation intent) in
  let input_doc := JObj [("action", intent_json intent); ("project_id", JStr project_id); ("environment", JStr environment);
                         ("capability", JStr (AuthorityCapability_value cap)); ("approval_id", JOptStr (ap_approval_id <$> approval))] in
  let '(disposition, reason) := action_disposition a intent project_id environment approval now in
  decision_id ← security_identifier "POLICY" [ai_action_id intent; policy_version; PolicyDisposition_value disposition];
  new (mkDecision decision_id policy_version (ai_action_id intent) (ai_actor_id intent) cap disposition [reason]
         [("project_id", JStr project_id); ("environment", JStr environment); ("target", JStr (ai_target intent))]
         (bool_decide (cap ∈ HIGH_IMPACT)) (security_fingerprint input_doc)).
Definition egress_disposition (providers destinations : list string) (r : EgressRequest) : PolicyDisposition * string :=
  if er_contains_secret r then (PD_DENY, "detected secret material may not be transmitted externally")
  else if bool_decide (er_classification r ∈ [DC_SECRET; DC_LOCAL_ONLY]) then
    (PD_DENY, DataClassification_value (er_classification r) +:+ " data is not eligible for external egress")
  else if negb (bool_decide (providers = [])) && negb (str_in (er_provider_id r) providers) then
    (PD_DENY, "provider is not eligible under project egress policy")
  else if negb (bool_decide (destinations = [])) && negb (str_in (er_destination r) destinations) then
    (PD_DENY, "destination is not eligible under project egress policy")
  else if bool_decide (er_classification r = DC_CONFIDENTIAL) then
    (PD_REQUIRE_APPROVAL, "confidential egress requires explicit authorization")
  else if er_contains_untrusted_instructions r then
    (PD_CONSTRAIN, "untrusted instructions may be transmitted only as data and cannot alter governing authority")
  else (PD_ALLOW, "classification, provider and destination satisfy egress policy").
Definition evaluate_egress (providers destinations : list string) (r : EgressRequest) : result EgressDecision :=
  let '(disposition, reason) := egress_disposition providers destinations r in
  decision_id ← security_identifier "POLICY" [er_request_id r; "egress"; PolicyDisposition_value disposition];
  new (mkEgressDecision decision_id (er_request_id r) disposition (er_context_keys r) [] [reason]).
Definition instruction_authoritative (origin : string) (signed_or_trusted requested_authority_change : bool) : bool * string :=
  if negb (str_in origin ["governing_prompt"; "trusted_policy"; "operator_approved_instruction"]) || negb signed_or_trusted then
    (false, "untrusted source is data, not governing instruction")
  else if requested_authority_change && negb (String.eqb origin "operator_approved_instruction") then
    (false, "authority modification requires explicitly reviewed operator-approved instruction")
  else (true, "trusted instruction origin and review state satisfy policy").

(** ** Secrets *)
Record EphemeralSecret := mkSecret { es_value : string; es_lease : SecretLease }.
Definition secret_fingerprint (s : EphemeralSecret) : string := Sha256.hexdigest (es_value s).
(** The backends by name: what [resolve] answers or raises. *)
Definition secret_backends : Type := gmap string (SecretCapabilityReference → result string).
Record SecretsBroker := mkBroker { br_references : gmap string SecretCapabilityReference; br_leases : gmap string SecretLease }.
Definition register_reference (r : SecretCapabilityReference) (b : SecretsBroker) : result SecretsBroker :=
  _ ← raise_if (match br_references b !! sr_secret_ref_id r with Some old => bool_decide (old ≠ r) | None => false end) ValueError
        "secret reference id collision";
  Ok (mkBroker (<[sr_secret_ref_id r := r]> (br_references b)) (br_leases b)).
Record lease_request := mkLeaseRequest {
  lr_secret_ref_id : string; lr_identity_id : string; lr_project_id : string; lr_target : string; lr_operation : string;
  lr_issued_by : string; lr_grant : CapabilityGrant; lr_ttl_seconds : Z; lr_now : Z;
}.
Definition issue_lease (max_lease_seconds : Z) (q : lease_request) (b : SecretsBroker) : result (SecretsBroker * SecretLease) :=
  let g := lr_grant q in
  _ ← raise_if (negb (String.eqb (gr_identity_id g) (lr_identity_id q)) || negb (bool_decide (gr_capability g = AC_ACCESS_SECRET)))
        PermissionError "secret lease requires an ACCESS_SECRET grant for the requesting identity";
  _ ← raise_if (negb (grant_active_at g (lr_now q))) PermissionError "secret capability grant is expired or revoked";
  _ ← raise_if (negb (String.eqb (gr_project_id g) (lr_project_id q)) || String.eqb (gr_environment g) "") PermissionError
        "secret capability grant project/environment scope is invalid";
  _ ← raise_if (negb (String.eqb (gr_operation_class g) (lr_operation q))) PermissionError
        "secret capability grant does not allow requested operation";
  _ ← raise_if (negb (under_prefix (lr_target q) (gr_target_prefix g))) PermissionError
        "secret capability grant does not allow requested target";
  match br_references b !! lr_secret_ref_id q with
  | None => raise KeyError "unknown secret capability reference"
  | Some ref =>
      _ ← raise_if (negb (str_in (lr_operation q) (sr_allowed_operations ref))
                    || negb (existsb (under_prefix (lr_target q)) (sr_allowed_target_prefixes ref)))
            PermissionError "secret reference does not allow requested operation/target";
      _ ← raise_if ((lr_ttl_seconds q <=? 0) || (max_lease_seconds <? lr_ttl_seconds q)) ValueError
            "secret lease TTL exceeds configured maximum";
      lease_id ← security_identifier "SLEASE" [lr_secret_ref_id q; lr_identity_id q; lr_project_id q; lr_target q; lr_operation q;
                                                isoformat (lr_now q)];
      lease ← new (mkSecretLease lease_id (lr_secret_ref_id q) (lr_identity_id q) (lr_project_id q) (lr_target q) (lr_operation q)
                     (lr_issued_by q) (lr_now q) (lr_now q + lr_ttl_seconds q * 1000000) None 0);
      Ok (mkBroker (br_references b) (<[lease_id := lease]> (br_leases b)), lease)
  end.
Definition revoke (lease_id : string) (now : Z) (b : SecretsBroker) : result (SecretsBroker * SecretLease) :=
  match br_leases b !! lease_id with
  | None => raise KeyError lease_id
  | Some l =>
      let l' := mkSecretLease (sl_lease_id l) (sl_secret_ref_id l) (sl_identity_id l) (sl_project_id l) (sl_target l) (sl_operation l)
                  (sl_issued_by l) (sl_issued_at_utc l) (sl_expires_at_utc l) (Some now) (sl_materialization_count l) in
      Ok (mkBroker (br_references b) (<[lease_id := l']> (br_leases b)), l')
  end.
Definition materialize (backends : secret_backends) (lease_id identity_id target operation : string) (now : Z) (b : SecretsBroker)
  : result (SecretsBroker * EphemeralSecret) :=
  match br_leases b !! lease_id with
  | None => raise KeyError lease_id
  | Some l =>
      _ ← raise_if (negb (lease_active_at l now)) PermissionError "secret lease is expired or revoked";
      _ ← raise_if (negb (bool_decide ((sl_identity_id l, sl_target l, sl_operation l) = (identity_id, target, operation)))) PermissionError
            "secret lease scope mismatch";
      match br_references b !! sl_secret_ref_id l with
      | None => raise KeyError (sl_secret_ref_id l)
      | Some ref =>
          match backends !! SecretBackendKind_value (sr_backend ref) with
          | None => raise RuntimeError ("secret backend is unavailable: " +:+ SecretBackendKind_value (sr_backend ref))
          | Some resolve =>
              value ← resolve ref;
              _ ← raise_if (negb (str_truthy value)) RuntimeError "secret backend returned empty material";
              let l' := mkSecretLease (sl_lease_id l) (sl_secret_ref_id l) (sl_identity_id l) (sl_project_id l) (sl_target l) (sl_operation l)
                          (sl_issued_by l) (sl_issued_at_utc l) (sl_expires_at_utc l) (sl_revoked_at_utc l) (sl_materialization_count l + 1) in
              Ok (mkBroker (br_references b) (<[lease_id := l']> (br_leases b)), mkSecret value l')
          end
      end
  end.
