(* ===== verification/SecurityRules.v ===== *)
(** * SecurityRules: who is allowed what

    The decisions of the policy engine, and the secrets the broker hands out,
    against what the rules say. *)
From S2P Require Import Prelude PyStd PyRe PyJson Identifiers TaskState ControlDomain SchedulerDomain ResourceKeys SecurityDomain SecurityPolicy.
From Stdlib Require Import Ascii.
Local Open Scope Z_scope.

(** ** Authority *)
(** A target is a prefix, or lies below it. *)
Definition covers (prefix target : string) : Prop :=
  target = prefix ∨ ∃ rest, target = str_rstrip (Ascii.eqb "/") prefix +:+ "/" +:+ rest.
Lemma under_prefix_spec target prefix : under_prefix target prefix = true ↔ covers prefix target.
Proof.
  unfold under_prefix, covers. rewrite orb_true_iff, String.eqb_eq, startswith_spec. f_equiv. f_equiv. intros rest. by rewrite str_app_assoc.
Qed.
Definition scope_covers (prefixes : list string) (target : string) : Prop := prefixes = [] ∨ ∃ p, p ∈ prefixes ∧ covers p target.
Lemma existsb_elem {A} (f : A → bool) l : existsb f l = true ↔ ∃ x, x ∈ l ∧ f x = true.
Proof. rewrite existsb_exists. f_equiv. intros x. by rewrite list_elem_of_In. Qed.
Lemma target_allowed_spec prefixes target : _target_allowed prefixes target = true ↔ scope_covers prefixes target.
Proof.
  unfold _target_allowed, scope_covers. rewrite orb_true_iff, bool_decide_eq_true, existsb_elem. f_equiv. f_equiv. intros p.
  by rewrite under_prefix_spec.
Qed.
(** An empty list of names admits all of them. *)
Definition admits (names : list string) (x : string) : Prop := names = [] ∨ x ∈ names.
Lemma admits_spec names x : bool_decide (names = []) || str_in x names = true ↔ admits names x.
Proof. unfold admits. by rewrite orb_true_iff, bool_decide_eq_true, str_in_spec. Qed.

(** What the authority model says: an active identity in scope, with a role
    that has the capability up to this risk, in this environment and for this
    target, or with a grant for exactly this capability, project, environment,
    operation and target that is valid at this time. *)
Definition has_authority (a : IdentityAuthority) (id : string) (cap : AuthorityCapability) (project target environment operation : string)
    (risk : RiskLevel) (when : Z) : Prop :=
  ∃ i, au_identities a !! id = Some i ∧ si_state i = ID_ACTIVE ∧ admits (si_project_ids i) project ∧ admits (si_environment_scopes i) environment
  ∧ ((∃ rid role, rid ∈ si_role_ids i ∧ au_roles a !! rid = Some role ∧ cap ∈ ro_capabilities role ∧ RISK risk ≤ RISK (ro_max_risk role)
        ∧ admits (ro_allowed_environments role) environment ∧ scope_covers (ro_allowed_target_prefixes role) target)
     ∨ ∃ gid g, au_grants a !! gid = Some g ∧ gr_identity_id g = id ∧ gr_capability g = cap ∧ gr_project_id g = project
        ∧ gr_environment g = environment ∧ gr_operation_class g = operation ∧ covers (gr_target_prefix g) target
        ∧ gr_revoked_at_utc g = None ∧ gr_issued_at_utc g ≤ when < gr_expires_at_utc g).
Lemma role_allows_spec a cap target environment risk rid : role_allows a cap target environment risk rid = true ↔
  ∃ role, au_roles a !! rid = Some role ∧ cap ∈ ro_capabilities role ∧ RISK risk ≤ RISK (ro_max_risk role)
    ∧ admits (ro_allowed_environments role) environment ∧ scope_covers (ro_allowed_target_prefixes role) target.
Proof.
  unfold role_allows. destruct (au_roles a !! rid) as [role|].
  - rewrite !andb_true_iff, bool_decide_eq_true, admits_spec, target_allowed_spec, negb_true_iff, Z.ltb_ge. naive_solver.
  - naive_solver.
Qed.
Lemma grant_active_spec g when : grant_active_at g when = true ↔ gr_revoked_at_utc g = None ∧ gr_issued_at_utc g ≤ when < gr_expires_at_utc g.
Proof. unfold grant_active_at. rewrite !andb_true_iff, bool_decide_eq_true, Z.leb_le, Z.ltb_lt. tauto. Qed.
Lemma grant_allows_spec id cap project target environment operation when g :
  grant_allows id cap project target environment operation when g = true ↔
  gr_identity_id g = id ∧ gr_capability g = cap ∧ gr_project_id g = project ∧ gr_environment g = environment ∧ gr_operation_class g = operation
  ∧ covers (gr_target_prefix g) target ∧ gr_revoked_at_utc g = None ∧ gr_issued_at_utc g ≤ when < gr_expires_at_utc g.
Proof.
  unfold grant_allows. rewrite !andb_true_iff, !String.eqb_eq, bool_decide_eq_true, grant_active_spec, target_allowed_spec. unfold scope_covers.
  setoid_rewrite list_elem_of_singleton. naive_solver.
Qed.
Lemma authorize_spec a id cap project target environment operation risk when :
  authorize a id cap project target environment operation risk when = true ↔ has_authority a id cap project target environment operation risk when.
Proof.
  unfold authorize, has_authority. destruct (au_identities a !! id) as [i|]; [|naive_solver].
  case_bool_decide as Hs; cbn [negb]; [|naive_solver].
  rewrite <-!negb_orb. destruct (bool_decide (si_project_ids i = []) || _) eqn:Ep; cbn [negb].
  2: { split; [done|]. intros (i' & [= <-] & _ & Hp & _). apply admits_spec in Hp. congruence. }
  destruct (bool_decide (si_environment_scopes i = []) || _) eqn:Ee; cbn [negb].
  2: { split; [done|]. intros (i' & [= <-] & _ & _ & He & _). apply admits_spec in He. congruence. }
  apply admits_spec in Ep, Ee. destruct (existsb (role_allows _ _ _ _ _) _) eqn:Er.
  - split; [intros _|done]. apply existsb_elem in Er as (rid & Hin & (role & Hr)%role_allows_spec). exists i. split_and!; try done.
    left. exists rid, role. naive_solver.
  - rewrite existsb_elem. split.
    + intros (g & Hin & Hg%grant_allows_spec). apply list_elem_of_fmap in Hin as ([gid g'] & -> & Hin%elem_of_map_to_list).
      exists i. split_and!; try done. right. by exists gid, g'.
    + intros (i' & [= <-] & _ & _ & _ & [(rid & role & Hin & Hr)|(gid & g & Hl & Hg)]).
      * apply not_true_iff_false in Er. destruct Er. apply existsb_elem. exists rid. split; [done|]. apply role_allows_spec. by exists role.
      * exists g. split; [|by apply grant_allows_spec]. apply list_elem_of_fmap. exists (gid, g). split; [done|]. by apply elem_of_map_to_list.
Qed.

(** ** Actions *)
Lemma security_id_valid prefix s : prefix ∈ ["IDENT"; "ROLE"; "GRANT"; "APPROVAL"; "POLICY"; "EGRESS"; "SREF"; "SLEASE"] →
  valid_prefixed_id SECURITY_ID (prefix +:+ "-") (prefix +:+ "-" +:+ short_digest s) = true.
Proof.
  intros Hp. apply prefixed_id_valid. apply fullmatch_spec.
  repeat (apply elem_of_cons in Hp as [->|Hp]; [reflexivity|]). by apply elem_of_nil in Hp.
Qed.
Lemma Identifier_nonblank s : Identifier s = true → str_truthy (str_strip s) = true.
Proof.
  unfold Identifier. rewrite !andb_true_iff. intros [_ Hf%fullmatch_spec]. inversion Hf as [| |? ? x y Hx Hy| | | |]; subst.
  inversion Hx as [|? c Hc| | | | |]; subst. rewrite str_app_cons. apply nonspace_truthy.
  destruct c as [[] [] [] [] [] [] [] []]; vm_compute in Hc |- *; congruence.
Qed.
Lemma intent_nonblank intent : validate intent = Ok () → str_truthy (str_strip (ai_action_id intent)) = true.
Proof.
  intros Hv. unfold validate, ActionIntent_model in Hv. apply bind_ok in Hv as ([] & Hi & _). apply raise_if_ok, negb_false_iff in Hi.
  cbn [forallb] in Hi. apply andb_true_iff in Hi as [Hi _]. by apply Identifier_nonblank.
Qed.
(** What an approval must be for an action: given for this very action and
    capability, proposed by the actor, approved by somebody else who has the
    authority to approve it. *)
Definition approves (a : IdentityAuthority) (intent : ActionIntent) (cap : AuthorityCapability) (project environment : string)
    (ap : ApprovalRecord) : Prop :=
  ap_action_id ap = ai_action_id intent ∧ ap_proposer_identity_id ap = ai_actor_id intent ∧ ap_capability ap = cap
  ∧ ap_decision ap = DEC_APPROVED ∧ ap_approver_identity_id ap ≠ ai_actor_id intent
  ∧ has_authority a (ap_approver_identity_id ap) AC_APPROVE project (ai_target intent) environment (AuthorityCapability_value cap)
      (ai_risk intent) (ap_decided_at_utc ap).
Lemma approval_fits_spec a intent cap project environment approval : (∀ ap, approval = Some ap → validate ap = Ok ()) →
  approval_fits a intent cap project environment approval = true ↔ ∃ ap, approval = Some ap ∧ approves a intent cap project environment ap.
Proof.
  intros Hv. unfold approval_fits, approves. destruct approval as [ap|]; [|naive_solver]. specialize (Hv ap eq_refl).
  unfold validate, ApprovalRecord_model in Hv. apply bind_ok in Hv as ([] & _ & Hv). apply bind_ok in Hv as ([] & _ & Hv).
  apply raise_if_ok, String.eqb_neq in Hv.
  rewrite !andb_true_iff, !String.eqb_eq, bool_decide_eq_true. unfold validate_approval. case_bool_decide as Hd; cbn [negb].
  - rewrite authorize_spec. split; [intros [[[Ha Hp] Hc] Hh]|intros (ap' & [= <-] & ?)]; [|naive_solver].
    exists ap. rewrite Hc in Hh. split_and!; try done. congruence.
  - naive_solver.
Qed.
(** The decision the rules call for. *)
Definition rules_allow (a : IdentityAuthority) (intent : ActionIntent) (project environment : string) (approval : option ApprovalRecord)
    (now : Z) : Prop :=
  let cap := classify_action_capability (ai_operation intent) in
  has_authority a (ai_actor_id intent) cap project (ai_target intent) environment (AuthorityCapability_value cap) (ai_risk intent) now
  ∧ (cap ∈ HIGH_IMPACT → ai_approval_state intent = AS_APPROVED
     ∧ ∃ ap, approval = Some ap ∧ approves a intent cap project environment ap).
Lemma disposition_exact a intent project environment approval now : (∀ ap, approval = Some ap → validate ap = Ok ()) →
  let cap := classify_action_capability (ai_operation intent) in
  let d := (action_disposition a intent project environment approval now).1 in
  (d = PD_ALLOW ↔ rules_allow a intent project environment approval now)
  ∧ (d = PD_DENY ↔ ¬ has_authority a (ai_actor_id intent) cap project (ai_target intent) environment (AuthorityCapability_value cap)
                       (ai_risk intent) now)
  ∧ (d = PD_REQUIRE_APPROVAL → cap ∈ HIGH_IMPACT) ∧ d ≠ PD_CONSTRAIN.
Proof.
  intros Hv. cbv zeta. unfold action_disposition, rules_allow. cbv zeta. set (cap := classify_action_capability _).
  pose proof (authorize_spec a (ai_actor_id intent) cap project (ai_target intent) environment (AuthorityCapability_value cap) (ai_risk intent) now) as Ha.
  pose proof (approval_fits_spec a intent cap project environment approval Hv) as Hf.
  destruct (authorize _ _ _ _ _ _ _ _ _); cbn [negb fst]; [|naive_solver].
  case_bool_decide as Hh; [|naive_solver]. destruct (approval_fits _ _ _ _ _ _); cbn [negb]; [|naive_solver].
  case_bool_decide; naive_solver.
Qed.

