(* ===== verification/SecretTrace.v ===== *)
(** * SecretTrace: where a secret comes from

    Sequences of operations of the secrets broker: whatever secret is handed
    out goes back to a lease that was issued under the rules and not revoked
    since. *)
From S2P Require Import Prelude PyStd PyRe PyJson Identifiers TaskState ControlDomain SchedulerDomain ResourceKeys SecurityDomain SecurityPolicy SecurityRules.
Local Open Scope Z_scope.

(** ** Sequences of operations *)
Inductive broker_op :=
  | B_register (r : SecretCapabilityReference)
  | B_issue (q : lease_request)
  | B_revoke (lease_id : string) (now : Z)
  | B_materialize (lease_id identity_id target operation : string) (now : Z).
Definition state_of {A} (old : SecretsBroker) (r : result (SecretsBroker * A)) : SecretsBroker :=
  match r with Ok (b, _) => b | Raise _ => old end.
Definition broker_step (backends : secret_backends) (max_ttl : Z) (b : SecretsBroker) (o : broker_op) : SecretsBroker :=
  match o with
  | B_register r => match register_reference r b with Ok b' => b' | Raise _ => b end
  | B_issue q => state_of b (issue_lease max_ttl q b)
  | B_revoke l now => state_of b (revoke l now b)
  | B_materialize l i t op now => state_of b (materialize backends l i t op now b)
  end.
Definition new_broker : SecretsBroker := mkBroker ∅ ∅.
Definition broker_run (backends : secret_backends) (max_ttl : Z) (ops : list broker_op) : SecretsBroker :=
  foldl (broker_step backends max_ttl) new_broker ops.
Definition revokes (lease_id : string) (o : broker_op) : Prop := match o with B_revoke l _ => l = lease_id | _ => False end.

(** ** Leases *)
(** What the rules ask of a request for a lease. *)
Definition request_entitled (max_ttl : Z) (q : lease_request) (ref : SecretCapabilityReference) : Prop :=
  gr_identity_id (lr_grant q) = lr_identity_id q ∧ gr_capability (lr_grant q) = AC_ACCESS_SECRET ∧ gr_project_id (lr_grant q) = lr_project_id q
  ∧ gr_operation_class (lr_grant q) = lr_operation q ∧ covers (gr_target_prefix (lr_grant q)) (lr_target q)
  ∧ gr_revoked_at_utc (lr_grant q) = None ∧ gr_issued_at_utc (lr_grant q) ≤ lr_now q < gr_expires_at_utc (lr_grant q)
  ∧ lr_operation q ∈ sr_allowed_operations ref ∧ (∃ p, p ∈ sr_allowed_target_prefixes ref ∧ covers p (lr_target q))
  ∧ 0 < lr_ttl_seconds q ≤ max_ttl.
(** The lease that answers a request, up to its uses and its revocation. *)
Definition lease_for (q : lease_request) (l : SecretLease) : Prop :=
  sl_secret_ref_id l = lr_secret_ref_id q ∧ sl_identity_id l = lr_identity_id q ∧ sl_target l = lr_target q
  ∧ sl_operation l = lr_operation q ∧ sl_issued_at_utc l = lr_now q ∧ sl_expires_at_utc l = lr_now q + lr_ttl_seconds q * 1000000.
Lemma issue_lease_ok max_ttl q b b' l : issue_lease max_ttl q b = Ok (b', l) →
  ∃ ref, br_references b !! lr_secret_ref_id q = Some ref ∧ request_entitled max_ttl q ref ∧ lease_for q l ∧ sl_revoked_at_utc l = None
    ∧ b' = mkBroker (br_references b) (<[sl_lease_id l := l]> (br_leases b)).
Proof.
  unfold issue_lease. cbv zeta. intros E. apply bind_ok in E as ([] & H1 & E). apply bind_ok in E as ([] & H2 & E).
  apply bind_ok in E as ([] & H3 & E). apply bind_ok in E as ([] & H4 & E). apply bind_ok in E as ([] & H5 & E).
  destruct (br_references b !! lr_secret_ref_id q) as [ref|]; [|done]. apply bind_ok in E as ([] & H6 & E). apply bind_ok in E as ([] & H7 & E).
  apply bind_ok in E as (lid & _ & E). apply bind_ok in E as (l' & Hl & E). apply new_ok in Hl as [-> _]. injection E as <- <-.
  apply raise_if_ok in H1, H2, H3, H4, H5, H6, H7. exists ref. split; [done|]. split; [|by split_and!].
  apply orb_false_iff in H1 as [H1a%negb_false_iff%String.eqb_eq H1b%negb_false_iff%bool_decide_eq_true].
  apply negb_false_iff, grant_active_spec in H2. apply orb_false_iff in H3 as [H3%negb_false_iff%String.eqb_eq _].
  apply negb_false_iff, String.eqb_eq in H4. apply negb_false_iff, under_prefix_spec in H5.
  apply orb_false_iff in H6 as [H6a%negb_false_iff%str_in_spec H6b%negb_false_iff%existsb_elem].
  apply orb_false_iff in H7 as [H7a%Z.leb_gt H7b%Z.ltb_ge]. destruct H2 as [Hr Ht]. destruct H6b as (p & Hp & Hu%under_prefix_spec).
  unfold request_entitled. split_and!; try done; eauto; lia.
Qed.
Lemma materialize_ok backends l i t op now b b' s : materialize backends l i t op now b = Ok (b', s) →
  ∃ lease ref resolve, br_leases b !! l = Some lease ∧ lease_active_at lease now = true ∧ sl_identity_id lease = i ∧ sl_target lease = t
    ∧ sl_operation lease = op ∧ br_references b !! sl_secret_ref_id lease = Some ref
    ∧ backends !! SecretBackendKind_value (sr_backend ref) = Some resolve ∧ resolve ref = Ok (es_value s)
    ∧ b' = mkBroker (br_references b) (<[l := mkSecretLease (sl_lease_id lease) (sl_secret_ref_id lease) (sl_identity_id lease)
         (sl_project_id lease) (sl_target lease) (sl_operation lease) (sl_issued_by lease) (sl_issued_at_utc lease) (sl_expires_at_utc lease)
         (sl_revoked_at_utc lease) (sl_materialization_count lease + 1)]> (br_leases b)).
Proof.
  unfold materialize. destruct (br_leases b !! l) as [lease|]; [|done]. intros E. apply bind_ok in E as ([] & H1 & E).
  apply bind_ok in E as ([] & H2 & E). destruct (br_references b !! _) as [ref|] eqn:Er; [|done].
  destruct (backends !! _) as [resolve|] eqn:Eb; [|done]. apply bind_ok in E as (v & Ev & E). apply bind_ok in E as ([] & _ & [= <- <-]).
  apply raise_if_ok, negb_false_iff in H1, H2. apply bool_decide_eq_true in H2. injection H2 as Hi Ht Ho.
  exists lease, ref, resolve. by split_and!.
Qed.

(** ** The invariant *)
(** Every lease on the books goes back to an issue; if it is not revoked, no
    revocation of it came after. *)
Definition lease_origin (backends : secret_backends) (max_ttl : Z) (ops : list broker_op) (lid : string) (l : SecretLease) : Prop :=
  ∃ pre q post b' l0, ops = pre ++ B_issue q :: post ∧ issue_lease max_ttl q (broker_run backends max_ttl pre) = Ok (b', l0)
    ∧ sl_lease_id l0 = lid ∧ lease_for q l ∧ (sl_revoked_at_utc l = None → Forall (λ o, ¬ revokes lid o) post).
Lemma lease_origin_snoc backends max_ttl ops lid l l' o : lease_origin backends max_ttl ops lid l →
  (∀ q, lease_for q l → lease_for q l') → (sl_revoked_at_utc l' = None → sl_revoked_at_utc l = None ∧ ¬ revokes lid o) →
  lease_origin backends max_ttl (ops ++ [o]) lid l'.
Proof.
  intros (pre & q & post & b' & l0 & -> & Hi & Hl & Hq & Hr) Hkeep Hrev. exists pre, q, (post ++ [o]), b', l0.
  split; [by rewrite <-app_assoc|]. split_and!; try done; [by apply Hkeep|]. intros Hn. apply Hrev in Hn as [Hn Ho].
  apply Forall_app. split; [by apply Hr|]. by constructor.
Qed.
Lemma broker_leases_origin backends max_ttl ops lid l :
  br_leases (broker_run backends max_ttl ops) !! lid = Some l → lease_origin backends max_ttl ops lid l.
Proof.
  revert lid l. induction ops as [|o ops IH] using rev_ind; intros lid l; [done|].
  unfold broker_run. rewrite foldl_app. cbn [foldl]. fold (broker_run backends max_ttl ops). set (b := broker_run backends max_ttl ops) in *.
  assert (∀ lid l, br_leases b !! lid = Some l → ¬ revokes lid o → lease_origin backends max_ttl (ops ++ [o]) lid l) as Hsame.
  { intros lid' l' E Hn. eapply lease_origin_snoc; [by apply IH|done|done]. }
  destruct o as [r|q|l1 now|l1 i t op now]; cbn [broker_step].
  - unfold register_reference. destruct (raise_if _ _ _); cbn; intros E; apply Hsame; try done; by intros [].
  - destruct (issue_lease max_ttl q b) as [[b' l0]|] eqn:Ei; cbn [state_of]; [|intros E; apply Hsame; [done|by intros []]].
    pose proof Ei as Ei'. apply issue_lease_ok in Ei' as (ref & _ & _ & Hq & Hr & ->). cbn [br_leases]. rewrite lookup_insert. case_decide as Hd.
    + intros [= <-]. eexists ops, q, [], _, l0. split; [done|]. split; [exact Ei|]. by split_and!.
    + intros E. apply Hsame; [done|by intros []].
  - unfold revoke. destruct (br_leases b !! l1) as [lease|] eqn:El; cbn [state_of].
    + cbn [br_leases]. rewrite lookup_insert. case_decide as Hd.
      * subst l1. intros [= <-]. eapply lease_origin_snoc; [by apply IH|done|done].
      * intros E. apply Hsame; [done|]. cbn. congruence.
    + cbn. intros E. apply Hsame; [done|]. cbn. intros ->. congruence.
  - destruct (materialize backends l1 i t op now b) as [[b' s]|] eqn:Em; cbn [state_of]; [|intros E; apply Hsame; [done|by intros []]].
    apply materialize_ok in Em as (lease & ref & resolve & El & _ & _ & _ & _ & _ & _ & _ & ->). cbn [br_leases].
    rewrite lookup_insert. case_decide as Hd.
    + subst l1. intros [= <-]. eapply lease_origin_snoc; [by apply IH|done|]. intros Hn. split; [exact Hn|by intros []].
    + intros E. apply Hsame; [done|by intros []].
Qed.

(** A reference, once registered, stays as it is. *)
Lemma step_references backends max_ttl b o k ref : br_references b !! k = Some ref →
  br_references (broker_step backends max_ttl b o) !! k = Some ref.
Proof.
  intros Hk. destruct o as [r|q|l1 now|l1 i t op now]; cbn [broker_step].
  - unfold register_reference. destruct (br_references b !! sr_secret_ref_id r) as [old|] eqn:Eo; cbn.
    + case_bool_decide as Hne; [done|]. subst old. cbn. rewrite lookup_insert. case_decide; congruence.
    + rewrite lookup_insert. case_decide; congruence.
  - destruct (issue_lease max_ttl q b) as [[b' l0]|] eqn:Ei; [|done]. apply issue_lease_ok in Ei as (? & _ & _ & _ & _ & ->). done.
  - unfold revoke. by destruct (br_leases b !! l1).
  - destruct (materialize backends l1 i t op now b) as [[b' s]|] eqn:Em; [|done].
    apply materialize_ok in Em as (? & ? & ? & _ & _ & _ & _ & _ & _ & _ & _ & ->). done.
Qed.
Lemma references_kept backends max_ttl pre post k ref : br_references (broker_run backends max_ttl pre) !! k = Some ref →
  br_references (broker_run backends max_ttl (pre ++ post)) !! k = Some ref.
Proof.
  unfold broker_run. rewrite foldl_app. generalize (foldl (broker_step backends max_ttl) new_broker pre).
  induction post as [|o post IH]; intros b Hb; [done|]. cbn [foldl]. apply IH. by apply step_references.
Qed.

(** C14. Whoever receives a secret was entitled to it.  After any operations
    of a new broker, when a secret is handed out to an identity for a target
    and an operation, some earlier request issued its lease to that very
    identity, for that target and operation: under an ACCESS_SECRET grant of
    the identity that was valid and covered project, operation and target, for
    a secret whose reference allows both, and for no longer than the maximum;
    the lease has not run out, nobody revoked it since, and the value is what
    the backend of the reference holds. *)
Theorem secret_goes_to_entitled_identity backends max_ttl ops lid id target operation now b' s :
  materialize backends lid id target operation now (broker_run backends max_ttl ops) = Ok (b', s) →
  ∃ pre q post b1 l1 ref resolve,
    ops = pre ++ B_issue q :: post ∧ issue_lease max_ttl q (broker_run backends max_ttl pre) = Ok (b1, l1) ∧ sl_lease_id l1 = lid
    ∧ lr_identity_id q = id ∧ lr_target q = target ∧ lr_operation q = operation
    ∧ br_references (broker_run backends max_ttl pre) !! lr_secret_ref_id q = Some ref ∧ request_entitled max_ttl q ref
    ∧ lr_now q ≤ now < lr_now q + lr_ttl_seconds q * 1000000 ∧ Forall (λ o, ¬ revokes lid o) post
    ∧ br_references (broker_run backends max_ttl ops) !! lr_secret_ref_id q = Some ref
    ∧ backends !! SecretBackendKind_value (sr_backend ref) = Some resolve ∧ resolve ref = Ok (es_value s).
Proof.
  intros Em. apply materialize_ok in Em as (lease & ref & resolve & El & Ha & <- & <- & <- & Er & Eb & Ev & _).
  unfold lease_active_at in Ha. apply andb_true_iff in Ha as [Ha H2%Z.ltb_lt]. apply andb_true_iff in Ha as [H0%bool_decide_eq_true H1%Z.leb_le].
  apply broker_leases_origin in El as (pre & q & post & b1 & l1 & -> & Ei & Hl & (Q1 & Q2 & Q3 & Q4 & Q5 & Q6) & Hp).
  pose proof Ei as Ei'. apply issue_lease_ok in Ei' as (ref' & Er' & Hq & _). rewrite Q1 in Er.
  pose proof (references_kept backends max_ttl pre (B_issue q :: post) _ _ Er') as Hk. rewrite Er in Hk. injection Hk as ->.
  exists pre, q, post, b1, l1, ref', resolve. rewrite Q2, Q3, Q4. split_and!; try done; [lia|lia|by apply Hp].
Qed.

(** ** Records stay well formed *)
(** Every record is on the books under its own identifier and passes the
    validators of its class. *)
Definition broker_well_formed (b : SecretsBroker) : Prop :=
  (∀ k r, br_references b !! k = Some r → sr_secret_ref_id r = k ∧ validate r = Ok ())
  ∧ (∀ k l, br_leases b !! k = Some l → sl_lease_id l = k ∧ validate l = Ok ()).
Lemma lease_valid_copy l rev count : validate l = Ok () → 0 ≤ count →
  validate (mkSecretLease (sl_lease_id l) (sl_secret_ref_id l) (sl_identity_id l) (sl_project_id l) (sl_target l) (sl_operation l)
    (sl_issued_by l) (sl_issued_at_utc l) (sl_expires_at_utc l) rev count) = Ok ().
Proof.
  unfold validate, SecretLease_model. intros Hv Hc. apply bind_ok in Hv as ([] & _ & Hv). cbn.
  rewrite (proj2 (Z.ltb_ge count 0)) by done. exact Hv.
Qed.
Lemma lease_count l : validate l = Ok () → 0 ≤ sl_materialization_count l.
Proof. unfold validate, SecretLease_model. intros Hv. apply bind_ok in Hv as ([] & Hc%raise_if_ok & _). by apply Z.ltb_ge in Hc. Qed.
Lemma step_well_formed backends max_ttl b o : (∀ r, o = B_register r → validate r = Ok ()) →
  broker_well_formed b → broker_well_formed (broker_step backends max_ttl b o).
Proof.
  intros Ho [Hr Hl]. assert (broker_well_formed b) as Hb by done. destruct o as [r|q|l1 now|l1 i t op now]; cbn [broker_step].
  - unfold register_reference. destruct (raise_if _ _ _); [|done]. cbn. split; [|done]. cbn. intros k r'. rewrite lookup_insert.
    case_decide as Hk; [|apply Hr]. intros [= <-]. split; [done|]. by apply Ho.
  - destruct (issue_lease max_ttl q b) as [[b' l]|] eqn:Ei; [|done]. cbn [state_of]. unfold issue_lease in Ei. cbv zeta in Ei.
    do 5 (apply bind_ok in Ei as ([] & _ & Ei)). destruct (br_references b !! _); [|done]. do 2 (apply bind_ok in Ei as ([] & _ & Ei)).
    apply bind_ok in Ei as (lid & _ & Ei). apply bind_ok in Ei as (l' & Hv & Ei). apply new_ok in Hv as [-> Hv]. injection Ei as <- <-.
    split; [done|]. cbn [br_leases]. intros k l. rewrite lookup_insert. case_decide as Hk; [|apply Hl]. by intros [= <-].
  - unfold revoke. destruct (br_leases b !! l1) as [l|] eqn:El; [|done]. cbn [state_of]. split; [done|]. cbn [br_leases].
    intros k l'. rewrite lookup_insert. case_decide as Hk; [|apply Hl]. subst k. intros [= <-]. destruct (Hl _ _ El) as [Hid Hv].
    split; [done|]. apply lease_valid_copy; [done|by apply lease_count].
  - destruct (materialize backends l1 i t op now b) as [[b' s]|] eqn:Em; [|done]. cbn [state_of].
    apply materialize_ok in Em as (l & ref & resolve & El & _ & _ & _ & _ & _ & _ & _ & ->). destruct (Hl _ _ El) as [Hid Hv].
    split; [done|]. cbn [br_leases]. intros k l'. rewrite lookup_insert. case_decide as Hk; [|apply Hl]. subst k. intros [= <-].
    split; [done|]. apply lease_valid_copy; [done|]. apply lease_count in Hv. lia.
Qed.

(** C32. The books of the broker are well typed: after any operations every
    reference and every lease is kept under its own identifier and passes the
    validators of its class, although revoking and materialising copy the
    record without running them. *)
Theorem broker_records_stay_valid backends max_ttl ops : (∀ r, B_register r ∈ ops → validate r = Ok ()) →
  broker_well_formed (broker_run backends max_ttl ops).
Proof.
  intros Hops. unfold broker_run. assert (broker_well_formed new_broker) as Hb by done. revert Hops Hb. generalize new_broker.
  induction ops as [|o ops IH]; intros b Hops Hb; [done|]. cbn [foldl]. apply IH; [intros r Hr; apply Hops; by right|].
  apply step_well_formed; [|done]. intros r ->. apply Hops. by left.
Qed.

(** ** a deployment and a token

    An operator deploys with the approval of a security administrator, and an
    adapter reads a token under a lease; and three corner cases. *)
Module Scenarios.
Ltac computed := match goal with |- _ = ?b => vm_cast_no_check (eq_refl b) end.

Definition sec_now : Z := 1750000000000000.
Definition ident (name : string) : string := match security_identifier "IDENT" [name] with Ok i => i | Raise _ => "" end.
Definition role_id_of (name : string) : string := match security_identifier "ROLE" [name] with Ok i => i | Raise _ => "" end.
Definition sec_id (prefix name : string) : string := match security_identifier prefix [name] with Ok i => i | Raise _ => "" end.
Definition operator_id : string := Eval vm_compute in ident "operator".
Definition admin_id : string := Eval vm_compute in ident "admin".
Definition person (id role : string) : SecurityIdentity := mkIdentity id HUMAN "someone" "user://someone" ID_ACTIVE ["PP"] [] [role] ∅ sec_now.
Definition the_operator : SecurityIdentity := Eval vm_compute in person operator_id (role_id_of "security-admin").
Definition the_admin : SecurityIdentity := Eval vm_compute in person admin_id (role_id_of "security-admin").
Definition the_authority : IdentityAuthority := Eval vm_compute in
  mkAuthority {[ operator_id := the_operator; admin_id := the_admin ]}
    (match default_roles with Ok l => list_to_map ((λ r, (ro_role_id r, r)) <$> l) | Raise _ => ∅ end) ∅.
Example default_roles_valid : length (map_to_list (au_roles the_authority)) = 6%nat.
Proof. reflexivity. Qed.
Definition deploy : ActionIntent := mkActionIntent "action:1" operator_id "authority:1" "prod/api" "deploy-service" [] RISK_HIGH "idempotent" AS_APPROVED "corr:1".
Definition approval : ApprovalRecord := Eval vm_compute in
  mkApproval (sec_id "APPROVAL" "one") "action:1" operator_id admin_id AC_DEPLOY DEC_APPROVED "looks good" "corr:1" sec_now.
Example deployment_allowed : action_disposition the_authority deploy "PP" "prod" (Some approval) sec_now
  = (PD_ALLOW, "least-privilege authority and independent approval are satisfied")
  ∧ (action_disposition the_authority deploy "PP" "prod" None sec_now).1 = PD_REQUIRE_APPROVAL
  ∧ (action_disposition the_authority deploy "OTHER" "prod" (Some approval) sec_now).1 = PD_DENY.
Proof. by vm_compute. Qed.

(** ** A token *)
Definition token_ref : SecretCapabilityReference := Eval vm_compute in
  mkSecretRef (sec_id "SREF" "token") "token" SB_ENVIRONMENT "env://TOKEN" DC_SECRET ["push"] ["repo"] None.
Definition token_grant : CapabilityGrant := Eval vm_compute in
  mkGrant (sec_id "GRANT" "token") operator_id AC_ACCESS_SECRET "PP" "repo/main" "prod" "push" "bootstrap" sec_now (sec_now + 600000000) None.
Definition token_request : lease_request :=
  mkLeaseRequest (sr_secret_ref_id token_ref) operator_id "PP" "repo/main" "push" "broker" token_grant 300 sec_now.
Definition env_backend : secret_backends := {[ "ENVIRONMENT" := λ _, Ok "hunter2" ]}.
Definition token_ops : list broker_op := [B_register token_ref; B_issue token_request].
Definition token_broker : SecretsBroker := Eval vm_compute in broker_run env_backend 900 token_ops.
Definition token_lease : SecretLease := Eval vm_compute in
  match issue_lease 900 token_request (broker_run env_backend 900 [B_register token_ref]) with
  | Ok (_, l) => l | Raise _ => mkSecretLease "" "" "" "" "" "" "" 0 0 None 0 end.
Definition used_token := Eval vm_compute in
  materialize env_backend (sl_lease_id token_lease) operator_id "repo/main" "push" (sec_now + 1) token_broker.
Definition used_broker : SecretsBroker := Eval vm_compute in match used_token with Ok (b, _) => b | Raise _ => new_broker end.
Definition the_secret : EphemeralSecret := Eval vm_compute in match used_token with Ok (_, s) => s | Raise _ => mkSecret "" token_lease end.
Lemma secret_goes_to_entitled_identity_witness :
  ∃ pre q post b1 l1 ref resolve,
    token_ops = pre ++ B_issue q :: post ∧ issue_lease 900 q (broker_run env_backend 900 pre) = Ok (b1, l1)
    ∧ sl_lease_id l1 = sl_lease_id token_lease ∧ lr_identity_id q = operator_id ∧ lr_target q = "repo/main" ∧ lr_operation q = "push"
    ∧ br_references (broker_run env_backend 900 pre) !! lr_secret_ref_id q = Some ref ∧ request_entitled 900 q ref
    ∧ lr_now q ≤ sec_now + 1 < lr_now q + lr_ttl_seconds q * 1000000 ∧ Forall (λ o, ¬ revokes (sl_lease_id token_lease) o) post
    ∧ br_references (broker_run env_backend 900 token_ops) !! lr_secret_ref_id q = Some ref
    ∧ env_backend !! SecretBackendKind_value (sr_backend ref) = Some resolve ∧ resolve ref = Ok (es_value the_secret).
Proof.
  apply (secret_goes_to_entitled_identity env_backend 900 token_ops (sl_lease_id token_lease) operator_id "repo/main" "push" (sec_now + 1)
           used_broker the_secret).
  computed.
Defined.

(** ** Corner cases *)
(** The words are looked for anywhere in the operation: to delete a target is
    to [get] something, and so it is READ, which every observer may do; an
    emergency is a [merge]; no word leads to EMERGENCY. *)
Example delete_target_is_read :
  classify_action_capability "delete-target" = AC_READ ∧ classify_action_capability "drop-thread" = AC_READ
  ∧ classify_action_capability "emergency-override" = AC_MERGE.
Proof. by vm_compute. Qed.
(** Identity and grant are fixed at their first registration: neither can be
    suspended or revoked by registering its new version. *)
Definition suspended : SecurityIdentity :=
  mkIdentity operator_id HUMAN "someone" "user://someone" ID_SUSPENDED ["PP"] [] (si_role_ids the_operator) ∅ sec_now.
Example suspension_refused : register_identity suspended the_authority = raise ValueError "security identity id collision".
Proof. reflexivity. Qed.
(** The lease of a request repeated at the same instant has the same
    identifier and replaces the lease that was revoked. *)
Definition lease_after (ops : list broker_op) : option (option Z) :=
  sl_revoked_at_utc <$> br_leases (broker_run env_backend 900 ops) !! sl_lease_id token_lease.
Example reissue_revives_revoked_lease :
  lease_after (token_ops ++ [B_revoke (sl_lease_id token_lease) (sec_now + 5)]) = Some (Some (sec_now + 5))
  ∧ lease_after (token_ops ++ [B_revoke (sl_lease_id token_lease) (sec_now + 5); B_issue token_request]) = Some None.
Proof. split; vm_compute; reflexivity. Qed.
Lemma broker_records_stay_valid_witness : broker_well_formed (broker_run env_backend 900 token_ops).
Proof.
  apply (broker_records_stay_valid env_backend 900 token_ops). intros r [[= ->]|[[=]|[]%elem_of_nil]%elem_of_cons]%elem_of_cons. computed.
Defined.
End Scenarios.
