(* ===== verification/GitDomain.v ===== *)
(** * GitDomain: [domain/github.py]

    Pull requests with their reviews and checks, branch protection, operations
    on the remote repository with their receipts, autonomous reviews and
    ownership claims.  Instants that default to the clock and that no decision
    reads are left out. *)
From S2P Require Import Prelude PyStd PyRe PyJson Identifiers TaskState ControlDomain SchedulerDomain IsoInstant.
From Stdlib Require Import Ascii.
Local Open Scope Z_scope.

Definition HEX_SHA (s : string) : bool := min_length 7 s && max_length 64 s && str_forall Sha256.is_hex_lower s.
Definition GITHUB_RECORD_ID : re :=
  Cat (alts (lit <$> ["GHREP"; "GHBR"; "GHWT"; "GHOWN"; "GHPR"; "GHREV"; "GHCHK"; "GHGATE"; "GHOP"; "GHREC"; "GHARV"; "GHDRF"; "GHCON";
                      "GHLIF"; "GHREL"])) (Cat (lit "-") (times 20 hex_upper)).
Definition github_identifier (prefix : string) (parts : list string) : result string := prefixed_identifier "GitHub stewardship" prefix parts.
Definition carries_github_id (prefix id message : string) : result () :=
  raise_if (negb (valid_prefixed_id GITHUB_RECORD_ID prefix id)) ValueError message.

(** ** Enumerations *)
Inductive OwnershipKind := OK_FILE | OK_DIRECTORY | OK_SCHEMA | OK_DATABASE | OK_PORT | OK_ENVIRONMENT | OK_REPOSITORY.
#[export] Instance OwnershipKind_eq_dec : EqDecision OwnershipKind.
Proof. solve_decision. Defined.
Definition OwnershipKind_value (k : OwnershipKind) : string :=
  match k with OK_FILE => "FILE" | OK_DIRECTORY => "DIRECTORY" | OK_SCHEMA => "SCHEMA" | OK_DATABASE => "DATABASE" | OK_PORT => "PORT"
  | OK_ENVIRONMENT => "ENVIRONMENT" | OK_REPOSITORY => "REPOSITORY" end.
Inductive OwnershipState := OS_ACTIVE | OS_RELEASED | OS_EXPIRED.
#[export] Instance OwnershipState_eq_dec : EqDecision OwnershipState.
Proof. solve_decision. Defined.
Inductive ReviewState := RV_APPROVED | RV_CHANGES_REQUESTED | RV_COMMENTED | RV_DISMISSED | RV_PENDING.
#[export] Instance ReviewState_eq_dec : EqDecision ReviewState.
Proof. solve_decision. Defined.
Inductive CheckState := CK_QUEUED | CK_IN_PROGRESS | CK_COMPLETED | CK_UNKNOWN.
#[export] Instance CheckState_eq_dec : EqDecision CheckState.
Proof. solve_decision. Defined.
Inductive CheckConclusion :=
  | CC_SUCCESS | CC_NEUTRAL | CC_SKIPPED | CC_FAILURE | CC_CANCELLED | CC_TIMED_OUT | CC_ACTION_REQUIRED | CC_STALE | CC_STARTUP_FAILURE
  | CC_UNKNOWN.
#[export] Instance CheckConclusion_eq_dec : EqDecision CheckConclusion.
Proof. solve_decision. Defined.
Inductive PullRequestState := PULL_OPEN | PULL_CLOSED | PULL_MERGED.
#[export] Instance PullRequestState_eq_dec : EqDecision PullRequestState.
Proof. solve_decision. Defined.
Definition PullRequestState_value (s : PullRequestState) : string :=
  match s with PULL_OPEN => "OPEN" | PULL_CLOSED => "CLOSED" | PULL_MERGED => "MERGED" end.
Inductive MergeGateState := MG_READY | MG_BLOCKED | MG_RECONCILIATION_REQUIRED.
#[export] Instance MergeGateState_eq_dec : EqDecision MergeGateState.
Proof. solve_decision. Defined.
Definition MergeGateState_value (s : MergeGateState) : string :=
  match s with MG_READY => "READY" | MG_BLOCKED => "BLOCKED" | MG_RECONCILIATION_REQUIRED => "RECONCILIATION_REQUIRED" end.
Inductive GitOperationState := GO_PLANNED | GO_PENDING | GO_APPLIED | GO_FAILED | GO_UNKNOWN_OUTCOME | GO_RECONCILED | GO_REJECTED.
#[export] Instance GitOperationState_eq_dec : EqDecision GitOperationState.
Proof. solve_decision. Defined.
Definition GitOperationState_value (s : GitOperationState) : string :=
  match s with GO_PLANNED => "PLANNED" | GO_PENDING => "PENDING" | GO_APPLIED => "APPLIED" | GO_FAILED => "FAILED"
  | GO_UNKNOWN_OUTCOME => "UNKNOWN_OUTCOME" | GO_RECONCILED => "RECONCILED" | GO_REJECTED => "REJECTED" end.
Inductive GitOperationType :=
  | GT_CREATE_BRANCH | GT_CREATE_PULL_REQUEST | GT_UPDATE_PULL_REQUEST | GT_MERGE_PULL_REQUEST | GT_DELETE_BRANCH | GT_CREATE_WORKTREE
  | GT_REMOVE_WORKTREE | GT_RELEASE_OWNERSHIP | GT_CLOSE_PULL_REQUEST | GT_SUPERSEDE_PULL_REQUEST | GT_RECORD_REVIEW
  | GT_VERIFY_INTEGRATED_TREE | GT_CREATE_DRAFT_RELEASE | GT_UPLOAD_RELEASE_ASSET | GT_FINALIZE_RELEASE.
#[export] Instance GitOperationType_eq_dec : EqDecision GitOperationType.
Proof. solve_decision. Defined.
Definition GitOperationType_value (t : GitOperationType) : string :=
  match t with
  | GT_CREATE_BRANCH => "CREATE_BRANCH" | GT_CREATE_PULL_REQUEST => "CREATE_PULL_REQUEST" | GT_UPDATE_PULL_REQUEST => "UPDATE_PULL_REQUEST"
  | GT_MERGE_PULL_REQUEST => "MERGE_PULL_REQUEST" | GT_DELETE_BRANCH => "DELETE_BRANCH" | GT_CREATE_WORKTREE => "CREATE_WORKTREE"
  | GT_REMOVE_WORKTREE => "REMOVE_WORKTREE" | GT_RELEASE_OWNERSHIP => "RELEASE_OWNERSHIP" | GT_CLOSE_PULL_REQUEST => "CLOSE_PULL_REQUEST"
  | GT_SUPERSEDE_PULL_REQUEST => "SUPERSEDE_PULL_REQUEST" | GT_RECORD_REVIEW => "RECORD_REVIEW"
  | GT_VERIFY_INTEGRATED_TREE => "VERIFY_INTEGRATED_TREE" | GT_CREATE_DRAFT_RELEASE => "CREATE_DRAFT_RELEASE"
  | GT_UPLOAD_RELEASE_ASSET => "UPLOAD_RELEASE_ASSET" | GT_FINALIZE_RELEASE => "FINALIZE_RELEASE" end.

(** ** Pull requests *)
Record PullRequestReview := mkReview {
  rv_review_id : string; rv_author : string; rv_state : ReviewState; rv_commit_sha : option string; rv_submitted_at_utc : option Z;
}.
Record PullRequestCheck := mkCheck {
  ck_check_id : string; ck_name : string; ck_state : CheckState; ck_conclusion : option CheckConclusion; ck_required : bool;
  ck_app_id : option Z;
}.
#[export] Instance PullRequestCheck_model : Model PullRequestCheck := λ c,
  _ ← raise_if (bool_decide (ck_state c = CK_COMPLETED) && bool_decide (ck_conclusion c = None)) ValueError
        "completed check requires a conclusion";
  raise_if (negb (bool_decide (ck_state c = CK_COMPLETED)) && negb (bool_decide (ck_conclusion c ∈ [None; Some CC_UNKNOWN]))) ValueError
    "incomplete check cannot have a final conclusion".
Record PullRequestSnapshot := mkPull {
  pl_pull_request_id : string; pl_repository_slug : string; pl_number : Z; pl_title : string; pl_state : PullRequestState; pl_draft : bool;
  pl_base_branch : string; pl_head_branch : string; pl_base_sha : string; pl_head_sha : string; pl_mergeable : option bool;
  pl_author : option string; pl_reviews : list PullRequestReview; pl_checks : list PullRequestCheck; pl_updated_at_utc : Z;
}.
(** The constructor: hashes are taken in lower case. *)
Definition new_pull (p : PullRequestSnapshot) : result PullRequestSnapshot :=
  _ ← raise_if (pl_number p <? 1) ValidationError "number";
  _ ← raise_if (negb (min_length 1 (pl_title p) && max_length 1000 (pl_title p))) ValidationError "title";
  _ ← carries_github_id "GHPR-" (pl_pull_request_id p) "invalid pull request identifier";
  _ ← raise_if (negb (HEX_SHA (str_lower (pl_base_sha p)) && HEX_SHA (str_lower (pl_head_sha p)))) ValueError
        "pull request sha must be hexadecimal";
  Ok (mkPull (pl_pull_request_id p) (pl_repository_slug p) (pl_number p) (pl_title p) (pl_state p) (pl_draft p) (pl_base_branch p)
        (pl_head_branch p) (str_lower (pl_base_sha p)) (str_lower (pl_head_sha p)) (pl_mergeable p) (pl_author p) (pl_reviews p)
        (pl_checks p) (pl_updated_at_utc p)).
Record MergeGateDecision := mkGate {
  mg_gate_id : string; mg_repository_slug : string; mg_pull_number : Z; mg_head_sha : string; mg_state : MergeGateState;
  mg_blockers : list string; mg_warnings : list string; mg_required_checks : list string; mg_observed_checks : list string;
  mg_approvals_required : Z; mg_approvals_observed : Z; mg_autonomous_review_id : option string; mg_autonomous_review_accepted : bool;
  mg_protection_drift : list string;
}.
#[export] Instance MergeGateDecision_model : Model MergeGateDecision := λ g,
  _ ← raise_if (mg_pull_number g <? 1) ValidationError "pull_number";
  _ ← raise_if (mg_approvals_required g <? 0) ValidationError "approvals_required";
  _ ← raise_if (mg_approvals_observed g <? 0) ValidationError "approvals_observed";
  carries_github_id "GHGATE-" (mg_gate_id g) "invalid merge gate identifier".
Record GitHubBranchProtection := mkProtection {
  bp_repository_slug : string; bp_branch : string; bp_protected : bool; bp_required_status_checks : list string;
  bp_required_status_check_app_ids : list (option Z); bp_contexts_only_required_checks : bool; bp_required_status_checks_strict : bool;
  bp_reviews_object_present : bool; bp_required_approving_review_count : Z; bp_dismiss_stale_reviews : bool;
  bp_require_code_owner_reviews : bool; bp_require_last_push_approval : bool; bp_enforce_admins : bool; bp_require_linear_history : bool;
  bp_require_conversation_resolution : bool; bp_allow_force_pushes : bool; bp_allow_deletions : bool;
}.
#[export] Instance GitHubBranchProtection_model : Model GitHubBranchProtection := λ b,
  raise_if (bp_required_approving_review_count b <? 0) ValidationError "required_approving_review_count".
(** The drift decision carries what was observed and what was expected. *)
Record ProtectionDriftDecision := mkDrift {
  dr_decision_id : string; dr_repository_slug : string; dr_branch : string; dr_aligned : bool; dr_drifts : list string;
  dr_observed : GitHubBranchProtection; dr_expected : GitHubBranchProtection;
}.
#[export] Instance ProtectionDriftDecision_model : Model ProtectionDriftDecision := λ d,
  carries_github_id "GHDRF-" (dr_decision_id d) "invalid protection drift identifier".

(** ** Autonomous reviews *)
Inductive FindingSeverity := FS_BLOCKING | FS_WARNING | FS_INFO.
#[export] Instance FindingSeverity_eq_dec : EqDecision FindingSeverity.
Proof. solve_decision. Defined.
Definition FindingSeverity_value (s : FindingSeverity) : string :=
  match s with FS_BLOCKING => "BLOCKING" | FS_WARNING => "WARNING" | FS_INFO => "INFO" end.
Inductive FindingDisposition := FD_OPEN | FD_ACCEPTED | FD_MITIGATED | FD_FALSE_POSITIVE.
#[export] Instance FindingDisposition_eq_dec : EqDecision FindingDisposition.
Proof. solve_decision. Defined.
Definition FindingDisposition_value (d : FindingDisposition) : string :=
  match d with FD_OPEN => "OPEN" | FD_ACCEPTED => "ACCEPTED" | FD_MITIGATED => "MITIGATED" | FD_FALSE_POSITIVE => "FALSE_POSITIVE" end.
Inductive ReviewRisk := RR_LOW | RR_MEDIUM | RR_HIGH | RR_CRITICAL.
#[export] Instance ReviewRisk_eq_dec : EqDecision ReviewRisk.
Proof. solve_decision. Defined.
Definition ReviewRisk_value (r : ReviewRisk) : string :=
  match r with RR_LOW => "LOW" | RR_MEDIUM => "MEDIUM" | RR_HIGH => "HIGH" | RR_CRITICAL => "CRITICAL" end.
Record ReviewFinding := mkFinding {
  fi_finding_id : string; fi_severity : FindingSeverity; fi_summary : string; fi_disposition : FindingDisposition;
}.
#[export] Instance ReviewFinding_model : Model ReviewFinding := λ f,
  _ ← raise_if (negb (min_length 1 (fi_finding_id f) && max_length 64 (fi_finding_id f))) ValidationError "finding_id";
  raise_if (negb (min_length 1 (fi_summary f) && max_length 2000 (fi_summary f))) ValidationError "summary".
(** [reviewer_authority] has the one value READ_ONLY. *)
Record AutonomousReviewReceipt := mkReviewReceipt {
  ar_receipt_id : string; ar_implementer_id : string; ar_reviewer_id : string; ar_implementer_context_fingerprint : string;
  ar_reviewer_context_fingerprint : string; ar_head_sha : string; ar_tree_sha : string; ar_risk : ReviewRisk;
  ar_criterion_ids : list string; ar_findings : list ReviewFinding; ar_evidence_ids : list string; ar_conflicts : list string;
  ar_completed_at_utc : Z; ar_max_age_seconds : Z; ar_validation_evidence : list (string * json);
}.
Definition new_review (r : AutonomousReviewReceipt) : result AutonomousReviewReceipt :=
  _ ← raise_if (negb (min_length 1 (ar_implementer_id r) && max_length 191 (ar_implementer_id r))) ValidationError "implementer_id";
  _ ← raise_if (negb (min_length 1 (ar_reviewer_id r) && max_length 191 (ar_reviewer_id r))) ValidationError "reviewer_id";
  _ ← raise_if (negb (is_hex64 (ar_implementer_context_fingerprint r) && is_hex64 (ar_reviewer_context_fingerprint r))) ValidationError
        "context_fingerprint";
  _ ← raise_if (ar_max_age_seconds r <=? 0) ValidationError "max_age_seconds";
  _ ← for_each validate (ar_findings r);
  _ ← carries_github_id "GHARV-" (ar_receipt_id r) "invalid autonomous review receipt identifier";
  _ ← raise_if (negb (HEX_SHA (str_lower (ar_head_sha r)) && HEX_SHA (str_lower (ar_tree_sha r)))) ValueError "review sha must be hexadecimal";
  Ok (mkReviewReceipt (ar_receipt_id r) (ar_implementer_id r) (ar_reviewer_id r) (ar_implementer_context_fingerprint r)
        (ar_reviewer_context_fingerprint r) (str_lower (ar_head_sha r)) (str_lower (ar_tree_sha r)) (ar_risk r) (ar_criterion_ids r)
        (ar_findings r) (ar_evidence_ids r) (ar_conflicts r) (ar_completed_at_utc r) (ar_max_age_seconds r) (ar_validation_evidence r)).
Definition blocking_finding_count (r : AutonomousReviewReceipt) : nat :=
  length (List.filter (λ f, bool_decide (fi_severity f = FS_BLOCKING) && bool_decide (fi_disposition f = FD_OPEN)) (ar_findings r)).
(** [model_dump(mode="json")] and [model_validate]. *)
Definition review_finding_json (f : ReviewFinding) : json :=
  JObj [("finding_id", JStr (fi_finding_id f)); ("severity", JStr (FindingSeverity_value (fi_severity f))); ("summary", JStr (fi_summary f));
        ("disposition", JStr (FindingDisposition_value (fi_disposition f)))].
Definition review_json (r : AutonomousReviewReceipt) : json :=
  JObj [("receipt_id", JStr (ar_receipt_id r)); ("implementer_id", JStr (ar_implementer_id r)); ("reviewer_id", JStr (ar_reviewer_id r));
        ("implementer_context_fingerprint", JStr (ar_implementer_context_fingerprint r));
        ("reviewer_context_fingerprint", JStr (ar_reviewer_context_fingerprint r)); ("head_sha", JStr (ar_head_sha r));
        ("tree_sha", JStr (ar_tree_sha r)); ("risk", JStr (ReviewRisk_value (ar_risk r)));
        ("criterion_ids", JList (JStr <$> ar_criterion_ids r)); ("findings", JList (review_finding_json <$> ar_findings r));
        ("evidence_ids", JList (JStr <$> ar_evidence_ids r)); ("conflicts", JList (JStr <$> ar_conflicts r));
        ("reviewer_authority", JStr "READ_ONLY"); ("completed_at_utc", json_instant (ar_completed_at_utc r));
        ("max_age_seconds", JInt (ar_max_age_seconds r)); ("validation_evidence", JObj (ar_validation_evidence r))].
Definition invalid {A} (field : string) : result A := raise ValidationError field.
Definition text_field (key : string) (o : list (string * json)) : result string :=
  match obj_get key o with Some (JStr s) => Ok s | _ => invalid key end.
(** A field with a default. *)
Definition field_or {A} (key : string) (default : A) (read : json → result A) (o : list (string * json)) : result A :=
  match obj_get key o with Some j => read j | None => Ok default end.
Definition read_text (key : string) (j : json) : result string := match j with JStr s => Ok s | _ => invalid key end.
Definition read_texts (key : string) (j : json) : result (list string) := match j with JList l => traverse (read_text key) l | _ => invalid key end.
Definition read_choice {A} (key : string) (choices : list (string * A)) (j : json) : result A :=
  s ← read_text key j;
  match List.find (λ sa, String.eqb sa.1 s) choices with Some (_, a) => Ok a | None => invalid key end.
Definition no_extra_keys (keys : list string) (o : list (string * json)) : result () :=
  raise_if (existsb (λ kv, negb (str_in kv.1 keys)) o) ValidationError "extra".
Definition severities : list (string * FindingSeverity) := (λ s, (FindingSeverity_value s, s)) <$> [FS_BLOCKING; FS_WARNING; FS_INFO].
Definition dispositions : list (string * FindingDisposition) :=
  (λ s, (FindingDisposition_value s, s)) <$> [FD_OPEN; FD_ACCEPTED; FD_MITIGATED; FD_FALSE_POSITIVE].
Definition risks : list (string * ReviewRisk) := (λ s, (ReviewRisk_value s, s)) <$> [RR_LOW; RR_MEDIUM; RR_HIGH; RR_CRITICAL].
Definition finding_of_json (j : json) : result ReviewFinding :=
  match j with
  | JObj o =>
      _ ← no_extra_keys ["finding_id"; "severity"; "summary"; "disposition"] o;
      i ← text_field "finding_id" o;
      sev ← (match obj_get "severity" o with Some j => read_choice "severity" severities j | None => invalid "severity" end);
      s ← text_field "summary" o;
      d ← field_or "disposition" FD_OPEN (read_choice "disposition" dispositions) o;
      new (mkFinding i sev s d)
  | _ => invalid "findings"
  end.
(** [now] is the clock, for the default of [completed_at_utc]. *)
Definition review_of_json (now : Z) (j : json) : result AutonomousReviewReceipt :=
  match j with
  | JObj o =>
      _ ← no_extra_keys ["receipt_id"; "implementer_id"; "reviewer_id"; "implementer_context_fingerprint"; "reviewer_context_fingerprint";
                         "head_sha"; "tree_sha"; "risk"; "criterion_ids"; "findings"; "evidence_ids"; "conflicts"; "reviewer_authority";
                         "completed_at_utc"; "max_age_seconds"; "validation_evidence"] o;
      i ← text_field "receipt_id" o;
      impl ← text_field "implementer_id" o;
      rev ← text_field "reviewer_id" o;
      icf ← text_field "implementer_context_fingerprint" o;
      rcf ← text_field "reviewer_context_fingerprint" o;
      head ← text_field "head_sha" o;
      tree ← text_field "tree_sha" o;
      risk ← field_or "risk" RR_HIGH (read_choice "risk" risks) o;
      criteria ← field_or "criterion_ids" [] (read_texts "criterion_ids") o;
      findings ← field_or "findings" [] (λ j, match j with JList l => traverse finding_of_json l | _ => invalid "findings" end) o;
      evidence ← field_or "evidence_ids" [] (read_texts "evidence_ids") o;
      conflicts ← field_or "conflicts" [] (read_texts "conflicts") o;
      _ ← field_or "reviewer_authority" () (read_choice "reviewer_authority" [("READ_ONLY", ())]) o;
      completed ← field_or "completed_at_utc" now (λ j, s ← read_text "completed_at_utc" j; fromisoformat s) o;
      age ← field_or "max_age_seconds" 86400 (λ j, match j with JInt n => Ok n | _ => invalid "max_age_seconds" end) o;
      proof ← field_or "validation_evidence" [] (λ j, match j with JObj l => Ok l | _ => invalid "validation_evidence" end) o;
      new_review (mkReviewReceipt i impl rev icf rcf head tree risk criteria findings evidence conflicts completed age proof)
  | _ => invalid "receipt"
  end.
(** Receipts survive the way through an operation's payload. *)
Lemma read_texts_JStr key l : traverse (read_text key) (JStr <$> l) = Ok l.
Proof. induction l as [|s l IH]; [done|]. cbn [fmap list_fmap traverse read_text mbind result_bind]. by rewrite IH. Qed.
Lemma finding_roundtrip f : validate f = Ok () → finding_of_json (review_finding_json f) = Ok f.
Proof.
  intros Hv. destruct f as [i sev s d]. cbn [review_finding_json finding_of_json fi_finding_id fi_severity fi_summary fi_disposition].
  destruct sev, d; cbn -[new]; by apply new_valid.
Qed.
Lemma findings_roundtrip l : Forall (λ f, validate f = Ok ()) l → traverse finding_of_json (review_finding_json <$> l) = Ok l.
Proof.
  induction 1 as [|f l Hf _ IH]; [done|]. rewrite fmap_cons. cbn [traverse]. rewrite finding_roundtrip by done. cbn [mbind result_bind].
  by rewrite IH.
Qed.
Lemma review_roundtrip now r : MIN_INSTANT ≤ ar_completed_at_utc r ≤ MAX_INSTANT → new_review r = Ok r →
  review_of_json now (review_json r) = Ok r.
Proof.
  intros Ht Hn. assert (Forall (λ f, validate f = Ok ()) (ar_findings r)) as Hf.
  { unfold new_review in Hn. do 4 (apply bind_ok in Hn as ([] & _ & Hn)). apply bind_ok in Hn as ([] & Hf & _).
    rewrite for_each_ok in Hf. by apply Forall_forall. }
  pose proof (read_texts_JStr "criterion_ids" (ar_criterion_ids r)) as H1. pose proof (read_texts_JStr "evidence_ids" (ar_evidence_ids r)) as H2.
  pose proof (read_texts_JStr "conflicts" (ar_conflicts r)) as H3. pose proof (findings_roundtrip _ Hf) as H4.
  pose proof (fromisoformat_dump _ Ht) as H5. unfold review_json. rewrite json_instant_text.
  generalize dependent (JStr <$> ar_criterion_ids r). intros l1 H1. generalize dependent (JStr <$> ar_evidence_ids r). intros l2 H2.
  generalize dependent (JStr <$> ar_conflicts r). intros l3 H3. generalize dependent (review_finding_json <$> ar_findings r). intros l4 H4.
  generalize dependent (iso_body (ar_completed_at_utc r) +:+ "Z"). intros t H5. cbn -[new_review traverse finding_of_json fromisoformat].
  rewrite H1. cbn -[new_review traverse finding_of_json fromisoformat]. rewrite H4. cbn -[new_review traverse finding_of_json fromisoformat].
  rewrite H2. cbn -[new_review traverse finding_of_json fromisoformat]. rewrite H3. cbn -[new_review traverse finding_of_json fromisoformat].
  rewrite H5. cbn -[new_review]. destruct r as [i impl rev icf rcf head tree risk cr fi ev co tt age proof]. by destruct risk.
Qed.

(** ** Operations *)
Record GitHubOperation := mkOperation {
  go_operation_id : string; go_operation_type : GitOperationType; go_repository_slug : string; go_target : string;
  go_request_fingerprint : string; go_idempotency_key : string; go_state : GitOperationState; go_expected_head_sha : option string;
  go_authorization_id : option string; go_actor_id : string; go_correlation_id : string; go_payload : list (string * json);
  go_observed_result : option (list (string * json)); go_created_at_utc : Z; go_updated_at_utc : Z;
}.
#[export] Instance GitHubOperation_model : Model GitHubOperation := λ o,
  _ ← raise_if (negb (is_hex64 (go_request_fingerprint o))) ValidationError "request_fingerprint";
  _ ← raise_if (negb (min_length 1 (go_idempotency_key o) && max_length 255 (go_idempotency_key o))) ValidationError "idempotency_key";
  carries_github_id "GHOP-" (go_operation_id o) "invalid GitHub operation identifier".
Definition create_operation (t : GitOperationType) (slug target key actor correlation : string) (payload : list (string * json))
    (expected : option string) (now : Z) : result GitHubOperation :=
  let fingerprint := json_fingerprint (JObj [("type", JStr (GitOperationType_value t)); ("repo", JStr slug); ("target", JStr target);
                                             ("payload", JObj payload); ("expected", JOptStr expected)]) in
  id ← github_identifier "GHOP" [GitOperationType_value t; slug; target; fingerprint];
  new (mkOperation id t slug target fingerprint key GO_PLANNED expected None actor correlation payload None now now).
(** [operation.model_copy(update={...})]. *)
Definition operation_copy (s : GitOperationState) (auth : option string) (observed : option (list (string * json))) (now : Z) (o : GitHubOperation)
  : GitHubOperation :=
  mkOperation (go_operation_id o) (go_operation_type o) (go_repository_slug o) (go_target o) (go_request_fingerprint o) (go_idempotency_key o)
    s (go_expected_head_sha o) auth (go_actor_id o) (go_correlation_id o) (go_payload o) observed (go_created_at_utc o) now.
Record GitHubOperationReceipt := mkReceipt {
  gr_receipt_id : string; gr_operation_id : string; gr_state : GitOperationState; gr_provider : string;
  gr_external_identifier : option string; gr_observed_result : option (list (string * json)); gr_reconciliation_required : bool;
}.
#[export] Instance GitHubOperationReceipt_model : Model GitHubOperationReceipt := λ r,
  carries_github_id "GHREC-" (gr_receipt_id r) "invalid GitHub receipt identifier".
Record LifecycleStep := mkLifecycleStep {
  ls_step_id : string; ls_operation_type : GitOperationType; ls_state : GitOperationState; ls_intent_fingerprint : string;
  ls_expected_head_sha : option string; ls_readback : list (string * json); ls_unknown_outcome : bool;
}.
#[export] Instance LifecycleStep_model : Model LifecycleStep := λ s,
  raise_if (negb (is_hex64 (ls_intent_fingerprint s))) ValidationError "intent_fingerprint".
Record LifecycleRecord := mkLifecycleRecord {
  lc_lifecycle_id : string; lc_repository_slug : string; lc_pull_number : Z; lc_head_sha : string; lc_steps : list LifecycleStep;
  lc_jira_reconciled : bool; lc_integrated_tree_verified : bool; lc_cleanup_completed : bool;
}.
#[export] Instance LifecycleRecord_model : Model LifecycleRecord := λ r,
  _ ← raise_if (lc_pull_number r <? 1) ValidationError "pull_number";
  carries_github_id "GHLIF-" (lc_lifecycle_id r) "invalid lifecycle identifier".

(** ** Ownership *)
Record ResourceOwnershipClaim := mkOwnership {
  ow_ownership_id : string; ow_repository_slug : string; ow_resource_kind : OwnershipKind; ow_resource : string; ow_owner_task_id : string;
  ow_workspace_id : string; ow_state : OwnershipState; ow_acquired_at_utc : Z; ow_expires_at_utc : option Z;
}.
#[export] Instance ResourceOwnershipClaim_model : Model ResourceOwnershipClaim := λ c,
  _ ← raise_if (negb (min_length 1 (ow_resource c) && max_length 2000 (ow_resource c))) ValidationError "resource";
  _ ← raise_if (negb (min_length 1 (ow_owner_task_id c) && max_length 128 (ow_owner_task_id c))) ValidationError "owner_task_id";
  _ ← raise_if (negb (min_length 1 (ow_workspace_id c) && max_length 128 (ow_workspace_id c))) ValidationError "workspace_id";
  _ ← carries_github_id "GHOWN-" (ow_ownership_id c) "invalid ownership identifier";
  raise_if (match ow_expires_at_utc c with Some e => e <=? ow_acquired_at_utc c | None => false end) ValueError
    "ownership expiry must follow acquisition".
