(* ===== verification/MergeGate.v ===== *)
(** * MergeGate: [github_steward/merge_gate.py], [autonomous_review.py], [protection_drift.py]

    What keeps a pull request from being merged. *)
From S2P Require Import Prelude PyStd PyRe PyJson Identifiers TaskState ControlDomain SchedulerDomain IsoInstant GitDomain.
From Stdlib Require Import Ascii.
Local Open Scope Z_scope.

(** [if bad: blockers.append(code)]. *)
Definition block (bad : bool) (code : string) : list string := if bad then [code] else [].
(** [tuple(sorted(set(codes)))]. *)
Definition sorted_codes (l : list string) : list string := sorted_by (λ s, s) (remove_dups l).

(** ** Autonomous review *)
Definition MAX_AUTONOMOUS_REVIEW_AGE_SECONDS : Z := 3600.
Definition review_blockers (r : AutonomousReviewReceipt) (expected_head_sha : string) (expected_tree_sha : option string) (now : Z)
  : list string :=
  let age := now - ar_completed_at_utc r in
  let allowed_age := Z.min (ar_max_age_seconds r) MAX_AUTONOMOUS_REVIEW_AGE_SECONDS in
  block (String.eqb (ar_implementer_id r) (ar_reviewer_id r)) "self_review"
  ++ block (String.eqb (ar_implementer_context_fingerprint r) (ar_reviewer_context_fingerprint r)) "same_context_fingerprint"
  ++ block (negb (bool_decide (ar_conflicts r = []))) "review_conflicts"
  ++ block (negb (String.eqb (ar_head_sha r) (str_lower expected_head_sha))) "review_head_mismatch"
  ++ block (match expected_tree_sha with Some t => str_truthy t && negb (String.eqb (ar_tree_sha r) (str_lower t)) | None => false end)
       "review_tree_mismatch"
  ++ block (negb (Nat.eqb (blocking_finding_count r) 0)) "unresolved_blocking_findings"
  ++ block (allowed_age * 1000000 <? age) "stale_review"
  ++ block (age <? 0) "review_timestamp_in_future".
Definition evaluate_autonomous_review (r : AutonomousReviewReceipt) (expected_head_sha : string) (expected_tree_sha : option string) (now : Z)
  : bool * list string :=
  let blockers := review_blockers r expected_head_sha expected_tree_sha now in
  (bool_decide (blockers = []), sorted_codes blockers).

(** ** Protection drift *)
Definition DEFAULT_REQUIRED_CHECKS : list string :=
  ["Python 3.11 verification"; "Python 3.13 verification"; "dependency-audit"; "Python CodeQL"].
Definition DEFAULT_REQUIRED_CHECK_APP_IDS : list (option Z) := [Some 15368; Some 15368; Some 15368; None].
Definition expected_main_protection (slug branch : string) (required_checks : list string) : GitHubBranchProtection :=
  mkProtection slug branch true required_checks
    (if bool_decide (required_checks = DEFAULT_REQUIRED_CHECKS) then DEFAULT_REQUIRED_CHECK_APP_IDS else [])
    false true true 0 true false false true true true false false.
Definition PROJECT_MAIN : string * string := ("KevinSGarrett/ProjectPipeline", "main").
Definition is_full_policy (observed : GitHubBranchProtection) (policy : string) : bool :=
  String.eqb policy "autonomous_main"
  || (String.eqb policy "auto" && bool_decide ((bp_repository_slug observed, bp_branch observed) = PROJECT_MAIN)).
(** [dict(zip(names, apps))]: the last of equal names counts. *)
Definition app_by_name (names : list string) (apps : list (option Z)) (name : string) : option (option Z) :=
  snd <$> List.find (λ na, String.eqb na.1 name) (reverse (zip names apps)).
Definition app_drifts (observed : GitHubBranchProtection) : list string :=
  let apps := bp_required_status_check_app_ids observed in
  let by_name := app_by_name (bp_required_status_checks observed) apps in
  let bound := List.filter (λ na, negb (bool_decide (na.2 = None))) (zip DEFAULT_REQUIRED_CHECKS DEFAULT_REQUIRED_CHECK_APP_IDS) in
  let missing_app := bool_decide (apps = []) || existsb (λ na, bool_decide (by_name na.1 = None) || bool_decide (by_name na.1 = Some None)) bound in
  let changed_app := existsb (λ na, match by_name na.1 with Some (Some x) => negb (bool_decide (Some x = na.2)) | _ => false end) bound in
  block missing_app "required_check_app_id_missing"
  ++ block (changed_app || (negb (bool_decide (apps = [])) && negb missing_app && negb (bool_decide (apps = DEFAULT_REQUIRED_CHECK_APP_IDS))))
       "required_check_app_id_changed".
Definition drift_codes (full_policy : bool) (expected_checks : list string) (observed : GitHubBranchProtection) : list string :=
  block (negb (bp_protected observed)) "branch_unprotected"
  ++ block (negb (bp_reviews_object_present observed)) "reviews_object_absent"
  ++ block (bp_contexts_only_required_checks observed) "contexts_only_required_checks"
  ++ (if bool_decide (bp_required_status_checks observed = []) then ["required_checks_empty"]
      else block (negb (bool_decide (sorted_by (λ s, s) (bp_required_status_checks observed) = sorted_by (λ s, s) expected_checks)))
             "required_checks_drifted")
  ++ (if full_policy then app_drifts observed else [])
  ++ block (bp_allow_force_pushes observed) "force_pushes_allowed"
  ++ block (bp_allow_deletions observed) "default_branch_deletion_allowed"
  ++ block (bp_require_last_push_approval observed) "last_push_approval_required"
  ++ (if full_policy then
        block (negb (bp_required_status_checks_strict observed)) "strict_checks_disabled"
        ++ block (negb (bp_required_approving_review_count observed =? 0)) "human_approval_count_not_zero"
        ++ block (bp_require_code_owner_reviews observed) "code_owner_reviews_required"
        ++ block (negb (bp_dismiss_stale_reviews observed)) "stale_reviews_not_dismissed"
        ++ block (negb (bp_enforce_admins observed)) "admin_enforcement_disabled"
        ++ block (negb (bp_require_linear_history observed)) "linear_history_disabled"
        ++ block (negb (bp_require_conversation_resolution observed)) "conversation_resolution_disabled"
      else []).
Definition evaluate_protection_drift (observed : GitHubBranchProtection) (required_checks : option (list string)) (policy : string)
  : result ProtectionDriftDecision :=
  let full_policy := is_full_policy observed policy in
  let expected_checks :=
    if full_policy then DEFAULT_REQUIRED_CHECKS
    else match required_checks with Some (x :: l) => x :: l | _ => bp_required_status_checks observed end in
  let e := expected_main_protection (bp_repository_slug observed) (bp_branch observed) expected_checks in
  let expected :=
    if full_policy then e
    else mkProtection (bp_repository_slug e) (bp_branch e) (bp_protected e) (bp_required_status_checks e) (bp_required_status_check_app_ids e)
           (bp_contexts_only_required_checks e) (bp_required_status_checks_strict e) (bp_reviews_object_present e)
           (bp_required_approving_review_count observed) (bp_dismiss_stale_reviews observed) (bp_require_code_owner_reviews observed) false
           (bp_enforce_admins observed) (bp_require_linear_history observed) (bp_require_conversation_resolution observed)
           (bp_allow_force_pushes e) (bp_allow_deletions e) in
  let drifts := drift_codes full_policy expected_checks observed in
  decision_id ← github_identifier "GHDRF"
    [bp_repository_slug observed; bp_branch observed; if bool_decide (drifts = []) then "aligned" else str_join "," drifts];
  new (mkDrift decision_id (bp_repository_slug observed) (bp_branch observed) (bool_decide (drifts = [])) (sorted_by (λ s, s) drifts) observed expected).

(** ** The gate *)
Definition SUCCESS_CHECKS : list (option CheckConclusion) := [Some CC_SUCCESS; Some CC_NEUTRAL; Some CC_SKIPPED].
(** One review, with the blockers so far and the latest review per author. *)
Definition take_review (author : option string) (evaluated_head : string) (acc : list string * list (string * PullRequestReview))
    (r : PullRequestReview) : list string * list (string * PullRequestReview) :=
  let '(blockers, latest) := acc in
  if opt_truthy author && str_truthy (rv_author r) && bool_decide (Some (rv_author r) = author) then
    (blockers ++ block (bool_decide (rv_state r = RV_APPROVED)) "self_review", latest)
  else if negb (String.eqb (str_lower (default "" (rv_commit_sha r))) evaluated_head) then
    (blockers ++ (if bool_decide (rv_state r = RV_APPROVED) then ["stale_review"]
                  else block (bool_decide (rv_state r = RV_CHANGES_REQUESTED)) "changes_requested"), latest)
  else (blockers, List.filter (λ ar, negb (String.eqb ar.1 (rv_author r))) latest ++ [(rv_author r, r)]).
Definition check_blockers (checks : list PullRequestCheck) (name : string) : list string :=
  let named := List.filter (λ c, String.eqb (ck_name c) name) checks in
  if (1 <? length named)%nat && (1 <? length (remove_dups (ck_app_id <$> named)))%nat then ["required_check_ambiguous:" +:+ name]
  else match named with
       | [] => ["required_check_missing:" +:+ name]
       | c :: _ =>
           if negb (bool_decide (ck_state c = CK_COMPLETED)) then ["required_check_incomplete:" +:+ name]
           else block (negb (bool_decide (ck_conclusion c ∈ SUCCESS_CHECKS))) ("required_check_failed:" +:+ name)
       end.
Definition binding_blockers (checks : list PullRequestCheck) (binding : string * option Z) : list string :=
  match binding.2 with
  | None => []
  | Some app => block (negb (existsb (λ c, String.eqb (ck_name c) binding.1 && bool_decide (ck_app_id c = Some app)) checks))
                  ("required_check_app_id_missing:" +:+ binding.1)
  end.
Definition review_key (p : PullRequestSnapshot) (r : PullRequestReview) : Z := default (pl_updated_at_utc p) (rv_submitted_at_utc r).
Definition reviewed (p : PullRequestSnapshot) (require_head_sha : option string) : list string * list (string * PullRequestReview) :=
  let evaluated_head := str_lower (if opt_truthy require_head_sha then default "" require_head_sha else pl_head_sha p) in
  foldl (take_review (pl_author p) evaluated_head) ([], []) (sorted_by (review_key p) (pl_reviews p)).
Definition approval_count (latest : list (string * PullRequestReview)) : Z :=
  Z.of_nat (length (List.filter (λ ar, bool_decide (rv_state ar.2 = RV_APPROVED)) latest)).
Record gate_options := mkGateOptions {
  op_guardian_safe : option bool; op_required_checks : list string; op_approvals_required : Z; op_require_head_sha : option string;
  op_autonomous_review : option AutonomousReviewReceipt; op_expected_tree_sha : option string;
  op_protection_drift : option ProtectionDriftDecision;
}.
(** The acceptance of an autonomous review and what it adds. *)
Definition autonomous_part (p : PullRequestSnapshot) (o : gate_options) (now : Z) : bool * list string :=
  if negb (op_approvals_required o =? 0) then (false, [])
  else match op_autonomous_review o with
       | None => (false, ["autonomous_review_missing"])
       | Some r =>
           let head := if opt_truthy (op_require_head_sha o) then default "" (op_require_head_sha o) else pl_head_sha p in
           let '(accepted, blockers) := evaluate_autonomous_review r head (op_expected_tree_sha o) now in
           (accepted, blockers ++ block (negb accepted) "autonomous_review_rejected")
       end.
Definition gate_blockers (p : PullRequestSnapshot) (o : gate_options) (now : Z) : list string :=
  let '(from_reviews, latest) := reviewed p (op_require_head_sha o) in
  block (negb (bool_decide (pl_state p = PULL_OPEN))) "pull_request_not_open"
  ++ block (pl_draft p) "pull_request_is_draft"
  ++ block (bool_decide (pl_mergeable p = Some false)) "pull_request_has_merge_conflict"
  ++ block (bool_decide (pl_mergeable p = None)) "mergeability_unknown"
  ++ block (opt_truthy (op_require_head_sha o) && negb (String.eqb (pl_head_sha p) (str_lower (default "" (op_require_head_sha o)))))
       "pull_request_head_changed"
  ++ from_reviews
  ++ block (existsb (λ ar, bool_decide (rv_state ar.2 = RV_CHANGES_REQUESTED)) latest) "changes_requested"
  ++ block ((0 <? op_approvals_required o) && (approval_count latest <? op_approvals_required o)) "insufficient_approvals"
  ++ (autonomous_part p o now).2
  ++ concat (check_blockers (pl_checks p) <$> op_required_checks o)
  ++ (match op_protection_drift o with
      | None => []
      | Some d => block (bp_contexts_only_required_checks (dr_observed d)) "required_checks_contexts_only"
                  ++ concat (binding_blockers (pl_checks p)
                       <$> zip (bp_required_status_checks (dr_observed d)) (bp_required_status_check_app_ids (dr_observed d)))
      end)
  ++ block (match op_guardian_safe o with Some safe => negb safe | None => false end) "branch_guardian_blocked"
  ++ block (match op_protection_drift o with Some d => negb (dr_aligned d) | None => false end) "protection_changed".
Definition evaluate_merge_gate (p : PullRequestSnapshot) (o : gate_options) (now : Z) : result MergeGateDecision :=
  let blockers := gate_blockers p o now in
  let state := if bool_decide (blockers = []) then MG_READY else MG_BLOCKED in
  gate_id ← github_identifier "GHGATE" [pl_repository_slug p; str_of_Z (pl_number p); pl_head_sha p; MergeGateState_value state];
  new (mkGate gate_id (pl_repository_slug p) (pl_number p) (pl_head_sha p) state (sorted_codes blockers)
         (block (bool_decide (pl_mergeable p = None)) "mergeability_not_yet_known") (op_required_checks o)
         (sorted_codes (ck_name <$> pl_checks p)) (op_approvals_required o) (approval_count (reviewed p (op_require_head_sha o)).2)
         (if op_approvals_required o =? 0 then ar_receipt_id <$> op_autonomous_review o else None)
         (autonomous_part p o now).1 (match op_protection_drift o with Some d => dr_drifts d | None => [] end)).
