(* ===== verification/GateRules.v ===== *)
(** * GateRules: the merge gate opens exactly when it should

    The blockers of the gate against a specification in terms of the pull
    request: who approved it last and at which commit, which checks passed. *)
From S2P Require Import Prelude PyStd PyRe PyJson Identifiers TaskState ControlDomain SchedulerDomain IsoInstant GitDomain MergeGate.
From Stdlib Require Import Ascii.
Local Open Scope Z_scope.

(** ** Lists of blockers *)
Lemma block_nil bad code : block bad code = [] ↔ bad = false.
Proof. by destruct bad. Qed.
Lemma app_nil_iff {A} (l k : list A) : l ++ k = [] ↔ l = [] ∧ k = [].
Proof. split; [apply app_nil|by intros [-> ->]]. Qed.
Lemma concat_nil {A B} (f : A → list B) l : concat (f <$> l) = [] ↔ ∀ x, x ∈ l → f x = [].
Proof.
  induction l as [|x l IH].
  - split; [intros _ x Hx%elem_of_nil; done|done].
  - rewrite fmap_cons. cbn [concat]. rewrite app_nil_iff, IH. split.
    + intros [Hx Hl] y [->|Hy]%elem_of_cons; [done|by apply Hl].
    + intros H. split; [apply H; by left|]. intros y Hy. apply H. by right.
Qed.

(** ** Reviews *)
(** A review of the author of the pull request. *)
Definition own (author : option string) (r : PullRequestReview) : bool :=
  opt_truthy author && str_truthy (rv_author r) && bool_decide (Some (rv_author r) = author).
Definition at_head (head : string) (r : PullRequestReview) : bool := String.eqb (str_lower (default "" (rv_commit_sha r))) head.
(** Reviews that count: of others, at the head that is evaluated. *)
Definition counts (author : option string) (head : string) (r : PullRequestReview) : bool := negb (own author r) && at_head head r.
(** The last word of a reviewer in a list of reviews. *)
Definition last_word (author : option string) (head : string) (l : list PullRequestReview) (a : string) (r : PullRequestReview) : Prop :=
  ∃ before after, l = before ++ r :: after ∧ counts author head r = true ∧ rv_author r = a
    ∧ ∀ r', r' ∈ after → counts author head r' = true → rv_author r' ≠ a.
Definition harmless (author : option string) (head : string) (r : PullRequestReview) : Prop :=
  (own author r = true → rv_state r ≠ RV_APPROVED)
  ∧ (own author r = false → at_head head r = false → rv_state r ≠ RV_APPROVED ∧ rv_state r ≠ RV_CHANGES_REQUESTED).
Lemma last_word_snoc author head l a r x : last_word author head (l ++ [x]) a r ↔
  (counts author head x = true ∧ rv_author x = a ∧ r = x)
  ∨ (¬ (counts author head x = true ∧ rv_author x = a) ∧ last_word author head l a r).
Proof.
  split.
  - intros (before & after & E & Hc & Ha & Hlater). destruct after as [|y after _] using rev_ind.
    + apply app_inj_tail in E as [-> ->]. by left.
    + rewrite app_comm_cons, app_assoc in E. apply app_inj_tail in E as [-> ->]. right. split.
      * intros [Hy Hay]. apply (Hlater y); [apply elem_of_app; right; by left|done|done].
      * exists before, after. split_and!; try done. intros r' Hr'. apply Hlater. apply elem_of_app. by left.
  - intros [(Hc & Ha & ->)|(Hn & before & after & -> & Hc & Ha & Hlater)].
    + exists l, []. split_and!; try done. by intros r' ?%elem_of_nil.
    + exists before, (after ++ [x]). split; [by rewrite <-app_assoc|]. split_and!; try done.
      intros r' [Hr'|Hr']%elem_of_app Hc'; [by apply Hlater|]. apply list_elem_of_singleton in Hr' as ->. intros Ha'. by apply Hn.
Qed.
Definition folded (author : option string) (head : string) (l : list PullRequestReview) : list string * list (string * PullRequestReview) :=
  foldl (take_review author head) ([], []) l.
Lemma folded_snoc author head l x : folded author head (l ++ [x]) = take_review author head (folded author head l) x.
Proof. unfold folded. by rewrite foldl_app. Qed.
Lemma folded_latest author head l a r : (a, r) ∈ (folded author head l).2 ↔ last_word author head l a r.
Proof.
  revert a r. induction l as [|x l IH] using rev_ind; intros a r.
  - split; [by intros ?%elem_of_nil|]. intros (before & after & E & _). by destruct before.
  - rewrite folded_snoc, last_word_snoc, <-IH. unfold take_review. destruct (folded author head l) as [blockers latest]. cbn [snd].
    fold (own author x) (at_head head x). unfold counts. destruct (own author x); cbn [negb andb snd]; [naive_solver|].
    destruct (at_head head x); cbn [negb snd]; [|naive_solver].
    rewrite elem_of_app, list_elem_of_singleton, elem_of_List_filter. cbn. rewrite negb_true_iff, String.eqb_neq. naive_solver.
Qed.
Lemma folded_keys author head l : NoDup (folded author head l).2.*1.
Proof.
  induction l as [|x l IH] using rev_ind; [constructor|]. rewrite folded_snoc. unfold take_review.
  destruct (folded author head l) as [blockers latest]. cbn [snd] in IH |- *. destruct (_ && _); [done|]. destruct (negb _); [done|]. cbn [snd].
  rewrite fmap_app. apply NoDup_app. split_and!.
  - eapply sublist_NoDup; [exact IH|]. apply fmap_sublist, filter_sublist.
  - intros a ([a' r] & -> & Hin)%list_elem_of_fmap Ha. apply elem_of_List_filter in Hin as [_ Hn]. cbn in *.
    apply negb_true_iff, String.eqb_neq in Hn. by apply list_elem_of_singleton in Ha.
  - apply NoDup_singleton.
Qed.
Lemma folded_blockers author head l : (folded author head l).1 = [] ↔ ∀ r, r ∈ l → harmless author head r.
Proof.
  induction l as [|x l IH] using rev_ind.
  - split; [intros _ r ?%elem_of_nil; done|done].
  - rewrite folded_snoc. unfold take_review. destruct (folded author head l) as [blockers latest]. cbn [fst] in IH.
    fold (own author x) (at_head head x).
    assert (∀ P : Prop, (P ↔ harmless author head x) → (blockers = [] ∧ P) ↔ ∀ r, r ∈ l ++ [x] → harmless author head r) as Hsplit.
    { intros P HP. rewrite IH, HP. setoid_rewrite elem_of_app. setoid_rewrite list_elem_of_singleton. naive_solver. }
    unfold harmless in Hsplit |- *. destruct (own author x) eqn:Eo; cbn [fst].
    + rewrite app_nil_iff, block_nil, bool_decide_eq_false. apply Hsplit. naive_solver.
    + destruct (at_head head x) eqn:Eh; cbn [negb fst].
      * rewrite <-(Hsplit True); naive_solver.
      * rewrite app_nil_iff. apply Hsplit. case_bool_decide; [naive_solver|]. rewrite block_nil, bool_decide_eq_false. naive_solver.
Qed.

(** ** Checks *)
Lemma remove_dups_one {A} `{EqDecision A} (l : list A) : (length (remove_dups l) ≤ 1)%nat ↔ ∀ x y, x ∈ l → y ∈ l → x = y.
Proof.
  split.
  - intros Hl x y Hx Hy. apply elem_of_remove_dups in Hx, Hy. destruct (remove_dups l) as [|z [|]]; [by apply elem_of_nil in Hx| |cbn in Hl; lia].
    apply list_elem_of_singleton in Hx, Hy. congruence.
  - intros Heq. pose proof (NoDup_remove_dups l) as Hnd. destruct (remove_dups l) as [|x [|y k]] eqn:E; cbn; [lia|lia|].
    assert (x = y) as ->. { apply Heq; apply elem_of_remove_dups; rewrite E; set_solver. }
    apply NoDup_cons in Hnd as [Hn _]. destruct Hn. by left.
Qed.
(** The check of this name is done and passed, and there are no two apps that
    report it. *)
Definition check_passed (checks : list PullRequestCheck) (name : string) : Prop :=
  ∃ c rest, List.filter (λ c, String.eqb (ck_name c) name) checks = c :: rest ∧ ck_state c = CK_COMPLETED ∧ ck_conclusion c ∈ SUCCESS_CHECKS
    ∧ ∀ c', c' ∈ checks → ck_name c' = name → ck_app_id c' = ck_app_id c.
Lemma check_blockers_nil checks name : check_blockers checks name = [] ↔ check_passed checks name.
Proof.
  unfold check_blockers, check_passed. cbv zeta. set (named := List.filter _ checks).
  assert (∀ c, c ∈ named ↔ c ∈ checks ∧ ck_name c = name) as Hnamed.
  { intros c. unfold named. by rewrite elem_of_List_filter, String.eqb_eq. }
  assert ((1 <? length named)%nat && (1 <? length (remove_dups (ck_app_id <$> named)))%nat = false
          ↔ ∀ c c', c ∈ named → c' ∈ named → ck_app_id c' = ck_app_id c) as Hamb.
  { rewrite andb_false_iff, !Nat.ltb_ge, remove_dups_one. setoid_rewrite list_elem_of_fmap. split.
    - intros [Hl|Heq] c c' Hc Hc'; [|eapply Heq; eauto]. destruct named as [|x [|]]; [by apply elem_of_nil in Hc| |cbn in Hl; lia].
      apply list_elem_of_singleton in Hc, Hc'. congruence.
    - intros Hall. right. intros ? ? (c & -> & Hc) (c' & -> & Hc'). by apply Hall. }
  destruct (_ && _).
  - split; [done|]. intros (c & rest & Hn & _ & _ & Hall). destruct Hamb as [_ Hamb]. discriminate Hamb. intros c1 c2 H1 H2.
    apply Hnamed in H1 as [H1 N1], H2 as [H2 N2]. by rewrite (Hall c1), (Hall c2).
  - destruct Hamb as [Hamb _]. specialize (Hamb eq_refl). destruct named as [|c rest] eqn:En; [naive_solver|].
    assert (∀ c', c' ∈ checks → ck_name c' = name → ck_app_id c' = ck_app_id c) as Happ.
    { intros c' Hc' Hn'. apply Hamb; [by left|]. by apply Hnamed. }
    case_bool_decide as Hs; cbn [negb]; [rewrite block_nil, negb_false_iff, bool_decide_eq_true|]; naive_solver.
Qed.
Definition binding_met (checks : list PullRequestCheck) (binding : string * option Z) : Prop :=
  ∀ app, binding.2 = Some app → ∃ c, c ∈ checks ∧ ck_name c = binding.1 ∧ ck_app_id c = Some app.
Lemma binding_blockers_nil checks binding : binding_blockers checks binding = [] ↔ binding_met checks binding.
Proof.
  unfold binding_blockers, binding_met. destruct binding as [name [app|]]; cbn [fst snd]; [|naive_solver].
  rewrite block_nil, negb_false_iff, existsb_exists. setoid_rewrite andb_true_iff. setoid_rewrite String.eqb_eq. setoid_rewrite bool_decide_eq_true.
  setoid_rewrite <-list_elem_of_In. naive_solver.
Qed.

(** ** Autonomous reviews *)
(** An independent review of this head that found nothing left open, done
    within the last hour at most. *)
Definition review_sound (r : AutonomousReviewReceipt) (head : string) (tree : option string) (now : Z) : Prop :=
  ar_implementer_id r ≠ ar_reviewer_id r ∧ ar_implementer_context_fingerprint r ≠ ar_reviewer_context_fingerprint r ∧ ar_conflicts r = []
  ∧ ar_head_sha r = str_lower head ∧ (∀ t, tree = Some t → t ≠ "" → ar_tree_sha r = str_lower t)
  ∧ (∀ f, f ∈ ar_findings r → fi_severity f = FS_BLOCKING → fi_disposition f ≠ FD_OPEN)
  ∧ 0 ≤ now - ar_completed_at_utc r ≤ Z.min (ar_max_age_seconds r) 3600 * 1000000.
Lemma no_blocking r : blocking_finding_count r = 0%nat ↔ ∀ f, f ∈ ar_findings r → fi_severity f = FS_BLOCKING → fi_disposition f ≠ FD_OPEN.
Proof.
  unfold blocking_finding_count. set (p := λ f, bool_decide (fi_severity f = FS_BLOCKING) && bool_decide (fi_disposition f = FD_OPEN)).
  assert (∀ f, f ∈ List.filter p (ar_findings r) ↔ f ∈ ar_findings r ∧ fi_severity f = FS_BLOCKING ∧ fi_disposition f = FD_OPEN) as Hp.
  { intros f. rewrite elem_of_List_filter. unfold p. by rewrite andb_true_iff, !bool_decide_eq_true. }
  destruct (List.filter p (ar_findings r)) as [|f l]; cbn; split; try done.
  - intros _ f Hf Hs Hd. assert (f ∈ @nil ReviewFinding) as Hin by (by apply Hp). by apply elem_of_nil in Hin.
  - intros Hall. assert (f ∈ f :: l) as Hin by (by left). apply Hp in Hin as (Hf & Hs & Hd). by destruct (Hall f Hf Hs).
Qed.
Lemma review_blockers_nil r head tree now : review_blockers r head tree now = [] ↔ review_sound r head tree now.
Proof.
  unfold review_blockers, review_sound, MAX_AUTONOMOUS_REVIEW_AGE_SECONDS. cbv zeta. rewrite !app_nil_iff, !block_nil, !negb_false_iff.
  rewrite !String.eqb_neq, String.eqb_eq, bool_decide_eq_true, Nat.eqb_eq, no_blocking, !Z.ltb_ge.
  assert (match tree with Some t => str_truthy t && negb (String.eqb (ar_tree_sha r) (str_lower t)) | None => false end = false
          ↔ ∀ t, tree = Some t → t ≠ "" → ar_tree_sha r = str_lower t) as ->; [|split; intros; destruct_and?; split_and!; try done; lia].
  destruct tree as [t|]; [|naive_solver]. destruct t as [|ch t]; cbn [str_truthy andb]; [naive_solver|].
  rewrite negb_false_iff, String.eqb_eq. naive_solver.
Qed.
Lemma sorted_codes_nil l : sorted_codes l = [] ↔ l = [].
Proof.
  split; [|by intros ->]. intros E. destruct l as [|x l]; [done|]. assert (x ∈ sorted_codes (x :: l)) as Hin.
  { unfold sorted_codes. apply elem_of_sorted_by, elem_of_remove_dups. by left. }
  rewrite E in Hin. by apply elem_of_nil in Hin.
Qed.
Lemma autonomous_nil p o now : (autonomous_part p o now).2 = [] ↔ (op_approvals_required o = 0 → ∃ r, op_autonomous_review o = Some r
  ∧ review_sound r (if opt_truthy (op_require_head_sha o) then default "" (op_require_head_sha o) else pl_head_sha p) (op_expected_tree_sha o) now).
Proof.
  unfold autonomous_part. destruct (Z.eqb_spec (op_approvals_required o) 0); cbn [negb]; [|naive_solver].
  destruct (op_autonomous_review o) as [r|]; [|naive_solver]. unfold evaluate_autonomous_review. cbv zeta. cbn [snd].
  rewrite app_nil_iff, sorted_codes_nil, block_nil, negb_false_iff, bool_decide_eq_true. split.
  - intros [Hs _] _. exists r. split; [done|]. by apply review_blockers_nil.
  - intros H. destruct H as (r' & [= <-] & Hs); [done|]. apply review_blockers_nil in Hs. done.
Qed.

(** ** The gate *)
Definition evaluated_head (p : PullRequestSnapshot) (o : gate_options) : string :=
  str_lower (if opt_truthy (op_require_head_sha o) then default "" (op_require_head_sha o) else pl_head_sha p).
(** The reviewers whose last word at the head approves. *)
Definition approver (p : PullRequestSnapshot) (o : gate_options) (a : string) : Prop :=
  ∃ r, last_word (pl_author p) (evaluated_head p o) (sorted_by (review_key p) (pl_reviews p)) a r ∧ rv_state r = RV_APPROVED.
(** What the gate stands for. *)
Record may_merge (p : PullRequestSnapshot) (o : gate_options) (now : Z) : Prop := {
  mm_open : pl_state p = PULL_OPEN ∧ pl_draft p = false ∧ pl_mergeable p = Some true;
  mm_head : ∀ h, op_require_head_sha o = Some h → h ≠ "" → pl_head_sha p = str_lower h;
  mm_reviews : ∀ r, r ∈ pl_reviews p → harmless (pl_author p) (evaluated_head p o) r;
  mm_no_objection : ∀ a r, last_word (pl_author p) (evaluated_head p o) (sorted_by (review_key p) (pl_reviews p)) a r →
    rv_state r ≠ RV_CHANGES_REQUESTED;
  mm_approved : 0 < op_approvals_required o →
    ∃ approvers, NoDup approvers ∧ op_approvals_required o ≤ Z.of_nat (length approvers) ∧ ∀ a, a ∈ approvers → approver p o a;
  mm_autonomous : op_approvals_required o = 0 → ∃ r, op_autonomous_review o = Some r
    ∧ review_sound r (if opt_truthy (op_require_head_sha o) then default "" (op_require_head_sha o) else pl_head_sha p) (op_expected_tree_sha o) now;
  mm_checks : ∀ name, name ∈ op_required_checks o → check_passed (pl_checks p) name;
  mm_protection : ∀ d, op_protection_drift o = Some d → dr_aligned d = true ∧ bp_contexts_only_required_checks (dr_observed d) = false
    ∧ ∀ b, b ∈ zip (bp_required_status_checks (dr_observed d)) (bp_required_status_check_app_ids (dr_observed d)) → binding_met (pl_checks p) b;
  mm_guardian : op_guardian_safe o ≠ Some false;
}.
Lemma approvals_spec p o n : let latest := (reviewed p (op_require_head_sha o)).2 in
  n ≤ approval_count latest ↔ ∃ approvers, NoDup approvers ∧ n ≤ Z.of_nat (length approvers) ∧ ∀ a, a ∈ approvers → approver p o a.
Proof.
  cbv zeta. unfold reviewed. fold (evaluated_head p o).
  set (l := sorted_by (review_key p) (pl_reviews p)). fold (folded (pl_author p) (evaluated_head p o) l).
  set (latest := (folded (pl_author p) (evaluated_head p o) l).2). unfold approval_count.
  set (ok := List.filter (λ ar, bool_decide (rv_state ar.2 = RV_APPROVED)) latest).
  assert (NoDup ok.*1) as Hnd. { eapply sublist_NoDup; [apply folded_keys|]. apply fmap_sublist, filter_sublist. }
  assert (∀ a, a ∈ ok.*1 ↔ approver p o a) as Hin.
  { intros a. unfold approver. rewrite list_elem_of_fmap. split.
    - intros ([a' r] & -> & Ho). apply elem_of_List_filter in Ho as [Hl Hs%bool_decide_eq_true]. apply folded_latest in Hl. by exists r.
    - intros (r & Hl & Hs). exists (a, r). split; [done|]. apply elem_of_List_filter. split; [by apply folded_latest|]. by apply bool_decide_eq_true. }
  split.
  - intros Hn. exists ok.*1. rewrite length_fmap. split_and!; try done. intros a. apply Hin.
  - intros (approvers & Ha & Hn & Hall). etrans; [exact Hn|]. rewrite <-(length_fmap fst ok). apply inj_le. apply submseteq_length.
    apply NoDup_submseteq; [done|]. intros a Hia. apply Hin. by apply Hall.
Qed.
(** The conditions of the gate, one by one. *)
Lemma no_objection latest : existsb (λ ar : string * PullRequestReview, bool_decide (rv_state ar.2 = RV_CHANGES_REQUESTED)) latest = false
  ↔ ∀ a r, (a, r) ∈ latest → rv_state r ≠ RV_CHANGES_REQUESTED.
Proof.
  rewrite <-not_true_iff_false, existsb_exists. split.
  - intros Hn a r Hin Hs. apply Hn. exists (a, r). split; [by apply list_elem_of_In|by apply bool_decide_eq_true].
  - intros Hall ([a r] & Hin%list_elem_of_In & Hs%bool_decide_eq_true). by apply (Hall a r).
Qed.
Lemma head_kept p o :
  opt_truthy (op_require_head_sha o) && negb (String.eqb (pl_head_sha p) (str_lower (default "" (op_require_head_sha o)))) = false
  ↔ ∀ h, op_require_head_sha o = Some h → h ≠ "" → pl_head_sha p = str_lower h.
Proof.
  destruct (op_require_head_sha o) as [[|ch h]|]; cbn [opt_truthy str_truthy andb default]; [naive_solver| |naive_solver].
  rewrite negb_false_iff, String.eqb_eq. cbn. naive_solver.
Qed.
Lemma drift_met p o : (match op_protection_drift o with
      | None => []
      | Some d => block (bp_contexts_only_required_checks (dr_observed d)) "required_checks_contexts_only"
                  ++ concat (binding_blockers (pl_checks p)
                       <$> zip (bp_required_status_checks (dr_observed d)) (bp_required_status_check_app_ids (dr_observed d)))
      end) = [] ↔ ∀ d, op_protection_drift o = Some d → bp_contexts_only_required_checks (dr_observed d) = false
    ∧ ∀ b, b ∈ zip (bp_required_status_checks (dr_observed d)) (bp_required_status_check_app_ids (dr_observed d)) → binding_met (pl_checks p) b.
Proof.
  destruct (op_protection_drift o) as [d|]; [|naive_solver]. rewrite app_nil_iff, block_nil, concat_nil. setoid_rewrite binding_blockers_nil.
  naive_solver.
Qed.
Lemma guardian_met o : match op_guardian_safe o with Some safe => negb safe | None => false end = false ↔ op_guardian_safe o ≠ Some false.
Proof. destruct (op_guardian_safe o) as [[]|]; naive_solver. Qed.
Lemma aligned_met o : match op_protection_drift o with Some d => negb (dr_aligned d) | None => false end = false
  ↔ ∀ d, op_protection_drift o = Some d → dr_aligned d = true.
Proof. destruct (op_protection_drift o) as [d|]; [rewrite negb_false_iff|]; naive_solver. Qed.
Lemma gate_opens p o now : gate_blockers p o now = [] ↔ may_merge p o now.
Proof.
  unfold gate_blockers. pose proof (approvals_spec p o (op_approvals_required o)) as Hap. cbv zeta in Hap.
  assert ((reviewed p (op_require_head_sha o)) = folded (pl_author p) (evaluated_head p o) (sorted_by (review_key p) (pl_reviews p))) as Hrev by done.
  rewrite Hrev in *. pose proof (folded_blockers (pl_author p) (evaluated_head p o) (sorted_by (review_key p) (pl_reviews p))) as Hbl.
  pose proof (folded_latest (pl_author p) (evaluated_head p o) (sorted_by (review_key p) (pl_reviews p))) as Hla.
  setoid_rewrite elem_of_sorted_by in Hbl. destruct (folded _ _ _) as [from latest]. cbn [fst snd] in *.
  rewrite !app_nil_iff, !block_nil, Hbl, autonomous_nil, concat_nil, no_objection, head_kept, guardian_met, aligned_met, drift_met.
  setoid_rewrite check_blockers_nil. setoid_rewrite Hla.
  assert ((0 <? op_approvals_required o) && (approval_count latest <? op_approvals_required o) = false
          ↔ (0 < op_approvals_required o → ∃ approvers, NoDup approvers ∧ op_approvals_required o ≤ Z.of_nat (length approvers)
             ∧ ∀ a, a ∈ approvers → approver p o a)) as ->.
  { rewrite <-Hap, andb_false_iff, !Z.ltb_ge. lia. }
  rewrite negb_false_iff, bool_decide_eq_true, !bool_decide_eq_false.
  assert (pl_mergeable p ≠ Some false ∧ pl_mergeable p ≠ None ↔ pl_mergeable p = Some true) as Hm
    by (destruct (pl_mergeable p) as [[]|]; naive_solver).
  split.
  - intros (H1 & H2 & H3 & H4 & H5 & H6 & H7 & H8 & H9 & H10 & H11 & H12 & H13). split; try done.
    + split_and!; try done. by apply Hm.
    + intros d Hd. split; [by apply H13|]. by apply H11.
  - intros [(H1 & H2 & H3%Hm) H4 H5 H6 H7 H8 H9 H10 H11]. destruct H3. split_and!; try done.
    + intros d Hd. by apply H10.
    + intros d Hd. by apply H10.
Qed.

(** ** Identifiers of the records *)
Lemma github_id_valid prefix s :
  prefix ∈ ["GHREP"; "GHBR"; "GHWT"; "GHOWN"; "GHPR"; "GHREV"; "GHCHK"; "GHGATE"; "GHOP"; "GHREC"; "GHARV"; "GHDRF"; "GHCON"; "GHLIF"; "GHREL"] →
  valid_prefixed_id GITHUB_RECORD_ID (prefix +:+ "-") (prefix +:+ "-" +:+ short_digest s) = true.
Proof.
  intros Hp. apply prefixed_id_valid. apply fullmatch_spec.
  repeat (apply elem_of_cons in Hp as [->|Hp]; [reflexivity|]). by apply elem_of_nil in Hp.
Qed.
Lemma HEX_SHA_nonblank s : HEX_SHA s = true → str_truthy (str_strip s) = true.
Proof.
  unfold HEX_SHA. intros [[Hl _]%andb_true_iff Hx]%andb_true_iff. apply hex_nonblank; [done|]. by intros ->.
Qed.
Lemma new_pull_head p : new_pull p = Ok p → 1 ≤ pl_number p ∧ HEX_SHA (pl_head_sha p) = true.
Proof.
  unfold new_pull. intros E. apply bind_ok in E as ([] & H1%raise_if_ok%Z.ltb_ge & E). do 2 apply bind_ok in E as ([] & _ & E).
  apply bind_ok in E as ([] & H2%raise_if_ok & E). apply negb_false_iff, andb_true_iff in H2 as [_ H2]. split; [done|].
  injection E as E. apply (f_equal pl_head_sha) in E. cbn in E. by rewrite E in H2.
Qed.

