(* ===== verification/GitStore.v ===== *)
(** * GitStore: [github_steward/persistence.py], [github_steward/ports.py], [contracts/errors.py]

    The store of the repository steward and its remote.  A computation of the
    steward changes a [world]: the tables of the store, each write of which is
    committed at once, and the log of what was recorded and what was sent to
    the remote repository.  The remote is a parameter: a [remote] holds its
    replies as of one moment, any value, failure of the adapter or other
    exception. *)
From S2P Require Import Prelude PyStd PyRe PyJson Identifiers TaskState ControlDomain SchedulerDomain IsoInstant SecurityDomain GitDomain.
From Stdlib Require Import Ascii.
Local Open Scope Z_scope.

(** ** Adapter errors *)
Inductive AdapterErrorCategory :=
  | AE_AUTHENTICATION | AE_AUTHORIZATION | AE_CONFLICT | AE_DEPENDENCY | AE_INVALID_REQUEST | AE_NOT_FOUND | AE_RATE_LIMIT | AE_TIMEOUT
  | AE_TRANSIENT | AE_UNKNOWN_OUTCOME | AE_UNAVAILABLE | AE_PERMANENT.
#[export] Instance AdapterErrorCategory_eq_dec : EqDecision AdapterErrorCategory.
Proof. solve_decision. Defined.
Definition AdapterErrorCategory_value (c : AdapterErrorCategory) : string :=
  match c with
  | AE_AUTHENTICATION => "AUTHENTICATION" | AE_AUTHORIZATION => "AUTHORIZATION" | AE_CONFLICT => "CONFLICT" | AE_DEPENDENCY => "DEPENDENCY"
  | AE_INVALID_REQUEST => "INVALID_REQUEST" | AE_NOT_FOUND => "NOT_FOUND" | AE_RATE_LIMIT => "RATE_LIMIT" | AE_TIMEOUT => "TIMEOUT"
  | AE_TRANSIENT => "TRANSIENT" | AE_UNKNOWN_OUTCOME => "UNKNOWN_OUTCOME" | AE_UNAVAILABLE => "UNAVAILABLE" | AE_PERMANENT => "PERMANENT" end.
Record AdapterErrorPayload := mkAdapterError {
  ae_error_code : string; ae_category : AdapterErrorCategory; ae_message : string; ae_retryable : bool; ae_unknown_outcome : bool;
  ae_provider : string; ae_operation : string; ae_correlation_id : string; ae_external_operation_id : option string;
  ae_details : list (string * json);
}.
Definition ERROR_CODE : re := Cat (Cls is_upper) (Star (Cls (λ c, is_upper c || is_digit c || Ascii.eqb c "_"))).
#[export] Instance AdapterErrorPayload_model : Model AdapterErrorPayload := λ e,
  _ ← raise_if (negb (min_length 3 (ae_error_code e) && max_length 100 (ae_error_code e) && fullmatch ERROR_CODE (ae_error_code e)))
        ValidationError "error_code";
  _ ← raise_if (negb (min_length 1 (ae_message e) && max_length 2000 (ae_message e))) ValidationError "message";
  _ ← raise_if (negb (forallb Identifier [ae_provider e; ae_operation e; ae_correlation_id e])) ValidationError "Identifier";
  _ ← raise_if (bool_decide (ae_category e ∈ [AE_RATE_LIMIT; AE_TIMEOUT; AE_TRANSIENT; AE_UNKNOWN_OUTCOME; AE_UNAVAILABLE])
                && negb (ae_retryable e)) ValueError "must be retryable";
  _ ← raise_if (bool_decide (ae_category e ∈ [AE_AUTHENTICATION; AE_AUTHORIZATION; AE_INVALID_REQUEST; AE_NOT_FOUND; AE_PERMANENT])
                && ae_retryable e) ValueError "cannot be retryable";
  raise_if (bool_decide (ae_category e = AE_UNKNOWN_OUTCOME) && negb (ae_unknown_outcome e)) ValueError
    "UNKNOWN_OUTCOME category must set unknown_outcome".
Definition adapter_error_json (e : AdapterErrorPayload) : json :=
  JObj [("schema_version", JStr "1.0.0"); ("error_code", JStr (ae_error_code e)); ("category", JStr (AdapterErrorCategory_value (ae_category e)));
        ("message", JStr (ae_message e)); ("retryable", JBool (ae_retryable e)); ("unknown_outcome", JBool (ae_unknown_outcome e));
        ("provider", JStr (ae_provider e)); ("operation", JStr (ae_operation e)); ("correlation_id", JStr (ae_correlation_id e));
        ("external_operation_id", JOptStr (ae_external_operation_id e)); ("details", JObj (ae_details e))].

(** ** Requests that change the remote *)
Record GitHubWriteContext := mkWriteContext {
  wc_actor_id : string; wc_correlation_id : string; wc_idempotency_key : string; wc_authorization_id : string;
  wc_expected_head_sha : option string;
}.
#[export] Instance GitHubWriteContext_model : Model GitHubWriteContext := λ c,
  for_each (λ nv, raise_if (negb (str_truthy (str_strip nv.2))) ValueError (nv.1 +:+ " must be non-empty"))
    [("actor_id", wc_actor_id c); ("correlation_id", wc_correlation_id c); ("idempotency_key", wc_idempotency_key c);
     ("authorization_id", wc_authorization_id c)].
Inductive remote_request :=
  | RQ_merge (slug : string) (number : Z) (head_sha method : string) (context : GitHubWriteContext)
  | RQ_update (slug : string) (number : Z) (fields : json) (context : GitHubWriteContext)
  | RQ_delete_branch (slug branch : string) (context : GitHubWriteContext).

(** ** The world *)
(** A row of the table of claims: the columns that an update leaves alone, and
    the claim. *)
Record ownership_row := mkOwnershipRow { or_repository_slug : string; or_claim : ResourceOwnershipClaim }.
Record steward_store := mkStewardStore {
  ss_operations : gmap string GitHubOperation; ss_receipts : gmap string GitHubOperationReceipt; ss_ownership : gmap string ownership_row;
  ss_gates : gmap string MergeGateDecision;
}.
Inductive steward_event :=
  | Recorded (operation_id : string) (s : GitOperationState)
  | Sent (operation_id : string) (request : remote_request).
Record world := mkWorld { w_store : steward_store; w_log : list steward_event }.
Definition new_world : world := mkWorld (mkStewardStore ∅ ∅ ∅ ∅) [].

(** ** The monad *)
(** A call returns, raises a [GitHubAdapterError] with its payload, or raises
    something else. *)
Inductive outcome (A : Type) := Returns (a : A) | AdapterFails (e : AdapterErrorPayload) | Raises (e : exn).
Arguments Returns {A} a.
Arguments AdapterFails {A} e.
Arguments Raises {A} e.
Definition steward (A : Type) : Type := world → world * outcome A.
#[export] Instance steward_ret : MRet steward := λ A a w, (w, Returns a).
#[export] Instance steward_bind : MBind steward := λ A B f m w,
  match m w with
  | (w', Returns a) => f a w'
  | (w', AdapterFails e) => (w', AdapterFails e)
  | (w', Raises e) => (w', Raises e)
  end.
Definition pure_call {A} (r : result A) : steward A := λ w, (w, match r with Ok a => Returns a | Raise e => Raises e end).
Definition steward_raise {A} (c : exn_class) (m : string) : steward A := pure_call (raise c m).
Definition steward_raise_if (b : bool) (c : exn_class) (m : string) : steward () := pure_call (raise_if b c m).
(** A read of the remote, and a write that reaches it. *)
Definition ask {A} (reply : outcome A) : steward A := λ w, (w, reply).
Definition send {A} (operation_id : string) (request : remote_request) (reply : outcome A) : steward A := λ w,
  (mkWorld (w_store w) (w_log w ++ [Sent operation_id request]), reply).
Record remote := mkRemote {
  provider_id : string;
  get_pull_request : string → Z → outcome (option PullRequestSnapshot);
  iter_reviews : string → Z → outcome (list PullRequestReview);
  iter_checks : string → string → outcome (list PullRequestCheck);
  get_branch_protection : string → string → outcome GitHubBranchProtection;
  iter_branches : string → outcome (list string);  (** names *)
  merge_pull_request : remote_request → outcome (list (string * json));
  update_pull_request : remote_request → outcome (Z * json);  (** the number and the dump of the answer *)
  delete_branch : remote_request → outcome ();
}.

(** ** Operations *)
Definition get_operation (operation_id : string) : steward (option GitHubOperation) := λ w,
  match ss_operations (w_store w) !! operation_id with
  | None => (w, Returns None)
  | Some row => pure_call (Some <$> new row) w
  end.
(** The upsert leaves the other columns of the row alone; the idempotency key
    is unique. *)
Definition record_operation (o : GitHubOperation) : steward () := λ w,
  let st := w_store w in
  let stored row := (mkWorld (mkStewardStore (<[go_operation_id o := row]> (ss_operations st)) (ss_receipts st) (ss_ownership st) (ss_gates st))
                       (w_log w ++ [Recorded (go_operation_id o) (go_state o)]), Returns ()) in
  match ss_operations st !! go_operation_id o with
  | Some row => stored (operation_copy (go_state o) (go_authorization_id o) (go_observed_result o) (go_updated_at_utc o) row)
  | None =>
      if existsb (λ io, String.eqb (go_idempotency_key io.2) (go_idempotency_key o)) (map_to_list (ss_operations st))
      then steward_raise IntegrityError "UNIQUE constraint failed: github_operations.idempotency_key" w
      else stored o
  end.
Definition save_operation (o : GitHubOperation) : steward () :=
  existing ← get_operation (go_operation_id o);
  _ ← steward_raise_if
        (match existing with
         | Some e => bool_decide (go_state e ∈ [GO_PENDING; GO_UNKNOWN_OUTCOME]) && bool_decide (go_state o ∈ [GO_PLANNED; GO_PENDING])
         | None => false
         end) GitHubStewardError "pending or unknown-outcome operations must be reconciled before any retry";
  record_operation o.
Fixpoint get_each (ids : list string) : steward (list GitHubOperation) :=
  match ids with
  | [] => mret []
  | i :: ids => o ← get_operation i; os ← get_each ids; mret (match o with Some o => o :: os | None => os end)
  end.
Definition pending_operations (slug : string) : steward (list GitHubOperation) := λ w,
  let rows := List.filter (λ o, String.eqb (go_repository_slug o) slug && bool_decide (go_state o ∈ [GO_PLANNED; GO_PENDING; GO_UNKNOWN_OUTCOME]))
                (snd <$> map_to_list (ss_operations (w_store w))) in
  get_each (go_operation_id <$> sorted_by (λ o, (isoformat (go_created_at_utc o), go_operation_id o)) rows) w.
Definition mark_interrupted_pending_unknown (o : GitHubOperation) (now : Z) : steward GitHubOperation :=
  found ← get_operation (go_operation_id o);
  match found with
  | None => steward_raise GitHubStewardError "interrupted operation is not persisted"
  | Some stored =>
      if bool_decide (go_state stored = GO_UNKNOWN_OUTCOME) then mret stored
      else
        _ ← steward_raise_if (negb (bool_decide (go_state stored = GO_PENDING))) GitHubStewardError
              "only pending operations can be recovered as unknown";
        let observed := obj_set "recovery" (JStr "PENDING_WRITE_AT_RESTART") (default [] (go_observed_result stored)) in
        let recovered := operation_copy GO_UNKNOWN_OUTCOME (go_authorization_id stored) (Some observed) now stored in
        _ ← save_operation recovered;
        mret recovered
  end.

(** ** Receipts, gates and claims *)
Definition save_receipt (r : GitHubOperationReceipt) : steward () := λ w,
  let st := w_store w in
  (mkWorld (mkStewardStore (ss_operations st) (<[gr_receipt_id r := r]> (ss_receipts st)) (ss_ownership st) (ss_gates st)) (w_log w), Returns ()).
Definition save_gate (g : MergeGateDecision) : steward () := λ w,
  let st := w_store w in
  (mkWorld (mkStewardStore (ss_operations st) (ss_receipts st) (ss_ownership st) (<[mg_gate_id g := g]> (ss_gates st))) (w_log w), Returns ()).
Definition save_ownership (c : ResourceOwnershipClaim) : steward () := λ w,
  let st := w_store w in
  let slug := match ss_ownership st !! ow_ownership_id c with Some row => or_repository_slug row | None => ow_repository_slug c end in
  (mkWorld (mkStewardStore (ss_operations st) (ss_receipts st) (<[ow_ownership_id c := mkOwnershipRow slug c]> (ss_ownership st)) (ss_gates st))
     (w_log w), Returns ()).
Definition active_ownership (slug : string) : steward (list ResourceOwnershipClaim) := λ w,
  let rows := List.filter (λ io, String.eqb (or_repository_slug io.2) slug && bool_decide (ow_state (or_claim io.2) = OS_ACTIVE))
                (sorted_by fst (map_to_list (ss_ownership (w_store w)))) in
  pure_call (traverse new ((λ io, or_claim io.2) <$> rows)) w.
