(* ===== verification/GitSteward.v ===== *)
(** * GitSteward: [github_steward/lifecycle.py], [github_steward/service.py], [github_steward/ownership.py]

    The commands of the repository steward.  [r] is the remote as a command
    finds it and [later] as its readback after a write does; [now] is the
    clock. *)
From S2P Require Import Prelude PyStd PyRe PyJson Identifiers TaskState ControlDomain SchedulerDomain IsoInstant SecurityDomain GitDomain MergeGate GitStore.
From Stdlib Require Import Ascii.
Local Open Scope Z_scope.

(** ** Reading the remote *)
Definition with_reviews_and_checks (p : PullRequestSnapshot) (reviews : list PullRequestReview) (checks : list PullRequestCheck)
  : PullRequestSnapshot :=
  mkPull (pl_pull_request_id p) (pl_repository_slug p) (pl_number p) (pl_title p) (pl_state p) (pl_draft p) (pl_base_branch p)
    (pl_head_branch p) (pl_base_sha p) (pl_head_sha p) (pl_mergeable p) (pl_author p) reviews checks (pl_updated_at_utc p).
Definition pull_snapshot (r : remote) (slug : string) (number : Z) : steward PullRequestSnapshot :=
  found ← ask (get_pull_request r slug number);
  match found with
  | None => steward_raise GitHubStewardError "pull request not found"
  | Some pull =>
      reviews ← ask (iter_reviews r slug number);
      checks ← ask (iter_checks r slug (pl_head_sha pull));
      mret (with_reviews_and_checks pull reviews checks)
  end.
Definition readback_pull (r : remote) (slug : string) (number : Z) : steward (list (string * json)) :=
  found ← ask (get_pull_request r slug number);
  mret (match found with
        | None => [("found", JBool false); ("number", JInt number)]
        | Some p => [("found", JBool true); ("number", JInt (pl_number p)); ("state", JStr (PullRequestState_value (pl_state p)));
                     ("head_sha", JStr (pl_head_sha p)); ("draft", JBool (pl_draft p));
                     ("mergeable", match pl_mergeable p with Some b => JBool b | None => JNull end)]
        end).
(** [int(text)] and [str(value)]. *)
Definition py_int (s : string) : result Z := match int_of_text s with Some n => Ok n | None => raise ValueError "invalid literal for int()" end.
Definition str_of_opt (o : option string) : string := default "None" o.

(** ** The lifecycle of a pull request *)
(** What a step is decided on. *)
Definition step_options (protection : GitHubBranchProtection) (drift : ProtectionDriftDecision) (expected_head_sha : string)
    (review : option AutonomousReviewReceipt) (required_checks : list string) : gate_options :=
  mkGateOptions None (match required_checks with [] => bp_required_status_checks protection | _ => required_checks end)
    (bp_required_approving_review_count protection) (Some expected_head_sha) review None (Some drift).
Definition evaluate_ready (r : remote) (slug : string) (number : Z) (expected_head_sha : string) (review : option AutonomousReviewReceipt)
    (required_checks : list string) (now : Z) : steward (MergeGateDecision * ProtectionDriftDecision * bool) :=
  snapshot ← pull_snapshot r slug number;
  protection ← ask (get_branch_protection r slug (pl_base_branch snapshot));
  drift ← pure_call (evaluate_protection_drift protection None "auto");
  gate ← pure_call (evaluate_merge_gate snapshot (step_options protection drift expected_head_sha review required_checks) now);
  mret (gate, drift, bool_decide (mg_state gate = MG_READY)).
Definition lifecycle_key (t : GitOperationType) (slug target : string) (expected : option string) : string :=
  "lifecycle:" +:+ GitOperationType_value t +:+ ":" +:+ slug +:+ ":" +:+ target +:+ ":"
  +:+ (if opt_truthy expected then default "" expected else "none").
Definition persist_intent (slug : string) (t : GitOperationType) (target actor correlation : string) (payload : list (string * json))
    (expected : option string) (now : Z) : steward GitHubOperation :=
  operation ← pure_call (create_operation t slug target (lifecycle_key t slug target expected) actor correlation payload expected now);
  existing ← get_operation (go_operation_id operation);
  match existing with
  | Some o => mret o
  | None => _ ← save_operation operation; mret operation
  end.
(** [tuple(payload.get("required_checks") or ())]; an entry that is not a text
    is refused by the gate's decision. *)
Definition characters (s : string) : list string := (λ c, String c "") <$> Strings.String.list_ascii_of_string s.
Definition required_checks_of (payload : list (string * json)) : result (list string) :=
  match obj_get "required_checks" payload with
  | None => Ok []
  | Some j =>
      if negb (json_truthy j) then Ok []
      else match j with
           | JList l => traverse (read_text "required_checks") l
           | JStr s => Ok (characters s)
           | JObj o => Ok o.*1
           | _ => raise TypeError "object is not iterable"
           end
  end.
Definition payload_review (payload : list (string * json)) (now : Z) : result (option AutonomousReviewReceipt) :=
  match obj_get "receipt" payload with
  | Some j => if json_truthy j then Some <$> review_of_json now j else Ok None
  | None => Ok None
  end.
Definition write_context (o : GitHubOperation) (authorization_id : string) : GitHubWriteContext :=
  mkWriteContext (go_actor_id o) (go_correlation_id o) (go_idempotency_key o) authorization_id (go_expected_head_sha o).
Definition merge_request (slug : string) (number : Z) (o : GitHubOperation) (context : GitHubWriteContext) : remote_request :=
  RQ_merge slug number (str_of_opt (go_expected_head_sha o)) (py_str (default (JStr "squash") (obj_get "method" (go_payload o)))) context.
Definition dispatch (r later : remote) (slug : string) (o : GitHubOperation) (context : GitHubWriteContext) (now : Z)
  : steward (list (string * json)) :=
  let update fields :=
    number ← pure_call (py_int (go_target o));
    let rq := RQ_update slug number fields context in
    item ← send (go_operation_id o) rq (update_pull_request r rq);
    mret [("readback", item.2); ("external_identifier", JStr (str_of_Z item.1))] in
  match go_operation_type o with
  | GT_MERGE_PULL_REQUEST =>
      number ← pure_call (py_int (go_target o));
      let rq := merge_request slug number o context in
      answer ← send (go_operation_id o) rq (merge_pull_request r rq);
      readback ← readback_pull later slug number;
      mret [("result", JObj answer); ("readback", JObj readback);
            ("external_identifier", JStr (py_str (default (JStr "") (obj_get "sha" answer))))]
  | GT_UPDATE_PULL_REQUEST =>
      update (match obj_get "fields" (go_payload o) with Some j => if json_truthy j then j else JObj [] | None => JObj [] end)
  | GT_CLOSE_PULL_REQUEST => update (JObj [("state", JStr "CLOSED")])
  | GT_DELETE_BRANCH =>
      let rq := RQ_delete_branch slug (go_target o) context in
      _ ← send (go_operation_id o) rq (delete_branch r rq);
      remaining ← ask (iter_branches later slug);
      mret [("deleted", JStr (go_target o)); ("still_present", JBool (str_in (go_target o) remaining)); ("external_identifier", JStr (go_target o))]
  | GT_RECORD_REVIEW =>
      match obj_get "receipt" (go_payload o) with
      | None => steward_raise KeyError "receipt"
      | Some j =>
          receipt ← pure_call (review_of_json now j);
          let '(accepted, blockers) := evaluate_autonomous_review receipt (str_of_opt (go_expected_head_sha o)) None now in
          _ ← steward_raise_if (negb accepted) GitHubStewardError ("autonomous review rejected: " +:+ str_join "," blockers);
          mret [("receipt_id", JStr (ar_receipt_id receipt)); ("accepted", JBool true)]
      end
  | _ => steward_raise GitHubStewardError "unsupported lifecycle operation"
  end.
Definition save_new_receipt (o : GitHubOperation) (s : GitOperationState) (provider : string) (external : option string)
    (observed : list (string * json)) (reconcile : bool) : steward GitHubOperationReceipt :=
  id ← pure_call (github_identifier "GHREC" [go_operation_id o; GitOperationState_value s]);
  receipt ← pure_call (new (mkReceipt id (go_operation_id o) s provider external (Some observed) reconcile));
  _ ← save_receipt receipt;
  mret receipt.
(** [except GitHubAdapterError]: the failure of a write is recorded. *)
Definition failed_write (r : remote) (pending : GitHubOperation) (e : AdapterErrorPayload) (now : Z) : steward GitHubOperationReceipt :=
  let s := if ae_unknown_outcome e then GO_UNKNOWN_OUTCOME else GO_FAILED in
  let observed := [("error", adapter_error_json e)] in
  _ ← save_operation (operation_copy s (go_authorization_id pending) (Some observed) now pending);
  save_new_receipt pending s (provider_id r) (ae_external_operation_id e) observed (bool_decide (s = GO_UNKNOWN_OUTCOME)).
Definition applied_write (r : remote) (pending : GitHubOperation) (observed : list (string * json)) (external : option string) (now : Z)
  : steward GitHubOperationReceipt :=
  _ ← save_operation (operation_copy GO_APPLIED (go_authorization_id pending) (Some observed) now pending);
  save_new_receipt pending GO_APPLIED (provider_id r) external observed false.
Definition settle (r : remote) (pending : GitHubOperation) (external : list (string * json) → option string)
    (write : steward (list (string * json))) (now : Z) : steward GitHubOperationReceipt := λ w,
  match write w with
  | (w', Returns observed) => applied_write r pending observed (external observed) now w'
  | (w', AdapterFails e) => failed_write r pending e now w'
  | (w', Raises e) => (w', Raises e)
  end.
(** A write between the record that it is about to be sent and the record of
    what came of it. *)
Definition carry_out (r : remote) (o : GitHubOperation) (authorization_id : string) (external : list (string * json) → option string)
    (write : GitHubWriteContext → steward (list (string * json))) (now : Z) : steward GitHubOperationReceipt :=
  let pending := operation_copy GO_PENDING (Some authorization_id) (go_observed_result o) now o in
  _ ← save_operation pending;
  context ← pure_call (new (write_context o authorization_id));
  settle r pending external (write context) now.
(** [str(observed.get(key) or "") or None]. *)
Definition external_text (key : string) (observed : list (string * json)) : option string :=
  let s := match obj_get key observed with Some j => if json_truthy j then py_str j else "" | None => "" end in
  if str_truthy s then Some s else None.
Definition merge_ready (r : remote) (slug : string) (o : GitHubOperation) (now : Z) : steward () :=
  number ← pure_call (py_int (go_target o));
  review ← pure_call (payload_review (go_payload o) now);
  required ← pure_call (required_checks_of (go_payload o));
  verdict ← evaluate_ready r slug number (str_of_opt (go_expected_head_sha o)) review required now;
  steward_raise_if (negb verdict.2) GitHubStewardError "Merge Gate is blocked".
Definition apply_step (r later : remote) (slug : string) (o : GitHubOperation) (action_intent : ActionIntent) (authorization_id : string)
    (apply : bool) (now : Z) : steward GitHubOperationReceipt :=
  _ ← steward_raise_if (negb (bool_decide (ai_approval_state action_intent = AS_APPROVED))) GitHubStewardError "action intent is not approved";
  current ← get_operation (go_operation_id o);
  _ ← steward_raise_if (match current with Some c => bool_decide (go_state c = GO_UNKNOWN_OUTCOME) | None => false end) GitHubStewardError
        "unknown-outcome operations must be reconciled before any retry";
  _ ← (if bool_decide (go_operation_type o = GT_MERGE_PULL_REQUEST) then merge_ready r slug o now else mret ());
  if negb apply then
    id ← pure_call (github_identifier "GHREC" [go_operation_id o; "PLANNED"]);
    pure_call (new (mkReceipt id (go_operation_id o) GO_PLANNED (provider_id r) None (Some [("mode", JStr "DRY_RUN")]) false))
  else carry_out r o authorization_id (external_text "external_identifier") (λ context, dispatch r later slug o context now) now.
Definition reconciled (o : GitHubOperation) (observed : list (string * json)) (now : Z) : steward GitHubOperation :=
  let done := operation_copy GO_RECONCILED (go_authorization_id o) (Some observed) now o in
  _ ← save_operation done;
  mret done.
Definition reconcile_unknown (r : remote) (slug : string) (o : GitHubOperation) (now : Z) : steward GitHubOperation :=
  if negb (bool_decide (go_state o = GO_UNKNOWN_OUTCOME)) then mret o
  else match go_operation_type o with
       | GT_MERGE_PULL_REQUEST =>
           number ← pure_call (py_int (go_target o));
           readback ← readback_pull r slug number;
           if bool_decide (obj_get "state" readback = Some (JStr (PullRequestState_value PULL_MERGED))) then reconciled o readback now else mret o
       | GT_DELETE_BRANCH =>
           remaining ← ask (iter_branches r slug);
           if str_in (go_target o) remaining then mret o
           else reconciled o [("deleted", JStr (go_target o)); ("still_present", JBool false)] now
       | _ => mret o
       end.
Definition verify_integrated_tree (expected_tree observed_tree : string) : list (string * json) :=
  [("expected_tree", JStr (str_lower expected_tree)); ("observed_tree", JStr (str_lower observed_tree));
   ("matched", JBool (String.eqb (str_lower expected_tree) (str_lower observed_tree)))].
Definition plan_record (slug : string) (pull_number : Z) (head_sha : string) (steps : list LifecycleStep)
    (jira_reconciled integrated_tree_verified cleanup_completed : bool) : result LifecycleRecord :=
  id ← github_identifier "GHLIF" [slug; str_of_Z pull_number; head_sha];
  new (mkLifecycleRecord id slug pull_number (str_lower head_sha) steps jira_reconciled integrated_tree_verified cleanup_completed).
Definition step_from_operation (o : GitHubOperation) : result LifecycleStep :=
  new (mkLifecycleStep (go_operation_id o) (go_operation_type o) (go_state o)
         (json_fingerprint (JObj [("type", JStr (GitOperationType_value (go_operation_type o))); ("target", JStr (go_target o));
                                  ("payload", JObj (go_payload o))]))
         (go_expected_head_sha o) (default [] (go_observed_result o)) (bool_decide (go_state o = GO_UNKNOWN_OUTCOME))).

(** ** The service *)
Definition merge_gate (r : remote) (slug : string) (number : Z) (required_checks : option (list string)) (approvals_required : option Z)
    (expected_head_sha : option string) (review : option AutonomousReviewReceipt) (expected_tree_sha : option string)
    (assert_protection_policy : bool) (now : Z) : steward MergeGateDecision :=
  pull ← pull_snapshot r slug number;
  protection ← ask (get_branch_protection r slug (pl_base_branch pull));
  let policy := if assert_protection_policy && bool_decide ((slug, pl_base_branch pull) = PROJECT_MAIN) then "autonomous_main" else "auto" in
  drift ← pure_call (evaluate_protection_drift protection None policy);
  gate ← pure_call (evaluate_merge_gate pull
           (mkGateOptions None (default (bp_required_status_checks protection) required_checks)
              (default (bp_required_approving_review_count protection) approvals_required) expected_head_sha review expected_tree_sha (Some drift))
           now);
  _ ← save_gate gate;
  mret gate.
(** [r] answers the first look at the pull request, [r'] the gate. *)
Definition plan_merge (r r' : remote) (slug : string) (number : Z) (actor correlation method : string) (expected_head_sha : option string)
    (review : option AutonomousReviewReceipt) (expected_tree_sha : option string) (assert_protection_policy : bool) (now : Z)
  : steward (MergeGateDecision * GitHubOperation) :=
  pull ← pull_snapshot r slug number;
  let required_head := str_lower (if opt_truthy expected_head_sha then default "" expected_head_sha else pl_head_sha pull) in
  gate ← merge_gate r' slug number None None (Some required_head) review expected_tree_sha assert_protection_policy now;
  pending ← pending_operations slug;
  _ ← steward_raise_if
        (existsb (λ o, bool_decide (go_operation_type o = GT_MERGE_PULL_REQUEST) && String.eqb (go_target o) (str_of_Z number)
                       && bool_decide (go_state o = GO_UNKNOWN_OUTCOME)) pending)
        GitHubStewardError "unknown-outcome operations must be reconciled before any retry";
  operation ← pure_call (create_operation GT_MERGE_PULL_REQUEST slug (str_of_Z number)
                ("github-merge:" +:+ slug +:+ ":" +:+ str_of_Z number +:+ ":" +:+ required_head +:+ ":" +:+ method) actor correlation
                [("method", JStr method); ("pull_number", JInt number); ("review_id", JOptStr (ar_receipt_id <$> review))]
                (Some required_head) now);
  _ ← save_operation operation;
  mret (gate, operation).
Definition validate_intent (intent : ActionIntent) (target operation : string) : result () :=
  _ ← raise_if (negb (bool_decide (ai_approval_state intent = AS_APPROVED))) GitHubStewardError "action intent is not approved";
  raise_if (negb (String.eqb (ai_authority intent) "github.steward") || negb (String.eqb (ai_target intent) target)
            || negb (String.eqb (ai_operation intent) operation)) GitHubStewardError
    "action intent does not authorize the requested GitHub operation".
(** [str(result.get("sha", "")) or None]. *)
Definition merge_external (answer : list (string * json)) : option string :=
  let s := py_str (default (JStr "") (obj_get "sha" answer)) in if str_truthy s then Some s else None.
Definition send_merge (r : remote) (o : GitHubOperation) (context : GitHubWriteContext) : steward (list (string * json)) :=
  number ← pure_call (py_int (go_target o));
  let rq := merge_request (go_repository_slug o) number o context in
  send (go_operation_id o) rq (merge_pull_request r rq).
Definition apply_merge (r : remote) (o : GitHubOperation) (gate : MergeGateDecision) (action_intent : ActionIntent) (authorization_id : string)
    (now : Z) : steward GitHubOperationReceipt :=
  stored ← get_operation (go_operation_id o);
  _ ← steward_raise_if (match stored with Some c => bool_decide (go_state c = GO_UNKNOWN_OUTCOME) | None => false end) GitHubStewardError
        "unknown-outcome operations must be reconciled before any retry";
  _ ← steward_raise_if (negb (bool_decide (mg_state gate = MG_READY))) GitHubStewardError "Merge Gate is blocked";
  _ ← steward_raise_if (negb (bool_decide (go_operation_type o = GT_MERGE_PULL_REQUEST))) GitHubStewardError
        "operation is not a pull-request merge";
  _ ← pure_call (validate_intent action_intent (go_repository_slug o) "github.merge");
  carry_out r o authorization_id merge_external (send_merge r o) now.

(** ** Ownership *)
Definition slash (c : ascii) : bool := Ascii.eqb c "/".
Definition normalize (resource : string) : result string :=
  let value := str_rstrip slash (str_lstrip slash (str_strip (str_replace_char backslash "/" resource))) in
  _ ← raise_if (negb (str_truthy value) || String.eqb value "." || existsb (String.eqb "..") (str_split "/" value)) ValueError
        "ownership resource must be a repository-relative path or stable resource name";
  Ok value.
Definition ownership_conflicts (left right : ResourceOwnershipClaim) : result bool :=
  if negb (bool_decide (ow_state left = OS_ACTIVE)) || negb (bool_decide (ow_state right = OS_ACTIVE)) then Ok false
  else if negb (String.eqb (ow_repository_slug left) (ow_repository_slug right)) || String.eqb (ow_owner_task_id left) (ow_owner_task_id right)
  then Ok false
  else if negb (bool_decide (ow_resource_kind left = ow_resource_kind right)) then Ok false
  else
    a ← normalize (ow_resource left);
    b ← normalize (ow_resource right);
    Ok (String.eqb a b
        || bool_decide (ow_resource_kind left ∈ [OK_FILE; OK_DIRECTORY; OK_SCHEMA])
           && (str_startswith (b +:+ "/") a || str_startswith (a +:+ "/") b)).
Definition active_claims (claims : list ResourceOwnershipClaim) : list ResourceOwnershipClaim :=
  List.filter (λ c, bool_decide (ow_state c = OS_ACTIVE)) claims.
Definition acquire_claim (slug : string) (kind : OwnershipKind) (resource owner workspace : string) (now : Z)
    (claims : list ResourceOwnershipClaim) : result (list ResourceOwnershipClaim * ResourceOwnershipClaim) :=
  resource ← normalize resource;
  id ← github_identifier "GHOWN" [slug; OwnershipKind_value kind; resource; owner; workspace];
  candidate ← new (mkOwnership id slug kind resource owner workspace OS_ACTIVE now None);
  _ ← for_each (λ current, conflict ← ownership_conflicts candidate current;
                           raise_if conflict ValueError ("resource ownership conflict with " +:+ ow_ownership_id current +:+ ": " +:+ ow_resource current))
        (active_claims claims);
  Ok (claims ++ [candidate], candidate).
Definition released (c : ResourceOwnershipClaim) : ResourceOwnershipClaim :=
  mkOwnership (ow_ownership_id c) (ow_repository_slug c) (ow_resource_kind c) (ow_resource c) (ow_owner_task_id c) (ow_workspace_id c)
    OS_RELEASED (ow_acquired_at_utc c) (ow_expires_at_utc c).
Fixpoint release_claim (ownership_id : string) (claims : list ResourceOwnershipClaim)
  : result (list ResourceOwnershipClaim * ResourceOwnershipClaim) :=
  match claims with
  | [] => raise KeyError ownership_id
  | c :: claims =>
      if String.eqb (ow_ownership_id c) ownership_id then Ok (released c :: claims, released c)
      else '(claims', r) ← release_claim ownership_id claims; Ok (c :: claims', r)
  end.
Definition claim_resource (slug : string) (kind : OwnershipKind) (resource owner workspace : string) (now : Z) : steward ResourceOwnershipClaim :=
  claims ← active_ownership slug;
  acquired ← pure_call (acquire_claim slug kind resource owner workspace now claims);
  _ ← save_ownership acquired.2;
  mret acquired.2.
