(* ===== verification/GitSafety.v ===== *)
(** * GitSafety: what the steward sends to the remote

    Runs of the steward's commands: a write whose outcome is not known is not
    sent again, and a merge of the lifecycle is sent only through the gate. *)
From S2P Require Import Prelude PyStd PyRe PyJson Identifiers TaskState ControlDomain SchedulerDomain IsoInstant SecurityDomain GitDomain MergeGate GateRules GitStore GitSteward.
Local Open Scope Z_scope.

(** ** Reasoning about computations *)
Definition wp {A} (m : steward A) (Q : outcome A → world → Prop) (w : world) : Prop := Q (m w).2 (m w).1.
(** The outcome of the rest of a computation. *)
Definition then_ {A B} (f : A → steward B) (Q : outcome B → world → Prop) (o : outcome A) (w : world) : Prop :=
  match o with Returns a => wp (f a) Q w | AdapterFails e => Q (AdapterFails e) w | Raises e => Q (Raises e) w end.
Lemma wp_bind {A B} (m : steward A) (f : A → steward B) Q w : wp m (then_ f Q) w → wp (m ≫= f) Q w.
Proof. unfold wp, then_, mbind, steward_bind. destruct (m w) as [w' [a|e|e]]; cbn [fst snd]; exact (λ H, H). Qed.
Lemma wp_ret {A} (a : A) (Q : outcome A → world → Prop) w : Q (Returns a) w → wp (mret a) Q w.
Proof. done. Qed.
Lemma wp_mono {A} (m : steward A) (P Q : outcome A → world → Prop) w : wp m P w → (∀ o w', P o w' → Q o w') → wp m Q w.
Proof. unfold wp. auto. Qed.

(** ** What the log tells *)
Definition about (operation_id : string) (e : steward_event) : bool :=
  match e with Recorded i _ | Sent i _ => String.eqb i operation_id end.
(** The last state recorded and the last event of an operation. *)
Definition log_state (log : list steward_event) (operation_id : string) : option GitOperationState :=
  foldl (λ s e, match e with Recorded i s' => if String.eqb i operation_id then Some s' else s | Sent _ _ => s end) None log.
Definition last_event (log : list steward_event) (operation_id : string) : option steward_event :=
  foldl (λ l e, if about operation_id e then Some e else l) None log.
Definition outstanding (s : GitOperationState) : bool := bool_decide (s ∈ [GO_PENDING; GO_UNKNOWN_OUTCOME]).
Definition settled (s : GitOperationState) : bool := bool_decide (s ∈ [GO_APPLIED; GO_FAILED; GO_RECONCILED]).
(** An event that may follow a log. *)
Definition may_follow (log : list steward_event) (e : steward_event) : Prop :=
  match e with
  | Recorded i s => s ≠ GO_REJECTED ∧ ∀ s', log_state log i = Some s' → outstanding s' = true → s ∉ [GO_PLANNED; GO_PENDING]
  | Sent i _ => last_event log i = Some (Recorded i GO_PENDING)
  end.
Definition good_log (log : list steward_event) : Prop := ∀ pre e post, log = pre ++ e :: post → may_follow pre e.
Lemma good_log_snoc log e : good_log log → may_follow log e → good_log (log ++ [e]).
Proof.
  intros Hl He pre e' post E. destruct post as [|x post _] using rev_ind.
  - apply app_inj_tail in E as [<- <-]. done.
  - rewrite app_comm_cons, app_assoc in E. apply app_inj_tail in E as [-> _]. by eapply Hl.
Qed.
Lemma log_state_snoc log e i : log_state (log ++ [e]) i = match e with Recorded j s => if String.eqb j i then Some s else log_state log i
  | Sent _ _ => log_state log i end.
Proof. unfold log_state. by rewrite foldl_app. Qed.
Lemma last_event_snoc log e i : last_event (log ++ [e]) i = if about i e then Some e else last_event log i.
Proof. unfold last_event. by rewrite foldl_app. Qed.

(** ** The invariant *)
Record good_world (w : world) : Prop := {
  gw_log : good_log (w_log w);
  gw_states : ∀ i, go_state <$> ss_operations (w_store w) !! i = log_state (w_log w) i;
}.
Lemma new_world_good : good_world new_world.
Proof. split; [by intros [|? ?] ? ?|]. intros i. cbn. by rewrite lookup_empty. Qed.
Definition upholds {A} (m : steward A) : Prop := ∀ w, good_world w → good_world (m w).1.
Lemma upholds_bind {A B} (m : steward A) (f : A → steward B) : upholds m → (∀ a, upholds (f a)) → upholds (m ≫= f).
Proof.
  intros Hm Hf w Hw. unfold mbind, steward_bind. pose proof (Hm w Hw) as Hw'. destruct (m w) as [w' [a|e|e]]; [|done|done].
  by apply Hf.
Qed.
Lemma upholds_pure {A} (r : result A) : upholds (pure_call r).
Proof. by intros w Hw. Qed.
Lemma upholds_ask {A} (o : outcome A) : upholds (ask o).
Proof. by intros w Hw. Qed.
Lemma upholds_ret {A} (a : A) : upholds (mret a).
Proof. by intros w Hw. Qed.
Lemma upholds_get i : upholds (get_operation i).
Proof. intros w Hw. unfold get_operation. by destruct (ss_operations (w_store w) !! i). Qed.
Create HintDb steward.
#[export] Hint Resolve upholds_pure upholds_ask upholds_ret upholds_get : steward.
#[export] Hint Extern 1 (_ ≠ GO_REJECTED) => discriminate : steward.
Ltac upholds_steps := repeat first [ solve [eauto with steward] | apply upholds_bind; [|intros ?] | case_match | case_bool_decide ].
Lemma upholds_raise_if b c m : upholds (steward_raise_if b c m).
Proof. apply upholds_pure. Qed.
Lemma upholds_raise {A} c m : upholds (@steward_raise A c m).
Proof. apply upholds_pure. Qed.
#[export] Hint Resolve upholds_raise_if upholds_raise : steward.
Lemma get_operation_world i w : (get_operation i w).1 = w.
Proof. unfold get_operation. by destruct (ss_operations (w_store w) !! i). Qed.
Lemma get_operation_returns i w o : (get_operation i w).2 = Returns o → o = ss_operations (w_store w) !! i.
Proof.
  unfold get_operation. destruct (ss_operations (w_store w) !! i) as [row|]; cbn; [|congruence].
  destruct (new row) as [row'|e] eqn:E; cbn; [|done]. apply new_ok in E as [-> _]. congruence.
Qed.
(** A record that is accepted upholds the invariant, and is the last event. *)
Lemma save_operation_good o w : go_state o ≠ GO_REJECTED → good_world w →
  wp (save_operation o) (λ out w', good_world w' ∧ (∀ u, out = Returns u → last_event (w_log w') (go_operation_id o)
    = Some (Recorded (go_operation_id o) (go_state o)))) w.
Proof.
  intros Hr [Hl Hs]. apply wp_bind. unfold wp. rewrite get_operation_world.
  destruct (get_operation (go_operation_id o) w).2 as [found|e|e] eqn:Eg; cbn [then_]; [|by repeat split|by repeat split].
  apply get_operation_returns in Eg as ->. apply wp_bind. unfold wp at 1. cbn [steward_raise_if pure_call fst snd].
  match goal with |- context[raise_if ?b _ _] => destruct b eqn:Eb end; cbn [raise_if then_]; [by repeat split|].
  unfold wp, record_operation. cbv zeta.
  assert (∀ row, go_state row = go_state o →
    good_world (mkWorld (mkStewardStore (<[go_operation_id o := row]> (ss_operations (w_store w))) (ss_receipts (w_store w)) (ss_ownership (w_store w))
      (ss_gates (w_store w))) (w_log w ++ [Recorded (go_operation_id o) (go_state o)]))) as Hgood.
  { intros row Hrow. split; cbn [w_log w_store ss_operations].
    - apply good_log_snoc; [done|]. split; [done|]. intros s' E Hout Hin. rewrite <-Hs in E.
      destruct (ss_operations (w_store w) !! go_operation_id o) as [row'|]; [|done]. injection E as E. rewrite E in Eb.
      apply andb_false_iff in Eb as [Eb|Eb]; [|by apply bool_decide_eq_false in Eb]. unfold outstanding in Hout. congruence.
    - intros i. rewrite log_state_snoc, lookup_insert. destruct (String.eqb_spec (go_operation_id o) i) as [Hi|Hi].
      + rewrite decide_True by done. cbn. by rewrite Hrow.
      + rewrite decide_False by done. apply Hs. }
  destruct (ss_operations (w_store w) !! go_operation_id o) as [row|] eqn:E; cbn [fst snd].
  - split; [by apply Hgood|]. intros _ _. cbn [w_log]. rewrite last_event_snoc. cbn. by rewrite String.eqb_refl.
  - case_match; cbn [fst snd]; [by repeat split|]. split; [by apply Hgood|]. intros _ _. cbn [w_log]. rewrite last_event_snoc. cbn. by rewrite String.eqb_refl.
Qed.
Lemma upholds_save o : go_state o ≠ GO_REJECTED → upholds (save_operation o).
Proof. intros Hr w Hw. exact (proj1 (save_operation_good o w Hr Hw)). Qed.
Lemma upholds_save_as s auth observed now o : s ≠ GO_REJECTED → upholds (save_operation (operation_copy s auth observed now o)).
Proof. intros Hs. by apply upholds_save. Qed.
#[export] Hint Resolve upholds_save_as : steward.
Lemma upholds_receipt r : upholds (save_receipt r).
Proof. intros w [Hl Hs]. by split. Qed.
Lemma upholds_gate g : upholds (save_gate g).
Proof. intros w [Hl Hs]. by split. Qed.
Lemma upholds_ownership c : upholds (save_ownership c).
Proof. intros w [Hl Hs]. by split. Qed.
Lemma upholds_active slug : upholds (active_ownership slug).
Proof. by intros w Hw. Qed.
#[export] Hint Resolve upholds_receipt upholds_gate upholds_ownership upholds_active : steward.
Lemma upholds_get_each ids : upholds (get_each ids).
Proof. induction ids as [|i ids IH]; cbn [get_each]; upholds_steps. Qed.
Lemma upholds_pending slug : upholds (pending_operations slug).
Proof. intros w Hw. by apply upholds_get_each. Qed.
#[export] Hint Resolve upholds_pending : steward.
Lemma upholds_new_receipt o s provider external observed reconcile : upholds (save_new_receipt o s provider external observed reconcile).
Proof. unfold save_new_receipt. upholds_steps. Qed.
#[export] Hint Resolve upholds_new_receipt : steward.
Lemma upholds_failure r pending e now : upholds (failed_write r pending e now).
Proof. unfold failed_write. cbv zeta. apply upholds_bind; [apply upholds_save_as; by case_match|eauto with steward]. Qed.
Lemma upholds_success r pending observed external now : upholds (applied_write r pending observed external now).
Proof. unfold applied_write. upholds_steps. Qed.
Lemma upholds_created t slug target key actor correlation payload expected now o :
  create_operation t slug target key actor correlation payload expected now = Ok o → go_state o = GO_PLANNED.
Proof. unfold create_operation. cbv zeta. intros E. apply bind_ok in E as (i & _ & E). by apply new_ok in E as [-> _]. Qed.
(** A write that is sent only right after its record upholds the invariant. *)
Definition writes_for {A} (operation_id : string) (m : steward A) : Prop :=
  ∀ w, good_world w → last_event (w_log w) operation_id = Some (Recorded operation_id GO_PENDING) → good_world (m w).1.
Lemma upholds_writes {A} i (m : steward A) : upholds m → writes_for i m.
Proof. intros Hm w Hw _. by apply Hm. Qed.
Lemma writes_pure {A B} i (r : result A) (f : A → steward B) : (∀ a, writes_for i (f a)) → writes_for i (pure_call r ≫= f).
Proof. intros Hf w Hw Hl. unfold mbind, steward_bind. destruct r as [a|e]; cbn [pure_call fst]; [by apply Hf|done]. Qed.
Lemma writes_send {A} i rq (reply : outcome A) : writes_for i (send i rq reply).
Proof.
  intros w [Hl Hs] Hlast. split; cbn [send fst w_log w_store]; [by apply good_log_snoc|]. intros j. by rewrite log_state_snoc.
Qed.
Lemma writes_send_then {A B} i rq (reply : outcome A) (f : A → steward B) : (∀ a, upholds (f a)) → writes_for i (send i rq reply ≫= f).
Proof.
  intros Hf w Hw Hl. pose proof (writes_send i rq reply w Hw Hl) as Hw'. unfold mbind, steward_bind.
  destruct (send i rq reply w) as [w' [a|e|e]]; [by apply Hf|done|done].
Qed.
Lemma upholds_readback r slug n : upholds (readback_pull r slug n).
Proof. unfold readback_pull. upholds_steps. Qed.
Lemma upholds_snapshot r slug n : upholds (pull_snapshot r slug n).
Proof. unfold pull_snapshot. upholds_steps. Qed.
#[export] Hint Resolve upholds_readback upholds_snapshot : steward.
Lemma upholds_ready r slug n head review checks now : upholds (evaluate_ready r slug n head review checks now).
Proof. unfold evaluate_ready. upholds_steps. Qed.
#[export] Hint Resolve upholds_ready : steward.
Lemma upholds_merge_ready r slug o now : upholds (merge_ready r slug o now).
Proof. unfold merge_ready. upholds_steps. Qed.
#[export] Hint Resolve upholds_merge_ready : steward.
Lemma dispatch_writes r later slug o context now : writes_for (go_operation_id o) (dispatch r later slug o context now).
Proof.
  unfold dispatch. cbv zeta. destruct (go_operation_type o);
    try (apply writes_pure; intros n); try (apply writes_send_then; intros a; upholds_steps); apply upholds_writes; upholds_steps.
Qed.
Lemma send_merge_writes r o context : writes_for (go_operation_id o) (send_merge r o context).
Proof. unfold send_merge. apply writes_pure. intros n. apply writes_send. Qed.
Lemma upholds_carry_out r o auth external write now : (∀ context, writes_for (go_operation_id o) (write context)) →
  upholds (carry_out r o auth external write now).
Proof.
  intros Hwr w Hw. unfold carry_out. cbv zeta. apply (wp_bind _ _ (λ _ w', good_world w')).
  eapply wp_mono; [by apply save_operation_good|]. cbn beta. intros [[]|e|e] w' [Hw' Hlast]; cbn [then_]; [|done|done].
  specialize (Hlast () eq_refl). cbn [go_operation_id operation_copy go_state] in Hlast. apply wp_bind. unfold wp at 1. cbn [pure_call fst snd].
  destruct (new _) as [context|e]; cbn [then_]; [|done]. unfold wp, settle. pose proof (Hwr context w' Hw' Hlast) as Hw2.
  destruct (write context w') as [w2 [observed|e|e]]; [by apply upholds_success|by apply upholds_failure|done].
Qed.
Lemma upholds_pure_bind {A B} (r : result A) (f : A → steward B) : (∀ a, r = Ok a → upholds (f a)) → upholds (pure_call r ≫= f).
Proof. intros Hf w Hw. unfold mbind, steward_bind. destruct r as [a|e]; cbn [pure_call fst]; [by apply Hf|done]. Qed.

Lemma upholds_carry_dispatch r later slug o auth external now :
  upholds (carry_out r o auth external (λ context, dispatch r later slug o context now) now).
Proof. apply upholds_carry_out. intros context. apply dispatch_writes. Qed.
Lemma upholds_carry_merge r o auth external now : upholds (carry_out r o auth external (send_merge r o) now).
Proof. apply upholds_carry_out. intros context. apply send_merge_writes. Qed.
#[export] Hint Resolve upholds_carry_dispatch upholds_carry_merge : steward.

(** ** Commands *)
Inductive steward_command :=
  | K_persist_intent (slug : string) (t : GitOperationType) (target actor correlation : string) (payload : list (string * json))
      (expected : option string) (now : Z)
  | K_apply_step (r later : remote) (slug : string) (o : GitHubOperation) (intent : ActionIntent) (authorization_id : string) (apply : bool) (now : Z)
  | K_reconcile_unknown (r : remote) (slug : string) (o : GitHubOperation) (now : Z)
  | K_mark_interrupted (o : GitHubOperation) (now : Z)
  | K_merge_gate (r : remote) (slug : string) (number : Z) (required_checks : option (list string)) (approvals_required : option Z)
      (expected_head_sha : option string) (review : option AutonomousReviewReceipt) (expected_tree_sha : option string) (assert_policy : bool) (now : Z)
  | K_plan_merge (r r' : remote) (slug : string) (number : Z) (actor correlation method : string) (expected_head_sha : option string)
      (review : option AutonomousReviewReceipt) (expected_tree_sha : option string) (assert_policy : bool) (now : Z)
  | K_apply_merge (r : remote) (o : GitHubOperation) (gate : MergeGateDecision) (intent : ActionIntent) (authorization_id : string) (now : Z)
  | K_claim_resource (slug : string) (kind : OwnershipKind) (resource owner workspace : string) (now : Z).
Definition steward_step (w : world) (k : steward_command) : world :=
  match k with
  | K_persist_intent slug t target actor correlation payload expected now =>
      (persist_intent slug t target actor correlation payload expected now w).1
  | K_apply_step r later slug o intent auth apply now => (apply_step r later slug o intent auth apply now w).1
  | K_reconcile_unknown r slug o now => (reconcile_unknown r slug o now w).1
  | K_mark_interrupted o now => (mark_interrupted_pending_unknown o now w).1
  | K_merge_gate r slug n checks approvals head review tree policy now =>
      (merge_gate r slug n checks approvals head review tree policy now w).1
  | K_plan_merge r r' slug n actor correlation method head review tree policy now =>
      (plan_merge r r' slug n actor correlation method head review tree policy now w).1
  | K_apply_merge r o gate intent auth now => (apply_merge r o gate intent auth now w).1
  | K_claim_resource slug kind resource owner workspace now => (claim_resource slug kind resource owner workspace now w).1
  end.
Definition steward_run (commands : list steward_command) : world := foldl steward_step new_world commands.
Lemma upholds_persist slug t target actor correlation payload expected now :
  upholds (persist_intent slug t target actor correlation payload expected now).
Proof.
  apply upholds_pure_bind. intros o Ho%upholds_created. apply upholds_bind; [eauto with steward|]. intros [e|]; [eauto with steward|].
  apply upholds_bind; [|eauto with steward]. apply upholds_save. by rewrite Ho.
Qed.
Lemma upholds_apply_step r later slug o intent auth apply now : upholds (apply_step r later slug o intent auth apply now).
Proof. unfold apply_step. upholds_steps. Qed.
Lemma upholds_reconciled o observed now : upholds (reconciled o observed now).
Proof. unfold reconciled. cbv zeta. upholds_steps. Qed.
#[export] Hint Resolve upholds_reconciled : steward.
Lemma upholds_reconcile r slug o now : upholds (reconcile_unknown r slug o now).
Proof. unfold reconcile_unknown. upholds_steps. Qed.
Lemma upholds_mark o now : upholds (mark_interrupted_pending_unknown o now).
Proof. unfold mark_interrupted_pending_unknown. cbv zeta. upholds_steps. Qed.
Lemma upholds_merge_gate r slug n checks approvals head review tree policy now :
  upholds (merge_gate r slug n checks approvals head review tree policy now).
Proof. unfold merge_gate. cbv zeta. upholds_steps. Qed.
#[export] Hint Resolve upholds_merge_gate : steward.
Lemma upholds_plan_merge r r' slug n actor correlation method head review tree policy now :
  upholds (plan_merge r r' slug n actor correlation method head review tree policy now).
Proof.
  unfold plan_merge. cbv zeta. do 4 (apply upholds_bind; [solve [eauto with steward]|intros ?]). apply upholds_pure_bind. intros o Ho%upholds_created.
  apply upholds_bind; [|eauto with steward]. apply upholds_save. by rewrite Ho.
Qed.
Lemma upholds_apply_merge r o gate intent auth now : upholds (apply_merge r o gate intent auth now).
Proof. unfold apply_merge. upholds_steps. Qed.
Lemma upholds_claim slug kind resource owner workspace now : upholds (claim_resource slug kind resource owner workspace now).
Proof. unfold claim_resource. upholds_steps. Qed.
Lemma steward_step_good w k : good_world w → good_world (steward_step w k).
Proof.
  destruct k; cbn [steward_step];
    [apply upholds_persist|apply upholds_apply_step|apply upholds_reconcile|apply upholds_mark|apply upholds_merge_gate|apply upholds_plan_merge
    |apply upholds_apply_merge|apply upholds_claim].
Qed.
Lemma steward_run_good commands : good_world (steward_run commands).
Proof.
  unfold steward_run. generalize new_world, new_world_good. induction commands as [|k commands IH]; intros w Hw; [done|]. cbn [foldl].
  by apply IH, steward_step_good.
Qed.

(** ** Writes of unknown outcome *)
Lemma last_event_in log i e : last_event log i = Some e → ∃ before after, log = before ++ e :: after ∧ about i e = true
  ∧ ∀ e', e' ∈ after → about i e' = false.
Proof.
  induction log as [|x log IH] using rev_ind; [done|]. rewrite last_event_snoc. destruct (about i x) eqn:Ex.
  - intros [= <-]. exists log, []. split_and!; try done. by intros ? ?%elem_of_nil.
  - intros (before & after & -> & He & Hall)%IH. exists before, (after ++ [x]). split; [by rewrite <-app_assoc|]. split; [done|].
    intros e' [He'|He']%elem_of_app; [by apply Hall|]. by apply list_elem_of_singleton in He' as ->.
Qed.
Lemma last_event_state log i s : last_event log i = Some (Recorded i s) → log_state log i = Some s.
Proof.
  induction log as [|x log IH] using rev_ind; [done|]. rewrite last_event_snoc, log_state_snoc. destruct (about i x) eqn:Ex.
  - intros [= ->]. by rewrite String.eqb_refl.
  - intros H%IH. destruct x as [j s'|j rq]; cbn in Ex; [by rewrite Ex|done].
Qed.
(** An outstanding write stays outstanding until it is settled. *)
Lemma stays_outstanding pre mid i s : good_log (pre ++ mid) → log_state pre i = Some s → outstanding s = true →
  (∃ s', Recorded i s' ∈ mid ∧ settled s' = true) ∨ (∃ s', log_state (pre ++ mid) i = Some s' ∧ outstanding s' = true).
Proof.
  intros Hg Hs Ho. induction mid as [|x mid IH] using rev_ind; [right; rewrite app_nil_r; eauto|].
  rewrite app_assoc in Hg |- *. destruct IH as [(s' & Hin & Hset)|(s' & Hs' & Ho')].
  { intros a e b E. apply (Hg a e (b ++ [x])). by rewrite E, <-app_assoc, app_comm_cons. }
  { left. exists s'. split; [|done]. apply elem_of_app. by left. }
  rewrite log_state_snoc. destruct x as [j s2|j rq]; [|right; eauto]. destruct (String.eqb_spec j i) as [->|]; [|right; eauto].
  destruct (Hg (pre ++ mid) (Recorded i s2) [] eq_refl) as [Hrej Hno]. specialize (Hno s' Hs' Ho').
  destruct (outstanding s2) eqn:E2; [right; eauto|]. left. exists s2. split; [apply elem_of_app; right; by left|].
  destruct s2; try done; exfalso; apply Hno; set_solver.
Qed.
(** C11. A write to the remote repository that was sent is not sent again before
    what came of it is on record: between two requests for one operation, in
    any sequence of commands of the steward with any behaviour of the remote,
    interruptions included, the store recorded the operation as applied,
    failed or reconciled; while it is pending or of unknown outcome every
    attempt is refused. *)
Theorem unsettled_write_is_not_repeated commands pre mid post i rq rq' :
  w_log (steward_run commands) = pre ++ Sent i rq :: mid ++ Sent i rq' :: post →
  ∃ s, Recorded i s ∈ mid ∧ (s = GO_APPLIED ∨ s = GO_FAILED ∨ s = GO_RECONCILED).
Proof.
  intros E. pose proof (gw_log _ (steward_run_good commands)) as Hg. rewrite E in Hg.
  assert (last_event pre i = Some (Recorded i GO_PENDING)) as H1 by (by apply (Hg pre (Sent i rq) _ eq_refl)).
  assert (last_event (pre ++ Sent i rq :: mid) i = Some (Recorded i GO_PENDING)) as H2.
  { apply (Hg (pre ++ Sent i rq :: mid) (Sent i rq') post). by rewrite <-app_assoc. }
  assert (∃ m1 m2, mid = m1 ++ Recorded i GO_PENDING :: m2) as (m1 & m2 & ->).
  { destruct (last_event_in _ _ _ H2) as (before & after & E2 & _ & Hall). destruct (app_eq_inv _ _ _ _ E2) as [(k & -> & Ek)|(k & -> & Ek)].
    - destruct k as [|y k]; [done|]. injection Ek as -> Ek. exfalso. specialize (Hall (Sent i rq)). cbn in Hall. rewrite String.eqb_refl in Hall.
      discriminate Hall. rewrite Ek. set_solver.
    - destruct k as [|y k]; [by injection Ek|]. injection Ek as _ ->. eauto. }
  assert (good_log ((pre ++ [Sent i rq]) ++ m1)) as Hg1.
  { intros a e b Ea. apply (Hg a e (b ++ (Recorded i GO_PENDING :: m2) ++ Sent i rq' :: post)).
    rewrite (app_comm_cons b), app_assoc, <-Ea, <-!app_assoc. done. }
  destruct (stays_outstanding (pre ++ [Sent i rq]) m1 i GO_PENDING) as [(s & Hin & Hs)|(s & Hs & Ho)]; [done| |done| |].
  - rewrite log_state_snoc. by apply last_event_state.
  - exists s. split; [apply elem_of_app; by left|]. apply bool_decide_eq_true in Hs. set_solver.
  - exfalso. destruct (Hg (pre ++ Sent i rq :: m1) (Recorded i GO_PENDING) (m2 ++ Sent i rq' :: post)) as [_ Hno].
    { by rewrite <-!app_assoc. }
    apply (Hno s); [by rewrite <-app_assoc in Hs|done|set_solver].
Qed.

(** ** Merges go through the gate *)
(** All a computation sends satisfies [P]. *)
Definition sends {A} (m : steward A) (P : string → remote_request → Prop) : Prop :=
  ∀ w, ∃ fresh, w_log (m w).1 = w_log w ++ fresh ∧ ∀ i rq, Sent i rq ∈ fresh → P i rq.
Lemma sends_bind {A B} (m : steward A) (f : A → steward B) P : sends m P → (∀ w a, (m w).2 = Returns a → sends (f a) P) → sends (m ≫= f) P.
Proof.
  intros Hm Hf w. destruct (Hm w) as (f1 & E1 & H1). specialize (Hf w). unfold mbind, steward_bind.
  destruct (m w) as [w' [a|e|e]]; cbn [fst snd] in *; [|by exists f1|by exists f1].
  destruct (Hf a eq_refl w') as (f2 & E2 & H2). exists (f1 ++ f2). split; [by rewrite E2, E1, app_assoc|].
  intros i rq [H|H]%elem_of_app; [by apply H1|by apply H2].
Qed.
Lemma quiet_sends {A} (m : steward A) P : (∀ w, w_log (m w).1 = w_log w) → sends m P.
Proof. intros Hm w. exists []. split; [by rewrite app_nil_r|]. by intros i rq ?%elem_of_nil. Qed.
Lemma sends_pure {A} (r : result A) P : sends (pure_call r) P.
Proof. by apply quiet_sends. Qed.
Lemma sends_ask {A} (o : outcome A) P : sends (ask o) P.
Proof. by apply quiet_sends. Qed.
Lemma sends_get i P : sends (get_operation i) P.
Proof. apply quiet_sends. intros w. by rewrite get_operation_world. Qed.
Lemma sends_record o P : sends (record_operation o) P.
Proof.
  intros w. unfold record_operation. cbv zeta. destruct (_ !! _); [|case_match]; cbn [fst steward_raise pure_call w_log]; [|exists []; split; [by rewrite app_nil_r|by intros i rq ?%elem_of_nil]|];
    (eexists; split; [done|]); by intros i rq ?%list_elem_of_singleton.
Qed.
Lemma sends_save o P : sends (save_operation o) P.
Proof. apply sends_bind; [apply sends_get|]. intros _ e _. apply sends_bind; [apply sends_pure|]. intros _ u _. apply sends_record. Qed.
Lemma sends_new_receipt o s provider external observed reconcile P : sends (save_new_receipt o s provider external observed reconcile) P.
Proof. repeat (apply sends_bind; [by apply quiet_sends|intros _ ? _]). by apply quiet_sends. Qed.
Lemma sends_settle r pending external write now P : sends write P → sends (settle r pending external write now) P.
Proof.
  intros Hw w. unfold settle. destruct (Hw w) as (f1 & E1 & H1).
  assert (∀ m : steward GitHubOperationReceipt, sends m P → ∃ fresh, w_log (m (write w).1).1 = w_log w ++ fresh ∧ ∀ i rq, Sent i rq ∈ fresh → P i rq) as Hthen.
  { intros m Hm. destruct (Hm (write w).1) as (f2 & E2 & H2). exists (f1 ++ f2). split; [by rewrite E2, E1, app_assoc|].
    intros i rq [H|H]%elem_of_app; [by apply H1|by apply H2]. }
  destruct (write w) as [w' [observed|e|e]]; cbn [fst] in *; [| |by exists f1];
    apply Hthen; (apply sends_bind; [apply sends_save|]); intros _ u _; apply sends_new_receipt.
Qed.
Lemma sends_carry_out r o auth external write now P : (∀ context, context = write_context o auth → sends (write context) P) →
  sends (carry_out r o auth external write now) P.
Proof.
  intros Hw. unfold carry_out. cbv zeta. apply sends_bind; [apply sends_save|]. intros _ u _. apply sends_bind; [apply sends_pure|].
  intros w context E. apply sends_settle, Hw. destruct (new _) as [c|e] eqn:En; [|done]. apply new_ok in En as [-> _]. by injection E.
Qed.
Lemma sends_send {A} i rq (reply : outcome A) (P : string → remote_request → Prop) : P i rq → sends (send i rq reply) P.
Proof. intros HP w. exists [Sent i rq]. split; [done|]. intros i' rq' E%list_elem_of_singleton. by injection E as -> ->. Qed.
Lemma sends_snapshot r slug n P : sends (pull_snapshot r slug n) P.
Proof.
  apply sends_bind; [apply sends_ask|]. intros _ [p|] _; [|apply sends_pure]. repeat (apply sends_bind; [by apply quiet_sends|intros _ ? _]).
  by apply quiet_sends.
Qed.
Lemma sends_ready r slug o now P : sends (merge_ready r slug o now) P.
Proof.
  unfold merge_ready, evaluate_ready. do 3 (apply sends_bind; [apply sends_pure|intros _ ? _]). apply sends_bind; [|intros; apply sends_pure].
  apply sends_bind; [apply sends_snapshot|intros _ ? _]. repeat (apply sends_bind; [by apply quiet_sends|intros _ ? _]). by apply quiet_sends.
Qed.
Lemma sends_readback r slug n P : sends (readback_pull r slug n) P.
Proof. apply sends_bind; [apply sends_ask|intros _ ? _]. by apply quiet_sends. Qed.
(** What a dispatch sends is the request of its operation. *)
Definition request_of (slug : string) (o : GitHubOperation) (context : GitHubWriteContext) (rq : remote_request) : Prop :=
  match rq with
  | RQ_merge _ n _ _ _ => go_operation_type o = GT_MERGE_PULL_REQUEST ∧ py_int (go_target o) = Ok n ∧ rq = merge_request slug n o context
  | RQ_update s n _ c => go_operation_type o ∈ [GT_UPDATE_PULL_REQUEST; GT_CLOSE_PULL_REQUEST] ∧ py_int (go_target o) = Ok n ∧ s = slug ∧ c = context
  | RQ_delete_branch s b c => go_operation_type o = GT_DELETE_BRANCH ∧ b = go_target o ∧ s = slug ∧ c = context
  end.
Lemma pure_returns {A} (r : result A) w a : (pure_call r w).2 = Returns a → r = Ok a.
Proof. destruct r; cbn; congruence. Qed.
Lemma sends_dispatch r later slug o context now :
  sends (dispatch r later slug o context now) (λ i rq, i = go_operation_id o ∧ request_of slug o context rq).
Proof.
  unfold dispatch. cbv zeta. destruct (go_operation_type o) eqn:Et;
    try (apply sends_bind; [apply sends_pure|intros w n Hn%pure_returns]);
    try (apply sends_bind; [apply sends_send; cbn; rewrite ?Et; split_and!; set_solver|intros _ ? _]);
    repeat first [apply sends_pure | apply sends_bind; [by apply sends_readback|intros _ ? _] | apply sends_bind; [by apply quiet_sends|intros _ ? _] | by apply quiet_sends | case_match].
Qed.
(** The gate held of what the remote said about the pull request. *)
Definition gate_passed (r : remote) (slug : string) (o : GitHubOperation) (n now : Z) : Prop :=
  ∃ pull reviews checks protection drift review required,
    get_pull_request r slug n = Returns (Some pull) ∧ iter_reviews r slug n = Returns reviews
    ∧ iter_checks r slug (pl_head_sha pull) = Returns checks ∧ get_branch_protection r slug (pl_base_branch pull) = Returns protection
    ∧ evaluate_protection_drift protection None "auto" = Ok drift ∧ payload_review (go_payload o) now = Ok review
    ∧ required_checks_of (go_payload o) = Ok required
    ∧ may_merge (with_reviews_and_checks pull reviews checks) (step_options protection drift (str_of_opt (go_expected_head_sha o)) review required) now.
Lemma bind_returns {A B} (m : steward A) (f : A → steward B) w b : ((m ≫= f) w).2 = Returns b →
  ∃ a, (m w).2 = Returns a ∧ (f a (m w).1).2 = Returns b.
Proof. unfold mbind, steward_bind. destruct (m w) as [w' [a|e|e]]; cbn; [eauto|done|done]. Qed.
Lemma snapshot_returns r slug n w p : (pull_snapshot r slug n w).2 = Returns p →
  ∃ pull reviews checks, get_pull_request r slug n = Returns (Some pull) ∧ iter_reviews r slug n = Returns reviews
    ∧ iter_checks r slug (pl_head_sha pull) = Returns checks ∧ p = with_reviews_and_checks pull reviews checks.
Proof.
  unfold pull_snapshot. intros ([pull|] & E1 & E)%bind_returns; [|done]. apply bind_returns in E as (reviews & E2 & E).
  apply bind_returns in E as (checks & E3 & E). injection E as <-. by exists pull, reviews, checks.
Qed.
Lemma gate_ready p o now g : evaluate_merge_gate p o now = Ok g → mg_state g = MG_READY → may_merge p o now.
Proof.
  unfold evaluate_merge_gate. cbv zeta. intros E Hs. apply bind_ok in E as (i & _ & E). apply new_ok in E as [-> _]. cbn [mg_state] in Hs.
  apply gate_opens. by case_bool_decide.
Qed.
Lemma merge_ready_returns r slug o now w u : (merge_ready r slug o now w).2 = Returns u →
  ∃ n, py_int (go_target o) = Ok n ∧ gate_passed r slug o n now.
Proof.
  unfold merge_ready. intros (n & Hn%pure_returns & E)%bind_returns. apply bind_returns in E as (review & Hr%pure_returns & E).
  apply bind_returns in E as (required & Hq%pure_returns & E). apply bind_returns in E as (verdict & E & Hv%pure_returns).
  apply raise_if_ok, negb_false_iff in Hv. exists n. split; [done|]. unfold evaluate_ready in E. apply bind_returns in E as (p & Hp & E).
  apply snapshot_returns in Hp as (pull & reviews & checks & H1 & H2 & H3 & ->). apply bind_returns in E as (protection & H4 & E).
  apply bind_returns in E as (drift & H5%pure_returns & E). apply bind_returns in E as (g & H6%pure_returns & E). injection E as <-.
  apply bool_decide_eq_true in Hv. exists pull, reviews, checks, protection, drift, review, required. split_and!; try done.
  by eapply gate_ready.
Qed.
Lemma merge_request_inv slug n o context slug' n' head method context' : merge_request slug n o context = RQ_merge slug' n' head method context' →
  slug' = slug ∧ n' = n ∧ head = str_of_opt (go_expected_head_sha o) ∧ context' = context.
Proof. unfold merge_request. by intros [= -> -> -> _ ->]. Qed.
(** C15. A step of the lifecycle sends a request only for its own operation,
    with an approved intent, when it is not a dry run; and a merge only of the
    pull request and the head it was planned for, after the gate held of what
    the remote just answered: open, mergeable, at that head, reviewed, checked
    and on a branch protected as expected. *)
Theorem lifecycle_merge_passes_gate r later slug o intent auth apply now w : ∃ fresh,
  w_log (apply_step r later slug o intent auth apply now w).1 = w_log w ++ fresh
  ∧ ∀ i rq, Sent i rq ∈ fresh → i = go_operation_id o ∧ ai_approval_state intent = AS_APPROVED ∧ apply = true
    ∧ ∀ slug' n head method context, rq = RQ_merge slug' n head method context →
      slug' = slug ∧ py_int (go_target o) = Ok n ∧ head = str_of_opt (go_expected_head_sha o)
      ∧ wc_authorization_id context = auth ∧ wc_idempotency_key context = go_idempotency_key o ∧ gate_passed r slug o n now.
Proof.
  revert w. apply sends_bind; [apply sends_pure|]. intros w u Ha%pure_returns%raise_if_ok%negb_false_iff%bool_decide_eq_true.
  apply sends_bind; [apply sends_get|]. intros _ current _. apply sends_bind; [apply sends_pure|]. intros _ u' _.
  apply sends_bind. { case_bool_decide; [apply sends_ready|by apply quiet_sends]. }
  intros w' u'' Hready. destruct apply; cbn [negb]; [|apply sends_bind; [apply sends_pure|intros _ ? _]; apply sends_pure].
  apply sends_carry_out. intros context ->. intros w0. destruct (sends_dispatch r later slug o (write_context o auth) now w0) as (fresh & E & Hf).
  exists fresh. split; [done|]. intros i rq [-> Hrq]%Hf. split_and!; try done. intros slug' n head method context ->. cbn in Hrq.
  destruct Hrq as (Ht & Hn & Hrq). rewrite bool_decide_eq_true_2 in Hready by done. apply merge_ready_returns in Hready as (n' & Hn' & Hg).
  rewrite Hn in Hn'. injection Hn' as <-. symmetry in Hrq. apply merge_request_inv in Hrq as (-> & _ & -> & ->). by split_and!.
Qed.
