(* ===== verification/GitOwnership.v ===== *)
(** * GitOwnership: resources of a repository have one owner

    The conflicts of claims against what overlaps, and that neither the
    registry nor the store ever holds two claims that do. *)
From S2P Require Import Prelude PyStd PyRe PyJson Identifiers TaskState ControlDomain SchedulerDomain ResourceKeys IsoInstant SecurityDomain GitDomain MergeGate GateRules GitStore GitSteward GitSafety.
Local Open Scope Z_scope.

(** ** What overlaps *)
Definition lies_under (a b : string) : Prop := ∃ t, a = b +:+ "/" +:+ t.
Definition path_like (k : OwnershipKind) : Prop := k ∈ [OK_FILE; OK_DIRECTORY; OK_SCHEMA].
Definition overlap (k : OwnershipKind) (a b : string) : Prop := a = b ∨ path_like k ∧ (lies_under a b ∨ lies_under b a).
(** Two active claims of different tasks to one thing. *)
Definition conflict (c d : ResourceOwnershipClaim) : Prop :=
  ow_state c = OS_ACTIVE ∧ ow_state d = OS_ACTIVE ∧ ow_repository_slug c = ow_repository_slug d ∧ ow_owner_task_id c ≠ ow_owner_task_id d
  ∧ ow_resource_kind c = ow_resource_kind d
  ∧ ∃ a b, normalize (ow_resource c) = Ok a ∧ normalize (ow_resource d) = Ok b ∧ overlap (ow_resource_kind c) a b.
Lemma overlap_sym k a b : overlap k a b → overlap k b a.
Proof. unfold overlap. naive_solver. Qed.
#[export] Instance conflict_sym : Symmetric conflict.
Proof.
  intros c d (H1 & H2 & H3 & H4 & H5 & a & b & Ha & Hb & Ho). unfold conflict. split_and!; try congruence.
  exists b, a. split_and!; try done. rewrite <-H5. by apply overlap_sym.
Qed.
Lemma lies_under_spec a b : str_startswith (b +:+ "/") a = true ↔ lies_under a b.
Proof.
  unfold lies_under. rewrite startswith_spec. split; intros [t ->]; exists t; by rewrite str_app_assoc.
Qed.
Lemma overlap_spec k a b : String.eqb a b || bool_decide (k ∈ [OK_FILE; OK_DIRECTORY; OK_SCHEMA])
    && (str_startswith (b +:+ "/") a || str_startswith (a +:+ "/") b) = true ↔ overlap k a b.
Proof. unfold overlap, path_like. by rewrite orb_true_iff, andb_true_iff, orb_true_iff, String.eqb_eq, bool_decide_eq_true, !lies_under_spec. Qed.
Lemma conflicts_spec c d : ownership_conflicts c d = Ok true ↔ conflict c d.
Proof.
  unfold ownership_conflicts, conflict. split.
  - destruct (negb _ || _) eqn:E1; [done|]. apply orb_false_iff in E1 as [H1%negb_false_iff%bool_decide_eq_true H2%negb_false_iff%bool_decide_eq_true].
    destruct (negb _ || _) eqn:E2; [done|]. apply orb_false_iff in E2 as [H3%negb_false_iff%String.eqb_eq H4%String.eqb_neq].
    destruct (negb _) eqn:E3; [done|]. apply negb_false_iff, bool_decide_eq_true in E3. intros E.
    apply bind_ok in E as (a & Ha & E). apply bind_ok in E as (b & Hb & [= E]). split_and!; try done. exists a, b. split_and!; try done.
    by apply overlap_spec.
  - intros (H1 & H2 & H3 & H4 & H5 & a & b & Ha & Hb & Ho). rewrite !bool_decide_eq_true_2, H3, String.eqb_refl by done.
    apply String.eqb_neq in H4. rewrite H4. cbn [negb orb]. rewrite Ha, Hb. cbn [mbind result_bind]. f_equal. by apply overlap_spec.
Qed.

(** ** The registry *)
Definition exclusive (l : list ResourceOwnershipClaim) : Prop := ∀ i j c d, (i < j)%nat → l !! i = Some c → l !! j = Some d → ¬ conflict c d.
Lemma exclusive_any l i j c d : exclusive l → i ≠ j → l !! i = Some c → l !! j = Some d → ¬ conflict c d.
Proof.
  intros Hl Hij Hc Hd. destruct (decide (i < j)%nat); [by eapply Hl|]. intros Hs%symmetry. eapply (Hl j i d c); [lia|done|done|done].
Qed.
Lemma acquire_claim_ok slug kind resource owner workspace now l l' c : acquire_claim slug kind resource owner workspace now l = Ok (l', c) →
  l' = l ++ [c] ∧ ow_repository_slug c = slug ∧ ow_state c = OS_ACTIVE ∧ (∀ d, d ∈ l → ¬ conflict c d)
  ∧ ow_resource_kind c = kind ∧ ow_owner_task_id c = owner ∧ normalize resource = Ok (ow_resource c).
Proof.
  unfold acquire_claim. intros E. apply bind_ok in E as (res & Hr & E). apply bind_ok in E as (i & _ & E).
  apply bind_ok in E as (c' & Hc & E). apply new_ok in Hc as [-> _]. apply bind_ok in E as ([] & Hf & [= <- <-]). split_and!; try done.
  intros d Hd Hcon. rewrite for_each_ok in Hf. assert (d ∈ active_claims l) as Hact.
  { apply elem_of_List_filter. split; [done|]. apply bool_decide_eq_true. by destruct Hcon as (_ & Hactive & _). }
  apply Hf in Hact. apply bind_ok in Hact as (b & Hb & Hn%raise_if_ok). subst b. apply conflicts_spec in Hcon. congruence.
Qed.
Lemma exclusive_acquire slug kind resource owner workspace now l l' c : exclusive l →
  acquire_claim slug kind resource owner workspace now l = Ok (l', c) → exclusive l'.
Proof.
  intros Hl (-> & _ & _ & Hno & _)%acquire_claim_ok. intros i j a b Hij Ha Hb. apply lookup_app_Some in Hb as [Hb|[Hj Hb]].
  - rewrite lookup_app_l in Ha by (apply lookup_lt_Some in Hb; lia). by eapply Hl.
  - apply list_lookup_singleton_Some in Hb as [? <-]. rewrite lookup_app_l in Ha by lia. intros Hc%symmetry.
    eapply Hno; [|exact Hc]. by eapply list_elem_of_lookup_2.
Qed.
Lemma release_claim_ok i l l' r : release_claim i l = Ok (l', r) →
  ∃ k c, l !! k = Some c ∧ ow_ownership_id c = i ∧ r = released c ∧ l' = <[k := released c]> l.
Proof.
  revert l' r. induction l as [|c l IH]; intros l' r; cbn [release_claim]; [done|]. destruct (String.eqb_spec (ow_ownership_id c) i) as [Hi|Hi].
  - intros [= <- <-]. by exists 0%nat, c.
  - intros ([l2 r2] & E & [= <- <-])%bind_ok. apply IH in E as (k & d & Hd & Hid & -> & ->). by exists (S k), d.
Qed.
Lemma exclusive_release i l l' r : exclusive l → release_claim i l = Ok (l', r) → exclusive l'.
Proof.
  intros Hl (k & c & Hc & _ & _ & ->)%release_claim_ok. intros a b x y Hab Hx Hy Hcon.
  apply list_lookup_insert_Some in Hx as [(-> & <- & _)|[_ Hx]]; [by destruct Hcon|].
  apply list_lookup_insert_Some in Hy as [(-> & <- & _)|[_ Hy]]; [by destruct Hcon as (_ & ? & _)|]. by eapply Hl.
Qed.
(** Operations on the registry. *)
Inductive registry_op :=
  | R_acquire (slug : string) (kind : OwnershipKind) (resource owner workspace : string) (now : Z)
  | R_release (ownership_id : string).
Definition registry_step (l : list ResourceOwnershipClaim) (o : registry_op) : list ResourceOwnershipClaim :=
  match match o with
        | R_acquire slug kind resource owner workspace now => acquire_claim slug kind resource owner workspace now l
        | R_release i => release_claim i l
        end with Ok (l', _) => l' | Raise _ => l end.
Theorem registry_stays_exclusive ops : exclusive (foldl registry_step [] ops).
Proof.
  assert (exclusive []) as H0 by done. revert H0. generalize (@nil ResourceOwnershipClaim). induction ops as [|o ops IH]; intros l Hl; [done|].
  cbn [foldl]. apply IH. unfold registry_step. destruct o as [slug kind resource owner workspace now|i].
  - destruct (acquire_claim _ _ _ _ _ _ _) as [[l' c]|e] eqn:E; [|done]. by eapply exclusive_acquire.
  - destruct (release_claim i l) as [[l' c]|e] eqn:E; [|done]. by eapply exclusive_release.
Qed.

(** ** Commands that leave the claims alone *)
Definition frames {A} (m : steward A) : Prop := ∀ w, ss_ownership (w_store (m w).1) = ss_ownership (w_store w).
Lemma frames_bind {A B} (m : steward A) (f : A → steward B) : frames m → (∀ a, frames (f a)) → frames (m ≫= f).
Proof.
  intros Hm Hf w. specialize (Hm w). unfold mbind, steward_bind. destruct (m w) as [w' [a|e|e]]; cbn [fst] in *; [|done|done].
  by rewrite Hf.
Qed.
Lemma frames_get i : frames (get_operation i).
Proof. intros w. by rewrite get_operation_world. Qed.
Lemma frames_record o : frames (record_operation o).
Proof. intros w. unfold record_operation. cbv zeta. repeat case_match; done. Qed.
Lemma frames_get_each ids : frames (get_each ids).
Proof. induction ids as [|i ids IH]; [done|]. apply frames_bind; [apply frames_get|]. intros o. by apply frames_bind. Qed.
Lemma frames_save o : frames (save_operation o).
Proof. apply frames_bind; [apply frames_get|]. intros e. apply frames_bind; [done|]. intros u. apply frames_record. Qed.
Create HintDb claims.
#[export] Hint Resolve frames_get frames_record frames_get_each frames_save : claims.
#[export] Hint Extern 2 (frames _) => (intros w; reflexivity) : claims.
Ltac frame_steps := repeat first [ solve [eauto with claims] | apply frames_bind; [|intros ?] | case_match | case_bool_decide ].
Lemma frames_pending slug : frames (pending_operations slug).
Proof. intros w. apply frames_get_each. Qed.
#[export] Hint Resolve frames_pending : claims.
Lemma frames_success r pending observed external now : frames (applied_write r pending observed external now).
Proof. unfold applied_write, save_new_receipt. frame_steps. Qed.
Lemma frames_failure r pending e now : frames (failed_write r pending e now).
Proof. unfold failed_write, save_new_receipt. cbv zeta. frame_steps. Qed.
Lemma frames_settle r pending external write now : frames write → frames (settle r pending external write now).
Proof.
  intros Hw w. unfold settle. specialize (Hw w). destruct (write w) as [w' [observed|e|e]]; cbn [fst] in *; [| |done]; rewrite <-Hw;
    [apply frames_success|apply frames_failure].
Qed.
Lemma frames_dispatch r later slug o context now : frames (dispatch r later slug o context now).
Proof. unfold dispatch, readback_pull. cbv zeta. frame_steps. Qed.
Lemma frames_send_merge r o context : frames (send_merge r o context).
Proof. unfold send_merge. cbv zeta. frame_steps. Qed.
#[export] Hint Resolve frames_settle frames_dispatch frames_send_merge : claims.
Lemma frames_apply_step r later slug o intent auth apply now : frames (apply_step r later slug o intent auth apply now).
Proof. unfold apply_step, merge_ready, evaluate_ready, pull_snapshot, carry_out. cbv zeta. frame_steps. Qed.
Lemma frames_apply_merge r o gate intent auth now : frames (apply_merge r o gate intent auth now).
Proof. unfold apply_merge, carry_out. cbv zeta. frame_steps. Qed.
Lemma frames_merge_gate r slug n checks approvals head review tree policy now : frames (merge_gate r slug n checks approvals head review tree policy now).
Proof. unfold merge_gate, pull_snapshot. cbv zeta. frame_steps. Qed.
#[export] Hint Resolve frames_merge_gate : claims.
Lemma frames_persist slug t target actor correlation payload expected now :
  frames (persist_intent slug t target actor correlation payload expected now).
Proof. unfold persist_intent. frame_steps. Qed.
Lemma frames_reconcile r slug o now : frames (reconcile_unknown r slug o now).
Proof. unfold reconcile_unknown, reconciled, readback_pull. cbv zeta. frame_steps. Qed.
Lemma frames_mark o now : frames (mark_interrupted_pending_unknown o now).
Proof. unfold mark_interrupted_pending_unknown. cbv zeta. frame_steps. Qed.
Lemma frames_plan r r' slug n actor correlation method head review tree policy now :
  frames (plan_merge r r' slug n actor correlation method head review tree policy now).
Proof. unfold plan_merge, pull_snapshot. cbv zeta. frame_steps. Qed.

(** ** The claims on the books *)
(** The steward works for one repository: all claims are of that one. *)
Definition of_repository (slug : string) (k : steward_command) : Prop :=
  match k with K_claim_resource s _ _ _ _ _ => s = slug | _ => True end.
Definition books_exclusive (slug : string) (books : gmap string ownership_row) : Prop :=
  (∀ i row, books !! i = Some row → or_repository_slug row = slug ∧ ow_repository_slug (or_claim row) = slug
    ∧ ow_state (or_claim row) = OS_ACTIVE)
  ∧ ∀ i j row row', i ≠ j → books !! i = Some row → books !! j = Some row' → ¬ conflict (or_claim row) (or_claim row').
Lemma active_ownership_all slug w claims i row : (active_ownership slug w).2 = Returns claims → ss_ownership (w_store w) !! i = Some row →
  or_repository_slug row = slug → ow_state (or_claim row) = OS_ACTIVE → or_claim row ∈ claims.
Proof.
  unfold active_ownership. cbv zeta. cbn [pure_call snd]. destruct (traverse _ _) as [l|e] eqn:E; [|done]. intros [= <-] Hi Hs Ha.
  apply traverse_new in E as ->. apply list_elem_of_fmap. exists (i, row). split; [done|]. apply elem_of_List_filter. cbn [snd].
  split; [apply elem_of_sorted_by; by apply elem_of_map_to_list|]. by rewrite Hs, String.eqb_refl, bool_decide_eq_true_2.
Qed.
Lemma claim_resource_exclusive slug kind resource owner workspace now w : books_exclusive slug (ss_ownership (w_store w)) →
  books_exclusive slug (ss_ownership (w_store (claim_resource slug kind resource owner workspace now w).1)).
Proof.
  intros [Hall Hpair]. unfold claim_resource. unfold mbind, steward_bind. destruct (active_ownership slug w) as [w' out] eqn:Ea.
  assert (w' = w) as -> by (by injection Ea). destruct out as [claims|e|e]; [|done|done].
  assert ((active_ownership slug w).2 = Returns claims) as Hc by (by rewrite Ea). cbn [pure_call].
  destruct (acquire_claim slug kind resource owner workspace now claims) as [[l c]|e] eqn:E; cbn [fst snd]; [|done].
  apply acquire_claim_ok in E as (-> & Hs & Hact & Hno & _). cbn [save_ownership fst mret steward_ret w_store ss_ownership].
  assert (∀ i row, ss_ownership (w_store w) !! i = Some row → ¬ conflict c (or_claim row)) as Hnew.
  { intros i row Hi. apply Hno. destruct (Hall i row Hi) as (H1 & _ & H2). by eapply active_ownership_all. }
  assert (match ss_ownership (w_store w) !! ow_ownership_id c with Some row => or_repository_slug row | None => ow_repository_slug c end = slug) as ->.
  { destruct (ss_ownership (w_store w) !! ow_ownership_id c) as [row|] eqn:E; [by apply Hall in E as [-> _]|done]. }
  split.
  - intros i row [[_ <-]|[_ Hi]]%lookup_insert_Some; [done|by eapply Hall].
  - intros i j row row' Hij [[Hi <-]|[_ Hi]]%lookup_insert_Some [[Hj <-]|[_ Hj]]%lookup_insert_Some; cbn [or_claim].
    + congruence.
    + by eapply Hnew.
    + intros Hcon%symmetry. by eapply Hnew.
    + by eapply (Hpair i j).
Qed.
Lemma steward_step_exclusive slug w k : of_repository slug k → books_exclusive slug (ss_ownership (w_store w)) →
  books_exclusive slug (ss_ownership (w_store (steward_step w k))).
Proof.
  intros Hk Hb. destruct k; cbn [steward_step]; try (cbn in Hk; subst; by apply claim_resource_exclusive);
    first [rewrite frames_persist|rewrite frames_apply_step|rewrite frames_reconcile|rewrite frames_mark|rewrite frames_merge_gate
          |rewrite frames_plan|rewrite frames_apply_merge]; done.
Qed.

(** ** the repository steward on concrete remotes

    Runs that meet the hypotheses of the steward's theorems, and corners of
    its behaviour. *)
Module Scenarios.
Ltac computed := match goal with |- _ = ?b => vm_cast_no_check (eq_refl b) end.

Definition ok_value {A} (r : result A) (otherwise : A) : A := match r with Ok a => a | Raise _ => otherwise end.
Definition noon : Z := 1700000000000000.
Definition repo : string := "acme/app".
Definition head : string := "0123456789abcdef0123456789abcdef01234567".
Definition approval : PullRequestReview := mkReview "1" "alice" RV_APPROVED (Some head) (Some noon).
Definition green : PullRequestCheck := mkCheck "1" "build" CK_COMPLETED (Some CC_SUCCESS) true (Some 7).
Definition pull_id : string := Eval vm_compute in ok_value (github_identifier "GHPR" [repo; "7"]) "".
Definition pull : PullRequestSnapshot :=
  mkPull pull_id repo 7 "change" PULL_OPEN false "main" "topic" head head (Some true) (Some "bob") [approval] [green] noon.
Definition protection : GitHubBranchProtection :=
  mkProtection repo "main" true ["build"] [Some 7] false true true 1 true false false true true true false false.
Definition drift : ProtectionDriftDecision := Eval vm_compute in
  ok_value (evaluate_protection_drift protection None "auto") (mkDrift "" "" "" false [] protection protection).
Definition options : gate_options := step_options protection drift head None [].
Definition ready_gate : MergeGateDecision := Eval vm_compute in
  ok_value (evaluate_merge_gate pull options noon) (mkGate "" "" 0 "" MG_BLOCKED [] [] [] [] 0 0 None false []).
Example gate_of_pull_opens : evaluate_merge_gate pull options noon = Ok ready_gate ∧ mg_state ready_gate = MG_READY.
Proof. split; [computed|reflexivity]. Qed.

(** ** Remotes *)
Definition error (unknown : bool) : AdapterErrorPayload :=
  mkAdapterError "GITHUB_503" (if unknown then AE_UNKNOWN_OUTCOME else AE_UNAVAILABLE) "no answer" true unknown "github" "delete" "corr:1" None [].
Definition remote_with (branches : outcome (list string)) (deleted : outcome ()) : remote :=
  mkRemote "github" (λ _ n, Returns (if n =? 7 then Some pull else None)) (λ _ _, Returns [approval]) (λ _ _, Returns [green])
    (λ _ _, Returns protection) (λ _, branches) (λ _, Returns [("sha", JStr head)]) (λ _, Returns (7, JObj [])) (λ _, deleted).
Definition healthy : remote := remote_with (Returns ["main"]) (Returns ()).
Definition refusing : remote := remote_with (Returns ["main"; "topic"]) (AdapterFails (error false)).
Definition silent : remote := remote_with (Returns ["main"; "topic"]) (AdapterFails (error true)).
(** The write takes effect, the readback after it gets no answer. *)
Definition unreadable : remote := remote_with (AdapterFails (error false)) (Returns ()).
Definition intent_for (operation : string) : ActionIntent :=
  mkActionIntent "action:1" "steward:1" "github.steward" repo operation [] RISK_HIGH "idempotent" AS_APPROVED "corr:1".
Definition intent : ActionIntent := intent_for "github.merge".
Definition no_operation : GitHubOperation := mkOperation "" GT_DELETE_BRANCH "" "" "" "" GO_REJECTED None None "" "" [] None 0 0.
Definition persist_delete : steward_command := K_persist_intent repo GT_DELETE_BRANCH "topic" "steward:1" "corr:1" [] None noon.
Definition deletion : GitHubOperation := Eval vm_compute in
  ok_value (create_operation GT_DELETE_BRANCH repo "topic" (lifecycle_key GT_DELETE_BRANCH repo "topic" None) "steward:1" "corr:1" [] None noon)
    no_operation.
Definition delete_with (r later : remote) : steward_command := K_apply_step r later repo deletion intent "auth:1" true noon.
Definition stored_state (w : world) (i : string) : option GitOperationState := go_state <$> ss_operations (w_store w) !! i.
Definition log_of (commands : list steward_command) : list steward_event := w_log (steward_run commands).
Definition delete_request : remote_request := RQ_delete_branch repo "topic" (write_context deletion "auth:1").

(** A write that failed for certain may be sent again. *)
Lemma unsettled_write_is_not_repeated_witness :
  log_of [persist_delete; delete_with refusing refusing; delete_with healthy healthy]
    = [Recorded (go_operation_id deletion) GO_PLANNED; Recorded (go_operation_id deletion) GO_PENDING]
      ++ Sent (go_operation_id deletion) delete_request
      :: [Recorded (go_operation_id deletion) GO_FAILED; Recorded (go_operation_id deletion) GO_PENDING]
      ++ Sent (go_operation_id deletion) delete_request :: [Recorded (go_operation_id deletion) GO_APPLIED]
  ∧ ∃ s, Recorded (go_operation_id deletion) s ∈ [Recorded (go_operation_id deletion) GO_FAILED; Recorded (go_operation_id deletion) GO_PENDING]
      ∧ (s = GO_APPLIED ∨ s = GO_FAILED ∨ s = GO_RECONCILED).
Proof.
  assert (log_of [persist_delete; delete_with refusing refusing; delete_with healthy healthy]
    = [Recorded (go_operation_id deletion) GO_PLANNED; Recorded (go_operation_id deletion) GO_PENDING]
      ++ Sent (go_operation_id deletion) delete_request
      :: [Recorded (go_operation_id deletion) GO_FAILED; Recorded (go_operation_id deletion) GO_PENDING]
      ++ Sent (go_operation_id deletion) delete_request :: [Recorded (go_operation_id deletion) GO_APPLIED]) as E by computed.
  split; [exact E|]. exact (unsettled_write_is_not_repeated _ _ _ _ _ _ _ E).
Defined.
(** One whose outcome is not known is not, until the readback settles it. *)
Example unknown_outcome_waits :
  log_of [persist_delete; delete_with silent silent; delete_with healthy healthy; K_reconcile_unknown healthy repo
            (operation_copy GO_UNKNOWN_OUTCOME (Some "auth:1") None noon deletion) noon]
  = [Recorded (go_operation_id deletion) GO_PLANNED; Recorded (go_operation_id deletion) GO_PENDING;
     Sent (go_operation_id deletion) delete_request; Recorded (go_operation_id deletion) GO_UNKNOWN_OUTCOME;
     Recorded (go_operation_id deletion) GO_RECONCILED].
Proof. computed. Qed.
(** A readback that fails after the write took effect is recorded as a failed
    write, and the write is sent again. *)
Example failed_readback_counts_as_failed_write :
  log_of [persist_delete; delete_with unreadable unreadable; delete_with healthy healthy]
  = [Recorded (go_operation_id deletion) GO_PLANNED; Recorded (go_operation_id deletion) GO_PENDING;
     Sent (go_operation_id deletion) delete_request; Recorded (go_operation_id deletion) GO_FAILED;
     Recorded (go_operation_id deletion) GO_PENDING; Sent (go_operation_id deletion) delete_request;
     Recorded (go_operation_id deletion) GO_APPLIED].
Proof. computed. Qed.

(** ** Merges *)
Definition merge_of (key target : string) : result GitHubOperation :=
  create_operation GT_MERGE_PULL_REQUEST repo target key "steward:1" "corr:1" [] (Some head) noon.
Definition merge_7 : GitHubOperation := Eval vm_compute in
  ok_value (merge_of (lifecycle_key GT_MERGE_PULL_REQUEST repo "7" (Some head)) "7") no_operation.
Definition merge_8 : GitHubOperation := Eval vm_compute in
  ok_value (merge_of (lifecycle_key GT_MERGE_PULL_REQUEST repo "8" (Some head)) "8") no_operation.
Definition sent (commands : list steward_command) : list remote_request :=
  omap (λ e, match e with Sent _ rq => Some rq | Recorded _ _ => None end) (log_of commands).
Example lifecycle_merges :
  sent [K_persist_intent repo GT_MERGE_PULL_REQUEST "7" "steward:1" "corr:1" [] (Some head) noon;
        K_apply_step healthy healthy repo merge_7 intent "auth:1" false noon; K_apply_step healthy healthy repo merge_7 intent "auth:1" true noon]
  = [RQ_merge repo 7 head "squash" (write_context merge_7 "auth:1")].
Proof. computed. Qed.
(** The lifecycle evaluates the gate of the pull request it merges; the service
    takes the gate it is given, also that of another pull request. *)
Example gate_of_another_pull :
  sent [K_apply_step healthy healthy repo merge_8 intent "auth:1" true noon] = []
  ∧ mg_pull_number ready_gate = 7
  ∧ sent [K_apply_merge healthy merge_8 ready_gate intent "auth:1" noon] = [RQ_merge repo 8 head "squash" (write_context merge_8 "auth:1")].
Proof. split_and!; [computed|reflexivity|computed]. Qed.

(** ** Claims *)
Definition claim (resource owner : string) : steward_command := K_claim_resource repo OK_DIRECTORY resource owner "ws-1" noon.
Definition claimed (commands : list steward_command) : list (string * string) :=
  (λ io, (io.1, ow_resource (or_claim io.2))) <$> map_to_list (ss_ownership (w_store (steward_run commands))).
Definition id_a : string := Eval vm_compute in ok_value (github_identifier "GHOWN" [repo; "DIRECTORY"; "src/a"; "T1"; "ws-1"]) "".
Definition id_b : string := Eval vm_compute in ok_value (github_identifier "GHOWN" [repo; "DIRECTORY"; "src/b"; "T2"; "ws-1"]) "".
Definition row_of (i resource owner : string) : ownership_row :=
  mkOwnershipRow repo (mkOwnership i repo OK_DIRECTORY resource owner "ws-1" OS_ACTIVE noon None).
Definition claims : list steward_command := [claim "/src/a/" "T1"; claim "src/a/deep" "T2"; claim "src\b" "T2"; claim "src" "T3"].
Example overlapping_claims_refused : (claimed claims).*2 = ["src/a"; "src/b"] ∨ (claimed claims).*2 = ["src/b"; "src/a"].
Proof. vm_compute. auto. Qed.
(** A resource that only the second look at it refuses stops every other
    task's claims of its kind. *)
Example hidden_parent_blocks_kind :
  normalize "/ .." = Ok " .." ∧ normalize " .." = raise ValueError "ownership resource must be a repository-relative path or stable resource name"
  ∧ (claimed [claim "/ .." "T1"; claim "src/a" "T2"; claim "docs" "T3"]).*2 = [" .."].
Proof. split_and!; computed. Qed.
End Scenarios.
