(* ===== verification/CommandBus.v ===== *)
(** * CommandBus: [core/command_bus.py], [core/journal.py], [contracts/envelopes.py]

    Commands, the journal of their results and the processor that runs a
    command or answers it from the journal.  The journal is the contents of its
    directory, one record under the digest of each idempotency key; a record
    appears in one step, as the hard link makes it.  A handler is any function
    that returns or raises and may answer differently every time it runs. *)
From S2P Require Import Prelude PyStd PyRe PyJson Identifiers TaskState ControlDomain SchedulerDomain IsoInstant SecurityDomain.
Local Open Scope Z_scope.

(** ** Envelopes *)
Inductive CommandStatus := CS_SUCCEEDED | CS_REJECTED | CS_FAILED | CS_UNKNOWN.
#[export] Instance CommandStatus_eq_dec : EqDecision CommandStatus.
Proof. solve_decision. Defined.
Record CommandEnvelope := mkCommand {
  ce_command_id : string; ce_command_type : string; ce_project_id : string; ce_actor_id : string; ce_correlation_id : string;
  ce_idempotency_key : string; ce_issued_at_utc : Z; ce_authority_scope : list string; ce_dry_run : bool; ce_payload : list (string * json);
  ce_action_intent : option ActionIntent;
}.
Definition identifiers (l : list string) : result () := raise_if (negb (forallb Identifier l)) ValidationError "Identifier".
Definition bounded (low high : nat) (field s : string) : result () := raise_if (negb (min_length low s && max_length high s)) ValidationError field.
#[export] Instance CommandEnvelope_model : Model CommandEnvelope := λ c,
  _ ← identifiers [ce_command_id c; ce_command_type c; ce_project_id c; ce_actor_id c; ce_correlation_id c];
  _ ← bounded 8 256 "idempotency_key" (ce_idempotency_key c);
  match ce_action_intent c with
  | None => Ok ()
  | Some a =>
      _ ← validate a;
      _ ← raise_if (negb (String.eqb (ai_actor_id a) (ce_actor_id c))) ValueError "action intent actor must match command actor";
      _ ← raise_if (negb (String.eqb (ai_correlation_id a) (ce_correlation_id c))) ValueError
            "action intent correlation ID must match command correlation ID";
      raise_if (negb (String.eqb (ai_idempotency_key a) (ce_idempotency_key c))) ValueError
        "action intent idempotency key must match command idempotency key"
  end.
(** What a command means: all of it but its identifier and its instant. *)
Definition semantic_document (c : CommandEnvelope) : json :=
  JObj [("schema_version", JStr "1.0.0"); ("command_type", JStr (ce_command_type c)); ("project_id", JStr (ce_project_id c));
        ("actor_id", JStr (ce_actor_id c)); ("correlation_id", JStr (ce_correlation_id c)); ("idempotency_key", JStr (ce_idempotency_key c));
        ("authority_scope", JList (JStr <$> ce_authority_scope c)); ("dry_run", JBool (ce_dry_run c)); ("payload", JObj (ce_payload c));
        ("action_intent", match ce_action_intent c with Some a => intent_json a | None => JNull end)].
Definition semantic_fingerprint (c : CommandEnvelope) : string := json_fingerprint (semantic_document c).
Record StateTransition := mkStateTransition {
  sx_transition_id : string; sx_entity_type : string; sx_entity_id : string; sx_previous_state : option string; sx_next_state : string;
  sx_reason : string; sx_command_id : string; sx_correlation_id : string; sx_occurred_at_utc : Z; sx_evidence_ids : list string;
}.
#[export] Instance StateTransition_model : Model StateTransition := λ t,
  _ ← identifiers [sx_transition_id t; sx_entity_type t; sx_entity_id t; sx_command_id t; sx_correlation_id t];
  _ ← bounded 1 100 "next_state" (sx_next_state t);
  _ ← bounded 1 1000 "reason" (sx_reason t);
  raise_if (bool_decide (sx_previous_state t = Some (sx_next_state t))) ValueError "state transition must change state".
Record EventEnvelope := mkEventEnvelope {
  ee_event_id : string; ee_event_type : string; ee_project_id : string; ee_producer : string; ee_correlation_id : string;
  ee_aggregate_type : string; ee_aggregate_id : string; ee_occurred_at_utc : Z; ee_causation_id : option string; ee_actor_id : option string;
  ee_workflow_id : option string; ee_task_id : option string; ee_run_id : option string; ee_sequence : Z; ee_payload : list (string * json);
  ee_evidence_ids : list string;
}.
#[export] Instance EventEnvelope_model : Model EventEnvelope := λ e,
  _ ← identifiers ([ee_event_id e; ee_event_type e; ee_project_id e; ee_producer e; ee_correlation_id e; ee_aggregate_type e; ee_aggregate_id e]
                   ++ somes [ee_causation_id e; ee_actor_id e; ee_workflow_id e; ee_task_id e; ee_run_id e]);
  raise_if (ee_sequence e <? 0) ValidationError "sequence".
Record CommandResult := mkCommandResult {
  cr_command_id : string; cr_command_type : string; cr_project_id : string; cr_correlation_id : string; cr_idempotency_key : string;
  cr_status : CommandStatus; cr_replayed : bool; cr_completed_at_utc : Z; cr_output : list (string * json);
  cr_transitions : list StateTransition; cr_events : list EventEnvelope; cr_error : option (list (string * json));
}.
#[export] Instance CommandResult_model : Model CommandResult := λ r,
  _ ← identifiers [cr_command_id r; cr_command_type r; cr_project_id r; cr_correlation_id r];
  _ ← bounded 8 256 "idempotency_key" (cr_idempotency_key r);
  _ ← for_each validate (cr_transitions r);
  _ ← for_each validate (cr_events r);
  _ ← raise_if (bool_decide (cr_status r = CS_SUCCEEDED) && negb (bool_decide (cr_error r = None))) ValueError
        "successful command result cannot contain an error";
  raise_if (bool_decide (cr_status r ∈ [CS_FAILED; CS_UNKNOWN]) && bool_decide (cr_error r = None)) ValueError
    "failed or unknown command result must contain an error".
(** [result.model_copy(update={"replayed": True})]. *)
Definition as_replayed (r : CommandResult) : CommandResult :=
  mkCommandResult (cr_command_id r) (cr_command_type r) (cr_project_id r) (cr_correlation_id r) (cr_idempotency_key r) (cr_status r) true
    (cr_completed_at_utc r) (cr_output r) (cr_transitions r) (cr_events r) (cr_error r).

(** ** The journal *)
Record JournalRecord := mkJournalRecord { jr_semantic_fingerprint : string; jr_envelope : CommandEnvelope; jr_result : CommandResult }.
#[export] Instance JournalRecord_model : Model JournalRecord := λ r, _ ← validate (jr_envelope r); validate (jr_result r).
Abbreviation journal := (gmap string JournalRecord).
Definition key_digest (idempotency_key : string) : string := Sha256.hexdigest idempotency_key.
Definition journal_get (j : journal) (c : CommandEnvelope) : result (option CommandResult) :=
  match j !! key_digest (ce_idempotency_key c) with
  | None => Ok None
  | Some row =>
      record ← new row;
      _ ← raise_if (negb (String.eqb (jr_semantic_fingerprint record) (semantic_fingerprint c))) IdempotencyConflictError
            "idempotency key was already used for a different command";
      Ok (Some (as_replayed (jr_result record)))
  end.
Definition journal_store (j : journal) (c : CommandEnvelope) (r : CommandResult) : result journal :=
  match j !! key_digest (ce_idempotency_key c) with
  | Some _ => _ ← journal_get j c; Ok j
  | None => Ok (<[key_digest (ce_idempotency_key c) := mkJournalRecord (semantic_fingerprint c) c r]> j)
  end.

(** ** The processor *)
(** The handlers, told apart by the number of the run. *)
Abbreviation handlers := (gmap string (nat → CommandEnvelope → result CommandResult)).
Definition register (command_type : string) (h : nat → CommandEnvelope → result CommandResult) (hs : handlers) : result handlers :=
  _ ← raise_if (bool_decide (hs !! command_type ≠ None)) ValueError ("handler already registered: " +:+ command_type);
  Ok (<[command_type := h]> hs).
Definition validate_result (c : CommandEnvelope) (r : CommandResult) : result () :=
  raise_if (negb (bool_decide
      ((cr_command_id r, cr_command_type r, cr_project_id r, cr_correlation_id r, cr_idempotency_key r)
       = (ce_command_id c, ce_command_type c, ce_project_id c, ce_correlation_id c, ce_idempotency_key c))))
    ValueError "command result does not match command envelope".
(** The journal with the commands that were handed to a handler. *)
Record bus := mkBus { b_journal : journal; b_ran : list CommandEnvelope }.
(** The first half: an answer from the journal, or the handler to run. *)
Definition begin_command (hs : handlers) (j : journal) (c : CommandEnvelope)
  : result (CommandResult + (nat → CommandEnvelope → result CommandResult)) :=
  replay ← journal_get j c;
  match replay with
  | Some r => Ok (inl r)
  | None => match hs !! ce_command_type c with None => raise UnknownCommandError (ce_command_type c) | Some h => Ok (inr h) end
  end.
(** The second half: the handler runs and its answer is journaled. *)
Definition finish_command (h : nat → CommandEnvelope → result CommandResult) (c : CommandEnvelope) (b : bus) : bus * result CommandResult :=
  let ran := mkBus (b_journal b) (b_ran b ++ [c]) in
  match (r ← h (length (b_ran b)) c; _ ← validate_result c r; j ← journal_store (b_journal b) c r; Ok (j, r)) with
  | Ok (j, r) => (mkBus j (b_ran ran), Ok r)
  | Raise e => (ran, Raise e)
  end.
Definition execute_command (hs : handlers) (c : CommandEnvelope) (b : bus) : bus * result CommandResult :=
  match begin_command hs (b_journal b) c with
  | Raise e => (b, Raise e)
  | Ok (inl r) => (b, Ok r)
  | Ok (inr h) => finish_command h c b
  end.
