(* ===== verification/CommandSafety.v ===== *)
(** * CommandSafety: a command takes effect once

    Sequences of commands on one processor, and processors that share a journal
    and may be interrupted at any point. *)
From S2P Require Import Prelude PyStd PyRe PyJson Identifiers TaskState ControlDomain SchedulerDomain IsoInstant SecurityDomain CommandBus.
Local Open Scope Z_scope.

(** ** One processor *)
Fixpoint process (hs : handlers) (cs : list CommandEnvelope) (b : bus) : bus * list (result CommandResult) :=
  match cs with
  | [] => (b, [])
  | c :: cs => let '(b1, r) := execute_command hs c b in let '(b2, rs) := process hs cs b1 in (b2, r :: rs)
  end.
(** What the journal holds for a command. *)
Definition journaled (j : journal) (c : CommandEnvelope) : option JournalRecord := j !! key_digest (ce_idempotency_key c).
Definition answers (record : JournalRecord) (c : CommandEnvelope) (r : CommandResult) : Prop :=
  jr_semantic_fingerprint record = semantic_fingerprint c ∧ as_replayed (jr_result record) = as_replayed r.
Lemma journal_get_ok j c o : journal_get j c = Ok o → match journaled j c with
  | None => o = None
  | Some record => o = Some (as_replayed (jr_result record)) ∧ jr_semantic_fingerprint record = semantic_fingerprint c end.
Proof.
  unfold journal_get, journaled. destruct (j !! _) as [row|]; [|congruence]. intros E. apply bind_ok in E as (record & Hn & E).
  apply new_ok in Hn as [-> _]. apply bind_ok in E as ([] & Hf & [= <-]). apply raise_if_ok, negb_false_iff, String.eqb_eq in Hf. done.
Qed.
Lemma journal_store_ok j c r j' : journal_store j c r = Ok j' →
  (∀ d record, j !! d = Some record → j' !! d = Some record)
  ∧ (journaled j c = None → journaled j' c = Some (mkJournalRecord (semantic_fingerprint c) c r)).
Proof.
  unfold journal_store, journaled. destruct (j !! _) as [row|] eqn:E.
  - intros (o & _ & [= <-])%bind_ok. done.
  - intros [= <-]. split; [|by rewrite lookup_insert, decide_True]. intros d record Hd. rewrite lookup_insert. case_decide; [congruence|done].
Qed.
Lemma finish_command_spec h c b b' out : finish_command h c b = (b', out) →
  b_ran b' = b_ran b ++ [c] ∧ (∀ d record, b_journal b !! d = Some record → b_journal b' !! d = Some record)
  ∧ ∀ r, out = Ok r → journaled (b_journal b) c = None → ∃ record, journaled (b_journal b') c = Some record ∧ answers record c r.
Proof.
  unfold finish_command. cbv zeta. destruct (h _ _) as [r|e]; cbn [mbind result_bind]; [|by intros [= <- <-]].
  destruct (validate_result c r) as [[]|e]; cbn [mbind result_bind]; [|by intros [= <- <-]].
  destruct (journal_store (b_journal b) c r) as [j|e] eqn:E; cbn [mbind result_bind]; [|by intros [= <- <-]].
  intros [= <- <-]. apply journal_store_ok in E as [Hk Hn]. split_and!; [done|done|]. intros r' [= <-] Hnone. eexists. split; [by apply Hn|done].
Qed.
Lemma begin_command_ok hs j c out : begin_command hs j c = Ok out → match out with
  | inl r => ∃ record, journaled j c = Some record ∧ r = as_replayed (jr_result record) ∧ jr_semantic_fingerprint record = semantic_fingerprint c
  | inr h => journaled j c = None ∧ hs !! ce_command_type c = Some h end.
Proof.
  unfold begin_command. intros E. apply bind_ok in E as (o & Hg%journal_get_ok & E). destruct (journaled j c) as [record|] eqn:Ej.
  - destruct Hg as [-> Hf]. injection E as <-. by exists record.
  - rewrite Hg in E. destruct (hs !! _) as [h|]; [|done]. by injection E as <-.
Qed.
Lemma execute_command_spec hs c b b' out : execute_command hs c b = (b', out) →
  (∀ d record, b_journal b !! d = Some record → b_journal b' !! d = Some record)
  ∧ (∀ r, out = Ok r → ∃ record, journaled (b_journal b') c = Some record ∧ answers record c r)
  ∧ (∀ record, journaled (b_journal b) c = Some record → b' = b ∧ ∀ r, out = Ok r → r = as_replayed (jr_result record)
      ∧ jr_semantic_fingerprint record = semantic_fingerprint c).
Proof.
  unfold execute_command. destruct (begin_command hs (b_journal b) c) as [[r|h]|e] eqn:E.
  - apply begin_command_ok in E as (record & Hj & -> & Hf). intros [= <- <-]. split; [done|]. split.
    + intros r [= <-]. exists record. done.
    + intros record' Hj'. split; [done|]. intros r [= <-]. rewrite Hj in Hj'. by injection Hj' as <-.
  - apply begin_command_ok in E as [Hnone _]. intros (Hran & Hk & Hn)%finish_command_spec. split; [done|]. split; [naive_solver|]. congruence.
  - intros [= <- <-]. done.
Qed.
Lemma process_keeps hs cs b : ∀ d record, b_journal b !! d = Some record → b_journal (process hs cs b).1 !! d = Some record.
Proof.
  revert b. induction cs as [|c cs IH]; intros b d record Hd; [done|]. cbn [process]. destruct (execute_command hs c b) as [b1 r] eqn:E.
  specialize (IH b1 d record). destruct (process hs cs b1) as [b2 rs]. apply IH. apply execute_command_spec in E as [Hk _]. by apply Hk.
Qed.
Lemma process_app hs cs cs' b : process hs (cs ++ cs') b
  = ((process hs cs' (process hs cs b).1).1, (process hs cs b).2 ++ (process hs cs' (process hs cs b).1).2).
Proof.
  revert b. induction cs as [|c cs IH]; intros b; cbn [process app fst snd]; [by destruct (process hs cs' b)|].
  destruct (execute_command hs c b) as [b1 r]. rewrite IH. destruct (process hs cs b1) as [b2 rs]. done.
Qed.
(** The answer to the command at the end of a sequence. *)
Definition answer (hs : handlers) (cs : list CommandEnvelope) (c : CommandEnvelope) : bus * result CommandResult :=
  execute_command hs c (process hs cs (mkBus ∅ [])).1.

(** ** Processors that share a journal *)
(** The commands in flight, by process, and the answers given so far. *)
Record crew := mkCrew {
  cw_bus : bus; cw_flight : gmap nat (CommandEnvelope * (nat → CommandEnvelope → result CommandResult));
  cw_answers : list (CommandEnvelope * result CommandResult);
}.
Inductive crew_step (hs : handlers) : crew → crew → Prop :=
  | step_replayed b fl out c r : begin_command hs (b_journal b) c = Ok (inl r) →
      crew_step hs (mkCrew b fl out) (mkCrew b fl (out ++ [(c, Ok r)]))
  | step_refused b fl out c e : begin_command hs (b_journal b) c = Raise e →
      crew_step hs (mkCrew b fl out) (mkCrew b fl (out ++ [(c, Raise e)]))
  | step_started b fl out p c h : fl !! p = None → begin_command hs (b_journal b) c = Ok (inr h) →
      crew_step hs (mkCrew b fl out) (mkCrew b (<[p := (c, h)]> fl) out)
  | step_finished b fl out p c h b' o : fl !! p = Some (c, h) → finish_command h c b = (b', o) →
      crew_step hs (mkCrew b fl out) (mkCrew b' (delete p fl) (out ++ [(c, o)]))
  (** The process stops after the handler ran, or before. *)
  | step_lost b fl out p c h : fl !! p = Some (c, h) →
      crew_step hs (mkCrew b fl out) (mkCrew (mkBus (b_journal b) (b_ran b ++ [c])) (delete p fl) out)
  | step_stopped b fl out p : crew_step hs (mkCrew b fl out) (mkCrew b (delete p fl) out).
Definition of_key (key : string) (c : CommandEnvelope) : Prop := ce_idempotency_key c = key.
(** The record is there, and no process still carries out a command of its key. *)
Record quiet (key : string) (record : JournalRecord) (s : crew) : Prop := {
  qu_record : b_journal (cw_bus s) !! key_digest key = Some record;
  qu_flight : ∀ p c h, cw_flight s !! p = Some (c, h) → ¬ of_key key c;
}.
(** What happens from there on. *)
Definition only_replays (key : string) (record : JournalRecord) (s s' : crew) : Prop :=
  ∃ ran out, b_ran (cw_bus s') = b_ran (cw_bus s) ++ ran ∧ cw_answers s' = cw_answers s ++ out ∧ Forall (λ c, ¬ of_key key c) ran
    ∧ ∀ c r, (c, Ok r) ∈ out → of_key key c → r = as_replayed (jr_result record) ∧ jr_semantic_fingerprint record = semantic_fingerprint c.
Lemma only_replays_refl key record s : only_replays key record s s.
Proof. exists [], []. rewrite !app_nil_r. split_and!; [done|done|constructor|]. by intros c r ?%elem_of_nil. Qed.
Lemma only_replays_flight key record b fl fl' out : only_replays key record (mkCrew b fl out) (mkCrew b fl' out).
Proof. exact (only_replays_refl key record (mkCrew b fl out)). Qed.
Lemma only_replays_trans key record s1 s2 s3 : only_replays key record s1 s2 → only_replays key record s2 s3 → only_replays key record s1 s3.
Proof.
  intros (ran & out & Er & Eo & Hran & Hout) (ran' & out' & Er' & Eo' & Hran' & Hout'). exists (ran ++ ran'), (out ++ out').
  rewrite Er', Eo', Er, Eo, !app_assoc.
  split_and!; [done|done|by apply Forall_app|]. intros c r [H|H]%elem_of_app; [by apply Hout|by apply Hout'].
Qed.
Lemma only_replays_answer key record b b' fl fl' out c o ran :
  b_ran b' = b_ran b ++ ran → Forall (λ c, ¬ of_key key c) ran →
  (∀ r, o = Ok r → of_key key c → r = as_replayed (jr_result record) ∧ jr_semantic_fingerprint record = semantic_fingerprint c) →
  only_replays key record (mkCrew b fl out) (mkCrew b' fl' (out ++ [(c, o)])).
Proof.
  intros Hr Hran Ho. exists ran, [(c, o)]. split_and!; [done|done|done|]. intros c' r E%list_elem_of_singleton Hk. injection E as -> <-.
  by apply Ho.
Qed.
Lemma crew_step_quiet hs key record s s' : crew_step hs s s' → quiet key record s → quiet key record s' ∧ only_replays key record s s'.
Proof.
  intros Hstep [Hrec Hfl]. destruct Hstep as [b fl out c r E|b fl out c e E|b fl out p c h Hp E|b fl out p c h b' o Hp E|b fl out p c h Hp|b fl out p];
    cbn [cw_bus cw_flight] in *.
  - split; [by split|]. eapply (only_replays_answer _ _ _ _ _ _ _ _ _ []); [by rewrite app_nil_r|done|]. intros r' [= <-] Hk.
    apply begin_command_ok in E as (record' & Hj & -> & Hf). unfold journaled in Hj. rewrite Hk, Hrec in Hj. by injection Hj as <-.
  - split; [by split|]. by eapply (only_replays_answer _ _ _ _ _ _ _ _ _ []); [rewrite app_nil_r|..].
  - split; [|apply only_replays_flight]. split; [done|]. cbn [cw_flight]. intros q c' h' [[_ [= <- <-]]|[_ Hq]]%lookup_insert_Some; [|by eapply Hfl].
    intros Hk. apply begin_command_ok in E as [Hj _]. unfold journaled in Hj. rewrite Hk in Hj. congruence.
  - apply finish_command_spec in E as (Hran & Hk & _). assert (¬ of_key key c) as Hc by (by eapply Hfl). split.
    + split; cbn [cw_bus cw_flight]; [by apply Hk|]. intros q c' h' [_ Hq]%lookup_delete_Some. by eapply Hfl.
    + by eapply only_replays_answer; [exact Hran|constructor|].
  - assert (¬ of_key key c) as Hc by (by eapply Hfl). split.
    + split; [done|]. cbn [cw_flight]. intros q c' h' [_ Hq]%lookup_delete_Some. by eapply Hfl.
    + exists [c], []. rewrite app_nil_r. split_and!; [done|done|by constructor|]. by intros ? ? ?%elem_of_nil.
  - split; [|apply only_replays_flight]. split; [done|]. cbn [cw_flight]. intros q c' h' [_ Hq]%lookup_delete_Some.
    by eapply Hfl.
Qed.

(** ** commands on a processor and on two *)
Module Scenarios.
Definition command (id : string) (dry_run : bool) : CommandEnvelope :=
  mkCommand id "task.start" "PRJ-1" "agent:1" "corr:1" "start-task-1" 0 [] dry_run [] None.
(** A handler whose answers tell its runs apart. *)
Definition starter (n : nat) (c : CommandEnvelope) : result CommandResult :=
  new (mkCommandResult (ce_command_id c) (ce_command_type c) (ce_project_id c) (ce_correlation_id c) (ce_idempotency_key c) CS_SUCCEEDED false 0
         [("run", JInt (Z.of_nat n))] [] [] None).
Definition table : handlers := {["task.start" := starter]}.
Definition started (id : string) (n : Z) : CommandResult :=
  mkCommandResult id "task.start" "PRJ-1" "corr:1" "start-task-1" CS_SUCCEEDED false 0 [("run", JInt n)] [] [] None.
Definition record_1 : JournalRecord := mkJournalRecord (semantic_fingerprint (command "command:1" false)) (command "command:1" false) (started "command:1" 0).
Definition journal_1 : journal := {[key_digest "start-task-1" := record_1]}.
Definition bus_1 : bus := mkBus journal_1 [command "command:1" false].
Ltac by_computation := match goal with |- _ = ?b => vm_cast_no_check (eq_refl b) end.

Example second_command_is_replayed : (answer table [command "command:1" false] (command "command:2" false)).2 = Ok (as_replayed (started "command:1" 0)).
Proof. by_computation. Qed.
Example other_meaning_is_refused : (answer table [command "command:1" false] (command "command:2" true)).2
  = raise IdempotencyConflictError "idempotency key was already used for a different command".
Proof. by_computation. Qed.
Definition crew_1 : crew := mkCrew bus_1 ∅ [].
(** Two processes that both found nothing in the journal both run the handler;
    the second one's caller gets an answer that the journal does not hold. *)
Definition after_race : crew :=
  mkCrew (mkBus journal_1 [command "command:1" false; command "command:2" false]) ∅
    [(command "command:1" false, Ok (started "command:1" 0)); (command "command:2" false, Ok (started "command:2" 1))].
Example race_answers_twice : rtc (crew_step table) (mkCrew (mkBus ∅ []) ∅ []) after_race.
Proof.
  eapply rtc_l; [eapply (step_started table (mkBus ∅ []) ∅ [] 0%nat (command "command:1" false) starter); [done|by_computation]|].
  eapply rtc_l; [eapply (step_started table (mkBus ∅ []) _ [] 1%nat (command "command:2" false) starter); [done|by_computation]|].
  eapply rtc_l; [eapply (step_finished table (mkBus ∅ []) _ [] 0%nat (command "command:1" false) starter bus_1 (Ok (started "command:1" 0)));
    [by_computation|by_computation]|].
  eapply rtc_l; [eapply (step_finished table bus_1 _ _ 1%nat (command "command:2" false) starter
    (mkBus journal_1 [command "command:1" false; command "command:2" false]) (Ok (started "command:2" 1))); [by_computation|by_computation]|].
  unfold after_race. vm_compute. apply rtc_refl.
Qed.
End Scenarios.
