(* ===== verification/AssuranceDomain.v ===== *)
(** * AssuranceDomain: [domain/assurance.py], [assurance/policy.py]

    Acceptance criteria, evidence and reviews, attempts and their budgets,
    frozen scopes, progress and the facts of the completion gate.  Instants that
    default to the clock and that no decision reads are left out. *)
From S2P Require Import Prelude PyStd PyRe PyJson Identifiers TaskState ControlDomain SchedulerDomain.
Local Open Scope Z_scope.

Definition ASSURANCE_ID : re :=
  Cat (alts (lit <$> ["CRIT"; "VPLAN"; "TRUTH"; "REVIEW"; "GATE"; "LOOP"; "SCOPE"; "SCHANGE"; "CAND"; "FAIL"; "SIM"; "PDELTA"; "DELIVERY"]))
      (Cat (lit "-") (times 20 hex_upper)).
Definition assurance_identifier (prefix : string) (parts : list string) : result string := prefixed_identifier "assurance" prefix parts.
Definition assurance_fingerprint (j : json) : string := json_fingerprint j.
Definition carries_assurance_id (prefix id message : string) : result () :=
  raise_if (negb (valid_prefixed_id ASSURANCE_ID prefix id)) ValueError message.
(** The bounds of an integer field. *)
Definition between (low high n : Z) (field : string) : result () := raise_if (negb ((low <=? n) && (n <=? high))) ValidationError field.
Definition at_least (low n : Z) (field : string) : result () := raise_if (n <? low) ValidationError field.

(** ** Enumerations *)
Inductive VerificationMethod :=
  | VM_STATIC | VM_UNIT | VM_COMPONENT | VM_CONTRACT | VM_API | VM_INTEGRATION | VM_END_TO_END | VM_PROPERTY | VM_MUTATION | VM_ADVERSARIAL
  | VM_FAULT | VM_PERFORMANCE | VM_SECURITY | VM_ACCESSIBILITY | VM_VISUAL | VM_BROWSER | VM_RESILIENCE | VM_RECOVERY | VM_INSTALLER
  | VM_UPGRADE | VM_ROLLBACK | VM_REVIEW | VM_TRACEABILITY | VM_DOCUMENTATION.
#[export] Instance VerificationMethod_eq_dec : EqDecision VerificationMethod.
Proof. solve_decision. Defined.
Inductive AssuranceRisk := AR_LOW | AR_MEDIUM | AR_HIGH | AR_CRITICAL.
#[export] Instance AssuranceRisk_eq_dec : EqDecision AssuranceRisk.
Proof. solve_decision. Defined.
Definition AssuranceRisk_value (r : AssuranceRisk) : string :=
  match r with AR_LOW => "LOW" | AR_MEDIUM => "MEDIUM" | AR_HIGH => "HIGH" | AR_CRITICAL => "CRITICAL" end.
Inductive CriterionState := CR_PENDING | CR_PASS | CR_FAIL | CR_BLOCKED | CR_UNKNOWN | CR_STALE.
#[export] Instance CriterionState_eq_dec : EqDecision CriterionState.
Proof. solve_decision. Defined.
Inductive TruthKind := TK_CLAIM | TK_EVIDENCE | TK_VERIFIED_FACT | TK_UNKNOWN | TK_CONTRADICTED.
#[export] Instance TruthKind_eq_dec : EqDecision TruthKind.
Proof. solve_decision. Defined.
Definition TruthKind_value (k : TruthKind) : string :=
  match k with TK_CLAIM => "CLAIM" | TK_EVIDENCE => "EVIDENCE" | TK_VERIFIED_FACT => "VERIFIED_FACT" | TK_UNKNOWN => "UNKNOWN"
  | TK_CONTRADICTED => "CONTRADICTED" end.
Inductive TruthStatus := TS_UNVERIFIED | TS_VERIFIED | TS_SUPERSEDED | TS_CONFLICTED.
#[export] Instance TruthStatus_eq_dec : EqDecision TruthStatus.
Proof. solve_decision. Defined.
Inductive GateState := GS_COMPLETE | GS_NOT_COMPLETE | GS_BLOCKED_EXTERNAL.
#[export] Instance GateState_eq_dec : EqDecision GateState.
Proof. solve_decision. Defined.
Definition GateState_value (s : GateState) : string :=
  match s with GS_COMPLETE => "COMPLETE" | GS_NOT_COMPLETE => "NOT_COMPLETE" | GS_BLOCKED_EXTERNAL => "BLOCKED_EXTERNAL" end.
Inductive LoopDisposition := LD_CONTINUE | LD_REQUIRE_NOVELTY | LD_STOP_AND_ESCALATE.
#[export] Instance LoopDisposition_eq_dec : EqDecision LoopDisposition.
Proof. solve_decision. Defined.
Definition LoopDisposition_value (d : LoopDisposition) : string :=
  match d with LD_CONTINUE => "CONTINUE" | LD_REQUIRE_NOVELTY => "REQUIRE_NOVELTY" | LD_STOP_AND_ESCALATE => "STOP_AND_ESCALATE" end.
Inductive CandidateCompletionState := CD_CHALLENGE | CD_READY_FOR_COMPLETION_GATE | CD_NOT_READY.
#[export] Instance CandidateCompletionState_eq_dec : EqDecision CandidateCompletionState.
Proof. solve_decision. Defined.
Inductive ScopeChangeDisposition := SD_WITHIN_FROZEN_SCOPE | SD_REQUIRE_REVIEW | SD_CHANGE_BUDGET_EXHAUSTED.
#[export] Instance ScopeChangeDisposition_eq_dec : EqDecision ScopeChangeDisposition.
Proof. solve_decision. Defined.
Inductive FailureCategory :=
  | FC_REQUIREMENT | FC_TRACEABILITY | FC_WORK | FC_TEST | FC_GOLDEN_JOURNEY | FC_SECURITY | FC_RESILIENCE | FC_DEPLOYMENT | FC_ROLLBACK
  | FC_DOCUMENTATION | FC_CONTINUATION | FC_STATE_RECONCILIATION | FC_COVERAGE | FC_EVIDENCE | FC_REVIEW | FC_SCOPE.

(** ** Criteria, evidence, truth *)
Record AcceptanceCriterion := mkCriterion {
  ac_criterion_id : string; ac_work_item_id : string; ac_statement : string; ac_requirement_ids : list string; ac_risk : AssuranceRisk;
  ac_verification_methods : list VerificationMethod; ac_verification_command : option string; ac_verification_path : option string;
  ac_fixture_paths : list string; ac_objective : bool; ac_frozen_fingerprint : string;
}.
#[export] Instance AcceptanceCriterion_model : Model AcceptanceCriterion := λ c,
  _ ← raise_if (negb (min_length 8 (ac_statement c) && max_length 4000 (ac_statement c))) ValidationError "statement";
  _ ← raise_if (negb (is_hex64 (ac_frozen_fingerprint c))) ValidationError "frozen_fingerprint";
  _ ← carries_assurance_id "CRIT-" (ac_criterion_id c) "invalid criterion id";
  _ ← raise_if (bool_decide (ac_verification_methods c = [])) ValueError "criterion requires at least one verification method";
  expected ← assurance_identifier "CRIT" [ac_work_item_id c; ac_statement c; ac_frozen_fingerprint c];
  raise_if (negb (String.eqb (ac_criterion_id c) expected)) ValueError "criterion id does not match criterion semantics".
Record TruthRecord := mkTruth {
  tu_truth_id : string; tu_subject_id : string; tu_kind : TruthKind; tu_statement : string; tu_evidence_ids : list string;
  tu_source_references : list string; tu_producer_id : option string; tu_verification_status : TruthStatus; tu_confidence_milli : option Z;
  tu_observed_at_utc : Z; tu_fresh_until_utc : option Z; tu_supersedes_truth_id : option string;
}.
#[export] Instance TruthRecord_model : Model TruthRecord := λ t,
  _ ← raise_if (negb (min_length 1 (tu_statement t) && max_length 4000 (tu_statement t))) ValidationError "statement";
  _ ← (match tu_confidence_milli t with Some n => between 0 1000 n "confidence_milli" | None => Ok () end);
  _ ← carries_assurance_id "TRUTH-" (tu_truth_id t) "invalid truth id";
  _ ← raise_if (bool_decide (tu_kind t = TK_VERIFIED_FACT) && bool_decide (tu_evidence_ids t = [])) ValueError "verified facts require evidence";
  _ ← raise_if (bool_decide (tu_kind t = TK_VERIFIED_FACT) && negb (bool_decide (tu_verification_status t = TS_VERIFIED))) ValueError
        "verified facts require VERIFIED status";
  _ ← raise_if (bool_decide (tu_kind t = TK_UNKNOWN) && negb (bool_decide (tu_evidence_ids t = []))) ValueError
        "unknown truth cannot carry passing evidence";
  _ ← raise_if (bool_decide (tu_kind t = TK_UNKNOWN) && bool_decide (tu_verification_status t = TS_VERIFIED)) ValueError
        "unknown truth cannot be VERIFIED";
  raise_if (match tu_fresh_until_utc t with Some until => until <? tu_observed_at_utc t | None => false end) ValueError
    "truth freshness deadline cannot precede observation".
Record EvidenceAssessment := mkAssessment {
  ea_evidence_id : string; ea_criterion_id : string; ea_state : CriterionState; ea_method : VerificationMethod; ea_producer_id : string;
  ea_observed_at_utc : Z; ea_age_seconds : Z; ea_max_age_seconds : Z; ea_reason : string;
}.
#[export] Instance EvidenceAssessment_model : Model EvidenceAssessment := λ a,
  _ ← at_least 0 (ea_age_seconds a) "age_seconds";
  at_least 1 (ea_max_age_seconds a) "max_age_seconds".
Record ReviewerIdentity := mkReviewer {
  ri_reviewer_id : string; ri_implementer_id : string; ri_context_fingerprint : string; ri_implementation_context_fingerprint : string;
  ri_conflicts : list string;
}.
#[export] Instance ReviewerIdentity_model : Model ReviewerIdentity := λ r,
  _ ← raise_if (negb (min_length 1 (ri_reviewer_id r) && max_length 191 (ri_reviewer_id r))) ValidationError "reviewer_id";
  _ ← raise_if (negb (min_length 1 (ri_implementer_id r) && max_length 191 (ri_implementer_id r))) ValidationError "implementer_id";
  raise_if (negb (is_hex64 (ri_context_fingerprint r) && is_hex64 (ri_implementation_context_fingerprint r))) ValidationError "context_fingerprint".
Definition reviewer_independent (r : ReviewerIdentity) : bool :=
  negb (String.eqb (ri_reviewer_id r) (ri_implementer_id r))
  && negb (String.eqb (ri_context_fingerprint r) (ri_implementation_context_fingerprint r)) && bool_decide (ri_conflicts r = []).
Record IndependentReview := mkIndependentReview {
  iv_review_id : string; iv_subject_id : string; iv_identity : ReviewerIdentity; iv_criterion_ids : list string; iv_finding_count : Z;
  iv_blocking_finding_count : Z; iv_evidence_ids : list string;
}.
#[export] Instance IndependentReview_model : Model IndependentReview := λ r,
  _ ← validate (iv_identity r);
  _ ← at_least 0 (iv_finding_count r) "finding_count";
  _ ← at_least 0 (iv_blocking_finding_count r) "blocking_finding_count";
  carries_assurance_id "REVIEW-" (iv_review_id r) "invalid review id".

(** ** Attempts *)
Record AttemptObservation := mkAttempt {
  ao_task_id : string; ao_attempt_number : Z; ao_action_fingerprint : string; ao_tool_fingerprint : string; ao_output_fingerprint : string;
  ao_state_fingerprint : string; ao_failure_signature : option string; ao_novelty_dimensions : list string; ao_progress_units : Z;
  ao_activity_units : Z; ao_administrative_units : Z;
}.
Definition NOVELTY_DIMENSIONS : list string := ["HYPOTHESIS"; "INPUT"; "TOOL"; "ENVIRONMENT"; "RECOVERY_STRATEGY"].
#[export] Instance AttemptObservation_model : Model AttemptObservation := λ o,
  _ ← at_least 1 (ao_attempt_number o) "attempt_number";
  _ ← raise_if (negb (forallb is_hex64 [ao_action_fingerprint o; ao_tool_fingerprint o; ao_output_fingerprint o; ao_state_fingerprint o]))
        ValidationError "fingerprint";
  _ ← raise_if (negb (forallb (λ d, str_in d NOVELTY_DIMENSIONS) (ao_novelty_dimensions o))) ValidationError "novelty_dimensions";
  _ ← at_least 0 (ao_progress_units o) "progress_units";
  _ ← at_least 0 (ao_activity_units o) "activity_units";
  _ ← at_least 0 (ao_administrative_units o) "administrative_units";
  raise_if (ao_activity_units o <? ao_administrative_units o) ValueError "administrative units cannot exceed activity units".
Record AttemptBudget := mkAttemptBudget {
  ab_task_id : string; ab_max_attempts : Z; ab_used_attempts : Z; ab_max_same_failure : Z; ab_max_unchanged_outputs : Z;
  ab_max_progressless_cycles : Z; ab_max_noncritical_administrative_ratio_milli : Z;
}.
#[export] Instance AttemptBudget_model : Model AttemptBudget := λ b,
  _ ← between 1 100 (ab_max_attempts b) "max_attempts";
  _ ← at_least 0 (ab_used_attempts b) "used_attempts";
  _ ← between 1 20 (ab_max_same_failure b) "max_same_failure";
  _ ← between 1 20 (ab_max_unchanged_outputs b) "max_unchanged_outputs";
  _ ← between 1 20 (ab_max_progressless_cycles b) "max_progressless_cycles";
  _ ← between 0 1000 (ab_max_noncritical_administrative_ratio_milli b) "max_noncritical_administrative_ratio_milli";
  raise_if (ab_max_attempts b <? ab_used_attempts b) ValueError "used attempts cannot exceed max attempts".
Record LoopGuardDecision := mkLoopDecision {
  lg_decision_id : string; lg_task_id : string; lg_disposition : LoopDisposition; lg_attempts_used : Z; lg_repeated_failure_count : Z;
  lg_unchanged_output_count : Z; lg_repeated_action_count : Z; lg_progress_detected : bool; lg_progressless_cycle_count : Z;
  lg_administrative_ratio_milli : Z; lg_reasons : list string;
}.
#[export] Instance LoopGuardDecision_model : Model LoopGuardDecision := λ d,
  _ ← at_least 0 (lg_attempts_used d) "attempts_used";
  _ ← at_least 0 (lg_repeated_failure_count d) "repeated_failure_count";
  _ ← at_least 0 (lg_unchanged_output_count d) "unchanged_output_count";
  _ ← at_least 0 (lg_repeated_action_count d) "repeated_action_count";
  _ ← at_least 0 (lg_progressless_cycle_count d) "progressless_cycle_count";
  _ ← between 0 1000 (lg_administrative_ratio_milli d) "administrative_ratio_milli";
  carries_assurance_id "LOOP-" (lg_decision_id d) "invalid loop decision id".
Record ProgressDelta := mkProgressDelta {
  pg_delta_id : string; pg_implemented_requirement_delta : Z; pg_verified_criterion_delta : Z; pg_blocker_reduction_delta : Z;
  pg_failure_reduction_delta : Z; pg_verified_evidence_delta : Z; pg_tested_implementation_delta : Z; pg_integrated_change_delta : Z;
  pg_progress_units : Z; pg_activity_units : Z; pg_administrative_units : Z; pg_administrative_ratio_milli : Z;
  pg_noncritical_administrative_units : Z; pg_noncritical_administrative_ratio_milli : Z; pg_meaningful_progress : bool;
}.
#[export] Instance ProgressDelta_model : Model ProgressDelta := λ d,
  _ ← at_least 0 (pg_progress_units d) "progress_units";
  _ ← at_least 0 (pg_activity_units d) "activity_units";
  _ ← at_least 0 (pg_administrative_units d) "administrative_units";
  _ ← between 0 1000 (pg_administrative_ratio_milli d) "administrative_ratio_milli";
  _ ← at_least 0 (pg_noncritical_administrative_units d) "noncritical_administrative_units";
  _ ← between 0 1000 (pg_noncritical_administrative_ratio_milli d) "noncritical_administrative_ratio_milli";
  _ ← carries_assurance_id "PDELTA-" (pg_delta_id d) "invalid progress delta id";
  _ ← raise_if (pg_activity_units d <? pg_administrative_units d) ValueError "administrative units cannot exceed activity units";
  _ ← raise_if (pg_administrative_units d <? pg_noncritical_administrative_units d) ValueError
        "noncritical administration cannot exceed total administration";
  raise_if (negb (Bool.eqb (pg_meaningful_progress d) (0 <? pg_progress_units d))) ValueError "meaningful progress must agree with progress units".

(** ** Scope *)
Record ScopeContract := mkScopeContract {
  sk_scope_id : string; sk_work_item_id : string; sk_included_behavior : list string; sk_excluded_behavior : list string;
  sk_allowed_paths : list string; sk_escalation_conditions : list string; sk_frozen_criteria_fingerprint : string; sk_change_budget : Z;
  sk_consumed_changes : Z;
}.
#[export] Instance ScopeContract_model : Model ScopeContract := λ s,
  _ ← raise_if (negb (is_hex64 (sk_frozen_criteria_fingerprint s))) ValidationError "frozen_criteria_fingerprint";
  _ ← between 0 100 (sk_change_budget s) "change_budget";
  _ ← at_least 0 (sk_consumed_changes s) "consumed_changes";
  _ ← carries_assurance_id "SCOPE-" (sk_scope_id s) "invalid scope id";
  _ ← raise_if (sk_change_budget s <? sk_consumed_changes s) ValueError "consumed changes cannot exceed change budget";
  raise_if (bool_decide (sk_included_behavior s = []) || bool_decide (sk_escalation_conditions s = [])) ValueError
    "scope requires included behavior and escalation conditions".
Record ScopeChangeDecision := mkScopeChange {
  sn_change_id : string; sn_scope_id : string; sn_disposition : ScopeChangeDisposition; sn_requested_behavior : list string;
  sn_requested_paths : list string; sn_material : bool; sn_remaining_change_budget : Z; sn_reasons : list string;
}.
#[export] Instance ScopeChangeDecision_model : Model ScopeChangeDecision := λ d,
  _ ← at_least 0 (sn_remaining_change_budget d) "remaining_change_budget";
  carries_assurance_id "SCHANGE-" (sn_change_id d) "invalid scope change id".

(** ** Completion *)
Record CandidateCompletionAssessment := mkCandidate {
  ca_assessment_id : string; ca_work_item_id : string; ca_state : CandidateCompletionState; ca_implementer_id : string; ca_criteria_total : Z;
  ca_criteria_passing : Z; ca_stale_evidence_count : Z; ca_unknown_count : Z; ca_independent_review_required : bool;
  ca_independent_review_satisfied : bool; ca_reasons : list string;
}.
#[export] Instance CandidateCompletionAssessment_model : Model CandidateCompletionAssessment := λ a,
  _ ← at_least 0 (ca_criteria_total a) "criteria_total";
  _ ← at_least 0 (ca_criteria_passing a) "criteria_passing";
  _ ← at_least 0 (ca_stale_evidence_count a) "stale_evidence_count";
  _ ← at_least 0 (ca_unknown_count a) "unknown_count";
  _ ← carries_assurance_id "CAND-" (ca_assessment_id a) "invalid candidate assessment id";
  raise_if (ca_criteria_total a <? ca_criteria_passing a) ValueError "passing criteria cannot exceed total".
Record CompletionQuestionResult := mkQuestion {
  cq_question_number : Z; cq_question : string; cq_passed : bool; cq_externally_blocked : bool; cq_reasons : list string;
  cq_evidence_ids : list string;
}.
#[export] Instance CompletionQuestionResult_model : Model CompletionQuestionResult := λ q, between 1 16 (cq_question_number q) "question_number".
Record CompletionFailure := mkFailure {
  cx_failure_id : string; cx_category : FailureCategory; cx_subject_id : string; cx_detail : string; cx_rework_route : string;
}.
#[export] Instance CompletionFailure_model : Model CompletionFailure := λ f,
  carries_assurance_id "FAIL-" (cx_failure_id f) "invalid completion failure id".
Record CompletionGateFacts := mkFacts {
  gf_project_id : string; gf_source_requirements_dispositioned : bool; gf_accepted_requirements_complete_or_external : bool;
  gf_implementation_traceability_complete : bool; gf_critical_paths_tested : bool; gf_golden_journeys_pass : bool;
  gf_autonomous_runtime_qualified : bool; gf_security_gates_satisfied : bool; gf_resilience_verified : bool;
  gf_deployment_reproducible : bool; gf_rollback_verified : bool; gf_engineer_operable_from_docs : bool;
  gf_ai_continuable_from_repo_and_jira : bool; gf_unresolved_items_truthful : bool; gf_command_center_truthful : bool;
  gf_jira_truthful : bool; gf_unattended_operating_loop_qualified : bool; gf_unexplained_gap_count : Z;
  gf_externally_blocked_question_numbers : list Z; gf_evidence_by_question : list (string * list string);
  gf_reasons_by_question : list (string * list string); gf_snapshot_fingerprint : string;
}.
#[export] Instance CompletionGateFacts_model : Model CompletionGateFacts := λ f,
  _ ← at_least 0 (gf_unexplained_gap_count f) "unexplained_gap_count";
  raise_if (negb (is_hex64 (gf_snapshot_fingerprint f))) ValidationError "snapshot_fingerprint".
Record CompletionGateDecision := mkCompletionGate {
  cg_gate_id : string; cg_project_id : string; cg_state : GateState; cg_questions : list CompletionQuestionResult;
  cg_failures : list CompletionFailure; cg_source_snapshot_fingerprint : string; cg_final_complete : bool;
}.
#[export] Instance CompletionGateDecision_model : Model CompletionGateDecision := λ g,
  _ ← raise_if (negb (is_hex64 (cg_source_snapshot_fingerprint g))) ValidationError "source_snapshot_fingerprint";
  _ ← carries_assurance_id "GATE-" (cg_gate_id g) "invalid completion gate id";
  _ ← raise_if (negb (Bool.eqb (cg_final_complete g) (forallb cq_passed (cg_questions g)))) ValueError
        "final_complete must equal all completion questions passing";
  _ ← raise_if (bool_decide (cg_state g = GS_COMPLETE) && negb (cg_final_complete g)) ValueError
        "COMPLETE gate state requires all questions to pass";
  raise_if (cg_final_complete g && negb (bool_decide (length (cg_failures g) = 0%nat))) ValueError "complete gate cannot contain failures".

(** ** Policy *)
Record AssurancePolicy := mkAssurancePolicy {
  py_default_evidence_max_age_seconds : Z; py_high_risk_min_distinct_methods : Z; py_critical_risk_min_distinct_methods : Z;
  py_require_independent_review_for_high_risk : bool; py_loop_max_attempts : Z; py_loop_max_same_failure : Z;
  py_loop_max_unchanged_outputs : Z; py_loop_max_progressless_cycles : Z; py_verification_max_attempts : Z;
  py_verification_max_evidence_records : Z; py_default_scope_change_budget : Z;
}.
#[export] Instance AssurancePolicy_model : Model AssurancePolicy := λ p,
  _ ← at_least 1 (py_default_evidence_max_age_seconds p) "default_evidence_max_age_seconds";
  _ ← between 1 10 (py_high_risk_min_distinct_methods p) "high_risk_min_distinct_methods";
  _ ← between 2 10 (py_critical_risk_min_distinct_methods p) "critical_risk_min_distinct_methods";
  _ ← between 1 100 (py_loop_max_attempts p) "loop_max_attempts";
  _ ← between 1 20 (py_loop_max_same_failure p) "loop_max_same_failure";
  _ ← between 1 20 (py_loop_max_unchanged_outputs p) "loop_max_unchanged_outputs";
  _ ← between 1 20 (py_loop_max_progressless_cycles p) "loop_max_progressless_cycles";
  _ ← between 1 100 (py_verification_max_attempts p) "verification_max_attempts";
  _ ← between 1 1000 (py_verification_max_evidence_records p) "verification_max_evidence_records";
  between 0 100 (py_default_scope_change_budget p) "default_scope_change_budget".
Definition default_assurance_policy : AssurancePolicy := mkAssurancePolicy (30 * 24 * 3600) 2 3 true 5 2 2 2 8 40 3.
