(* ===== verification/Assurance.v ===== *)
(** * Assurance: [assurance/loop_guard.py], [scope.py], [evidence.py], [completion.py], [delivery_progress.py], [persistence.py]

    The decisions of the assurance part: whether a task may go on, whether work
    stays in its scope, whether evidence suffices and whether a project is
    complete.  Rows of the evidence ledger are JSON objects with instants in
    the form [isoformat] writes. *)
From S2P Require Import Prelude PyStd PyRe PyJson Identifiers TaskState ControlDomain SchedulerDomain AssuranceDomain.
From Stdlib Require Import Ascii.
Local Open Scope Z_scope.

(** ** The loop guard *)
(** [max(Counter(l).values(), default=0)]. *)
Definition occurrences {A} `{EqDecision A} (x : A) (l : list A) : Z := Z.of_nat (length (List.filter (λ y, bool_decide (y = x)) l)).
Definition max_count {A} `{EqDecision A} (l : list A) : Z := foldr Z.max 0 ((λ x, occurrences x l) <$> l).
(** [l[-n:]] for [n >= 1]. *)
Definition last_n {A} (n : nat) (l : list A) : list A := drop (length l - n) l.
Definition failure_signatures (l : list AttemptObservation) : list string :=
  somes ((λ o, match ao_failure_signature o with Some s => if str_truthy s then Some s else None | None => None end) <$> l).
Definition progressing (o : AttemptObservation) : bool := 0 <? ao_progress_units o.
(** The loop over [reversed(relevant)]. *)
Fixpoint leading_idle (l : list AttemptObservation) : Z :=
  match l with [] => 0 | o :: l => if progressing o then 0 else 1 + leading_idle l end.
Definition total (f : AttemptObservation → Z) (l : list AttemptObservation) : Z := foldr Z.add 0 (f <$> l).
Record loop_measures := mkMeasures {
  lm_attempts : Z; lm_repeated_failure : Z; lm_unchanged_output : Z; lm_repeated_action : Z; lm_progress : bool; lm_progressless : Z;
  lm_recent_activity : Z; lm_ratio : Z; lm_novel : bool;
}.
Definition relevant_observations (observations : list AttemptObservation) (b : AttemptBudget) : list AttemptObservation :=
  sorted_by ao_attempt_number (List.filter (λ o, String.eqb (ao_task_id o) (ab_task_id b)) observations).
Definition latest_has_novelty (l : list AttemptObservation) : bool :=
  match reverse l with
  | latest :: previous :: _ => if opt_truthy (ao_failure_signature previous) then negb (bool_decide (ao_novelty_dimensions latest = [])) else true
  | _ => true
  end.
Definition measure_attempts (relevant : list AttemptObservation) (b : AttemptBudget) : loop_measures :=
  let recent := last_n (Z.to_nat (ab_max_progressless_cycles b)) relevant in
  let activity := total ao_activity_units recent in
  mkMeasures (Z.max (ab_used_attempts b) (Z.of_nat (length relevant))) (max_count (failure_signatures relevant))
    (max_count (ao_output_fingerprint <$> relevant)) (max_count ((λ o, (ao_action_fingerprint o, ao_tool_fingerprint o)) <$> relevant))
    (existsb progressing (last_n 2 relevant)) (leading_idle (reverse relevant)) activity
    (if activity =? 0 then 0 else total ao_administrative_units recent * 1000 / activity) (latest_has_novelty relevant).
(** One [if] of the chain: a condition, what it decides and why. *)
Definition loop_rule (holds : bool) (d : LoopDisposition) (why : string) (acc : LoopDisposition * list string) : LoopDisposition * list string :=
  if holds then (d, acc.2 ++ [why]) else acc.
Definition going_on (acc : LoopDisposition * list string) : bool := bool_decide (acc.1 = LD_CONTINUE).
Definition loop_verdict (m : loop_measures) (b : AttemptBudget) : LoopDisposition * list string :=
  let a := (LD_CONTINUE, []) in
  let a := loop_rule (ab_max_attempts b <=? lm_attempts m) LD_STOP_AND_ESCALATE "attempt budget exhausted" a in
  let a := loop_rule (ab_max_same_failure b <? lm_repeated_failure m) LD_STOP_AND_ESCALATE
             "same failure repeated beyond allowed recovery attempts" a in
  let a := loop_rule (ab_max_unchanged_outputs b <? lm_unchanged_output m) LD_STOP_AND_ESCALATE
             "output is unchanged across repeated attempts" a in
  let a := loop_rule (negb (lm_novel m) && going_on a) LD_REQUIRE_NOVELTY
             "retry after failure does not identify a material novelty dimension" a in
  let a := loop_rule ((2 <=? lm_repeated_action m) && negb (lm_progress m) && going_on a) LD_REQUIRE_NOVELTY
             "same action/tool pattern repeated without measurable progress" a in
  let a := loop_rule (ab_max_progressless_cycles b <=? lm_progressless m) LD_STOP_AND_ESCALATE
             "consecutive cycles produced no objective progress delta" a in
  let a := loop_rule (negb (lm_recent_activity m =? 0) && (ab_max_noncritical_administrative_ratio_milli b <? lm_ratio m)
                      && negb (lm_progress m) && going_on a) LD_REQUIRE_NOVELTY
             "noncritical administrative work exceeded its budget without progress" a in
  (a.1, match a.2 with [] => ["attempt remains within budget and no cycling condition is detected"] | reasons => reasons end).
Definition evaluate_loop (observations : list AttemptObservation) (b : AttemptBudget) : result LoopGuardDecision :=
  let m := measure_attempts (relevant_observations observations b) b in
  let '(disposition, reasons) := loop_verdict m b in
  id ← assurance_identifier "LOOP" [ab_task_id b; str_of_Z (lm_attempts m); str_of_Z (lm_repeated_failure m); str_of_Z (lm_unchanged_output m);
                                    str_of_Z (lm_repeated_action m); LoopDisposition_value disposition];
  new (mkLoopDecision id (ab_task_id b) disposition (lm_attempts m) (lm_repeated_failure m) (lm_unchanged_output m) (lm_repeated_action m)
         (lm_progress m) (lm_progressless m) (lm_ratio m) reasons).

(** ** Scope *)
Definition inside (path p : string) : bool :=
  String.eqb path p || str_startswith (str_rstrip (λ c, Ascii.eqb c "/") p +:+ "/") path.
Definition outside_paths (c : ScopeContract) (paths : list string) : list string :=
  List.filter (λ path, negb (bool_decide (sk_allowed_paths c = [])) && negb (existsb (inside path) (sk_allowed_paths c))) paths.
Definition new_behavior (c : ScopeContract) (behavior : list string) : list string :=
  List.filter (λ x, negb (str_in x (sk_included_behavior c))) behavior.
Definition or_none (s : string) : string := if str_truthy s then s else "<none>".
Definition evaluate_scope_change (c : ScopeContract) (behavior paths : list string) : result ScopeChangeDecision :=
  let outside := outside_paths c paths in
  let fresh := new_behavior c behavior in
  let material := negb (bool_decide (outside = [])) || negb (bool_decide (fresh = [])) in
  let remaining := Z.max 0 (sk_change_budget c - sk_consumed_changes c) in
  let '(disposition, reasons) :=
    if negb material then (SD_WITHIN_FROZEN_SCOPE, ["requested work remains inside the frozen behavior/path boundary"])
    else if remaining <=? 0 then (SD_CHANGE_BUDGET_EXHAUSTED, ["autonomous change budget is exhausted"])
    else (SD_REQUIRE_REVIEW,
          (if bool_decide (fresh = []) then [] else [str_of_nat (length fresh) +:+ " requested behaviors are outside frozen scope"])
          ++ (if bool_decide (outside = []) then []
              else [str_of_nat (length outside) +:+ " requested paths are outside the allowed path boundary"])) in
  id ← assurance_identifier "SCHANGE" [sk_scope_id c; or_none (str_join "|" behavior); or_none (str_join "|" paths)];
  new (mkScopeChange id (sk_scope_id c) disposition behavior paths material remaining reasons).

(** ** Evidence *)
Definition METHOD_TOKENS : list (string * VerificationMethod) :=
  [("property", VM_PROPERTY); ("mutation", VM_MUTATION); ("adversarial", VM_ADVERSARIAL); ("fault", VM_FAULT); ("performance", VM_PERFORMANCE);
   ("security", VM_SECURITY); ("accessibility", VM_ACCESSIBILITY); ("visual", VM_VISUAL); ("browser", VM_BROWSER); ("golden", VM_END_TO_END);
   ("end-to-end", VM_END_TO_END); ("e2e", VM_END_TO_END); ("integration", VM_INTEGRATION); ("contract", VM_CONTRACT); ("api", VM_API);
   ("rollback", VM_ROLLBACK); ("recovery", VM_RECOVERY); ("documentation", VM_DOCUMENTATION); ("review", VM_REVIEW); ("pytest", VM_UNIT);
   ("test", VM_UNIT); ("traceability", VM_TRACEABILITY); ("repository", VM_STATIC)].
Definition infer_method (record : list (string * json)) : VerificationMethod :=
  let text := str_lower (str_join " " ((λ key, py_str (default (JStr "") (obj_get key record))) <$> ["method"; "claim"; "artifact_path"])) in
  match List.find (λ tm, search (lit tm.1) text) METHOD_TOKENS with Some (_, m) => m | None => VM_STATIC end.
Definition has_text (key value : string) (record : list (string * json)) : bool := bool_decide (obj_get key record = Some (JStr value)).
Definition evidence_state (record : list (string * json)) (age max_age : Z) : CriterionState * string :=
  if negb (has_text "verification_status" "VERIFIED" record) then (CR_UNKNOWN, "evidence is not independently verified")
  else if has_text "result" "FAIL" record then (CR_FAIL, "evidence records a failure")
  else if has_text "result" "BLOCKED" record then (CR_BLOCKED, "evidence records an external or environmental block")
  else if negb (has_text "result" "PASS" record) then (CR_UNKNOWN, "evidence does not record a passing result")
  else if max_age <? age then (CR_STALE, "passing evidence is older than the configured freshness ceiling")
  else (CR_PASS, "verified passing evidence is fresh").
(** Whether a row is about a criterion, and when it was observed. *)
Definition about_criterion (criterion_id : string) (record : list (string * json)) : bool :=
  match obj_get "criterion_ids" record with Some (JList l) => bool_decide (JStr criterion_id ∈ l) | _ => false end.
Definition observed_text (record : list (string * json)) : option string :=
  match obj_get "observed_at_utc" record with Some (JStr s) => Some s | _ => None end.
Definition evidence_age (now observed : Z) : Z := Z.max 0 (Z.quot (now - observed) 1000000).
Definition assess_record (criterion_id : string) (now max_age : Z) (record : list (string * json)) : result (option EvidenceAssessment) :=
  if negb (about_criterion criterion_id record) then Ok None
  else match observed_text record with
       | None => Ok None
       | Some raw =>
           observed ← fromisoformat raw;
           let age := evidence_age now observed in
           let '(state, reason) := evidence_state record age max_age in
           Some <$> new (mkAssessment (py_str (default (JStr "") (obj_get "evidence_id" record))) criterion_id state (infer_method record)
                           (match obj_get "environment" record with Some j => if json_truthy j then py_str j else "unknown" | None => "unknown" end)
                           observed age max_age reason)
       end.
Definition assess_evidence_for_criterion (c : AcceptanceCriterion) (records : list (list (string * json))) (now : Z) (policy : AssurancePolicy)
  : result (list EvidenceAssessment) :=
  assessments ← traverse (assess_record (ac_criterion_id c) now (py_default_evidence_max_age_seconds policy)) records;
  Ok (sorted_by ea_evidence_id (somes assessments)).
Definition passing_assessments (l : list EvidenceAssessment) : list EvidenceAssessment := List.filter (λ a, bool_decide (ea_state a = CR_PASS)) l.
Definition required_methods (risk : AssuranceRisk) (policy : AssurancePolicy) : Z :=
  match risk with AR_HIGH => py_high_risk_min_distinct_methods policy | AR_CRITICAL => py_critical_risk_min_distinct_methods policy | _ => 1 end.
Definition clean_review (review : option IndependentReview) : bool :=
  match review with Some r => reviewer_independent (iv_identity r) && (iv_blocking_finding_count r =? 0) | None => false end.
Definition evidence_sufficient (c : AcceptanceCriterion) (assessments : list EvidenceAssessment) (review : option IndependentReview)
    (policy : AssurancePolicy) : bool * list string :=
  let passing := passing_assessments assessments in
  let method_count := Z.of_nat (length (remove_dups (ea_method <$> passing))) in
  let required := required_methods (ac_risk c) policy in
  let reasons :=
    (if bool_decide (length passing = 0%nat) then ["no fresh verified passing evidence covers the criterion"] else [])
    ++ (if method_count <? required
        then ["criterion requires " +:+ str_of_Z required +:+ " materially distinct evidence methods; observed " +:+ str_of_Z method_count] else [])
    ++ (if bool_decide (ac_risk c ∈ [AR_HIGH; AR_CRITICAL]) && py_require_independent_review_for_high_risk policy && negb (clean_review review)
        then ["high-risk criterion lacks a clean independent review"] else []) in
  (bool_decide (reasons = []), reasons).
Definition truth_from_claim (subject statement : string) (producer : option string) (now : Z) : result TruthRecord :=
  id ← assurance_identifier "TRUTH" [subject; TruthKind_value TK_CLAIM; statement];
  new (mkTruth id subject TK_CLAIM statement [] [] producer TS_UNVERIFIED None now None None).
Definition verified_fact (subject statement : string) (evidence_ids : list string) (producer : option string) (now : Z) : result TruthRecord :=
  id ← assurance_identifier "TRUTH" ([subject; TruthKind_value TK_VERIFIED_FACT; statement] ++ evidence_ids);
  new (mkTruth id subject TK_VERIFIED_FACT statement evidence_ids [] producer TS_VERIFIED (Some 1000) now None None).

(** ** Completion *)
Definition plural_of (n : Z) (text : string) : string := str_of_Z n +:+ text.
Definition py_bool (b : bool) : string := if b then "True" else "False".
Definition candidate_reasons (criteria_total criteria_passing stale unknown : Z) (review_required review_satisfied : bool) : list string :=
  (if criteria_passing <? criteria_total then [plural_of (criteria_total - criteria_passing) " acceptance criteria are not passing"] else [])
  ++ (if stale =? 0 then [] else [plural_of stale " evidence records are stale"])
  ++ (if unknown =? 0 then [] else [plural_of unknown " acceptance facts remain unknown"])
  ++ (if review_required && negb review_satisfied then ["required independent review is not satisfied"] else []).
Definition assess_candidate_completion (work_item_id implementer_id : string) (criteria_total criteria_passing stale unknown : Z)
    (review_required review_satisfied : bool) : result CandidateCompletionAssessment :=
  let reasons := candidate_reasons criteria_total criteria_passing stale unknown review_required review_satisfied in
  let '(state, reasons) := match reasons with
    | [] => (CD_READY_FOR_COMPLETION_GATE,
             ["candidate completion satisfies criterion/evidence/review prerequisites; final Completion Gate is still required"])
    | _ => (CD_CHALLENGE, reasons)
    end in
  id ← assurance_identifier "CAND" [work_item_id; implementer_id; str_of_Z criteria_total; str_of_Z criteria_passing; str_of_Z stale;
                                    str_of_Z unknown; py_bool review_satisfied];
  new (mkCandidate id work_item_id state implementer_id criteria_total criteria_passing stale unknown review_required review_satisfied reasons).
Definition QUESTIONS : list (string * FailureCategory) :=
  [("Are all source-derived requirements dispositioned?", FC_REQUIREMENT);
   ("Are all accepted requirements implemented or explicitly externally blocked?", FC_REQUIREMENT);
   ("Are all implementation artifacts traceable?", FC_TRACEABILITY);
   ("Are all critical paths tested?", FC_TEST);
   ("Does the integrated autonomous operating-loop journey pass every qualification stage?", FC_GOLDEN_JOURNEY);
   ("Are security gates satisfied?", FC_SECURITY);
   ("Are resilience/recovery expectations verified?", FC_RESILIENCE);
   ("Is deployment reproducible?", FC_DEPLOYMENT);
   ("Is rollback documented and tested where practical?", FC_ROLLBACK);
   ("Can another engineer operate the system from the supplied documentation?", FC_DOCUMENTATION);
   ("Can another AI continue development using the repository and Jira structure?", FC_CONTINUATION);
   ("Are unresolved items accurately represented rather than hidden?", FC_STATE_RECONCILIATION);
   ("Does the Command Center accurately reflect actual system state?", FC_STATE_RECONCILIATION);
   ("Does Jira accurately reflect actual implementation state?", FC_STATE_RECONCILIATION);
   ("Does the final coverage audit show any unexplained gaps?", FC_COVERAGE);
   ("Has the unattended end-to-end operating loop passed required qualification?", FC_GOLDEN_JOURNEY)].
Definition gate_values (f : CompletionGateFacts) : list bool :=
  [gf_source_requirements_dispositioned f; gf_accepted_requirements_complete_or_external f; gf_implementation_traceability_complete f;
   gf_critical_paths_tested f; gf_golden_journeys_pass f && gf_autonomous_runtime_qualified f; gf_security_gates_satisfied f;
   gf_resilience_verified f; gf_deployment_reproducible f; gf_rollback_verified f; gf_engineer_operable_from_docs f;
   gf_ai_continuable_from_repo_and_jira f; gf_unresolved_items_truthful f; gf_command_center_truthful f; gf_jira_truthful f;
   gf_unexplained_gap_count f =? 0; gf_unattended_operating_loop_qualified f].
(** The questions with their numbers and whether they pass. *)
Definition numbered_questions (f : CompletionGateFacts) : list (Z * (string * FailureCategory) * bool) :=
  zip (zip (seqZ 1 16) QUESTIONS) (gate_values f).
Definition lists_get (key : string) (d : list (string * list string)) : list string :=
  match List.find (λ kv, String.eqb kv.1 key) d with Some (_, l) => l | None => [] end.
Definition question_reasons (f : CompletionGateFacts) (number : Z) (passed : bool) : list string :=
  match lists_get (str_of_Z number) (gf_reasons_by_question f) with
  | [] => if passed then ["satisfied by deterministic repository facts"] else ["completion prerequisite is not satisfied"]
  | reasons => reasons
  end.
Definition externally_blocked (f : CompletionGateFacts) (number : Z) : bool := bool_decide (number ∈ gf_externally_blocked_question_numbers f).
Definition question_result (f : CompletionGateFacts) (q : Z * (string * FailureCategory) * bool) : result CompletionQuestionResult :=
  let '(number, (question, _), passed) := q in
  new (mkQuestion number question passed (externally_blocked f number && negb passed) (question_reasons f number passed)
         (lists_get (str_of_Z number) (gf_evidence_by_question f))).
Definition question_failure (f : CompletionGateFacts) (q : Z * (string * FailureCategory) * bool) : result CompletionFailure :=
  let '(number, (_, category), passed) := q in
  id ← assurance_identifier "FAIL" [gf_project_id f; str_of_Z number; gf_snapshot_fingerprint f];
  new (mkFailure id category (gf_project_id f) (str_join "; " (question_reasons f number passed)) ("completion.question." +:+ str_of_Z number)).
Definition evaluate_completion_gate (f : CompletionGateFacts) : result CompletionGateDecision :=
  let questions := numbered_questions f in
  let failing := List.filter (λ q, negb q.2) questions in
  results ← traverse (question_result f) questions;
  failures ← traverse (question_failure f) failing;
  let final := forallb id (gate_values f) in
  let state := if final then GS_COMPLETE
               else if negb (bool_decide (length failures = 0%nat)) && forallb (λ q, externally_blocked f q.1.1) failing then GS_BLOCKED_EXTERNAL
               else GS_NOT_COMPLETE in
  id ← assurance_identifier "GATE" [gf_project_id f; gf_snapshot_fingerprint f; GateState_value state];
  new (mkCompletionGate id (gf_project_id f) state results failures (gf_snapshot_fingerprint f) final).

(** ** Progress *)
Definition measure (key : string) (d : list (string * Z)) : Z := match List.find (λ kv, String.eqb kv.1 key) d with Some (_, n) => n | None => 0 end.
Definition milli_of (part whole : Z) : Z := if whole =? 0 then 0 else part * 1000 / whole.
Definition calculate_progress_delta (before after : list (string * Z)) (activity administrative : Z) (noncritical : option Z)
  : result ProgressDelta :=
  _ ← raise_if ((activity <? 0) || (administrative <? 0)) ValueError "work units cannot be negative";
  _ ← raise_if (activity <? administrative) ValueError "administrative units cannot exceed activity units";
  let noncritical := default administrative noncritical in
  _ ← raise_if (negb ((0 <=? noncritical) && (noncritical <=? administrative))) ValueError
        "noncritical administration must be within total administration";
  let gain key := measure key after - measure key before in
  let drop key := measure key before - measure key after in
  let deltas := [gain "implemented_requirements"; gain "verified_criteria"; drop "blockers"; drop "failures"; gain "verified_evidence";
                 gain "tested_implementations"; gain "integrated_changes"] in
  let progress := foldr Z.add 0 (Z.max 0 <$> deltas) in
  id ← assurance_identifier "PDELTA" (str_of_Z <$> deltas ++ [activity; administrative; noncritical]);
  new (mkProgressDelta id (gain "implemented_requirements") (gain "verified_criteria") (drop "blockers") (drop "failures")
         (gain "verified_evidence") (gain "tested_implementations") (gain "integrated_changes") progress activity administrative
         (milli_of administrative activity) noncritical (milli_of noncritical activity) (0 <? progress)).

(** ** The store: rows by table and key, with their project and text *)
Abbreviation assurance_rows := (gmap (string * string) (string * string)).
Definition put_record (table key project_id : string) (value : json) (rows : assurance_rows) : result assurance_rows :=
  let payload := dumps value in
  match rows !! (table, key) with
  | Some (_, existing) =>
      _ ← raise_if (negb (String.eqb existing payload)) ValueError ("immutable assurance record collision: " +:+ key);
      Ok rows
  | None => Ok (<[(table, key) := (project_id, payload)]> rows)
  end.
