(* ===== verification/AssuranceRules.v ===== *)
(** * AssuranceRules: what the assurance decisions stand for *)
From S2P Require Import Prelude PyStd PyRe PyJson Identifiers TaskState ControlDomain SchedulerDomain AssuranceDomain Assurance.
Local Open Scope Z_scope.

Lemma assurance_id_valid prefix s :
  prefix ∈ ["CRIT"; "VPLAN"; "TRUTH"; "REVIEW"; "GATE"; "LOOP"; "SCOPE"; "SCHANGE"; "CAND"; "FAIL"; "SIM"; "PDELTA"; "DELIVERY"] →
  valid_prefixed_id ASSURANCE_ID (prefix +:+ "-") (prefix +:+ "-" +:+ short_digest s) = true.
Proof.
  intros Hp. apply prefixed_id_valid. apply fullmatch_spec.
  repeat (apply elem_of_cons in Hp as [->|Hp]; [reflexivity|]). by apply elem_of_nil in Hp.
Qed.
Lemma assurance_id_returns prefix parts message :
  prefix ∈ ["CRIT"; "VPLAN"; "TRUTH"; "REVIEW"; "GATE"; "LOOP"; "SCOPE"; "SCHANGE"; "CAND"; "FAIL"; "SIM"; "PDELTA"; "DELIVERY"] →
  parts ≠ [] → Forall (λ p, str_truthy (str_strip p) = true) parts →
  ∃ i, assurance_identifier prefix parts = Ok i ∧ carries_assurance_id (prefix +:+ "-") i message = Ok ().
Proof.
  intros Hp Hne Hall. eexists. split; [by apply prefixed_identifier_returns|]. unfold carries_assurance_id. by rewrite assurance_id_valid.
Qed.
Lemma at_least_ok low n field : at_least low n field = Ok () ↔ low ≤ n.
Proof. unfold at_least. by rewrite raise_if_ok, Z.ltb_ge. Qed.
Lemma between_ok low high n field : between low high n field = Ok () ↔ low ≤ n ≤ high.
Proof. unfold between. by rewrite raise_if_ok, negb_false_iff, andb_true_iff, !Z.leb_le. Qed.
(** Run the checks of a record whose bounds are known. *)
Ltac checks := repeat (apply bind_ok; exists (); split; [first [apply at_least_ok; lia | apply between_ok; lia | apply raise_if_ok; lia | done]|]).

(** ** Counting *)
Lemma occurrences_nonneg {A} `{EqDecision A} (x : A) l : 0 ≤ occurrences x l.
Proof. unfold occurrences. lia. Qed.
Lemma occurrences_pos {A} `{EqDecision A} (x : A) l : 0 < occurrences x l → x ∈ l.
Proof.
  unfold occurrences. destruct (List.filter _ l) as [|y k] eqn:E; cbn; [lia|]. intros _. assert (y ∈ y :: k) as Hy by (by left).
  rewrite <-E in Hy. apply elem_of_List_filter in Hy as [Hy Hx%bool_decide_eq_true]. by subst.
Qed.
Lemma occurrences_app {A} `{EqDecision A} (x : A) l k : occurrences x (l ++ k) = occurrences x l + occurrences x k.
Proof. unfold occurrences. rewrite List.filter_app, length_app. lia. Qed.
Lemma max_count_ge {A} `{EqDecision A} (l : list A) x : occurrences x l ≤ max_count l.
Proof.
  destruct (decide (0 < occurrences x l)) as [Hp|Hp]; [|unfold max_count; assert (∀ k, 0 ≤ foldr Z.max 0 k) as H0
    by (intros k; induction k; cbn; lia); specialize (H0 ((λ y, occurrences y l) <$> l)); lia].
  apply occurrences_pos in Hp. unfold max_count. assert (∀ f : A → Z, ∀ k, x ∈ k → f x ≤ foldr Z.max 0 (f <$> k)) as H.
  { intros f k. induction k as [|y k IH]; [by intros ?%elem_of_nil|]. cbn. intros [->|H]%elem_of_cons; [lia|]. specialize (IH H). lia. }
  by apply (H (λ y, occurrences y l)).
Qed.
Lemma max_count_reached {A} `{EqDecision A} (l : list A) n : 0 ≤ n → n < max_count l → ∃ x, n < occurrences x l.
Proof.
  unfold max_count. intros Hn. generalize l at 2. intros k. induction k as [|y k IH]; cbn; [lia|]. intros H.
  destruct (decide (n < occurrences y l)); [eauto|]. apply IH. lia.
Qed.
Lemma max_count_lt {A} `{EqDecision A} (l : list A) n : 0 ≤ n → n < max_count l ↔ ∃ x, n < occurrences x l.
Proof. intros Hn. split; [by apply max_count_reached|]. intros [x Hx]. pose proof (max_count_ge l x). lia. Qed.
Lemma max_count_nonneg {A} `{EqDecision A} (l : list A) : 0 ≤ max_count l.
Proof. unfold max_count. generalize ((λ x, occurrences x l) <$> l). intros k. induction k; cbn; lia. Qed.
Lemma leading_idle_spec l k : Z.of_nat k ≤ leading_idle (reverse l) ↔
  ∃ front tail, l = front ++ tail ∧ length tail = k ∧ Forall (λ o, ao_progress_units o ≤ 0) tail.
Proof.
  revert k. induction l as [|o l IH] using rev_ind; intros k.
  - cbn. split; [intros Hk; exists [], []; split_and!; [done|cbn; lia|constructor]|]. intros (front & tail & E & Hl & _).
    symmetry in E. apply app_nil in E as [_ ->]. cbn in Hl. lia.
  - rewrite reverse_app. cbn [reverse rev_append app]. change (reverse [o]) with [o]. cbn [app leading_idle]. unfold progressing.
    destruct (Z.ltb_spec 0 (ao_progress_units o)) as [Hp|Hp].
    + split; [intros Hk; exists (l ++ [o]), []; rewrite app_nil_r; split_and!; [done|cbn; lia|constructor]|].
      intros (front & tail & E & Hl & Hall). destruct tail as [|x tail _] using rev_ind; [cbn in Hl; lia|].
      rewrite app_assoc in E. apply app_inj_tail in E as [_ <-]. apply Forall_app in Hall as [_ Hx]. inversion Hx. lia.
    + destruct k as [|k].
      { split; [intros _; exists (l ++ [o]), []; rewrite app_nil_r; split_and!; [done|done|constructor]|].
        intros _. specialize (IH 0%nat). assert (Z.of_nat 0 ≤ leading_idle (reverse l)); [|lia]. apply IH. exists l, [].
        rewrite app_nil_r. split_and!; [done|done|constructor]. }
      specialize (IH k). split.
      * intros Hk. destruct IH as [IH _]. destruct IH as (front & tail & -> & Hl & Hall); [lia|]. exists front, (tail ++ [o]).
        rewrite app_assoc, length_app, Forall_app. cbn. split_and!; [done|lia|done|by constructor].
      * intros (front & tail & E & Hl & Hall). destruct tail as [|x tail _] using rev_ind; [done|]. rewrite app_assoc in E.
        apply app_inj_tail in E as [-> <-]. rewrite length_app in Hl. cbn in Hl. apply Forall_app in Hall as [Hall _].
        destruct IH as [_ IH]. assert (Z.of_nat k ≤ leading_idle (reverse (front ++ tail))); [|lia]. apply IH. exists front, tail.
        split_and!; [done|lia|done].
Qed.
Lemma leading_idle_nonneg l : 0 ≤ leading_idle l.
Proof. induction l as [|o l IH]; cbn; [lia|]. destruct (progressing o); lia. Qed.

(** ** The loop guard *)
Definition failed_with (s : string) (o : AttemptObservation) : bool := bool_decide (ao_failure_signature o = Some s).
Definition count (p : AttemptObservation → bool) (l : list AttemptObservation) : Z := Z.of_nat (length (List.filter p l)).
(** Enough is enough: the attempts are used up, one failure or one output came
    back too often, or the last cycles brought nothing. *)
Definition should_stop (l : list AttemptObservation) (b : AttemptBudget) : Prop :=
  ab_max_attempts b ≤ Z.max (ab_used_attempts b) (Z.of_nat (length l))
  ∨ (∃ s, s ≠ "" ∧ ab_max_same_failure b < count (failed_with s) l)
  ∨ (∃ out, ab_max_unchanged_outputs b < count (λ o, String.eqb (ao_output_fingerprint o) out) l)
  ∨ (∃ front tail, l = front ++ tail ∧ Z.of_nat (length tail) = ab_max_progressless_cycles b ∧ Forall (λ o, ao_progress_units o ≤ 0) tail).
(** Something new is asked for: a retry after a failure that names nothing new,
    an action repeated or paperwork beyond its share without progress. *)
Definition needs_novelty (l : list AttemptObservation) (b : AttemptBudget) : Prop :=
  (∃ front previous latest, l = front ++ [previous; latest] ∧ opt_truthy (ao_failure_signature previous) = true ∧ ao_novelty_dimensions latest = [])
  ∨ (existsb progressing (last_n 2 l) = false
     ∧ ((∃ a, 2 ≤ count (λ o, bool_decide ((ao_action_fingerprint o, ao_tool_fingerprint o) = a)) l)
        ∨ let recent := last_n (Z.to_nat (ab_max_progressless_cycles b)) l in
          total ao_activity_units recent ≠ 0
          ∧ ab_max_noncritical_administrative_ratio_milli b < total ao_administrative_units recent * 1000 / total ao_activity_units recent)).
Definition stop_bits (m : loop_measures) (b : AttemptBudget) : bool :=
  (ab_max_attempts b <=? lm_attempts m) || (ab_max_same_failure b <? lm_repeated_failure m)
  || (ab_max_unchanged_outputs b <? lm_unchanged_output m) || (ab_max_progressless_cycles b <=? lm_progressless m).
Definition novelty_bits (m : loop_measures) (b : AttemptBudget) : bool :=
  negb (lm_novel m) || ((2 <=? lm_repeated_action m) && negb (lm_progress m))
  || (negb (lm_recent_activity m =? 0) && (ab_max_noncritical_administrative_ratio_milli b <? lm_ratio m) && negb (lm_progress m)).
Lemma loop_rule_fst h d why acc : (loop_rule h d why acc).1 = if h then d else acc.1.
Proof. by destruct h. Qed.
Lemma loop_verdict_bits m b : (loop_verdict m b).1
  = if stop_bits m b then LD_STOP_AND_ESCALATE else if novelty_bits m b then LD_REQUIRE_NOVELTY else LD_CONTINUE.
Proof.
  unfold loop_verdict, stop_bits, novelty_bits, going_on. cbv zeta. cbn [fst]. rewrite !loop_rule_fst. cbn [fst].
  destruct (ab_max_attempts b <=? lm_attempts m), (ab_max_same_failure b <? lm_repeated_failure m),
    (ab_max_unchanged_outputs b <? lm_unchanged_output m), (ab_max_progressless_cycles b <=? lm_progressless m); cbn [orb];
    try (by destruct (_ && _), (_ && _)); try (by repeat case_match);
  destruct (lm_novel m), (2 <=? lm_repeated_action m), (lm_progress m), (lm_recent_activity m =? 0),
    (ab_max_noncritical_administrative_ratio_milli b <? lm_ratio m); reflexivity.
Qed.
Lemma filter_fmap_length {A B} (f : A → B) (p : B → bool) l : length (List.filter p (f <$> l)) = length (List.filter (λ x, p (f x)) l).
Proof. induction l as [|x l IH]; [done|]. rewrite fmap_cons. cbn [List.filter]. destruct (p (f x)); cbn [length]; by rewrite IH. Qed.
Lemma failures_counted s l : s ≠ "" → occurrences s (failure_signatures l) = count (failed_with s) l.
Proof.
  intros Hs. unfold occurrences, count, failure_signatures. f_equal. induction l as [|o l IH]; [done|]. rewrite fmap_cons. cbn [somes omap list_omap].
  unfold failed_with at 1. cbn [List.filter]. destruct (ao_failure_signature o) as [t|] eqn:E; cbn [id].
  - destruct t as [|ch t]; cbn [str_truthy].
    + rewrite bool_decide_eq_false_2 by congruence. unfold somes in IH. exact IH.
    + cbn [List.filter]. destruct (decide (String ch t = s)) as [->|Hn].
      * rewrite !bool_decide_eq_true_2 by done. cbn [length]. f_equal. exact IH.
      * rewrite (bool_decide_eq_false_2 (String ch t = s)), (bool_decide_eq_false_2 (Some _ = Some s)) by congruence. exact IH.
  - rewrite bool_decide_eq_false_2 by done. exact IH.
Qed.
Lemma no_empty_signature l : occurrences "" (failure_signatures l) = 0.
Proof.
  assert (¬ "" ∈ failure_signatures l) as Hn.
  { unfold failure_signatures. intros (o & E & _)%elem_of_somes%list_elem_of_fmap. destruct (ao_failure_signature o) as [[|]|]; done. }
  pose proof (occurrences_nonneg "" (failure_signatures l)). destruct (decide (0 < occurrences "" (failure_signatures l))) as [Hp|]; [|lia].
  by apply occurrences_pos in Hp.
Qed.
Lemma failures_repeated l n : 0 ≤ n → n < max_count (failure_signatures l) ↔ ∃ s, s ≠ "" ∧ n < count (failed_with s) l.
Proof.
  intros Hn. rewrite max_count_lt by done. split.
  - intros [s Hs]. assert (s ≠ "") as Hne by (intros ->; rewrite no_empty_signature in Hs; lia). exists s. by rewrite <-failures_counted.
  - intros (s & Hne & Hs). exists s. by rewrite failures_counted.
Qed.
Lemma outputs_repeated l n : 0 ≤ n → n < max_count (ao_output_fingerprint <$> l) ↔ ∃ out, n < count (λ o, String.eqb (ao_output_fingerprint o) out) l.
Proof.
  intros Hn. rewrite max_count_lt by done. unfold occurrences, count. setoid_rewrite filter_fmap_length.
  assert (∀ out, List.filter (λ o, bool_decide (ao_output_fingerprint o = out)) l = List.filter (λ o, String.eqb (ao_output_fingerprint o) out) l) as E.
  { intros out. apply List.filter_ext. intros o. case_bool_decide as H; [by rewrite H, String.eqb_refl|]. symmetry. by apply String.eqb_neq. }
  by setoid_rewrite E.
Qed.
Lemma stop_bits_spec l b : validate b = Ok () → stop_bits (measure_attempts l b) b = true ↔ should_stop l b.
Proof.
  intros Hv. unfold validate, AttemptBudget_model in Hv. apply bind_ok in Hv as ([] & _ & Hv). apply bind_ok in Hv as ([] & _ & Hv).
  apply bind_ok in Hv as ([] & H1%between_ok & Hv). apply bind_ok in Hv as ([] & H2%between_ok & Hv). apply bind_ok in Hv as ([] & H3%between_ok & _).
  unfold stop_bits, measure_attempts, should_stop. cbn [lm_attempts lm_repeated_failure lm_unchanged_output lm_progressless].
  rewrite !orb_true_iff, !Z.leb_le, !Z.ltb_lt, failures_repeated, outputs_repeated by lia.
  replace (ab_max_progressless_cycles b) with (Z.of_nat (Z.to_nat (ab_max_progressless_cycles b))) at 1 by lia. rewrite leading_idle_spec.
  setoid_rewrite <-Nat2Z.inj_iff. setoid_rewrite Z2Nat.id; [|lia]. tauto.
Qed.
Lemma latest_novelty l : latest_has_novelty l = false ↔
  ∃ front previous latest, l = front ++ [previous; latest] ∧ opt_truthy (ao_failure_signature previous) = true ∧ ao_novelty_dimensions latest = [].
Proof.
  unfold latest_has_novelty. split.
  - destruct (reverse l) as [|latest [|previous rest]] eqn:E; [done|done|]. apply (f_equal reverse) in E. rewrite reverse_involutive in E.
    rewrite !reverse_cons, <-app_assoc in E. destruct (opt_truthy _) eqn:Eo; [|done]. intros Hn%negb_false_iff%bool_decide_eq_true. subst l. eauto 10.
  - intros (front & previous & latest & -> & Hf & Hn). rewrite reverse_app. cbn. by rewrite Hf, bool_decide_eq_true_2.
Qed.
Lemma actions_repeated l : 2 ≤ max_count ((λ o, (ao_action_fingerprint o, ao_tool_fingerprint o)) <$> l)
  ↔ ∃ a, 2 ≤ count (λ o, bool_decide ((ao_action_fingerprint o, ao_tool_fingerprint o) = a)) l.
Proof.
  transitivity (1 < max_count ((λ o, (ao_action_fingerprint o, ao_tool_fingerprint o)) <$> l)); [lia|]. rewrite max_count_lt by lia.
  unfold occurrences, count. setoid_rewrite filter_fmap_length. split; intros [a Ha]; exists a; lia.
Qed.
Lemma novelty_bits_spec l b : novelty_bits (measure_attempts l b) b = true ↔ needs_novelty l b.
Proof.
  unfold novelty_bits, measure_attempts, needs_novelty. cbv zeta. cbn [lm_novel lm_repeated_action lm_progress lm_recent_activity lm_ratio].
  rewrite !orb_true_iff, !andb_true_iff, !negb_true_iff, Z.leb_le, Z.ltb_lt, Z.eqb_neq, latest_novelty, actions_repeated.
  destruct (Z.eqb_spec (total ao_activity_units (last_n (Z.to_nat (ab_max_progressless_cycles b)) l)) 0) as [->|]; tauto.
Qed.
Definition wellformed_attempts (observations : list AttemptObservation) : Prop := Forall (λ o, validate o = Ok ()) observations.
Lemma attempt_units o : validate o = Ok () → 0 ≤ ao_administrative_units o ≤ ao_activity_units o.
Proof.
  intros Hv. unfold validate, AttemptObservation_model in Hv. do 5 apply bind_ok in Hv as ([] & _ & Hv).
  apply bind_ok in Hv as ([] & H1%at_least_ok & H2%raise_if_ok%Z.ltb_ge). lia.
Qed.
Lemma totals_ordered l : Forall (λ o, validate o = Ok ()) l → 0 ≤ total ao_administrative_units l ≤ total ao_activity_units l.
Proof. unfold total. induction 1 as [|o l Ho _ IH]; cbn; [lia|]. apply attempt_units in Ho. lia. Qed.
Lemma relevant_spec observations b o : o ∈ relevant_observations observations b ↔ o ∈ observations ∧ ao_task_id o = ab_task_id b.
Proof. unfold relevant_observations. by rewrite elem_of_sorted_by, elem_of_List_filter, String.eqb_eq. Qed.
Lemma administrative_share observations b : wellformed_attempts observations →
  0 ≤ lm_ratio (measure_attempts (relevant_observations observations b) b) ≤ 1000.
Proof.
  intros Hw. unfold measure_attempts. cbv zeta. cbn [lm_ratio]. set (recent := last_n _ _).
  assert (Forall (λ o, validate o = Ok ()) recent) as Hr.
  { apply Forall_drop. apply Forall_forall. intros o [Ho _]%relevant_spec. unfold wellformed_attempts in Hw. rewrite Forall_forall in Hw. by apply Hw. }
  apply totals_ordered in Hr. destruct (Z.eqb_spec (total ao_activity_units recent) 0); [lia|].
  split; [apply Z.div_pos; lia|]. apply Z.div_le_upper_bound; lia.
Qed.
Lemma LoopDisposition_nonblank d : str_truthy (str_strip (LoopDisposition_value d)) = true.
Proof. by destruct d. Qed.
Lemma loop_guard_returns observations b : validate b = Ok () → wellformed_attempts observations → str_truthy (str_strip (ab_task_id b)) = true →
  ∃ d, evaluate_loop observations b = Ok d
    ∧ (lg_disposition d = LD_STOP_AND_ESCALATE ↔ should_stop (relevant_observations observations b) b)
    ∧ (lg_disposition d = LD_CONTINUE ↔ ¬ should_stop (relevant_observations observations b) b ∧ ¬ needs_novelty (relevant_observations observations b) b).
Proof.
  intros Hb Hw Ht. set (l := relevant_observations observations b). unfold evaluate_loop. fold l.
  pose proof (loop_verdict_bits (measure_attempts l b) b) as Hv. destruct (loop_verdict _ _) as [disposition reasons]. cbn [fst] in Hv. subst disposition.
  set (d := if stop_bits _ _ then _ else _).
  destruct (assurance_id_returns "LOOP" [ab_task_id b; str_of_Z (lm_attempts (measure_attempts l b)); str_of_Z (lm_repeated_failure (measure_attempts l b));
    str_of_Z (lm_unchanged_output (measure_attempts l b)); str_of_Z (lm_repeated_action (measure_attempts l b)); LoopDisposition_value d]
    "invalid loop decision id") as (i & Hi & Hid).
  { set_unfold; tauto. } { done. } { repeat constructor; [done|apply str_of_Z_nonblank..|apply LoopDisposition_nonblank]. }
  cbv zeta. rewrite Hi. cbn [mbind result_bind]. eexists. split.
  - apply new_valid. unfold validate, LoopGuardDecision_model.
    cbn [lg_attempts_used lg_repeated_failure_count lg_unchanged_output_count lg_repeated_action_count lg_progressless_cycle_count
      lg_administrative_ratio_milli lg_decision_id].
    assert (0 ≤ ab_used_attempts b) as Hu.
    { unfold validate, AttemptBudget_model in Hb. apply bind_ok in Hb as ([] & _ & Hb). by apply bind_ok in Hb as ([] & H1%at_least_ok & _). }
    pose proof (administrative_share observations b Hw) as Hshare. fold l in Hshare.
    pose proof (max_count_nonneg (failure_signatures l)). pose proof (max_count_nonneg (ao_output_fingerprint <$> l)).
    pose proof (max_count_nonneg ((λ o, (ao_action_fingerprint o, ao_tool_fingerprint o)) <$> l)). pose proof (leading_idle_nonneg (reverse l)).
    unfold measure_attempts in *. cbn [lm_attempts lm_repeated_failure lm_unchanged_output lm_repeated_action lm_progressless lm_ratio] in *.
    checks. done.
  - cbn [lg_disposition]. pose proof (stop_bits_spec l b Hb) as Hs. pose proof (novelty_bits_spec l b) as Hn. unfold d.
    destruct (stop_bits _ _), (novelty_bits _ _); split; split; intros; try done; naive_solver.
Qed.
(** C20. For every valid budget and all valid observations the loop guard returns
    a decision: STOP exactly when the attempts are used up, one failure or one
    output came back too often or the last cycles brought no progress, CONTINUE
    exactly when none of this holds and nothing new is asked for either. *)
Theorem loop_guard_decides observations b : validate b = Ok () → wellformed_attempts observations → str_truthy (str_strip (ab_task_id b)) = true →
  ∃ d, evaluate_loop observations b = Ok d
    ∧ (lg_disposition d = LD_STOP_AND_ESCALATE ↔ should_stop (relevant_observations observations b) b)
    ∧ (lg_disposition d = LD_CONTINUE ↔ ¬ should_stop (relevant_observations observations b) b ∧ ¬ needs_novelty (relevant_observations observations b) b).
Proof. apply loop_guard_returns. Qed.
Lemma count_perm p l k : l ≡ₚ k → count p l = count p k.
Proof. unfold count. induction 1 as [|x l k _ IH|x y l|l k h _ IH1 _ IH2]; cbn [List.filter]; [done|destruct (p x)|destruct (p x), (p y)|]; cbn [length] in *; lia. Qed.
Lemma relevant_all observations b : Forall (λ o, ao_task_id o = ab_task_id b) observations → relevant_observations observations b ≡ₚ observations.
Proof.
  intros Ht. unfold relevant_observations. rewrite sorted_by_perm. induction Ht as [|o l Ho _ IH]; [done|]. cbn [List.filter].
  by rewrite Ho, String.eqb_refl, IH.
Qed.
(** The sequence of attempts of a task, each of them made after the guard had
    not stopped the task on the earlier ones. *)
Definition guarded (b : AttemptBudget) (attempts : list AttemptObservation) : Prop :=
  ∀ earlier o later, attempts = earlier ++ o :: later → ∃ d, evaluate_loop earlier b = Ok d ∧ lg_disposition d ≠ LD_STOP_AND_ESCALATE.
(** C17. Under the loop guard a task comes to an end: it is attempted at most as
    often as its budget says, counting what was used before, and no failure and
    no output comes back more than once beyond what is allowed. *)
Theorem guarded_attempts_end b attempts : validate b = Ok () → wellformed_attempts attempts → str_truthy (str_strip (ab_task_id b)) = true →
  Forall (λ o, ao_task_id o = ab_task_id b) attempts → guarded b attempts →
  Z.of_nat (length attempts) ≤ ab_max_attempts b ∧ (attempts ≠ [] → ab_used_attempts b < ab_max_attempts b)
  ∧ (∀ s, s ≠ "" → count (failed_with s) attempts ≤ ab_max_same_failure b + 1)
  ∧ ∀ out, count (λ o, String.eqb (ao_output_fingerprint o) out) attempts ≤ ab_max_unchanged_outputs b + 1.
Proof.
  intros Hb Hw Ht Htask Hg. assert (1 ≤ ab_max_attempts b ∧ 1 ≤ ab_max_same_failure b ∧ 1 ≤ ab_max_unchanged_outputs b) as (Hm & Hf & Hu).
  { unfold validate, AttemptBudget_model in Hb. apply bind_ok in Hb as ([] & H1%between_ok & Hb). apply bind_ok in Hb as ([] & _ & Hb).
    apply bind_ok in Hb as ([] & H2%between_ok & Hb). apply bind_ok in Hb as ([] & H3%between_ok & _). lia. }
  destruct attempts as [|o earlier _] using rev_ind; [unfold count; cbn [List.filter length]; split_and!; [lia|done|intros; lia|intros; lia]|].
  destruct (Hg earlier o []) as (d & Hd & Hns); [done|]. unfold wellformed_attempts in Hw. apply Forall_app in Hw as [Hw _].
  apply Forall_app in Htask as [Htask _]. destruct (loop_guard_returns earlier b Hb Hw Ht) as (d' & Hd' & Hstop & _).
  rewrite Hd in Hd'. injection Hd' as <-. rewrite Hstop in Hns. pose proof (relevant_all earlier b Htask) as Hperm.
  unfold should_stop in Hns. rewrite Hperm in Hns. rewrite length_app. cbn [length].
  assert (∀ p, count p (earlier ++ [o]) ≤ count p (relevant_observations earlier b) + 1) as Hc.
  { intros p. rewrite (count_perm p _ _ Hperm). unfold count. rewrite List.filter_app, length_app. cbn [List.filter].
    destruct (p o); cbn [length]; lia. }
  split_and!; [lia|lia| |].
  - intros s Hs. specialize (Hc (failed_with s)). destruct (decide (ab_max_same_failure b < count (failed_with s) (relevant_observations earlier b)));
      [|lia]. exfalso. apply Hns. right. left. eauto.
  - intros out. specialize (Hc (λ o, String.eqb (ao_output_fingerprint o) out)).
    destruct (decide (ab_max_unchanged_outputs b < count (λ o, String.eqb (ao_output_fingerprint o) out) (relevant_observations earlier b))); [|lia].
    exfalso. apply Hns. right. right. left. eauto.
Qed.
