(* ===== verification/AssuranceGate.v ===== *)
(** * AssuranceGate: completion and sufficient evidence

    The completion gate and the sufficiency of evidence against what they stand
    for, and the store of assurance records. *)
From S2P Require Import Prelude PyStd PyRe PyJson Identifiers TaskState ControlDomain SchedulerDomain IsoInstant AssuranceDomain Assurance AssuranceRules.
Local Open Scope Z_scope.

(** ** The completion gate *)
Record complete (f : CompletionGateFacts) : Prop := {
  co_requirements : gf_source_requirements_dispositioned f = true ∧ gf_accepted_requirements_complete_or_external f = true
    ∧ gf_implementation_traceability_complete f = true;
  co_tests : gf_critical_paths_tested f = true ∧ gf_golden_journeys_pass f = true ∧ gf_autonomous_runtime_qualified f = true;
  co_operation : gf_security_gates_satisfied f = true ∧ gf_resilience_verified f = true ∧ gf_deployment_reproducible f = true
    ∧ gf_rollback_verified f = true ∧ gf_unattended_operating_loop_qualified f = true;
  co_handover : gf_engineer_operable_from_docs f = true ∧ gf_ai_continuable_from_repo_and_jira f = true;
  co_truth : gf_unresolved_items_truthful f = true ∧ gf_command_center_truthful f = true ∧ gf_jira_truthful f = true
    ∧ gf_unexplained_gap_count f = 0;
}.
Lemma complete_spec f : forallb id (gate_values f) = true ↔ complete f.
Proof.
  unfold gate_values. cbn [forallb id]. rewrite !andb_true_iff, Z.eqb_eq. split.
  - intros. destruct_and!. by split.
  - intros [H1 H2 H3 H4 H5]. destruct_and!. by split_and!.
Qed.
Lemma numbered_values f : (numbered_questions f).*2 = gate_values f.
Proof. reflexivity. Qed.
Lemma numbered_numbers f : (λ q, q.1.1) <$> numbered_questions f = seqZ 1 16.
Proof. reflexivity. Qed.
Definition failing_questions (f : CompletionGateFacts) : list (Z * (string * FailureCategory) * bool) :=
  List.filter (λ q, negb q.2) (numbered_questions f).
Lemma failing_nil f : failing_questions f = [] ↔ complete f.
Proof.
  rewrite <-complete_spec, <-numbered_values. unfold failing_questions. generalize (numbered_questions f). intros l.
  induction l as [|[q []] l IH]; [done| |]; rewrite fmap_cons; cbn [List.filter negb snd forallb id andb]; [done|]. split; done.
Qed.
Lemma question_result_returns f q : q ∈ numbered_questions f → ∃ r, question_result f q = Ok r ∧ cq_passed r = q.2.
Proof.
  intros Hq. assert (1 ≤ q.1.1 ≤ 16) as Hn.
  { apply (list_elem_of_fmap_2 (λ q, q.1.1)) in Hq. rewrite numbered_numbers in Hq. apply elem_of_seqZ in Hq. lia. }
  destruct q as [[number [question category]] passed]. cbn [fst snd] in *. eexists. split; [by apply new_valid, between_ok|done].
Qed.
Lemma hex64_nonblank s : is_hex64 s = true → str_truthy (str_strip s) = true.
Proof. unfold is_hex64. intros [Hl Hx]%andb_true_iff. apply hex_nonblank; [done|]. by intros ->. Qed.
Lemma question_failure_returns f q : str_truthy (str_strip (gf_project_id f)) = true → is_hex64 (gf_snapshot_fingerprint f) = true →
  ∃ x, question_failure f q = Ok x ∧ cx_category x = q.1.2.2 ∧ cx_rework_route x = "completion.question." +:+ str_of_Z q.1.1.
Proof.
  intros Hp Hs. destruct q as [[number [question category]] passed].
  destruct (assurance_id_returns "FAIL" [gf_project_id f; str_of_Z number; gf_snapshot_fingerprint f] "invalid completion failure id") as (i & Hi & Hid).
  { set_unfold; tauto. } { done. } { repeat constructor; [done|apply str_of_Z_nonblank|by apply hex64_nonblank]. }
  cbn [question_failure]. rewrite Hi. cbn [mbind result_bind]. eexists. split; [by apply new_valid|done].
Qed.
Lemma Forall2_passed f l results : Forall2 (λ q r, question_result f q = Ok r ∧ cq_passed r = q.2) l results → forallb cq_passed results = forallb id l.*2.
Proof. induction 1 as [|q r l results [_ Hq] _ IH]; [done|]. rewrite fmap_cons. cbn [forallb]. by rewrite Hq, IH. Qed.
Lemma GateState_nonblank s : str_truthy (str_strip (GateState_value s)) = true.
Proof. by destruct s. Qed.
(** What the gate decides, from the questions that fail. *)
Definition gate_verdict (f : CompletionGateFacts) : GateState :=
  if bool_decide (failing_questions f = []) then GS_COMPLETE
  else if forallb (λ q, externally_blocked f q.1.1) (failing_questions f) then GS_BLOCKED_EXTERNAL else GS_NOT_COMPLETE.
(** C19. For valid facts of a named project the completion gate returns a
    decision: COMPLETE exactly when every fact holds and no gap is left
    unexplained, BLOCKED_EXTERNAL exactly when something fails and all that
    fails is known to be blocked from outside; it lists one failure per failing
    question, with its category and where to take it up again. *)
Theorem completion_gate_decides f : validate f = Ok () → str_truthy (str_strip (gf_project_id f)) = true →
  ∃ g, evaluate_completion_gate f = Ok g ∧ (cg_state g = GS_COMPLETE ↔ complete f) ∧ (cg_final_complete g = true ↔ complete f)
    ∧ (cg_state g = GS_BLOCKED_EXTERNAL ↔ ¬ complete f ∧ ∀ q, q ∈ failing_questions f → q.1.1 ∈ gf_externally_blocked_question_numbers f)
    ∧ length (cg_questions g) = 16%nat
    ∧ Forall2 (λ q x, cx_category x = q.1.2.2 ∧ cx_rework_route x = "completion.question." +:+ str_of_Z q.1.1) (failing_questions f) (cg_failures g).
Proof.
  intros Hv Hp. assert (is_hex64 (gf_snapshot_fingerprint f) = true) as Hx.
  { unfold validate, CompletionGateFacts_model in Hv. apply bind_ok in Hv as ([] & _ & Hv). by apply raise_if_ok, negb_false_iff in Hv. }
  unfold evaluate_completion_gate. cbv zeta. fold (failing_questions f).
  destruct (traverse_total (question_result f) (λ q r, question_result f q = Ok r ∧ cq_passed r = q.2) (numbered_questions f)) as (results & Er & Hr).
  { intros q Hq. destruct (question_result_returns f q Hq) as (r & E & Hpass). by exists r. }
  destruct (traverse_total (question_failure f) (λ q x, cx_category x = q.1.2.2 ∧ cx_rework_route x = "completion.question." +:+ str_of_Z q.1.1)
    (failing_questions f)) as (failures & Ef & Hf).
  { intros q _. by apply question_failure_returns. }
  rewrite Er. cbn [mbind result_bind]. rewrite Ef. cbn [mbind result_bind].
  assert (bool_decide (length failures = 0%nat) = bool_decide (failing_questions f = [])) as Hlen.
  { apply Forall2_length in Hf. destruct failures, (failing_questions f); done. }
  assert (forallb id (gate_values f) = bool_decide (failing_questions f = [])) as Hfinal.
  { apply eq_true_iff_eq. by rewrite complete_spec, bool_decide_eq_true, failing_nil. }
  rewrite Hlen, Hfinal. set (state := if bool_decide _ then _ else _).
  destruct (assurance_id_returns "GATE" [gf_project_id f; gf_snapshot_fingerprint f; GateState_value state] "invalid completion gate id") as (i & Hi & Hid).
  { set_unfold; tauto. } { done. } { repeat constructor; [done|by apply hex64_nonblank|apply GateState_nonblank]. }
  rewrite Hi. cbn [mbind result_bind]. eexists. split.
  - apply new_valid. unfold validate, CompletionGateDecision_model.
    cbn [cg_source_snapshot_fingerprint cg_gate_id cg_final_complete cg_questions cg_state cg_failures].
    rewrite Hx, (Forall2_passed f _ _ Hr), numbered_values, Hfinal, Hlen. change ("GATE" +:+ "-") with "GATE-" in Hid. rewrite Hid.
    unfold state. destruct (bool_decide (failing_questions f = [])); [done|]. cbn [negb andb].
    by destruct (forallb (λ q, externally_blocked f q.1.1) (failing_questions f)).
  - cbn [cg_state cg_final_complete cg_questions cg_failures]. rewrite <-failing_nil, bool_decide_eq_true. apply Forall2_length in Hr as Hr'.
    split; [|split; [done|split; [|split; [by rewrite <-Hr'|done]]]].
    + unfold state. case_bool_decide; [done|]. cbn [negb andb]. case_match; naive_solver.
    + unfold state. case_bool_decide as Hn; [naive_solver|]. cbn [negb andb]. case_match eqn:E.
      * split; [|done]. intros _. split; [done|]. rewrite forallb_forall in E. intros q Hq. apply list_elem_of_In, E in Hq.
        by apply bool_decide_eq_true in Hq.
      * split; [done|]. intros [_ Hall]. apply not_true_iff_false in E. destruct E. apply forallb_forall. intros q Hq.
        apply bool_decide_eq_true, Hall. by apply list_elem_of_In.
Qed.

(** ** Sufficient evidence *)
Section evidence.
Context (c : AcceptanceCriterion) (now : Z) (policy : AssurancePolicy).
Hypothesis valid_policy : validate policy = Ok ().

(** A row of the ledger that speaks for the criterion: about it, verified,
    passing, and observed within the freshness ceiling. *)
Definition supports (record : list (string * json)) : Prop :=
  about_criterion (ac_criterion_id c) record = true ∧ obj_get "verification_status" record = Some (JStr "VERIFIED")
  ∧ obj_get "result" record = Some (JStr "PASS")
  ∧ ∃ raw observed, observed_text record = Some raw ∧ fromisoformat raw = Ok observed
    ∧ evidence_age now observed ≤ py_default_evidence_max_age_seconds policy.
(** A row whose instant, if it has one, is an instant. *)
Definition dated (record : list (string * json)) : Prop :=
  ∀ raw, observed_text record = Some raw → ∃ observed, fromisoformat raw = Ok observed.
Definition assessed (record : list (string * json)) (a : option EvidenceAssessment) : Prop :=
  (∃ e, a = Some e ∧ ea_state e = CR_PASS ∧ ea_method e = infer_method record ∧ supports record)
  ∨ (¬ supports record ∧ ∀ e, a = Some e → ea_state e ≠ CR_PASS).

Lemma positive_ceiling : 1 ≤ py_default_evidence_max_age_seconds policy.
Proof using valid_policy. unfold validate, AssurancePolicy_model in valid_policy. by apply bind_ok in valid_policy as ([] & H%at_least_ok & _). Qed.
Lemma positive_methods : 1 ≤ required_methods (ac_risk c) policy.
Proof using valid_policy.
  unfold validate, AssurancePolicy_model in valid_policy. apply bind_ok in valid_policy as ([] & _ & Hv).
  apply bind_ok in Hv as ([] & H1%between_ok & Hv). apply bind_ok in Hv as ([] & H2%between_ok & _). destruct (ac_risk c); cbn; lia.
Qed.
Lemma evidence_state_pass record age ceiling : (evidence_state record age ceiling).1 = CR_PASS ↔
  obj_get "verification_status" record = Some (JStr "VERIFIED") ∧ obj_get "result" record = Some (JStr "PASS") ∧ age ≤ ceiling.
Proof.
  unfold evidence_state, has_text. repeat case_bool_decide; cbn [negb fst]; try (split; [done|intros (? & ? & ?); congruence]).
  destruct (Z.ltb_spec ceiling age); cbn [fst]; [split; [done|lia]|split_and!; done].
Qed.
Lemma assess_record_spec record : dated record →
  ∃ a, assess_record (ac_criterion_id c) now (py_default_evidence_max_age_seconds policy) record = Ok a ∧ assessed record a.
Proof using valid_policy.
  intros Hd. unfold assess_record, assessed, supports. destruct (about_criterion _ _) eqn:Ea; cbn [negb]; [|exists None; naive_solver].
  destruct (observed_text record) as [raw|] eqn:Eo; [|exists None; naive_solver].
  destruct (Hd raw Eo) as [observed Ht]. rewrite Ht. cbn [mbind result_bind].
  pose proof (evidence_state_pass record (evidence_age now observed) (py_default_evidence_max_age_seconds policy)) as Hs.
  destruct (evidence_state _ _ _) as [state reason]. cbn [fst] in Hs. eexists. split.
  - rewrite new_valid; [done|]. unfold validate, EvidenceAssessment_model. cbn [ea_age_seconds ea_max_age_seconds].
    pose proof positive_ceiling. apply bind_ok. exists (). split; apply at_least_ok; [unfold evidence_age; lia|done].
  - destruct (decide (state = CR_PASS)) as [->|Hn]; [left|right].
    + eexists. split; [done|]. destruct Hs as [Hs _]. destruct (Hs eq_refl) as (H1 & H2 & H3). split_and!; [done..|]. eauto.
    + split; [|by intros e [= <-]]. intros (_ & H1 & H2 & raw' & t & [= <-] & Ht' & H3). apply Hn, Hs. rewrite Ht in Ht'. by injection Ht' as <-.
Qed.
Lemma distinct_methods {A} `{EqDecision A} (l : list A) (n : Z) : n ≤ Z.of_nat (length (remove_dups l)) ↔
  ∃ distinct, NoDup distinct ∧ n ≤ Z.of_nat (length distinct) ∧ ∀ x, x ∈ distinct → x ∈ l.
Proof.
  split.
  - intros Hn. exists (remove_dups l). split_and!; [apply NoDup_remove_dups|done|]. intros x. by rewrite elem_of_remove_dups.
  - intros (distinct & Hd & Hn & Hin). assert (distinct ⊆+ remove_dups l) as Hs%submseteq_length; [|lia].
    apply NoDup_submseteq; [done|]. intros x Hx. apply elem_of_remove_dups. auto.
Qed.
Definition high_risk : Prop := ac_risk c = AR_HIGH ∨ ac_risk c = AR_CRITICAL.
Lemma sufficient_spec l review : (evidence_sufficient c l review policy).1 = true ↔
  required_methods (ac_risk c) policy ≤ Z.of_nat (length (remove_dups (ea_method <$> passing_assessments l)))
  ∧ (high_risk → py_require_independent_review_for_high_risk policy = true → clean_review review = true).
Proof using valid_policy.
  unfold evidence_sufficient, high_risk. cbv zeta. cbn [fst]. rewrite bool_decide_eq_true, !app_nil. pose proof positive_methods as Hp.
  destruct (Z.ltb_spec (Z.of_nat (length (remove_dups (ea_method <$> passing_assessments l)))) (required_methods (ac_risk c) policy)) as [Hlt|Hle].
  { split; [naive_solver|lia]. }
  destruct (bool_decide_reflect (length (passing_assessments l) = 0%nat)) as [Hz|_].
  { apply nil_length_inv in Hz. rewrite Hz in Hle. cbn in Hle. lia. }
  destruct (bool_decide_reflect (ac_risk c ∈ [AR_HIGH; AR_CRITICAL])) as [Hr|Hr]; rewrite !elem_of_cons, elem_of_nil in Hr;
    destruct (py_require_independent_review_for_high_risk policy), (clean_review review); cbn [negb andb]; naive_solver.
Qed.
Lemma passing_methods records assessments m : Forall2 assessed records assessments →
  m ∈ ea_method <$> passing_assessments (sorted_by ea_evidence_id (somes assessments)) ↔ ∃ record, record ∈ records ∧ supports record ∧ infer_method record = m.
Proof.
  intros Hf. rewrite list_elem_of_fmap. unfold passing_assessments. setoid_rewrite elem_of_List_filter. setoid_rewrite elem_of_sorted_by.
  setoid_rewrite elem_of_somes. setoid_rewrite bool_decide_eq_true. split.
  - intros (e & -> & He & Hp). apply list_elem_of_lookup in He as [i Hi]. destruct (Forall2_lookup_r _ _ _ _ _ Hf Hi) as (record & Hr & Ha).
    exists record. apply list_elem_of_lookup_2 in Hr. destruct Ha as [(e' & [= <-] & _ & Hm & Hs)|[_ Hn]]; [done|by apply Hn in Hp].
  - intros (record & Hr & Hs & <-). apply list_elem_of_lookup in Hr as [i Hi]. destruct (Forall2_lookup_l _ _ _ _ _ Hf Hi) as (a & Ha & Has).
    apply list_elem_of_lookup_2 in Ha. destruct Has as [(e & -> & Hp & Hm & _)|[Hn _]]; [|done]. by exists e.
Qed.
(** C18. Evidence suffices exactly when it should: if every row of the ledger
    that carries an instant carries a readable one, the rows are assessed,
    and the criterion is covered iff rows that are about it, verified, passing
    and fresh show as many different methods as its risk asks for, and, where
    the risk is high and the policy wants it, an independent reviewer left no
    blocking finding. *)
Theorem evidence_suffices_exactly records review : (∀ record, record ∈ records → dated record) →
  ∃ assessments, assess_evidence_for_criterion c records now policy = Ok assessments
    ∧ ((evidence_sufficient c assessments review policy).1 = true ↔
       (∃ methods, NoDup methods ∧ required_methods (ac_risk c) policy ≤ Z.of_nat (length methods)
          ∧ ∀ m, m ∈ methods → ∃ record, record ∈ records ∧ supports record ∧ infer_method record = m)
       ∧ (high_risk → py_require_independent_review_for_high_risk policy = true → clean_review review = true)).
Proof using valid_policy.
  intros Hd. destruct (traverse_total (assess_record (ac_criterion_id c) now (py_default_evidence_max_age_seconds policy)) assessed records)
    as (assessments & E & Hf); [auto using assess_record_spec|].
  unfold assess_evidence_for_criterion. rewrite E. eexists. split; [done|]. rewrite sufficient_spec, distinct_methods.
  by setoid_rewrite (passing_methods records assessments _ Hf).
Qed.
End evidence.

(** ** Scope *)
(** Work stays in the frozen scope when it asks for no behaviour beyond it and,
    where paths are listed, for no path that is not one of them or below one. *)
Definition in_scope (c : ScopeContract) (behavior paths : list string) : Prop :=
  (∀ x, x ∈ behavior → x ∈ sk_included_behavior c)
  ∧ (sk_allowed_paths c ≠ [] → ∀ path, path ∈ paths → ∃ p, p ∈ sk_allowed_paths c ∧ inside path p = true).
Lemma filter_nil {A} (p : A → bool) l : List.filter p l = [] ↔ ∀ x, x ∈ l → p x = false.
Proof.
  split.
  - intros E x Hx. apply not_true_iff_false. intros Hp. assert (x ∈ List.filter p l) as H by (by apply elem_of_List_filter). rewrite E in H.
    by apply elem_of_nil in H.
  - intros Hall. destruct (List.filter p l) as [|x k] eqn:E; [done|]. assert (x ∈ List.filter p l) as [Hx Hp]%elem_of_List_filter by (rewrite E; by left).
    by rewrite Hall in Hp.
Qed.
Lemma in_scope_spec c behavior paths : outside_paths c paths = [] ∧ new_behavior c behavior = [] ↔ in_scope c behavior paths.
Proof.
  unfold outside_paths, new_behavior, in_scope. rewrite !filter_nil. setoid_rewrite andb_false_iff. setoid_rewrite negb_false_iff.
  setoid_rewrite bool_decide_eq_true. setoid_rewrite str_in_spec. setoid_rewrite List.existsb_exists. setoid_rewrite <-list_elem_of_In.
  destruct (decide (sk_allowed_paths c = [])); naive_solver.
Qed.
Lemma scope_id_nonblank c : validate c = Ok () → str_truthy (str_strip (sk_scope_id c)) = true.
Proof.
  intros Hv. unfold validate, ScopeContract_model in Hv. do 3 apply bind_ok in Hv as ([] & _ & Hv). apply bind_ok in Hv as ([] & Hc & _).
  unfold carries_assurance_id in Hc. apply raise_if_ok, negb_false_iff in Hc.
  revert Hc. by apply prefixed_nonblank.
Qed.
Lemma scope_change_new i scope d behavior paths material remaining reasons :
  carries_assurance_id "SCHANGE-" i "invalid scope change id" = Ok () → 0 ≤ remaining →
  new (mkScopeChange i scope d behavior paths material remaining reasons) = Ok (mkScopeChange i scope d behavior paths material remaining reasons).
Proof. intros Hi Hr. apply new_valid. unfold validate, ScopeChangeDecision_model. apply bind_ok. exists (). split; [by apply at_least_ok|done]. Qed.
(** A frozen contract answers every request: WITHIN exactly when the work stays
    in scope, EXHAUSTED exactly when it does not and no change is left. *)
Lemma scope_change_decides c behavior paths : validate c = Ok () → str_truthy (str_strip (or_none (str_join "|" behavior))) = true →
  str_truthy (str_strip (or_none (str_join "|" paths))) = true →
  ∃ d, evaluate_scope_change c behavior paths = Ok d ∧ (sn_disposition d = SD_WITHIN_FROZEN_SCOPE ↔ in_scope c behavior paths)
    ∧ (sn_disposition d = SD_CHANGE_BUDGET_EXHAUSTED ↔ ¬ in_scope c behavior paths ∧ sk_change_budget c ≤ sk_consumed_changes c)
    ∧ (sn_material d = false ↔ in_scope c behavior paths).
Proof.
  intros Hv Hb Hp. setoid_rewrite <-(in_scope_spec c behavior paths). unfold evaluate_scope_change. cbv zeta.
  destruct (assurance_id_returns "SCHANGE" [sk_scope_id c; or_none (str_join "|" behavior); or_none (str_join "|" paths)] "invalid scope change id")
    as (i & Hi & Hid).
  { set_unfold; tauto. } { done. } { repeat constructor; [by apply scope_id_nonblank|done..]. }
  rewrite Hi. change ("SCHANGE" +:+ "-") with "SCHANGE-" in Hid.
  destruct (bool_decide_reflect (outside_paths c paths = [])) as [Ho|Ho], (bool_decide_reflect (new_behavior c behavior = [])) as [Hn|Hn];
    cbn [negb orb]; try destruct (Z.leb_spec (Z.max 0 (sk_change_budget c - sk_consumed_changes c)) 0); cbn [mbind result_bind];
    (eexists; split; [apply (scope_change_new _ _ _ _ _ _ _ _ Hid); lia|]);
    cbn [sn_disposition sn_material]; (split; [|split]); split; intros HH; try done;
    first [tauto|destruct HH; first [tauto|lia]|split; [tauto|lia]].
Qed.

(** ** The store *)
Lemma put_record_keeps table key project_id value rows rows' : put_record table key project_id value rows = Ok rows' →
  (∃ p, rows' !! (table, key) = Some (p, dumps value)) ∧ ∀ k row, rows !! k = Some row → rows' !! k = Some row.
Proof.
  unfold put_record. destruct (rows !! (table, key)) as [[p existing]|] eqn:E.
  - intros ([] & H%raise_if_ok%negb_false_iff%String.eqb_eq & [= <-])%bind_ok. subst. eauto.
  - intros [= <-]. split; [eexists; by rewrite lookup_insert, decide_True|]. intros k row Hk. rewrite lookup_insert_ne; [done|]. congruence.
Qed.

(** ** a task, a ledger and a project under assurance

    Runs that meet the hypotheses of the assurance theorems, and corners of the
    decisions. *)
Module Scenarios.
Ltac evaluated := match goal with |- _ = ?b => vm_cast_no_check (eq_refl b) end.

(** ** Attempts *)
Definition digit (c : string) : string := str_join "" (replicate 64 c).
Definition limits : AttemptBudget := mkAttemptBudget "PPTASK-1" 5 0 2 2 2 100.
Definition attempt (n : Z) (output : string) (failure : option string) (novelty : list string) (progress : Z) : AttemptObservation :=
  mkAttempt "PPTASK-1" n (digit "a") (digit "b") (digit output) (digit "d") failure novelty progress 10 1.
Definition tries : list AttemptObservation := [attempt 1 "1" None [] 1; attempt 2 "2" (Some "timeout") [] 1; attempt 3 "3" None ["INPUT"] 1].
Definition idle_tries : list AttemptObservation := [attempt 2 "2" None ["INPUT"] 0; attempt 1 "1" None [] 0].
Lemma tries_wellformed : wellformed_attempts tries.
Proof. repeat constructor; evaluated. Qed.
Lemma loop_guard_decides_witness : wellformed_attempts idle_tries
  ∧ ∃ d, evaluate_loop idle_tries limits = Ok d ∧ lg_disposition d = LD_STOP_AND_ESCALATE.
Proof.
  assert (wellformed_attempts idle_tries) as Hw by (repeat constructor; evaluated). split; [exact Hw|].
  destruct (loop_guard_decides idle_tries limits) as (d & E & Hd & _); [evaluated|exact Hw|evaluated|]. exists d. split; [exact E|].
  apply Hd. right. right. right. exists [], (relevant_observations idle_tries limits). split; [reflexivity|]. split; [evaluated|].
  apply Forall_forall. intros o [Ho _]%relevant_spec. revert o Ho. apply Forall_forall. repeat constructor; discriminate.
Defined.
Example idle_stop_even_without_failure : lg_reasons <$> evaluate_loop idle_tries limits
  = Ok ["same action/tool pattern repeated without measurable progress"; "consecutive cycles produced no objective progress delta"].
Proof. evaluated. Qed.
Lemma tries_guarded : guarded limits tries.
Proof.
  intros earlier o later E. unfold tries in E.
  destruct earlier as [|? [|? [|? earlier]]]; simplify_eq/=; [..|by destruct earlier].
  all: match goal with |- ∃ d, evaluate_loop ?l ?b = Ok d ∧ _ =>
    let r := eval vm_compute in (evaluate_loop l b) in match r with Ok ?d => exists d end end; (split; [evaluated|discriminate]).
Qed.
Lemma guarded_attempts_end_witness : guarded limits tries ∧ Z.of_nat (length tries) ≤ ab_max_attempts limits.
Proof.
  split; [exact tries_guarded|]. refine (proj1 (guarded_attempts_end limits tries _ tries_wellformed _ _ tries_guarded)); [evaluated|evaluated|].
  repeat constructor.
Defined.

(** ** Completion *)
Definition facts (journeys : bool) (gaps : Z) : CompletionGateFacts :=
  mkFacts "PRJ-1" true true true true journeys true true true true true true true true true true true gaps [5] [] [("15", ["2 gaps"])] (digit "c").
Lemma completion_gate_decides_witness : validate (facts false 0) = Ok ()
  ∧ ∃ g, evaluate_completion_gate (facts false 0) = Ok g ∧ cg_state g = GS_BLOCKED_EXTERNAL ∧ cg_final_complete g = false.
Proof.
  assert (validate (facts false 0) = Ok ()) as Hv by evaluated. split; [exact Hv|].
  destruct (completion_gate_decides (facts false 0) Hv) as (g & E & Hc & Hf & Hb & _); [evaluated|]. exists g. split; [exact E|].
  assert (¬ complete (facts false 0)) as Hn. { intros [_ (_ & H & _) _ _ _]. discriminate H. }
  split; [|destruct (cg_final_complete g); [by destruct Hn; apply Hf|reflexivity]]. apply Hb. split; [exact Hn|].
  intros q Hq. assert (failing_questions (facts false 0) = [(5, ("Does the integrated autonomous operating-loop journey pass every qualification stage?", FC_GOLDEN_JOURNEY), false)]) as El
    by evaluated.
  rewrite El in Hq. apply list_elem_of_singleton in Hq. subst q. by left.
Defined.
Example gaps_keep_it_open : (λ g, (cg_state g, cx_detail <$> cg_failures g)) <$> evaluate_completion_gate (facts true 2) = Ok (GS_NOT_COMPLETE, ["2 gaps"]).
Proof. evaluated. Qed.

(** ** Evidence *)
Definition midday : Z := 1700000000000000.
Definition criterion (risk : AssuranceRisk) : AcceptanceCriterion :=
  mkCriterion "CRIT-1" "PPTASK-1" "the lease is released" [] risk [VM_UNIT] None None [] true (digit "e").
Definition row (id claim outcome : string) : list (string * json) :=
  [("evidence_id", JStr id); ("claim", JStr claim); ("criterion_ids", JList [JStr "CRIT-1"]); ("verification_status", JStr "VERIFIED");
   ("result", JStr outcome); ("observed_at_utc", JStr (isoformat midday))].
Definition rows : list (list (string * json)) := [row "EVID-1" "pytest run" "PASS"; row "EVID-2" "security scan" "PASS"; row "EVID-3" "fault run" "FAIL"].
Lemma rows_dated record : record ∈ rows → dated record.
Proof.
  intros Hr raw Hraw. exists midday. assert (raw = isoformat midday) as ->.
  { revert record Hr Hraw. assert (Forall (λ record, observed_text record = Some (isoformat midday)) rows) as Hf by (repeat constructor; evaluated).
    rewrite Forall_forall in Hf. intros record Hr Hraw. apply Hf in Hr. congruence. }
  evaluated.
Qed.
Lemma row_supports id claim : supports (criterion AR_MEDIUM) midday default_assurance_policy (row id claim "PASS").
Proof.
  split; [reflexivity|]. split; [reflexivity|]. split; [reflexivity|]. exists (isoformat midday), midday. split; [reflexivity|].
  split; [evaluated|discriminate].
Qed.
Lemma evidence_suffices_exactly_witness : ∃ assessments, assess_evidence_for_criterion (criterion AR_MEDIUM) rows midday default_assurance_policy = Ok assessments
  ∧ (evidence_sufficient (criterion AR_MEDIUM) assessments None default_assurance_policy).1 = true.
Proof.
  destruct (evidence_suffices_exactly (criterion AR_MEDIUM) midday default_assurance_policy ltac:(evaluated) rows None rows_dated) as (assessments & E & Hs).
  exists assessments. split; [exact E|]. apply Hs. split.
  - exists [VM_UNIT]. split; [repeat constructor; apply not_elem_of_nil|]. split; [discriminate|]. intros m ->%list_elem_of_singleton.
    exists (row "EVID-1" "pytest run" "PASS"). split; [by left|]. split; [apply row_supports|evaluated].
  - intros [H|H]; discriminate H.
Defined.
Example critical_needs_more : evidence_sufficient (criterion AR_CRITICAL)
    (match assess_evidence_for_criterion (criterion AR_CRITICAL) rows midday default_assurance_policy with Ok l => l | Raise _ => [] end) None default_assurance_policy
  = (false, ["criterion requires 3 materially distinct evidence methods; observed 2"; "high-risk criterion lacks a clean independent review"]).
Proof. evaluated. Qed.

(** ** Scope *)
Definition frozen : ScopeContract := mkScopeContract "SCOPE-0123456789ABCDEF0123" "PPTASK-1" ["release the lease"] [] ["src"] ["security"] (digit "f") 1 0.
(** The comparison of paths is by text. *)
Example scope_is_lexical : sn_disposition <$> evaluate_scope_change frozen [] ["src/../secrets"] = Ok SD_WITHIN_FROZEN_SCOPE
  ∧ sn_disposition <$> evaluate_scope_change frozen [] ["srcs/main.py"] = Ok SD_REQUIRE_REVIEW.
Proof. split; evaluated. Qed.
End Scenarios.
